(* ===== verification/_CoqProject ===== *)
-Q . S2P
Prelude.v
Go.v
GoFmt.v
Objects.v
DeepCopy.v
DeepEqual.v
SemanticEqual.v
Api.v
Util.v
Args.v
Resources.v
Controller.v
Kinds.v
Registry.v
Regexp.v
Validation.v
Server.v
Operands.v
Validity.v
FloatText.v
Convergence.v
Protocol.v
Liveness.v
Startup.v
Safety.v
WellFormed.v
Watches.v
System.v
Healing.v
Settling.v
Schedule.v
Resync.v
ResourceMerge.v
Status.v
Reporting.v
Polling.v
OperatorConfig.v
Metrics.v
Main.v
CommandLine.v
Installation.v
Version.v
Helpers.v
