(* ===== verification/Prelude.v ===== *)
(** * The vertical-pod-autoscaler-operator, verified

    The operator installs the Vertical Pod Autoscaler of Kubernetes: for one
    custom resource (VerticalPodAutoscalerController) it keeps three deployments
    (recommender, updater, admission controller), the webhook's service, a config
    map for its CA and five network policies as the custom resource and the
    cluster's TLS profile ask; it reports its state in a ClusterOperator, serves
    metrics, and restarts when the cluster's TLS profile changes.  This library
    models that program in Rocq and proves what makes it correct.

    ** The parts and how they interact

    - cmd/main.go reads flags, environment and the cluster's APIServer object,
      then starts the manager with the reconciler, the
      metrics server and the TLS profile watcher: CommandLine.v (the flags), Main.v,
      Metrics.v (the metrics server's TLS settings), OperatorConfig.v
      (internal/operator/config.go and infrastructure.go).  Before [main],
      internal/version parses the version that the build injected (Version.v), and
      [init] fills the scheme that tells the client the kinds of Go types
      (Registry.v, with the tables of kinds in Kinds.v; api/v1/groupversion_info.go).
    - internal/controller/verticalpodautoscaler/ holds the reconciler.  Resources.v
      has its pure half, the objects it asks for; Args.v the command lines of
      recommender.go, updater.go and admission_plugin.go; Controller.v its
      effectful half ([Reconcile] and all it calls, [ensureVPAController]);
      Watches.v [SetupWithManager] and the event handlers that turn changes of
      objects into requests.
    - internal/operator/status.go, the status reporter, is Status.v; it merges
      ClusterOperator objects with internal/lib/resourcemerge, which is
      ResourceMerge.v.  main does not start a reporter: it is modelled by itself.
    - Installation.v puts the parts together: flags and environment, [init] and
      [main], [SetupWithManager] with its goroutine, and the loop.
    - internal/util is Util.v (with the vendored TLS profile tables) and, for the
      condition helpers, Status.v.
    - api/v1 and the Kubernetes and OpenShift types are Objects.v; the generated
      zz_generated.deepcopy.go is DeepCopy.v.
    - The reconciler compares objects by apimachinery's semantic deep equality:
      Go.v has it as a class of structural equalities, DeepEqual.v and
      SemanticEqual.v as the walk over reflected values that it is.
    - Apimachinery's checks of names, labels, selectors, annotations and owners are
      Validation.v, with the regular expressions of Regexp.v.
    - test/helpers, the builders of fixtures for the tests, is Helpers.v.

    The functions keep their Go names.  Go values that the code distinguishes stay
    distinct: nil and empty maps and slices where deep equality sees them (Go.v),
    machine integers as Z with their wrap-around, [float64] as an IEEE binary64
    [spec_float], quantities, times.  GoFmt.v has [fmt], [strconv] and [strings]
    as far as they are used.

    ** Programs, servers, executions

    A function that talks to the API server, the event recorder or the clock is a
    [prog] (Api.v), a tree of calls.  There are three ways to look at one:
    - [exec] and [wp]: every sequence of answers.  Nothing is assumed of the
      server, so failures, stale caches and other clients are covered.
    - [run] on a [Cluster] with its [ClusterLaws] (Server.v), the interface that
      states the documented behaviour of the API for a client whose calls
      succeed.  Theorems about convergence are proved against it.
    - [run] on [fake], an executable server with defaulting, optimistic
      concurrency, a clock, events and injected failures; it is an instance of
      the interface, and the witnesses compute on it.
    Liveness.v puts a network between a program and any such cluster, on which calls
    are dropped or lose their answers.  System.v adds the closed loop as a step
    relation: other clients, informers with caches that lag behind, the work queue
    and a worker that reads from the caches, interleaved call by call.  The caches
    serve what WATCH_NAMESPACE lets them ([serves]); with which errors other reads
    fail is a parameter ([ManagerCache]).  The theorems about the loop are about an
    operator whose namespace the cache serves ([in_scope]).

    ** What the theorems show

    - Reconciliation: one run on a quiet cluster establishes the desired state and
      a second one writes nothing (Convergence.v); retries converge after any
      finite number of failures, before or after calls take effect (Liveness.v); every execution follows a protocol
      of one session per object, reports each write by an event, stays within its
      ten slots, and stops at the first error (Protocol.v).  The loop of informers,
      queue and worker has healed the operands whenever it is at rest (Healing.v),
      and comes to rest once the other clients stop (Settling.v; Schedule.v runs an
      example); the network policies, which it does not watch, it never heals by itself.
      An informer that lost its
      watch may miss changes for good; whenever the loop is at rest after a resync it
      has healed nevertheless (Resync.v).  Owners, namespaces and the TLS profile:
      Safety.v.
    - The desired state: the pod specs refine a specification, overrides are
      confined, selectors, services, certificates and flags fit together, the
      network policies admit exactly the intended traffic, and a server that keeps
      complete pod specs and stores whole milli-units does not make the reconciler
      loop, unless an override is finer than that (Operands.v).  The objects are well
      formed exactly when the configuration, the node selectors and the custom
      resource's name, of at most 63 characters, are (Validity.v).  Numbers on the
      command lines read back as what they were (Operands.v for integers,
      FloatText.v for floats).
    - The whole: from arguments and environment to the operands.  The goroutine
      that ensures the custom resource runs beside the loop, both read from caches
      that lag, other clients interfere; once these stop, everything comes to an end,
      and at the end the custom resource is there and the operands are as they should
      be, if WATCH_NAMESPACE is empty or the operands' namespace; if it is another,
      nothing is ever written (Installation.v).  What is created on the way passes
      apimachinery's checks, if the settings and the custom resource are admissible
      (WellFormed.v, about programs, from Validity.v, about objects).  The laws of a
      healthy server in Server.v, by which a creation of something that is not there
      succeeds, are to be read so: of objects that the server does not refuse.
    - Start-up: any number of instances racing to create the default custom
      resource agree, whatever the interleaving (Startup.v); main gives every part
      its configuration or exits early, and restarts exactly when needed (Main.v);
      below TLS 1.3 both TLS servers get the same cipher suites, from profiles of
      OpenSSL names (Metrics.v); the environment round-trips (OperatorConfig.v).
      Arguments mean what a table of the operator's flags says, or the operator exits
      (CommandLine.v); the scheme is built without a panic and
      knows every type that is used (Registry.v); which injected versions parse, and
      which commits' builds do not start (Version.v).
    - Status: merging is idempotent and tells whether it changed anything
      (ResourceMerge.v); transition times are right and quiet states are not
      written again (Reporting.v); each report says what was found, and the
      polling loop ends as it should (Polling.v).
    - Memory: a deep copy of the custom resource, or of any part of it, is equal
      to the original and shares nothing with it (DeepCopy.v); the short cuts of
      semantic equality, by addresses, pointers and pairs already visited, never
      change its outcome (SemanticEqual.v).

    ** Fuel and bounds

    - [%v] of a float (GoFmt.v): the decimal point is searched with fuel 128 from
      an estimate that is proved to be close enough for every binary64 exponent,
      and 17 digits are proved to be enough for every float.
    - [drive] (Schedule.v) has fuel, but only produces an example: the theorems
      about the loop are about the step relation.
    - The walk of equality, regular expressions and the command line are recursive on
      what they read, so they need no fuel.
    - Programs are finite trees, so [run], [trace] and [wp] need no fuel; the
      polling loop is given the list of its waits.

    ** Not modelled

    - What the API server does beside the laws of Server.v: its validation of pods,
      deployments, services and policies, and its defaulting, of which Operands.v
      takes two documented facts as hypotheses.  The executable server has some
      defaulting of its own, for examples only.
    - Log messages, contexts and deadlines (other than as calls that fail).
    - The manager, caches, servers and certificate watchers of controller-runtime
      beyond the options they are given and whether creating them fails; rate
      limits and priorities of the work queue; usage texts.
    - In System.v informers replay every change of an object, in order; only
      Resync.v lets them skip some.
    - Conversions, defaulting and version priorities of the scheme, which the
      operator does not use; in equality, the panic on unexported fields.
    - Strings are bytes; where code looks at letters (names, flags, versions) they
      are taken to be ASCII.
    - The two injectors of validator.go, which nothing calls, and cmd/testutil, which
      is I/O around a YAML library.
    - Memory, except in DeepCopy.v and DeepEqual.v: everywhere else values are
      immutable, and a copy is the value itself.
    - Fields of Kubernetes objects the operator never mentions are one opaque
      field that updates keep and equality compares (Objects.v). *)

From Stdlib Require Export ZArith Lia.
From stdpp Require Export base tactics numbers option list fin_maps gmap strings.
Open Scope Z_scope.

Declare Scope vpa_scope.
Delimit Scope vpa_scope with vpa.
Open Scope vpa_scope.

Create HintDb vpa.

(** ** Boolean reflection *)

(** Turn the boolean connectives of the code into propositions. *)
Ltac reflect_bools :=
  repeat match goal with
  | H : (_ && _) = true |- _ => apply andb_true_iff in H as [? ?]
  | H : (_ || _) = true |- _ => apply orb_true_iff in H
  | H : negb _ = true |- _ => apply negb_true_iff in H
  | H : negb _ = false |- _ => apply negb_false_iff in H
  | H : bool_decide _ = true |- _ => apply bool_decide_eq_true in H
  | H : bool_decide _ = false |- _ => apply bool_decide_eq_false in H
  | |- (_ && _) = true => apply andb_true_iff; split
  | |- bool_decide _ = true => apply bool_decide_eq_true
  end.

(** Split every [match] of the goal, keeping the equations. *)
Ltac split_matches := repeat (case_match; simplify_eq/=).
