(* ===== verification/Go.v ===== *)
(** * Go values

    The Go data the operator's sources use, as Rocq data: nil-able maps and
    slices, machine integers, times and quantities, and the two deep equalities
    the code calls.  [sem_eqb] is [equality.Semantic.DeepEqual] of
    k8s.io/apimachinery: reflection on the Go type becomes resolution of a
    [Semantic] instance on the Rocq type; SemanticEqual.v shows that it computes
    what the reflection computes. *)

From S2P Require Import Prelude.

(** ** Maps and slices *)

(** A Go [map[string]V]: the nil map is not the empty map. *)
Inductive gomap (V : Type) : Type :=
| nilmap
| mkmap (m : gmap string V).
Arguments nilmap {V}.
Arguments mkmap {V} m.

(** A Go slice, where the code tells a nil slice from an empty one. *)
Inductive goslice (A : Type) : Type :=
| nilslice
| mkslice (l : list A).
Arguments nilslice {A}.
Arguments mkslice {A} l.

#[export] Instance gomap_eq_dec V `{EqDecision V} : EqDecision (gomap V).
Proof. solve_decision. Defined.
#[export] Instance goslice_eq_dec A `{EqDecision A} : EqDecision (goslice A).
Proof. solve_decision. Defined.

(** The entries of a map: reading a nil map reads an empty one. *)
Definition gm_map {V} (m : gomap V) : gmap string V :=
  match m with nilmap => ∅ | mkmap m => m end.
Definition gm_lookup {V} (k : string) (m : gomap V) : option V := gm_map m !! k.
Definition gm_len {V} (m : gomap V) : nat := size (gm_map m).
Definition gm_isnil {V} (m : gomap V) : bool :=
  match m with nilmap => true | mkmap _ => false end.
(** [m[k] = v]: a write to a nil map panics. *)
Definition gm_store {V} (k : string) (v : V) (m : gomap V) : option (gomap V) :=
  match m with nilmap => None | mkmap m => Some (mkmap (<[k:=v]> m)) end.
(** A map literal. *)
Definition gm_of {V} (l : list (string * V)) : gomap V := mkmap (list_to_map l).

Definition gs_list {A} (s : goslice A) : list A :=
  match s with nilslice => [] | mkslice l => l end.
Definition gs_isnil {A} (s : goslice A) : bool :=
  match s with nilslice => true | mkslice _ => false end.

(** ** Machine integers *)

(** Conversion of an integer to [w] bits, two's complement. *)
Definition wrap (w : Z) (z : Z) : Z := (z + 2 ^ (w - 1)) mod 2 ^ w - 2 ^ (w - 1).
Definition in_range (w : Z) (z : Z) : Prop := - 2 ^ (w - 1) <= z < 2 ^ (w - 1).
Abbreviation int32 := (wrap 32) (only parsing).
Abbreviation int64 := (wrap 64) (only parsing).

Lemma wrap_range w z : 0 < w -> in_range w (wrap w z).
Proof.
  intros Hw. unfold in_range, wrap.
  assert (H2 : 2 ^ w = 2 * 2 ^ (w - 1)).
  { rewrite <- Z.pow_succ_r by lia. f_equal. lia. }
  pose proof (Z.mod_pos_bound (z + 2 ^ (w - 1)) (2 ^ w) ltac:(apply Z.pow_pos_nonneg; lia)).
  lia.
Qed.

Lemma wrap_id w z : 0 < w -> in_range w z -> wrap w z = z.
Proof.
  intros Hw Hz. unfold in_range, wrap in *.
  assert (H2 : 2 ^ w = 2 * 2 ^ (w - 1)).
  { rewrite <- Z.pow_succ_r by lia. f_equal. lia. }
  rewrite Z.mod_small by lia. lia.
Qed.

(** ** [equality.Semantic.DeepEqual] *)

Class Semantic (A : Type) := sem_eqb : A -> A -> bool.
#[export] Hint Mode Semantic ! : typeclass_instances.

(** The relation the code tests. *)
Definition sem_eq {A} `{Semantic A} (x y : A) : Prop := sem_eqb x y = true.
Infix "≃" := sem_eq (at level 70, no associativity) : vpa_scope.

Class SemanticLaws (A : Type) `{Semantic A} :=
  sem_equivalence :: Equivalence (sem_eq (A:=A)).

(** The default case of the reflection: comparison with [==]. *)
Definition sem_atom {A} `{EqDecision A} : Semantic A := fun x y => bool_decide (x = y).
Lemma sem_atom_laws A `{EqDecision A} : @SemanticLaws A sem_atom.
Proof.
  split; unfold sem_eq, sem_eqb, sem_atom; repeat intro;
    rewrite ?bool_decide_eq_true in *; congruence.
Qed.

#[export] Instance sem_string : Semantic string := sem_atom.
#[export] Instance sem_bool : Semantic bool := sem_atom.
#[export] Instance sem_Z : Semantic Z := sem_atom.
#[export] Instance sem_unit : Semantic unit := sem_atom.
#[export] Instance sem_string_laws : SemanticLaws string := sem_atom_laws _.
#[export] Instance sem_bool_laws : SemanticLaws bool := sem_atom_laws _.
#[export] Instance sem_Z_laws : SemanticLaws Z := sem_atom_laws _.
#[export] Instance sem_unit_laws : SemanticLaws unit := sem_atom_laws _.

(** The [reflect.Ptr] case: two nil pointers, or two pointers to equal values. *)
#[export] Instance sem_ptr A `{Semantic A} : Semantic (option A) := fun p1 p2 =>
  match p1, p2 with
  | None, None => true
  | Some x, Some y => sem_eqb x y
  | _, _ => false
  end.

(** The [reflect.Struct] case, field by field. *)
#[export] Instance sem_struct A B `{Semantic A, Semantic B} : Semantic (A * B) :=
  fun s1 s2 => sem_eqb s1.1 s2.1 && sem_eqb s1.2 s2.2.

(** The loop of the [reflect.Slice] case. *)
Fixpoint elems_eqb {A} `{Semantic A} (l1 l2 : list A) : bool :=
  match l1, l2 with
  | x :: l1, y :: l2 => sem_eqb x y && elems_eqb l1 l2
  | _, _ => true
  end.
(** The [reflect.Slice] case with [equateNilAndEmpty]. *)
#[export] Instance sem_slice A `{Semantic A} : Semantic (list A) := fun l1 l2 =>
  if negb (Bool.eqb (length l1 =? 0)%nat (length l2 =? 0)%nat) then false
  else if (length l1 =? 0)%nat then true
  else if negb (length l1 =? length l2)%nat then false
  else elems_eqb l1 l2.
#[export] Instance sem_goslice A `{Semantic A} : Semantic (goslice A) :=
  fun s1 s2 => sem_eqb (gs_list s1) (gs_list s2).

(** The [reflect.Map] case with [equateNilAndEmpty]. *)
#[export] Instance sem_map V `{Semantic V} : Semantic (gomap V) := fun m1 m2 =>
  if negb (Bool.eqb (gm_len m1 =? 0)%nat (gm_len m2 =? 0)%nat) then false
  else if (gm_len m1 =? 0)%nat then true
  else if negb (gm_len m1 =? gm_len m2)%nat then false
  else forallb (fun kv => match gm_lookup kv.1 m2 with
                          | Some v2 => sem_eqb kv.2 v2
                          | None => false
                          end) (map_to_list (gm_map m1)).

(** A struct compared through the tuple of its fields. *)
Definition sem_via {A B} `{Semantic B} (f : A -> B) : Semantic A :=
  fun x y => sem_eqb (f x) (f y).

(** *** Laws *)

Lemma elems_eqb_Forall2 {A} `{Semantic A} (l1 l2 : list A) :
  length l1 = length l2 -> elems_eqb l1 l2 = true <-> Forall2 sem_eq l1 l2.
Proof.
  revert l2; induction l1 as [|x l1 IH]; intros [|y l2] Hlen; simplify_eq/=.
  - split; [constructor | done].
  - rewrite andb_true_iff, Forall2_cons, (IH l2) by done. done.
Qed.

(** Slices are equal when they have the same elements in the same order. *)
Lemma sem_slice_Forall2 {A} `{Semantic A} (l1 l2 : list A) :
  l1 ≃ l2 <-> Forall2 sem_eq l1 l2.
Proof.
  unfold sem_eq at 1, sem_eqb, sem_slice.
  destruct (decide (length l1 = length l2)) as [Hl|Hl].
  - rewrite <- elems_eqb_Forall2 by done. rewrite Hl, Nat.eqb_refl, eqb_reflx. simpl.
    destruct l1, l2; simplify_eq/=; done.
  - split; [| intros ?%Forall2_length; done].
    rewrite (proj2 (Nat.eqb_neq _ _) Hl).
    destruct (Nat.eqb_spec (length l1) 0), (Nat.eqb_spec (length l2) 0); simpl; congruence.
Qed.

(** Maps are equal when every key is unbound in both or bound to equal values. *)
Definition map_pointwise {V} `{Semantic V} (m1 m2 : gmap string V) : Prop :=
  forall k, option_Forall2 sem_eq (m1 !! k) (m2 !! k).

Lemma map_pointwise_dom {V} `{Semantic V} (m1 m2 : gmap string V) :
  map_pointwise m1 m2 -> dom m1 = dom m2.
Proof.
  intros Hp. apply set_eq. intros k. rewrite !elem_of_dom.
  destruct (Hp k); split; intros [? ?]; simplify_eq; eauto.
Qed.

Lemma same_size_subseteq_dom {V} (m1 m2 : gmap string V) :
  size m1 = size m2 -> dom m1 ⊆ dom m2 -> dom m1 = dom m2.
Proof.
  rewrite <- !size_dom. intros Hs Hsub. apply set_eq; intros k; split; [set_solver|].
  intros Hk. destruct (decide (k ∈ dom m1)) as [|Hn]; [done|exfalso].
  assert (dom m1 ⊂ dom m2) as Hlt%subset_size by set_solver. lia.
Qed.

Lemma sem_map_entries {V} `{Semantic V} (m1 m2 : gomap V) :
  m1 ≃ m2 <->
  gm_len m1 = gm_len m2 /\
  map_Forall (fun k v => exists v2, gm_lookup k m2 = Some v2 /\ v ≃ v2) (gm_map m1).
Proof.
  unfold sem_eq at 1, sem_eqb, sem_map.
  set (test := fun kv : string * V => _).
  assert (Ht : forallb test (map_to_list (gm_map m1)) = true <->
    map_Forall (fun k v => exists v2, gm_lookup k m2 = Some v2 /\ v ≃ v2) (gm_map m1)).
  { rewrite forallb_forall, map_Forall_to_list, Forall_forall. unfold test.
    setoid_rewrite list_elem_of_In. apply forall_proper; intros [k v]; simpl.
    destruct (gm_lookup k m2) as [v2|]; split; intros Hx Hi; specialize (Hx Hi).
    - by exists v2.
    - by destruct Hx as (? & [= <-] & ?).
    - done.
    - by destruct Hx as (? & ? & _). }
  rewrite <- Ht. unfold gm_len. destruct (decide (size (gm_map m1) = size (gm_map m2))) as [Hs|Hs].
  - rewrite Hs, eqb_reflx, Nat.eqb_refl; simpl. case_match eqn:Hz; [|by intuition].
    apply Nat.eqb_eq in Hz. split; [intros _|done]. split; [done|].
    apply Ht. rewrite <- Hs in Hz. apply map_size_empty_inv in Hz.
    rewrite Hz. apply map_Forall_empty.
  - split; [|by intros []]. rewrite (proj2 (Nat.eqb_neq _ _) Hs).
    destruct (Nat.eqb_spec (size (gm_map m1)) 0), (Nat.eqb_spec (size (gm_map m2)) 0);
      simpl; congruence.
Qed.

Lemma sem_map_pointwise {V} `{Semantic V} (m1 m2 : gomap V) :
  m1 ≃ m2 <-> map_pointwise (gm_map m1) (gm_map m2).
Proof.
  rewrite sem_map_entries. unfold gm_len, gm_lookup. split.
  - intros [Hs Hf] k.
    assert (Hd : dom (gm_map m1) = dom (gm_map m2)).
    { apply same_size_subseteq_dom; [done|]. intros k' [v Hv]%elem_of_dom.
      destruct (Hf _ _ Hv) as (v2 & ? & ?). apply elem_of_dom; eauto. }
    destruct (gm_map m1 !! k) as [v|] eqn:Hk.
    + destruct (Hf _ _ Hk) as (v2 & -> & ?). by constructor.
    + apply not_elem_of_dom in Hk. rewrite Hd in Hk.
      apply not_elem_of_dom in Hk. rewrite Hk. constructor.
  - intros Hp. split.
    + rewrite <- !size_dom, (map_pointwise_dom _ _ Hp). done.
    + intros k v Hk. specialize (Hp k). rewrite Hk in Hp. inversion Hp; subst. eauto.
Qed.

Lemma sem_via_laws {A B} `{SemanticLaws B} (f : A -> B) : @SemanticLaws A (sem_via f).
Proof.
  destruct (sem_equivalence (A:=B)) as [Hr Hs Ht].
  split; repeat intro; [apply Hr | by apply Hs | by eapply Ht].
Qed.

#[export] Instance sem_ptr_laws A `{SemanticLaws A} : SemanticLaws (option A).
Proof.
  destruct (sem_equivalence (A:=A)) as [Hr Hs Ht]. split.
  - intros [x|]; [apply Hr | done].
  - intros [x|] [y|]; [apply Hs | done..].
  - intros [x|] [y|] [z|]; [apply Ht | done..].
Qed.

Lemma sem_struct_fields {A B} `{Semantic A, Semantic B} (s1 s2 : A * B) :
  s1 ≃ s2 <-> s1.1 ≃ s2.1 /\ s1.2 ≃ s2.2.
Proof. apply andb_true_iff. Qed.

#[export] Instance sem_struct_laws A B `{SemanticLaws A, SemanticLaws B} :
  SemanticLaws (A * B).
Proof.
  split; repeat intro; rewrite sem_struct_fields in *.
  - split; reflexivity.
  - destruct_and!. by split; symmetry.
  - destruct_and!. split; etrans; eauto.
Qed.

#[export] Instance sem_slice_laws A `{SemanticLaws A} : SemanticLaws (list A).
Proof.
  split; repeat intro; rewrite sem_slice_Forall2 in *;
    [reflexivity | by symmetry | by etrans].
Qed.

#[export] Instance sem_goslice_laws A `{SemanticLaws A} : SemanticLaws (goslice A) :=
  sem_via_laws gs_list.

#[export] Instance sem_map_laws V `{SemanticLaws V} : SemanticLaws (gomap V).
Proof.
  split; repeat intro; rewrite sem_map_pointwise in *; intros k.
  - reflexivity.
  - symmetry. apply H1.
  - etrans; [apply H1 | apply H2].
Qed.

(** Reflexivity closes semantic goals of [auto]. *)
Lemma sem_refl {A} `{SemanticLaws A} (x : A) : x ≃ x.
Proof. reflexivity. Qed.
#[export] Hint Resolve sem_refl : vpa.

(** Rewriting with semantic equality inside the tests of the code. *)
#[export] Instance sem_eqb_proper A `{SemanticLaws A} :
  Proper (sem_eq ==> sem_eq ==> eq) (sem_eqb (A:=A)).
Proof.
  intros x x' Hx y y' Hy.
  destruct (sem_eqb x y) eqn:E1, (sem_eqb x' y') eqn:E2; try done.
  - change (x ≃ y) in E1. assert (x' ≃ y') by (rewrite <- Hx, <- Hy; done). congruence.
  - change (x' ≃ y') in E2. assert (x ≃ y) by (rewrite Hx, Hy; done). congruence.
Qed.

(** For a type without maps or nil-able slices the test is Leibniz equality. *)
Class SemanticExact (A : Type) `{Semantic A} :=
  sem_exact (x y : A) : x ≃ y -> x = y.
#[export] Instance sem_string_exact : SemanticExact string.
Proof. intros x y H%bool_decide_eq_true. done. Qed.
#[export] Instance sem_bool_exact : SemanticExact bool.
Proof. intros x y H%bool_decide_eq_true. done. Qed.
#[export] Instance sem_Z_exact : SemanticExact Z.
Proof. intros x y H%bool_decide_eq_true. done. Qed.
#[export] Instance sem_ptr_exact A `{SemanticExact A} : SemanticExact (option A).
Proof. intros [x|] [y|] H1; try done. f_equal. by apply sem_exact. Qed.
#[export] Instance sem_struct_exact A B `{SemanticExact A, SemanticExact B} :
  SemanticExact (A * B).
Proof. intros [] [] [? ?]%sem_struct_fields. f_equal; by apply sem_exact. Qed.
#[export] Instance sem_slice_exact A `{SemanticExact A} : SemanticExact (list A).
Proof.
  intros l1 l2 Hl%sem_slice_Forall2. induction Hl; f_equal; [by apply sem_exact | done].
Qed.

Lemma sem_via_exact {A B} `{SemanticExact B} (f : A -> B) :
  (forall x y, f x = f y -> x = y) -> @SemanticExact A (sem_via f).
Proof. intros Hf x y Hxy. by apply Hf, sem_exact. Qed.

(** A [map[string]V] is determined by its entries, up to nil and empty. *)
Lemma sem_map_exact {V} `{SemanticExact V} (m1 m2 : gomap V) :
  m1 ≃ m2 -> gm_map m1 = gm_map m2.
Proof.
  intros Hp%sem_map_pointwise. apply map_eq. intros k. specialize (Hp k).
  destruct Hp; f_equal; by apply sem_exact.
Qed.

(** ** Times and quantities *)

(** [metav1.Time], as nanoseconds since the zero time. *)
Abbreviation Time := Z (only parsing).
Definition zero_Time : Time := 0.
Definition Time_IsZero (t : Time) : bool := t =? zero_Time.

(** [resource.Quantity]: the value in nano-units and the format it prints in. *)
Inductive Format := DecimalSI | BinarySI | DecimalExponent.
Record Quantity := mkQuantity { q_value : Z; q_format : Format }.
#[export] Instance Format_eq_dec : EqDecision Format.
Proof. solve_decision. Defined.
#[export] Instance Quantity_eq_dec : EqDecision Quantity.
Proof. solve_decision. Defined.
(** Ignore formatting, only care that the numeric value stayed the same. *)
#[export] Instance sem_Quantity : Semantic Quantity := sem_via q_value.
#[export] Instance sem_Quantity_laws : SemanticLaws Quantity := sem_via_laws q_value.
