(* ===== verification/GoFmt.v ===== *)
(** * Go formatting

    What the operator uses of [fmt], [strconv] and [strings]: [%v] of the
    argument types it renders ([int], [int64], [float64], [string]),
    [strconv.Atoi], [strings.HasPrefix] and [strings.Join].  A [float64] is a
    [spec_float] of the Standard Library (binary64, no axioms); its [%v] is the
    shortest decimal that reads back as the same float. *)

From S2P Require Import Prelude Go.
From Stdlib Require Import DecimalString DecimalN DecimalFacts.
From Stdlib Require Export Ascii SpecFloat.

(** ** Strings *)

(** [strings.HasPrefix(s, prefix)]. *)
Definition HasPrefix (s prefix : string) : bool := String.prefix prefix s.

(** [strings.Join(elems, sep)]. *)
Fixpoint Join (elems : list string) (sep : string) : string :=
  match elems with
  | [] => ""
  | [x] => x
  | x :: rest => x +:+ sep +:+ Join rest sep
  end.

(** ** Integers *)

(** [strconv.Itoa], which is [%v] of an integer. *)
Definition Itoa (z : Z) : string :=
  let digits := NilZero.string_of_uint (N.to_uint (Z.abs_N z)) in
  if z <? 0 then "-" +:+ digits else digits.

(** One or more decimal digits. *)
Definition parse_digits (s : string) : option Z :=
  match NilZero.uint_of_string s with
  | Some d => Some (Z.of_N (N.of_uint d))
  | None => None
  end.

(** [strconv.Atoi]: an optional sign and decimal digits, in the range of a
    64-bit [int]; [None] is a syntax or a range error. *)
Definition Atoi (s : string) : option Z :=
  let signed (neg : bool) (rest : string) :=
    n ← parse_digits rest;
    let v := if neg then - n else n in
    if bool_decide (- 2 ^ 63 <= v < 2 ^ 63) then Some v else None in
  match s with
  | String "-"%char rest => signed true rest
  | String "+"%char rest => signed false rest
  | _ => signed false s
  end.

(** ** Floats *)

Abbreviation float64 := spec_float.

Section Shortest.
(** The finite positive float [m * 2 ^ e]. *)
Context (m : positive) (e : Z).

(** The value and the ends of its rounding interval, in units of [2 ^ (e - 2)]:
    the neighbour below is nearer when [m] is a power of two. *)
Definition fl_val : Z := 4 * Zpos m.
Definition fl_hi : Z := 4 * Zpos m + 2.
Definition fl_lo : Z :=
  if (Zpos m =? 2 ^ 52) && (-1074 <? e) then 4 * Zpos m - 1 else 4 * Zpos m - 2.
(** The ends round to an even significand. *)
Definition fl_inclusive : bool := Z.even (Zpos m).

(** [x * 10 ^ k] against [y * 2 ^ (e - 2)] is [x * scale10 k] against
    [y * scale2 k]. *)
Definition scale10 (k : Z) : Z := 10 ^ (Z.max k 0) * 2 ^ (Z.max (2 - e) 0).
Definition scale2 (k : Z) : Z := 2 ^ (Z.max (e - 2) 0) * 10 ^ (Z.max (- k) 0).

(** The decimal [x * 10 ^ k] rounds to the float. *)
Definition rounds_back (x k : Z) : bool :=
  let a := x * scale10 k in
  if fl_inclusive
  then (fl_lo * scale2 k <=? a) && (a <=? fl_hi * scale2 k)
  else (fl_lo * scale2 k <? a) && (a <? fl_hi * scale2 k).

(** The number of digits before the decimal point:
    [10 ^ (dp - 1) <= value < 10 ^ dp]. *)
Fixpoint find_dp (fuel : nat) (dp : Z) : Z :=
  match fuel with
  | O => dp
  | S fuel => if fl_val * scale2 dp <? scale10 dp then dp else find_dp fuel (dp + 1)
  end.
Definition decimal_point : Z :=
  let l := Z.log2 (Zpos m) + e in
  find_dp 128 (1 + (if 0 <=? l then l / 4 else l / 3)).

(** The decimals of [n] digits around the value, the nearer first. *)
Definition candidates (k : Z) : Z * Z :=
  let q := fl_val * scale2 k / scale10 k in
  if 2 * (fl_val * scale2 k) <=? (2 * q + 1) * scale10 k then (q, q + 1) else (q + 1, q).

(** The fewest digits, from [n] on, that read back; the nearer decimal first. *)
Fixpoint shortest_from (fuel : nat) (n dp : Z) : Z * Z :=
  let k := dp - n in
  let '(x, y) := candidates k in
  match fuel with
  | O => (x, k)
  | S fuel =>
      if rounds_back x k then (x, k)
      else if rounds_back y k then (y, k)
      else shortest_from fuel (n + 1) dp
  end.
(** [x * 10 ^ k] with at most 17 digits. *)
Definition shortest_decimal : Z * Z := shortest_from 16 1 decimal_point.
End Shortest.

(** The digits and the position of the decimal point, without trailing zeros. *)
Fixpoint strip_zeros (rev_digits : list Ascii.ascii) : list Ascii.ascii :=
  match rev_digits with
  | "0"%char :: rest => strip_zeros rest
  | _ => rev_digits
  end.
Definition decimal_digits (x k : Z) : list Ascii.ascii * Z :=
  let ds := String.list_ascii_of_string (Itoa x) in
  (rev (strip_zeros (rev ds)), k + Z.of_nat (length ds)).

Definition ascii_string (l : list Ascii.ascii) : string := String.string_of_list_ascii l.
Definition zeros (n : Z) : list Ascii.ascii := replicate (Z.to_nat n) "0"%char.

(** [%f] with just the digits there are. *)
Definition fmtF (d : list Ascii.ascii) (dp : Z) : string :=
  let nd := Z.of_nat (length d) in
  let int_part :=
    if 0 <? dp then take (Z.to_nat dp) d ++ zeros (dp - nd) else ["0"%char] in
  ascii_string (int_part ++
    (if dp <? nd then "."%char :: zeros (- dp) ++ drop (Z.to_nat dp) d else [])).

(** [%e]: one digit, the rest after the point, an exponent of two digits or more. *)
Definition fmtE (d : list Ascii.ascii) (dp : Z) : string :=
  let ex := dp - 1 in
  let frac := tail d in
  ascii_string (take 1 d ++ (match frac with [] => [] | _ => "."%char :: frac end)) +:+
  "e" +:+ (if ex <? 0 then "-" else "+") +:+
  (if Z.abs ex <? 10 then "0" else "") +:+ Itoa (Z.abs ex).

(** [%v] of a [float64]: [%g] with the shortest precision, which takes [%e] for
    a decimal exponent below -4 or from 6 on. *)
Definition fmt_float64 (f : float64) : string :=
  match f with
  | S754_nan => "NaN"
  | S754_infinity true => "-Inf"
  | S754_infinity false => "+Inf"
  | S754_zero s => if s then "-0" else "0"
  | S754_finite s m e =>
      let '(x, k) := shortest_decimal m e in
      let '(d, dp) := decimal_digits x k in
      (if s then "-" else "") +:+
      (if (dp - 1 <? -4) || (6 <=? dp - 1) then fmtE d dp else fmtF d dp)
  end.

(** ** Laws *)

Lemma parse_digits_of_uint d : d <> Decimal.Nil ->
  parse_digits (NilZero.string_of_uint d) = Some (Z.of_N (N.of_uint d)).
Proof. intros Hd. unfold parse_digits. by rewrite NilZero.usu. Qed.

Lemma N_to_uint_nonnil n : N.to_uint n <> Decimal.Nil.
Proof.
  rewrite <- (DecimalN.Unsigned.of_to n), DecimalN.Unsigned.to_of.
  apply unorm_nonnil.
Qed.

Lemma parse_digits_to_uint n :
  parse_digits (NilZero.string_of_uint (N.to_uint n)) = Some (Z.of_N n).
Proof.
  rewrite parse_digits_of_uint by apply N_to_uint_nonnil.
  by rewrite DecimalN.Unsigned.of_to.
Qed.

(** A digit string starts with a digit, not with a sign. *)
Lemma Atoi_unsigned n :
  Z.of_N n < 2 ^ 63 ->
  Atoi (NilZero.string_of_uint (N.to_uint n)) = Some (Z.of_N n).
Proof.
  intros Hn. pose proof (parse_digits_to_uint n) as Hp.
  pose proof (N_to_uint_nonnil n) as Hnil.
  unfold Atoi. destruct (N.to_uint n) eqn:Hu; try done; simpl in *;
    rewrite Hp; simpl; by rewrite bool_decide_true by lia.
Qed.

(** [strconv.Atoi] reads back what [%v] prints of an [int]. *)
Lemma Atoi_Itoa z : in_range 64 z -> Atoi (Itoa z) = Some z.
Proof.
  unfold in_range. change (2 ^ (64 - 1)) with (2 ^ 63). intros Hz. unfold Itoa.
  destruct (Z.ltb_spec z 0).
  - transitivity (n ← parse_digits (NilZero.string_of_uint (N.to_uint (Z.abs_N z)));
      if bool_decide (- 2 ^ 63 <= - n < 2 ^ 63) then Some (- n) else None); [done|].
    rewrite parse_digits_to_uint. cbn [mbind option_bind].
    rewrite bool_decide_true by lia. f_equal. lia.
  - rewrite Atoi_unsigned by lia. f_equal. lia.
Qed.

(** *** The shortest decimal *)

(** The scales of an exponent. *)
Section Scales.
Context (e : Z).

Lemma scale10_pos k : 0 < scale10 e k.
Proof. unfold scale10. apply Z.mul_pos_pos; apply Z.pow_pos_nonneg; lia. Qed.
Lemma scale2_pos k : 0 < scale2 e k.
Proof. unfold scale2. apply Z.mul_pos_pos; apply Z.pow_pos_nonneg; lia. Qed.

(** Moving the decimal exponent by [j] moves the ratio of the scales by [10 ^ j]. *)
Lemma scale_shift k j : 0 <= j ->
  scale10 e (k + j) * scale2 e k = 10 ^ j * scale10 e k * scale2 e (k + j).
Proof.
  intros Hj. unfold scale10, scale2.
  assert (Hexp : 10 ^ Z.max (k + j) 0 * 10 ^ Z.max (- k) 0 =
                 10 ^ j * (10 ^ Z.max k 0 * 10 ^ Z.max (- (k + j)) 0)).
  { rewrite <- !Z.pow_add_r by lia. f_equal. lia. }
  nia.
Qed.
End Scales.

Section ShortestLaws.
Context (m : positive) (e : Z).
(** A canonical binary64 significand; the smallest exponent holds subnormals. *)
Hypothesis Hm : Zpos m < 2 ^ 53.

(** The end points are at least a quarter of a unit away, on the scale of 4. *)
Lemma fl_bounds :
  fl_lo m e <= fl_val m - 1 /\ fl_val m + 2 <= fl_hi m /\
  (Zpos m <> 2 ^ 52 -> fl_lo m e = fl_val m - 2).
Proof.
  unfold fl_lo, fl_hi, fl_val.
  destruct (Z.eqb_spec (Zpos m) (2 ^ 52)), (Z.ltb_spec (-1074) e); simpl; lia.
Qed.

(** A decimal strictly within the interval reads back. *)
Lemma rounds_back_inside x k :
  fl_lo m e * scale2 e k < x * scale10 e k < fl_hi m * scale2 e k ->
  rounds_back m e x k = true.
Proof.
  intros [Hlo Hhi]. unfold rounds_back.
  destruct (fl_inclusive m); apply andb_true_iff; rewrite ?Z.leb_le, ?Z.ltb_lt; lia.
Qed.

(** The nearer candidate is within half a unit of the last digit. *)
Lemma candidates_near k x y : candidates m e k = (x, y) ->
  2 * Z.abs (x * scale10 e k - fl_val m * scale2 e k) <= scale10 e k /\
  (x = y + 1 \/ y = x + 1) /\
  Z.min x y * scale10 e k <= fl_val m * scale2 e k < Z.max x y * scale10 e k.
Proof.
  unfold candidates. pose proof (scale10_pos e k) as Hs.
  set (v := fl_val m * scale2 e k). set (s := scale10 e k) in *.
  pose proof (Z.mul_div_le v s Hs). pose proof (Z.mul_succ_div_gt v s Hs).
  set (q := v / s) in *.
  destruct (Z.leb_spec (2 * v) ((2 * q + 1) * s)); intros [= <- <-]; nia.
Qed.

(** With 17 digits the spacing of decimals is below that of floats. *)
Lemma seventeen_digits dp x y :
  scale10 e (dp - 1) <= fl_val m * scale2 e (dp - 1) ->
  candidates m e (dp - 17) = (x, y) -> rounds_back m e x (dp - 17) = true.
Proof.
  intros Hdp Hc. apply rounds_back_inside.
  destruct (candidates_near _ _ _ Hc) as [Hx _].
  pose proof (scale_shift e (dp - 17) 16 ltac:(lia)) as Hsh.
  replace (dp - 17 + 16) with (dp - 1) in Hsh by lia.
  pose proof (scale10_pos e (dp - 17)). pose proof (scale2_pos e (dp - 17)).
  pose proof (scale2_pos e (dp - 1)) as Hp. destruct fl_bounds as (Hlo & Hhi & Hne).
  set (s10 := scale10 e (dp - 17)) in *. set (s2 := scale2 e (dp - 17)) in *.
  assert (Hsmall : 10 ^ 16 * s10 <= fl_val m * s2).
  { apply (Zmult_le_reg_r _ _ (scale2 e (dp - 1))); [lia|]. rewrite <- Hsh. nia. }
  unfold fl_val in *. change (10 ^ 16) with 10000000000000000 in Hsmall.
  change (2 ^ 53) with 9007199254740992 in Hm. change (2 ^ 52) with 4503599627370496 in Hne.
  destruct (decide (Zpos m = 4503599627370496)) as [Hpow|Hpow].
  - rewrite Hpow in *. nia.
  - rewrite (Hne Hpow). nia.
Qed.

(** [2 ^ l <= 10 ^ d] and [10 ^ d <= 2 ^ l], with exponents of either sign. *)
Definition pow2_le_pow10 (l d : Z) : Prop :=
  2 ^ Z.max l 0 * 10 ^ Z.max (- d) 0 <= 10 ^ Z.max d 0 * 2 ^ Z.max (- l) 0.
Definition pow10_le_pow2 (d l : Z) : Prop :=
  10 ^ Z.max d 0 * 2 ^ Z.max (- l) 0 <= 2 ^ Z.max l 0 * 10 ^ Z.max (- d) 0.

Lemma pow10_le_pow2_intro d l :
  (0 <= d /\ 4 * d <= l \/ d <= 0 /\ l <= 0 /\ 3 * d <= l) -> pow10_le_pow2 d l.
Proof.
  unfold pow10_le_pow2. intros [[? ?]|(? & ? & ?)].
  - rewrite (Z.max_l d), (Z.max_l l), (Z.max_r (- l)), (Z.max_r (- d)) by lia.
    rewrite !Z.pow_0_r, !Z.mul_1_r.
    transitivity (2 ^ (4 * d)); [|apply Z.pow_le_mono_r; lia].
    rewrite Z.pow_mul_r by lia. apply Z.pow_le_mono_l. lia.
  - rewrite (Z.max_r d), (Z.max_r l), (Z.max_l (- l)), (Z.max_l (- d)) by lia.
    rewrite !Z.pow_0_r, !Z.mul_1_l.
    transitivity (2 ^ (3 * - d)); [apply Z.pow_le_mono_r; lia|].
    rewrite Z.pow_mul_r by lia. apply Z.pow_le_mono_l. lia.
Qed.

Lemma pow2_le_pow10_intro l d :
  (0 <= d /\ l <= 3 * d \/ d <= 0 /\ l <= 4 * d) -> pow2_le_pow10 l d.
Proof.
  unfold pow2_le_pow10. intros [[? ?]|(? & ?)].
  - rewrite (Z.max_l d), (Z.max_r (- d)), Z.pow_0_r, Z.mul_1_r by lia.
    transitivity (10 ^ d * 1).
    + rewrite Z.mul_1_r. transitivity (2 ^ (3 * d)); [apply Z.pow_le_mono_r; lia|].
      rewrite Z.pow_mul_r by lia. apply Z.pow_le_mono_l. lia.
    + apply Z.mul_le_mono_nonneg_l; [lia|]. pose proof (Z.pow_pos_nonneg 2 (Z.max (- l) 0)). lia.
  - rewrite (Z.max_r d), (Z.max_r l), (Z.max_l (- l)), (Z.max_l (- d)) by lia.
    rewrite !Z.pow_0_r, !Z.mul_1_l.
    transitivity (2 ^ (4 * - d)); [|apply Z.pow_le_mono_r; lia].
    rewrite Z.pow_mul_r by lia. apply Z.pow_le_mono_l. lia.
Qed.

Definition log2_val : Z := Z.log2 (Zpos m) + e.

(** The powers of two of the value and of the scales balance. *)
Lemma scale_balance L l : 0 <= L -> l <= L + e + 1 -> L + e <= l ->
  2 ^ Z.max (2 - e) 0 * 2 ^ Z.max l 0 =
  4 * 2 ^ (l - e) * (2 ^ Z.max (e - 2) 0 * 2 ^ Z.max (- l) 0).
Proof.
  intros. change 4 with (2 ^ 2). rewrite <- !Z.pow_add_r by lia. f_equal. lia.
Qed.

Lemma dp_low d : pow10_le_pow2 d log2_val -> scale10 e d <= fl_val m * scale2 e d.
Proof.
  unfold pow10_le_pow2, log2_val, scale10, scale2, fl_val.
  pose proof (Z.log2_nonneg (Zpos m)). pose proof (Z.log2_spec (Zpos m) ltac:(lia)) as [Hl _].
  set (L := Z.log2 (Zpos m)) in *. intros Hd.
  pose proof (scale_balance L (L + e) ltac:(lia) ltac:(lia) ltac:(lia)) as Hb.
  replace (L + e - e) with L in Hb by lia.
  assert (0 < 2 ^ Z.max (2 - e) 0) by (apply Z.pow_pos_nonneg; lia).
  assert (Hc : 0 < 2 ^ Z.max (- (L + e)) 0) by (apply Z.pow_pos_nonneg; lia).
  assert (0 < 2 ^ Z.max (e - 2) 0) by (apply Z.pow_pos_nonneg; lia).
  assert (0 < 10 ^ Z.max (- d) 0) by (apply Z.pow_pos_nonneg; lia).
  apply (Zmult_le_reg_r _ _ _ (Z.lt_gt _ _ Hc)).
  rewrite (Z.mul_comm (10 ^ _)), <- (Z.mul_assoc (2 ^ Z.max (2 - e) 0)).
  etransitivity; [apply Z.mul_le_mono_nonneg_l; [lia | exact Hd]|].
  rewrite Z.mul_assoc, Hb.
  rewrite <- !Z.mul_assoc. apply Z.mul_le_mono_nonneg_l; [lia|].
  rewrite (Z.mul_comm (10 ^ _) (2 ^ _)), !Z.mul_assoc.
  apply Z.mul_le_mono_nonneg_r; [lia|]. apply Z.mul_le_mono_nonneg_r; [lia|].
  apply Z.mul_le_mono_nonneg_r; lia.
Qed.

Lemma dp_high d : pow2_le_pow10 (log2_val + 1) d -> fl_val m * scale2 e d < scale10 e d.
Proof.
  unfold pow2_le_pow10, log2_val, scale10, scale2, fl_val.
  pose proof (Z.log2_nonneg (Zpos m)). pose proof (Z.log2_spec (Zpos m) ltac:(lia)) as [_ Hl].
  unfold Z.succ in Hl. set (L := Z.log2 (Zpos m)) in *. intros Hd.
  pose proof (scale_balance L (L + e + 1) ltac:(lia) ltac:(lia) ltac:(lia)) as Hb.
  replace (L + e + 1 - e) with (L + 1) in Hb by lia.
  assert (0 < 2 ^ Z.max (2 - e) 0) by (apply Z.pow_pos_nonneg; lia).
  assert (Hc : 0 < 2 ^ Z.max (- (L + e + 1)) 0) by (apply Z.pow_pos_nonneg; lia).
  assert (0 < 2 ^ Z.max (e - 2) 0) by (apply Z.pow_pos_nonneg; lia).
  assert (0 < 10 ^ Z.max (- d) 0) by (apply Z.pow_pos_nonneg; lia).
  apply (Zmult_lt_reg_r _ _ _ Hc).
  rewrite (Z.mul_comm (10 ^ _) (2 ^ Z.max (2 - e) 0)), <- (Z.mul_assoc (2 ^ Z.max (2 - e) 0)).
  eapply Z.lt_le_trans; [|apply Z.mul_le_mono_nonneg_l; [lia | exact Hd]].
  rewrite (Z.mul_assoc (2 ^ Z.max (2 - e) 0)), Hb.
  rewrite <- !Z.mul_assoc. apply Z.mul_lt_mono_pos_l; [lia|].
  rewrite (Z.mul_comm (10 ^ _) (2 ^ _)), !Z.mul_assoc.
  apply Z.mul_lt_mono_pos_r; [lia|]. apply Z.mul_lt_mono_pos_r; [lia|].
  apply Z.mul_lt_mono_pos_r; lia.
Qed.

(** [10 ^ (dp - 1) <= value < 10 ^ dp]. *)
Definition dp_correct (dp : Z) : Prop :=
  scale10 e (dp - 1) <= fl_val m * scale2 e (dp - 1) /\
  fl_val m * scale2 e dp < scale10 e dp.

Lemma find_dp_correct fuel dp :
  scale10 e (dp - 1) <= fl_val m * scale2 e (dp - 1) ->
  fl_val m * scale2 e (dp + Z.of_nat fuel) < scale10 e (dp + Z.of_nat fuel) ->
  dp_correct (find_dp m e fuel dp).
Proof.
  revert dp; induction fuel as [|fuel IH]; intros dp Hlow Hhigh; simpl.
  - rewrite Z.add_0_r in Hhigh. by split.
  - destruct (Z.ltb_spec (fl_val m * scale2 e dp) (scale10 e dp)); [by split|].
    apply IH.
    + by replace (dp + 1 - 1) with dp by lia.
    + by replace (dp + 1 + Z.of_nat fuel) with (dp + Z.of_nat (S fuel)) by lia.
Qed.

(** The exponents of binary64. *)
Hypothesis He : -1074 <= e <= 971.

Lemma decimal_point_correct : dp_correct (decimal_point m e).
Proof.
  unfold decimal_point. fold log2_val.
  assert (Hl : -1074 <= log2_val <= 1023).
  { unfold log2_val. pose proof (Z.log2_nonneg (Zpos m)).
    assert (Z.log2 (Zpos m) < 53) by (apply Z.log2_lt_pow2; lia). lia. }
  pose proof (Z.div_mod log2_val 4 ltac:(lia)). pose proof (Z.mod_pos_bound log2_val 4 ltac:(lia)).
  pose proof (Z.div_mod log2_val 3 ltac:(lia)). pose proof (Z.mod_pos_bound log2_val 3 ltac:(lia)).
  apply find_dp_correct.
  - apply dp_low, pow10_le_pow2_intro. destruct (Z.leb_spec 0 log2_val); lia.
  - apply dp_high, pow2_le_pow10_intro. destruct (Z.leb_spec 0 log2_val); lia.
Qed.

(** When any decimal with this exponent reads back, a candidate does. *)
Lemma candidates_complete k x y z :
  candidates m e k = (x, y) -> rounds_back m e z k = true ->
  rounds_back m e x k = true \/ rounds_back m e y k = true.
Proof.
  intros Hc Hz. destruct (candidates_near _ _ _ Hc) as (_ & Hxy & Hfl).
  pose proof (scale10_pos e k) as Hs. pose proof (scale2_pos e k) as Hs2.
  destruct fl_bounds as (Hlo & Hhi & _).
  assert (Hmin : rounds_back m e (Z.min x y) k = true \/ rounds_back m e (Z.max x y) k = true).
  { unfold rounds_back in *. destruct (decide (z <= Z.min x y)).
    - left. destruct (fl_inclusive m); rewrite !andb_true_iff, ?Z.leb_le, ?Z.ltb_lt in *; nia.
    - right. assert (Z.max x y <= z) by lia.
      destruct (fl_inclusive m); rewrite !andb_true_iff, ?Z.leb_le, ?Z.ltb_lt in *; nia. }
  destruct Hxy as [-> | ->]; rewrite ?Z.min_r, ?Z.max_l, ?Z.min_l, ?Z.max_r in Hmin by lia; tauto.
Qed.

Lemma shortest_from_correct fuel n dp x k :
  n + Z.of_nat fuel = 17 -> dp_correct dp -> shortest_from m e fuel n dp = (x, k) ->
  rounds_back m e x k = true /\ dp - 17 <= k <= dp - n /\
  forall k' z, k < k' <= dp - n -> rounds_back m e z k' = false.
Proof.
  revert n; induction fuel as [|fuel IH]; intros n Hn Hdp; simpl;
    destruct (candidates m e (dp - n)) as [x' y'] eqn:Hc.
  - intros [= <- <-]. assert (n = 17) as -> by lia.
    split; [eapply seventeen_digits; [apply Hdp | done]|]. split; lia.
  - destruct (rounds_back m e x' (dp - n)) eqn:Hx.
    { intros [= <- <-]. split; [done|]. split; lia. }
    destruct (rounds_back m e y' (dp - n)) eqn:Hy.
    { intros [= <- <-]. split; [done|]. split; lia. }
    intros Hs. destruct (IH (n + 1) ltac:(lia) Hdp Hs) as (Hr & Hk & Hmin).
    split; [done|]. split; [lia|]. intros k' z Hk'.
    destruct (decide (k' = dp - n)) as [->|]; [|apply Hmin; lia].
    destruct (rounds_back m e z (dp - n)) eqn:Hz; [|done].
    destruct (candidates_complete _ _ _ _ Hc Hz); congruence.
Qed.

(** The printed decimal reads back as the float, has at most 17 digits, and
    no decimal with fewer digits reads back. *)
Lemma shortest_decimal_correct x k :
  shortest_decimal m e = (x, k) ->
  rounds_back m e x k = true /\
  decimal_point m e - 17 <= k < decimal_point m e /\
  forall k' z, k < k' < decimal_point m e -> rounds_back m e z k' = false.
Proof.
  intros Hs. destruct (shortest_from_correct 16 1 _ x k eq_refl decimal_point_correct Hs)
    as (? & ? & Hmin).
  split; [done|]. split; [lia|]. intros. apply Hmin. lia.
Qed.
End ShortestLaws.

(** ** Prefixes *)

Lemma HasPrefix_spec s p : HasPrefix s p = true <-> exists r, s = p +:+ r.
Proof.
  unfold HasPrefix. revert s; induction p as [|c p IH]; intros s; simpl.
  - split; [by exists s | by destruct s].
  - destruct s as [|c' s]; simpl; [split; [done | by intros [? ?]]|].
    destruct (ascii_dec c c') as [->|Hc].
    + rewrite IH. split; intros [r Hr]; exists r; [by rewrite Hr | by injection Hr].
    + split; [done|]. by intros [r [=]].
Qed.

Lemma append_nil_r s : s +:+ "" = s.
Proof. induction s as [|c s IH]; [done | exact (f_equal (String c) IH)]. Qed.
Lemma append_assoc (s1 s2 s3 : string) : (s1 +:+ s2) +:+ s3 = s1 +:+ s2 +:+ s3.
Proof. induction s1 as [|c s IH]; [done | exact (f_equal (String c) IH)]. Qed.
