(* ===== verification/Objects.v ===== *)
(** * API objects

    The Kubernetes and OpenShift objects the operator reads and writes, field
    for field where the code (or the deep equality it calls) looks at a field.
    The fields of a struct the operator never mentions are kept in one field of
    type [Others]: each set field by its name, with its value in a canonical
    serialisation.  They survive updates and take part in deep equality. *)

From S2P Require Import Prelude Go GoFmt.

(** The set fields of a struct that the code does not mention. *)
Definition Others := gmap string string.
#[export] Instance sem_Others : Semantic Others := sem_atom (A:=gmap string string).
#[export] Instance sem_Others_laws : SemanticLaws Others := sem_atom_laws (gmap string string).
Definition no_others : Others := ∅.

(** A deep equality given by the tuple of the fields, with its laws. *)
Ltac semantic_by f := exact (sem_via f).
Ltac semantic_exact :=
  unshelve eapply sem_via_exact; [exact _ .. | intros [] []; simpl; congruence].
Ltac semantic_laws := unshelve eapply sem_via_laws; try exact _.

(** ** Names and metadata *)

(** [types.NamespacedName]. *)
Record NamespacedName := mkNN { nn_Namespace : string; nn_Name : string }.
#[export] Instance NamespacedName_eq_dec : EqDecision NamespacedName.
Proof. solve_decision. Defined.
#[export] Program Instance NamespacedName_countable : Countable NamespacedName :=
  inj_countable' (fun n => (nn_Namespace n, nn_Name n)) (fun p => mkNN p.1 p.2) _.
Next Obligation. by intros []. Qed.
(** [NamespacedName.String]. *)
Definition NamespacedName_String (n : NamespacedName) : string :=
  nn_Namespace n +:+ "/" +:+ nn_Name n.

Record TypeMeta := mkTypeMeta { tm_Kind : string; tm_APIVersion : string }.
#[export] Instance sem_TypeMeta : Semantic TypeMeta.
Proof. semantic_by (fun t => (tm_Kind t, tm_APIVersion t)). Defined.
#[export] Instance sem_TypeMeta_laws : SemanticLaws TypeMeta.
Proof. semantic_laws. Qed.

Record OwnerReference := mkOwnerReference {
  or_APIVersion : string;
  or_Kind : string;
  or_Name : string;
  or_UID : string;
  or_Controller : option bool;
  or_BlockOwnerDeletion : option bool
}.
#[export] Instance OwnerReference_eq_dec : EqDecision OwnerReference.
Proof. solve_decision. Defined.
#[export] Instance sem_OwnerReference : Semantic OwnerReference.
Proof.
  semantic_by (fun o => (or_APIVersion o, or_Kind o, or_Name o, or_UID o,
                         or_Controller o, or_BlockOwnerDeletion o)).
Defined.
#[export] Instance sem_OwnerReference_laws : SemanticLaws OwnerReference.
Proof. semantic_laws. Qed.
#[export] Instance sem_OwnerReference_exact : SemanticExact OwnerReference.
Proof. semantic_exact. Qed.

Record ObjectMeta := mkObjectMeta {
  om_Name : string;
  om_Namespace : string;
  om_UID : string;
  om_ResourceVersion : string;
  om_Generation : Z;
  om_Labels : gomap string;
  om_Annotations : gomap string;
  om_OwnerReferences : list OwnerReference;
  om_others : Others
}.
#[export] Instance sem_ObjectMeta : Semantic ObjectMeta.
Proof.
  semantic_by (fun m => (om_Name m, om_Namespace m, om_UID m, om_ResourceVersion m,
    om_Generation m, om_Labels m, om_Annotations m, om_OwnerReferences m, om_others m)).
Defined.
#[export] Instance sem_ObjectMeta_laws : SemanticLaws ObjectMeta.
Proof. semantic_laws. Qed.

(** [metav1.ObjectMeta{Name: name, Namespace: namespace}]. *)
Definition named_meta (name namespace : string) : ObjectMeta :=
  mkObjectMeta name namespace "" "" 0 nilmap nilmap [] no_others.
Definition SetAnnotations (a : gomap string) (m : ObjectMeta) : ObjectMeta :=
  mkObjectMeta (om_Name m) (om_Namespace m) (om_UID m) (om_ResourceVersion m)
    (om_Generation m) (om_Labels m) a (om_OwnerReferences m) (om_others m).
Definition SetOwnerReferences (l : list OwnerReference) (m : ObjectMeta) : ObjectMeta :=
  mkObjectMeta (om_Name m) (om_Namespace m) (om_UID m) (om_ResourceVersion m)
    (om_Generation m) (om_Labels m) (om_Annotations m) l (om_others m).
Definition SetResourceVersion (v : string) (m : ObjectMeta) : ObjectMeta :=
  mkObjectMeta (om_Name m) (om_Namespace m) (om_UID m) v
    (om_Generation m) (om_Labels m) (om_Annotations m) (om_OwnerReferences m) (om_others m).
Definition SetLabels (l : gomap string) (m : ObjectMeta) : ObjectMeta :=
  mkObjectMeta (om_Name m) (om_Namespace m) (om_UID m) (om_ResourceVersion m)
    (om_Generation m) l (om_Annotations m) (om_OwnerReferences m) (om_others m).
Definition meta_key (m : ObjectMeta) : NamespacedName := mkNN (om_Namespace m) (om_Name m).

Record LabelSelector := mkLabelSelector { ls_MatchLabels : gomap string; ls_others : Others }.
#[export] Instance sem_LabelSelector : Semantic LabelSelector.
Proof. semantic_by (fun l => (ls_MatchLabels l, ls_others l)). Defined.
#[export] Instance sem_LabelSelector_laws : SemanticLaws LabelSelector.
Proof. semantic_laws. Qed.
(** [metav1.LabelSelector{MatchLabels: labels}]. *)
Definition match_labels (labels : gomap string) : LabelSelector := mkLabelSelector labels no_others.

(** ** Pods *)

Record ResourceClaim := mkResourceClaim { rc_Name : string; rc_Request : string }.
#[export] Instance ResourceClaim_eq_dec : EqDecision ResourceClaim.
Proof. solve_decision. Defined.
#[export] Instance sem_ResourceClaim : Semantic ResourceClaim.
Proof. semantic_by (fun c => (rc_Name c, rc_Request c)). Defined.
#[export] Instance sem_ResourceClaim_laws : SemanticLaws ResourceClaim.
Proof. semantic_laws. Qed.

Record ResourceRequirements := mkResources {
  rr_Limits : gomap Quantity;
  rr_Requests : gomap Quantity;
  rr_Claims : goslice ResourceClaim
}.
(** [corev1.ResourceRequirements{}]. *)
Definition zero_ResourceRequirements : ResourceRequirements := mkResources nilmap nilmap nilslice.
(** Leibniz equality of resources is [reflect.DeepEqual] against the zero value. *)
#[export] Instance ResourceRequirements_eq_dec : EqDecision ResourceRequirements.
Proof. solve_decision. Defined.
#[export] Instance sem_ResourceRequirements : Semantic ResourceRequirements.
Proof. semantic_by (fun r => (rr_Limits r, rr_Requests r, rr_Claims r)). Defined.
#[export] Instance sem_ResourceRequirements_laws : SemanticLaws ResourceRequirements.
Proof. semantic_laws. Qed.

Record Toleration := mkToleration {
  tol_Key : string;
  tol_Operator : string;
  tol_Value : string;
  tol_Effect : string;
  tol_TolerationSeconds : option Z
}.
#[export] Instance Toleration_eq_dec : EqDecision Toleration.
Proof. solve_decision. Defined.
#[export] Instance sem_Toleration : Semantic Toleration.
Proof.
  semantic_by (fun t => (tol_Key t, tol_Operator t, tol_Value t, tol_Effect t,
                         tol_TolerationSeconds t)).
Defined.
#[export] Instance sem_Toleration_laws : SemanticLaws Toleration.
Proof. semantic_laws. Qed.

Record ObjectFieldSelector := mkFieldRef { fr_APIVersion : string; fr_FieldPath : string }.
#[export] Instance sem_ObjectFieldSelector : Semantic ObjectFieldSelector.
Proof. semantic_by (fun f => (fr_APIVersion f, fr_FieldPath f)). Defined.
#[export] Instance sem_ObjectFieldSelector_laws : SemanticLaws ObjectFieldSelector.
Proof. semantic_laws. Qed.

Record EnvVarSource := mkEnvVarSource {
  evs_FieldRef : option ObjectFieldSelector;
  evs_others : Others
}.
#[export] Instance sem_EnvVarSource : Semantic EnvVarSource.
Proof. semantic_by (fun s => (evs_FieldRef s, evs_others s)). Defined.
#[export] Instance sem_EnvVarSource_laws : SemanticLaws EnvVarSource.
Proof. semantic_laws. Qed.

Record EnvVar := mkEnvVar {
  env_Name : string;
  env_Value : string;
  env_ValueFrom : option EnvVarSource
}.
#[export] Instance sem_EnvVar : Semantic EnvVar.
Proof. semantic_by (fun v => (env_Name v, env_Value v, env_ValueFrom v)). Defined.
#[export] Instance sem_EnvVar_laws : SemanticLaws EnvVar.
Proof. semantic_laws. Qed.

Record Capabilities := mkCapabilities { cap_Add : list string; cap_Drop : list string }.
#[export] Instance sem_Capabilities : Semantic Capabilities.
Proof. semantic_by (fun c => (cap_Add c, cap_Drop c)). Defined.
#[export] Instance sem_Capabilities_laws : SemanticLaws Capabilities.
Proof. semantic_laws. Qed.

Record SeccompProfile := mkSeccompProfile {
  sp_Type : string;
  sp_LocalhostProfile : option string
}.
#[export] Instance sem_SeccompProfile : Semantic SeccompProfile.
Proof. semantic_by (fun s => (sp_Type s, sp_LocalhostProfile s)). Defined.
#[export] Instance sem_SeccompProfile_laws : SemanticLaws SeccompProfile.
Proof. semantic_laws. Qed.

Record SecurityContext := mkSecurityContext {
  sc_Capabilities : option Capabilities;
  sc_RunAsNonRoot : option bool;
  sc_AllowPrivilegeEscalation : option bool;
  sc_SeccompProfile : option SeccompProfile;
  sc_others : Others
}.
#[export] Instance sem_SecurityContext : Semantic SecurityContext.
Proof.
  semantic_by (fun s => (sc_Capabilities s, sc_RunAsNonRoot s, sc_AllowPrivilegeEscalation s,
                         sc_SeccompProfile s, sc_others s)).
Defined.
#[export] Instance sem_SecurityContext_laws : SemanticLaws SecurityContext.
Proof. semantic_laws. Qed.

Record ContainerPort := mkContainerPort {
  cp_Name : string;
  cp_HostPort : Z;
  cp_ContainerPort : Z;
  cp_Protocol : string;
  cp_HostIP : string
}.
#[export] Instance sem_ContainerPort : Semantic ContainerPort.
Proof.
  semantic_by (fun p => (cp_Name p, cp_HostPort p, cp_ContainerPort p, cp_Protocol p,
                         cp_HostIP p)).
Defined.
#[export] Instance sem_ContainerPort_laws : SemanticLaws ContainerPort.
Proof. semantic_laws. Qed.

Record VolumeMount := mkVolumeMount {
  vm_Name : string;
  vm_ReadOnly : bool;
  vm_MountPath : string;
  vm_others : Others
}.
#[export] Instance sem_VolumeMount : Semantic VolumeMount.
Proof. semantic_by (fun v => (vm_Name v, vm_ReadOnly v, vm_MountPath v, vm_others v)). Defined.
#[export] Instance sem_VolumeMount_laws : SemanticLaws VolumeMount.
Proof. semantic_laws. Qed.

Record SecretVolumeSource := mkSecretVolume {
  svs_SecretName : string;
  svs_DefaultMode : option Z;
  svs_others : Others
}.
#[export] Instance sem_SecretVolumeSource : Semantic SecretVolumeSource.
Proof. semantic_by (fun s => (svs_SecretName s, svs_DefaultMode s, svs_others s)). Defined.
#[export] Instance sem_SecretVolumeSource_laws : SemanticLaws SecretVolumeSource.
Proof. semantic_laws. Qed.

Record ConfigMapVolumeSource := mkConfigMapVolume {
  cvs_Name : string;
  cvs_DefaultMode : option Z;
  cvs_others : Others
}.
#[export] Instance sem_ConfigMapVolumeSource : Semantic ConfigMapVolumeSource.
Proof. semantic_by (fun s => (cvs_Name s, cvs_DefaultMode s, cvs_others s)). Defined.
#[export] Instance sem_ConfigMapVolumeSource_laws : SemanticLaws ConfigMapVolumeSource.
Proof. semantic_laws. Qed.

Record Volume := mkVolume {
  vol_Name : string;
  vol_Secret : option SecretVolumeSource;
  vol_ConfigMap : option ConfigMapVolumeSource;
  vol_others : Others
}.
#[export] Instance sem_Volume : Semantic Volume.
Proof. semantic_by (fun v => (vol_Name v, vol_Secret v, vol_ConfigMap v, vol_others v)). Defined.
#[export] Instance sem_Volume_laws : SemanticLaws Volume.
Proof. semantic_laws. Qed.

Record Container := mkContainer {
  c_Name : string;
  c_Image : string;
  c_Command : list string;
  c_Args : list string;
  c_Ports : list ContainerPort;
  c_Env : list EnvVar;
  c_Resources : ResourceRequirements;
  c_VolumeMounts : list VolumeMount;
  c_TerminationMessagePath : string;
  c_TerminationMessagePolicy : string;
  c_ImagePullPolicy : string;
  c_SecurityContext : option SecurityContext;
  c_others : Others
}.
#[export] Instance sem_Container : Semantic Container.
Proof.
  semantic_by (fun c => (c_Name c, c_Image c, c_Command c, c_Args c, c_Ports c, c_Env c,
    c_Resources c, c_VolumeMounts c, c_TerminationMessagePath c,
    c_TerminationMessagePolicy c, c_ImagePullPolicy c, c_SecurityContext c, c_others c)).
Defined.
#[export] Instance sem_Container_laws : SemanticLaws Container.
Proof. semantic_laws. Qed.

Record PodSpec := mkPodSpec {
  ps_Volumes : list Volume;
  ps_Containers : list Container;
  ps_RestartPolicy : string;
  ps_TerminationGracePeriodSeconds : option Z;
  ps_DNSPolicy : string;
  ps_NodeSelector : gomap string;
  ps_ServiceAccountName : string;
  ps_DeprecatedServiceAccount : string;
  ps_SecurityContext : option Others;     (* [PodSecurityContext]: no field is used *)
  ps_SchedulerName : string;
  ps_Tolerations : list Toleration;
  ps_PriorityClassName : string;
  ps_others : Others
}.
#[export] Instance sem_PodSpec : Semantic PodSpec.
Proof.
  semantic_by (fun p => (ps_Volumes p, ps_Containers p, ps_RestartPolicy p,
    ps_TerminationGracePeriodSeconds p, ps_DNSPolicy p, ps_NodeSelector p,
    ps_ServiceAccountName p, ps_DeprecatedServiceAccount p, ps_SecurityContext p,
    ps_SchedulerName p, ps_Tolerations p, ps_PriorityClassName p, ps_others p)).
Defined.
#[export] Instance sem_PodSpec_laws : SemanticLaws PodSpec.
Proof. semantic_laws. Qed.

(** ** Deployments *)

Record PodTemplateSpec := mkPodTemplateSpec { pt_meta : ObjectMeta; pt_Spec : PodSpec }.
#[export] Instance sem_PodTemplateSpec : Semantic PodTemplateSpec.
Proof. semantic_by (fun p => (pt_meta p, pt_Spec p)). Defined.
#[export] Instance sem_PodTemplateSpec_laws : SemanticLaws PodTemplateSpec.
Proof. semantic_laws. Qed.

Record DeploymentSpec := mkDeploymentSpec {
  ds_Replicas : option Z;
  ds_Selector : option LabelSelector;
  ds_Template : PodTemplateSpec;
  ds_others : Others
}.
#[export] Instance sem_DeploymentSpec : Semantic DeploymentSpec.
Proof. semantic_by (fun d => (ds_Replicas d, ds_Selector d, ds_Template d, ds_others d)). Defined.
#[export] Instance sem_DeploymentSpec_laws : SemanticLaws DeploymentSpec.
Proof. semantic_laws. Qed.

Record DeploymentStatus := mkDeploymentStatus {
  dst_ObservedGeneration : Z;
  dst_Replicas : Z;
  dst_UpdatedReplicas : Z;
  dst_AvailableReplicas : Z;
  dst_others : Others
}.
Definition zero_DeploymentStatus : DeploymentStatus := mkDeploymentStatus 0 0 0 0 no_others.
#[export] Instance sem_DeploymentStatus : Semantic DeploymentStatus.
Proof.
  semantic_by (fun s => (dst_ObservedGeneration s, dst_Replicas s, dst_UpdatedReplicas s,
                         dst_AvailableReplicas s, dst_others s)).
Defined.
#[export] Instance sem_DeploymentStatus_laws : SemanticLaws DeploymentStatus.
Proof. semantic_laws. Qed.

Record Deployment := mkDeployment {
  dep_type : TypeMeta;
  dep_meta : ObjectMeta;
  dep_Spec : DeploymentSpec;
  dep_Status : DeploymentStatus
}.
#[export] Instance sem_Deployment : Semantic Deployment.
Proof. semantic_by (fun d => (dep_type d, dep_meta d, dep_Spec d, dep_Status d)). Defined.
#[export] Instance sem_Deployment_laws : SemanticLaws Deployment.
Proof. semantic_laws. Qed.

(** ** Services, config maps, network policies *)

(** [intstr.IntOrString]. *)
Inductive IntOrStringType := IntType | StringType.
Record IntOrString := mkIntOrString {
  is_Type : IntOrStringType;
  is_IntVal : Z;
  is_StrVal : string
}.
#[export] Instance IntOrStringType_eq_dec : EqDecision IntOrStringType.
Proof. solve_decision. Defined.
#[export] Instance IntOrString_eq_dec : EqDecision IntOrString.
Proof. solve_decision. Defined.
#[export] Instance sem_IntOrString : Semantic IntOrString := sem_atom.
#[export] Instance sem_IntOrString_laws : SemanticLaws IntOrString := sem_atom_laws _.
(** [intstr.FromInt] truncates to 32 bits; [FromInt32] and [FromString]. *)
Definition FromInt (val : Z) : IntOrString := mkIntOrString IntType (int32 val) "".
Definition FromInt32 (val : Z) : IntOrString := mkIntOrString IntType val "".
Definition FromString (val : string) : IntOrString := mkIntOrString StringType 0 val.

Record ServicePort := mkServicePort {
  svp_Name : string;
  svp_Protocol : string;
  svp_AppProtocol : option string;
  svp_Port : Z;
  svp_TargetPort : IntOrString;
  svp_NodePort : Z
}.
#[export] Instance sem_ServicePort : Semantic ServicePort.
Proof.
  semantic_by (fun p => (svp_Name p, svp_Protocol p, svp_AppProtocol p, svp_Port p,
                         svp_TargetPort p, svp_NodePort p)).
Defined.
#[export] Instance sem_ServicePort_laws : SemanticLaws ServicePort.
Proof. semantic_laws. Qed.

Record ServiceSpec := mkServiceSpec {
  ss_Ports : list ServicePort;
  ss_Selector : gomap string;
  ss_others : Others
}.
#[export] Instance sem_ServiceSpec : Semantic ServiceSpec.
Proof. semantic_by (fun s => (ss_Ports s, ss_Selector s, ss_others s)). Defined.
#[export] Instance sem_ServiceSpec_laws : SemanticLaws ServiceSpec.
Proof. semantic_laws. Qed.

Record Service := mkService {
  svc_type : TypeMeta;
  svc_meta : ObjectMeta;
  svc_Spec : ServiceSpec;
  svc_Status : Others
}.
#[export] Instance sem_Service : Semantic Service.
Proof. semantic_by (fun s => (svc_type s, svc_meta s, svc_Spec s, svc_Status s)). Defined.
#[export] Instance sem_Service_laws : SemanticLaws Service.
Proof. semantic_laws. Qed.

Record ConfigMap := mkConfigMap {
  cm_type : TypeMeta;
  cm_meta : ObjectMeta;
  cm_others : Others                      (* [Data], [BinaryData], [Immutable] *)
}.
#[export] Instance sem_ConfigMap : Semantic ConfigMap.
Proof. semantic_by (fun c => (cm_type c, cm_meta c, cm_others c)). Defined.
#[export] Instance sem_ConfigMap_laws : SemanticLaws ConfigMap.
Proof. semantic_laws. Qed.

Record NetworkPolicyPort := mkNetworkPolicyPort {
  npp_Protocol : option string;
  npp_Port : option IntOrString;
  npp_EndPort : option Z
}.
#[export] Instance sem_NetworkPolicyPort : Semantic NetworkPolicyPort.
Proof. semantic_by (fun p => (npp_Protocol p, npp_Port p, npp_EndPort p)). Defined.
#[export] Instance sem_NetworkPolicyPort_laws : SemanticLaws NetworkPolicyPort.
Proof. semantic_laws. Qed.

Record NetworkPolicyPeer := mkNetworkPolicyPeer {
  peer_PodSelector : option LabelSelector;
  peer_NamespaceSelector : option LabelSelector;
  peer_others : Others                    (* [IPBlock] *)
}.
#[export] Instance sem_NetworkPolicyPeer : Semantic NetworkPolicyPeer.
Proof. semantic_by (fun p => (peer_PodSelector p, peer_NamespaceSelector p, peer_others p)). Defined.
#[export] Instance sem_NetworkPolicyPeer_laws : SemanticLaws NetworkPolicyPeer.
Proof. semantic_laws. Qed.

(** [NetworkPolicyIngressRule] ([From]) and [NetworkPolicyEgressRule] ([To]). *)
Record NetworkPolicyRule := mkNetworkPolicyRule {
  npr_Ports : list NetworkPolicyPort;
  npr_Peers : list NetworkPolicyPeer
}.
#[export] Instance sem_NetworkPolicyRule : Semantic NetworkPolicyRule.
Proof. semantic_by (fun r => (npr_Ports r, npr_Peers r)). Defined.
#[export] Instance sem_NetworkPolicyRule_laws : SemanticLaws NetworkPolicyRule.
Proof. semantic_laws. Qed.

Record NetworkPolicySpec := mkNetworkPolicySpec {
  nps_PodSelector : LabelSelector;
  nps_Ingress : list NetworkPolicyRule;
  nps_Egress : list NetworkPolicyRule;
  nps_PolicyTypes : list string
}.
#[export] Instance sem_NetworkPolicySpec : Semantic NetworkPolicySpec.
Proof.
  semantic_by (fun s => (nps_PodSelector s, nps_Ingress s, nps_Egress s, nps_PolicyTypes s)).
Defined.
#[export] Instance sem_NetworkPolicySpec_laws : SemanticLaws NetworkPolicySpec.
Proof. semantic_laws. Qed.

Record NetworkPolicy := mkNetworkPolicy {
  np_type : TypeMeta;
  np_meta : ObjectMeta;
  np_Spec : NetworkPolicySpec
}.

(** ** The VerticalPodAutoscalerController resource *)

Record ContainerOverride := mkContainerOverride {
  co_Args : list string;
  co_Resources : ResourceRequirements
}.
Record DeploymentOverride := mkDeploymentOverride {
  do_Container : ContainerOverride;
  do_NodeSelector : gomap string;
  do_Tolerations : list Toleration
}.
Record DeploymentOverrides := mkDeploymentOverrides {
  dos_Admission : DeploymentOverride;
  dos_Recommender : DeploymentOverride;
  dos_Updater : DeploymentOverride
}.
Definition zero_DeploymentOverride : DeploymentOverride :=
  mkDeploymentOverride (mkContainerOverride [] zero_ResourceRequirements) nilmap [].
Definition zero_DeploymentOverrides : DeploymentOverrides :=
  mkDeploymentOverrides zero_DeploymentOverride zero_DeploymentOverride zero_DeploymentOverride.

Record VerticalPodAutoscalerControllerSpec := mkVPASpec {
  vs_SafetyMarginFraction : option float64;
  vs_PodMinCPUMillicores : option float64;
  vs_PodMinMemoryMb : option float64;
  vs_RecommendationOnly : option bool;
  vs_MinReplicas : option Z;
  vs_DeploymentOverrides : DeploymentOverrides
}.
Record VerticalPodAutoscalerController := mkVPA {
  vpa_type : TypeMeta;
  vpa_meta : ObjectMeta;
  vpa_Spec : VerticalPodAutoscalerControllerSpec
}.

(** ** Cluster configuration *)

Record TLSProfileSpec := mkTLSProfileSpec {
  tls_Ciphers : goslice string;
  tls_Groups : goslice string;
  tls_MinTLSVersion : string
}.
#[export] Instance TLSProfileSpec_eq_dec : EqDecision TLSProfileSpec.
Proof. solve_decision. Defined.
(** [CustomTLSProfile] embeds a [TLSProfileSpec]. *)
Record TLSSecurityProfile := mkTLSSecurityProfile {
  tsp_Type : string;
  tsp_Custom : option TLSProfileSpec;
  tsp_others : Others                     (* [Old], [Intermediate], [Modern] *)
}.
Record APIServer := mkAPIServer {
  as_meta : ObjectMeta;
  as_TLSSecurityProfile : option TLSSecurityProfile;
  as_TLSAdherence : string;
  as_others : Others
}.

Record Namespace := mkNamespace { ns_meta : ObjectMeta; ns_others : Others }.

Record Infrastructure := mkInfrastructure {
  infra_meta : ObjectMeta;
  infra_ControlPlaneTopology : string;
  infra_others : Others
}.

(** [configv1.ClusterOperatorStatusCondition]. *)
Record Condition := mkCondition {
  cond_Type : string;
  cond_Status : string;
  cond_LastTransitionTime : Time;
  cond_Reason : string;
  cond_Message : string
}.
#[export] Instance Condition_eq_dec : EqDecision Condition.
Proof. solve_decision. Defined.
#[export] Instance sem_Condition : Semantic Condition.
Proof.
  semantic_by (fun c => (cond_Type c, cond_Status c, cond_LastTransitionTime c,
                         cond_Reason c, cond_Message c)).
Defined.
#[export] Instance sem_Condition_laws : SemanticLaws Condition.
Proof. semantic_laws. Qed.
#[export] Instance sem_Condition_exact : SemanticExact Condition.
Proof. semantic_exact. Qed.

Record OperandVersion := mkOperandVersion { ov_Name : string; ov_Version : string }.
#[export] Instance OperandVersion_eq_dec : EqDecision OperandVersion.
Proof. solve_decision. Defined.
#[export] Instance sem_OperandVersion : Semantic OperandVersion.
Proof. semantic_by (fun v => (ov_Name v, ov_Version v)). Defined.
#[export] Instance sem_OperandVersion_laws : SemanticLaws OperandVersion.
Proof. semantic_laws. Qed.
#[export] Instance sem_OperandVersion_exact : SemanticExact OperandVersion.
Proof. semantic_exact. Qed.

(** [configv1.ObjectReference], a related object of a ClusterOperator. *)
Record RelatedObject := mkRelatedObject {
  ro_Group : string;
  ro_Resource : string;
  ro_Namespace : string;
  ro_Name : string
}.
#[export] Instance sem_RelatedObject : Semantic RelatedObject.
Proof. semantic_by (fun r => (ro_Group r, ro_Resource r, ro_Namespace r, ro_Name r)). Defined.
#[export] Instance sem_RelatedObject_laws : SemanticLaws RelatedObject.
Proof. semantic_laws. Qed.
#[export] Instance sem_RelatedObject_exact : SemanticExact RelatedObject.
Proof. semantic_exact. Qed.

(** [runtime.RawExtension]: raw bytes, or an object in serialised form. *)
Record RawExtension := mkRawExtension { re_Raw : list Z; re_Object : option string }.

Record ClusterOperatorStatus := mkCOStatus {
  cos_Conditions : list Condition;
  cos_Versions : goslice OperandVersion;
  cos_RelatedObjects : list RelatedObject;
  cos_Extension : RawExtension
}.
Record ClusterOperator := mkClusterOperator {
  cop_meta : ObjectMeta;
  cop_Status : ClusterOperatorStatus
}.
Definition zero_COStatus : ClusterOperatorStatus :=
  mkCOStatus [] nilslice [] (mkRawExtension [] None).
