(* ===== verification/DeepCopy.v ===== *)
(** * Deep copies

    api/v1/zz_generated.deepcopy.go, with what it calls of the generated code of
    k8s.io/api and apimachinery.  Elsewhere in this library a value is immutable
    and a copy is the value itself; this file is why that is sound for the custom
    resource.  Structs live in memory as Go lays them out, with pointers, slices
    and maps as references to cells; a copy reads as the same value and shares
    no cell with the original, so that no write through one is seen through the
    other (the objects that the reconciler reads are copies of those in the
    cache).  A quantity and the part of [ObjectMeta] that the operator never
    mentions (times, finalizers, managed fields) are plain values. *)

From S2P Require Import Prelude Go GoFmt Objects.

(** ** Values that are only copied *)

(** [metav1.ListMeta], and the list of custom resources. *)
Record ListMeta := mkListMeta {
  lm_SelfLink : string;
  lm_ResourceVersion : string;
  lm_Continue : string;
  lm_RemainingItemCount : option Z
}.
Record VerticalPodAutoscalerControllerList := mkVPAList {
  vpal_type : TypeMeta;
  vpal_meta : ListMeta;
  vpal_Items : list VerticalPodAutoscalerController
}.
(** A struct without fields. *)
Record VerticalPodAutoscalerControllerStatus := mkVPAStatus {}.

(** ** Memory *)

(** A location is an index into the heap. *)
Definition loc := nat.
(** A slice: its backing array, and the part of it that it shows. *)
Record slice := mkSlice { sl_array : loc; sl_from : nat; sl_len : nat }.

(** Structs in memory: [option loc] is a pointer or a map, [option slice] a slice;
    fields that are plain values are as in Objects.v. *)
Record OwnerReferenceM := mkOwnerReferenceM {
  orm_APIVersion : string; orm_Kind : string; orm_Name : string; orm_UID : string;
  orm_Controller : option loc; orm_BlockOwnerDeletion : option loc
}.
Record ObjectMetaM := mkObjectMetaM {
  omm_Name : string; omm_Namespace : string; omm_UID : string; omm_ResourceVersion : string;
  omm_Generation : Z;
  omm_Labels : option loc; omm_Annotations : option loc;
  omm_OwnerReferences : option slice; omm_others : Others
}.
Record ListMetaM := mkListMetaM {
  lmm_SelfLink : string; lmm_ResourceVersion : string; lmm_Continue : string;
  lmm_RemainingItemCount : option loc
}.
Record ResourceRequirementsM := mkResourcesM {
  rrm_Limits : option loc; rrm_Requests : option loc; rrm_Claims : option slice
}.
Record TolerationM := mkTolerationM {
  tolm_Key : string; tolm_Operator : string; tolm_Value : string; tolm_Effect : string;
  tolm_TolerationSeconds : option loc
}.
Record ContainerOverrideM := mkContainerOverrideM {
  com_Args : option slice; com_Resources : ResourceRequirementsM
}.
Record DeploymentOverrideM := mkDeploymentOverrideM {
  dom_Container : ContainerOverrideM; dom_NodeSelector : option loc; dom_Tolerations : option slice
}.
Record DeploymentOverridesM := mkDeploymentOverridesM {
  dosm_Admission : DeploymentOverrideM; dosm_Recommender : DeploymentOverrideM;
  dosm_Updater : DeploymentOverrideM
}.
Record VPASpecM := mkVPASpecM {
  vsm_SafetyMarginFraction : option loc; vsm_PodMinCPUMillicores : option loc;
  vsm_PodMinMemoryMb : option loc; vsm_RecommendationOnly : option loc; vsm_MinReplicas : option loc;
  vsm_DeploymentOverrides : DeploymentOverridesM
}.
Record VPAM := mkVPAM {
  vpam_type : TypeMeta; vpam_meta : ObjectMetaM; vpam_Spec : VPASpecM;
  vpam_Status : VerticalPodAutoscalerControllerStatus
}.
Record VPAListM := mkVPAListM {
  vpalm_type : TypeMeta; vpalm_meta : ListMetaM; vpalm_Items : option slice
}.

(** What a location holds: a variable, a map, or the backing array of a slice. *)
Inductive cell :=
| CFloat (f : float64) | CBool (b : bool) | CInt (z : Z)
| CStringMap (m : gmap string string) | CQuantityMap (m : gmap string Quantity)
| CStrings (l : list string) | CClaims (l : list ResourceClaim)
| CTolerations (l : list TolerationM) | COwners (l : list OwnerReferenceM) | CVPAs (l : list VPAM)
| CContainerOverride (o : ContainerOverrideM) | CDeploymentOverride (o : DeploymentOverrideM)
| CDeploymentOverrides (o : DeploymentOverridesM) | CSpec (s : VPASpecM)
| CStatus (s : VerticalPodAutoscalerControllerStatus) | CVPA (o : VPAM) | CVPAList (o : VPAListM).
Definition heap := list cell.

(** The types that a location can hold. *)
Class Cell (T : Type) := {
  to_cell : T -> cell;
  of_cell : cell -> option T;
  of_to x : of_cell (to_cell x) = Some x
}.
#[export] Instance cell_float : Cell float64 := {|
  to_cell := CFloat; of_cell c := match c with CFloat x => Some x | _ => None end; of_to _ := eq_refl |}.
#[export] Instance cell_bool : Cell bool := {|
  to_cell := CBool; of_cell c := match c with CBool x => Some x | _ => None end; of_to _ := eq_refl |}.
#[export] Instance cell_int : Cell Z := {|
  to_cell := CInt; of_cell c := match c with CInt x => Some x | _ => None end; of_to _ := eq_refl |}.
#[export] Instance cell_string_map : Cell (gmap string string) := {|
  to_cell := CStringMap; of_cell c := match c with CStringMap x => Some x | _ => None end; of_to _ := eq_refl |}.
#[export] Instance cell_quantity_map : Cell (gmap string Quantity) := {|
  to_cell := CQuantityMap; of_cell c := match c with CQuantityMap x => Some x | _ => None end; of_to _ := eq_refl |}.
#[export] Instance cell_strings : Cell (list string) := {|
  to_cell := CStrings; of_cell c := match c with CStrings x => Some x | _ => None end; of_to _ := eq_refl |}.
#[export] Instance cell_claims : Cell (list ResourceClaim) := {|
  to_cell := CClaims; of_cell c := match c with CClaims x => Some x | _ => None end; of_to _ := eq_refl |}.
#[export] Instance cell_tolerations : Cell (list TolerationM) := {|
  to_cell := CTolerations; of_cell c := match c with CTolerations x => Some x | _ => None end; of_to _ := eq_refl |}.
#[export] Instance cell_owners : Cell (list OwnerReferenceM) := {|
  to_cell := COwners; of_cell c := match c with COwners x => Some x | _ => None end; of_to _ := eq_refl |}.
#[export] Instance cell_vpas : Cell (list VPAM) := {|
  to_cell := CVPAs; of_cell c := match c with CVPAs x => Some x | _ => None end; of_to _ := eq_refl |}.
#[export] Instance cell_container_override : Cell ContainerOverrideM := {|
  to_cell := CContainerOverride; of_cell c := match c with CContainerOverride x => Some x | _ => None end; of_to _ := eq_refl |}.
#[export] Instance cell_deployment_override : Cell DeploymentOverrideM := {|
  to_cell := CDeploymentOverride; of_cell c := match c with CDeploymentOverride x => Some x | _ => None end; of_to _ := eq_refl |}.
#[export] Instance cell_deployment_overrides : Cell DeploymentOverridesM := {|
  to_cell := CDeploymentOverrides; of_cell c := match c with CDeploymentOverrides x => Some x | _ => None end; of_to _ := eq_refl |}.
#[export] Instance cell_spec : Cell VPASpecM := {|
  to_cell := CSpec; of_cell c := match c with CSpec x => Some x | _ => None end; of_to _ := eq_refl |}.
#[export] Instance cell_status : Cell VerticalPodAutoscalerControllerStatus := {|
  to_cell := CStatus; of_cell c := match c with CStatus x => Some x | _ => None end; of_to _ := eq_refl |}.
#[export] Instance cell_vpa : Cell VPAM := {|
  to_cell := CVPA; of_cell c := match c with CVPA x => Some x | _ => None end; of_to _ := eq_refl |}.
#[export] Instance cell_vpa_list : Cell VPAListM := {|
  to_cell := CVPAList; of_cell c := match c with CVPAList x => Some x | _ => None end; of_to _ := eq_refl |}.

(** Programs on memory; [None] is a panic (or memory that is not typed). *)
Definition mem (A : Type) : Type := heap -> option (A * heap).
Definition give {A} (x : A) : mem A := fun h => Some (x, h).
Definition chain {A B} (p : mem A) (f : A -> mem B) : mem B := fun h =>
  match p h with Some (x, h) => f x h | None => None end.
Declare Scope mem_scope.
Delimit Scope mem_scope with mem.
Notation "'let*' x := p 'in' q" := (chain p (fun x => q))
  (at level 10, x name, p at level 100, q at level 200) : mem_scope.
#[local] Open Scope mem_scope.

(** [*p]. *)
Definition load {T} `{Cell T} (l : loc) : mem T := fun h =>
  match h !! l ≫= of_cell with Some x => Some (x, h) | None => None end.
(** A new variable, map or array. *)
Definition alloc {T} `{Cell T} (x : T) : mem loc := fun h => Some (length h, h ++ [to_cell x]).
(** The elements that a slice shows. *)
Definition load_slice {T} `{Cell (list T)} (s : slice) : mem (list T) :=
  let* l := load (sl_array s) in
  fun h => if (sl_from s + sl_len s <=? length l)%nat
           then Some (take (sl_len s) (drop (sl_from s) l), h) else None.
Fixpoint map_mem {A B} (f : A -> mem B) (l : list A) : mem (list B) :=
  match l with
  | [] => give []
  | x :: l => let* y := f x in let* l := map_mem f l in give (y :: l)
  end.

(** ** The copying code *)

(** [if in == nil { return nil }; out := new(T); in.DeepCopyInto(out); return out];
    for a field that is a pointer, [DeepCopyInto] is the assignment [**out = **in]. *)
Definition copy_pointer {T} `{Cell T} (DeepCopyInto : T -> mem T) (p : option loc) : mem (option loc) :=
  match p with
  | None => give None
  | Some l =>
      let* x := load l in
      let* x := DeepCopyInto x in
      let* l := alloc x in
      give (Some l)
  end.
(** [if in != nil { out = make(map); for key, val := range in { out[key] = val } }]. *)
Definition range_into {V} (m : gmap string V) : gmap string V :=
  map_fold (fun key val out => <[key := val]> out) ∅ m.
Definition copy_map {V} `{Cell (gmap string V)} (p : option loc) : mem (option loc) :=
  match p with
  | None => give None
  | Some l =>
      let* m := load (T:=gmap string V) l in
      let* l := alloc (range_into m) in
      give (Some l)
  end.
(** [if in != nil { out = make([]T, len(in)); for i := range in { in[i].DeepCopyInto(&out[i]) } }];
    for elements that are plain values the loop is [copy(out, in)]. *)
Definition copy_slice {T} `{Cell (list T)} (DeepCopyInto : T -> mem T) (s : option slice) :
    mem (option slice) :=
  match s with
  | None => give None
  | Some s =>
      let* l := load_slice s in
      let* l := map_mem DeepCopyInto l in
      let* a := alloc l in
      give (Some (mkSlice a 0 (length l)))
  end.

Definition OwnerReference_DeepCopyInto (o : OwnerReferenceM) : mem OwnerReferenceM :=
  let* controller := copy_pointer (T:=bool) give (orm_Controller o) in
  let* block := copy_pointer (T:=bool) give (orm_BlockOwnerDeletion o) in
  give (mkOwnerReferenceM (orm_APIVersion o) (orm_Kind o) (orm_Name o) (orm_UID o) controller block).
(** The labels, annotations and owners; see above for the rest. *)
Definition ObjectMeta_DeepCopyInto (m : ObjectMetaM) : mem ObjectMetaM :=
  let* labels := copy_map (V:=string) (omm_Labels m) in
  let* annotations := copy_map (V:=string) (omm_Annotations m) in
  let* owners := copy_slice OwnerReference_DeepCopyInto (omm_OwnerReferences m) in
  give (mkObjectMetaM (omm_Name m) (omm_Namespace m) (omm_UID m) (omm_ResourceVersion m)
          (omm_Generation m) labels annotations owners (omm_others m)).
Definition ListMeta_DeepCopyInto (m : ListMetaM) : mem ListMetaM :=
  let* remaining := copy_pointer (T:=Z) give (lmm_RemainingItemCount m) in
  give (mkListMetaM (lmm_SelfLink m) (lmm_ResourceVersion m) (lmm_Continue m) remaining).
(** [val.DeepCopy()] of a quantity is the quantity. *)
Definition ResourceRequirements_DeepCopyInto (r : ResourceRequirementsM) : mem ResourceRequirementsM :=
  let* limits := copy_map (V:=Quantity) (rrm_Limits r) in
  let* requests := copy_map (V:=Quantity) (rrm_Requests r) in
  let* claims := copy_slice (T:=ResourceClaim) give (rrm_Claims r) in
  give (mkResourcesM limits requests claims).
Definition Toleration_DeepCopyInto (t : TolerationM) : mem TolerationM :=
  let* seconds := copy_pointer (T:=Z) give (tolm_TolerationSeconds t) in
  give (mkTolerationM (tolm_Key t) (tolm_Operator t) (tolm_Value t) (tolm_Effect t) seconds).

Definition ContainerOverride_DeepCopyInto (o : ContainerOverrideM) : mem ContainerOverrideM :=
  let* args := copy_slice (T:=string) give (com_Args o) in
  let* resources := ResourceRequirements_DeepCopyInto (com_Resources o) in
  give (mkContainerOverrideM args resources).
Definition DeploymentOverride_DeepCopyInto (o : DeploymentOverrideM) : mem DeploymentOverrideM :=
  let* container := ContainerOverride_DeepCopyInto (dom_Container o) in
  let* selector := copy_map (V:=string) (dom_NodeSelector o) in
  let* tolerations := copy_slice Toleration_DeepCopyInto (dom_Tolerations o) in
  give (mkDeploymentOverrideM container selector tolerations).
Definition DeploymentOverrides_DeepCopyInto (o : DeploymentOverridesM) : mem DeploymentOverridesM :=
  let* admission := DeploymentOverride_DeepCopyInto (dosm_Admission o) in
  let* recommender := DeploymentOverride_DeepCopyInto (dosm_Recommender o) in
  let* updater := DeploymentOverride_DeepCopyInto (dosm_Updater o) in
  give (mkDeploymentOverridesM admission recommender updater).
Definition VPASpec_DeepCopyInto (s : VPASpecM) : mem VPASpecM :=
  let* margin := copy_pointer (T:=float64) give (vsm_SafetyMarginFraction s) in
  let* cpu := copy_pointer (T:=float64) give (vsm_PodMinCPUMillicores s) in
  let* memory := copy_pointer (T:=float64) give (vsm_PodMinMemoryMb s) in
  let* only := copy_pointer (T:=bool) give (vsm_RecommendationOnly s) in
  let* replicas := copy_pointer (T:=Z) give (vsm_MinReplicas s) in
  let* overrides := DeploymentOverrides_DeepCopyInto (vsm_DeploymentOverrides s) in
  give (mkVPASpecM margin cpu memory only replicas overrides).
Definition VPAStatus_DeepCopyInto (s : VerticalPodAutoscalerControllerStatus) :
    mem VerticalPodAutoscalerControllerStatus := give s.
Definition VPA_DeepCopyInto (o : VPAM) : mem VPAM :=
  let* meta := ObjectMeta_DeepCopyInto (vpam_meta o) in
  let* spec := VPASpec_DeepCopyInto (vpam_Spec o) in
  give (mkVPAM (vpam_type o) meta spec (vpam_Status o)).
Definition VPAList_DeepCopyInto (o : VPAListM) : mem VPAListM :=
  let* meta := ListMeta_DeepCopyInto (vpalm_meta o) in
  let* items := copy_slice VPA_DeepCopyInto (vpalm_Items o) in
  give (mkVPAListM (vpalm_type o) meta items).

Definition ContainerOverride_DeepCopy : option loc -> mem (option loc) :=
  copy_pointer ContainerOverride_DeepCopyInto.
Definition DeploymentOverride_DeepCopy : option loc -> mem (option loc) :=
  copy_pointer DeploymentOverride_DeepCopyInto.
Definition DeploymentOverrides_DeepCopy : option loc -> mem (option loc) :=
  copy_pointer DeploymentOverrides_DeepCopyInto.
Definition VPASpec_DeepCopy : option loc -> mem (option loc) := copy_pointer VPASpec_DeepCopyInto.
Definition VPAStatus_DeepCopy : option loc -> mem (option loc) := copy_pointer VPAStatus_DeepCopyInto.
Definition VPA_DeepCopy : option loc -> mem (option loc) := copy_pointer VPA_DeepCopyInto.
Definition VPAList_DeepCopy : option loc -> mem (option loc) := copy_pointer VPAList_DeepCopyInto.
(** [if c := in.DeepCopy(); c != nil { return c }; return nil]. *)
Definition interface_of (DeepCopy : option loc -> mem (option loc)) (p : option loc) : mem (option loc) :=
  let* c := DeepCopy p in give (match c with Some c => Some c | None => None end).
Definition VPA_DeepCopyObject : option loc -> mem (option loc) := interface_of VPA_DeepCopy.
Definition VPAList_DeepCopyObject : option loc -> mem (option loc) := interface_of VPAList_DeepCopy.

(** ** What memory shows *)

(** [S P h r a]: in the heap [h], reading only locations in [P], the data [r]
    reads as the value [a]. *)
Definition shows (R A : Type) : Type := (loc -> Prop) -> heap -> R -> A -> Prop.
Definition plain {A} : shows A A := fun _ _ r a => r = a.
Definition pointer {R A} `{Cell R} (S : shows R A) : shows (option loc) (option A) := fun P h p a =>
  match p, a with
  | None, None => True
  | Some l, Some a => P l /\ exists r, h !! l ≫= of_cell = Some r /\ S P h r a
  | _, _ => False
  end.
Definition map_of (V : Type) `{Cell (gmap string V)} : shows (option loc) (gomap V) := fun P h p a =>
  match p, a with
  | None, nilmap => True
  | Some l, mkmap m => P l /\ h !! l ≫= of_cell = Some m
  | _, _ => False
  end.
Definition array {R A} `{Cell (list R)} (S : shows R A) : shows slice (list A) := fun P h s l =>
  P (sl_array s) /\ exists rs, h !! sl_array s ≫= of_cell = Some rs /\
    (sl_from s + sl_len s <= length rs)%nat /\ Forall2 (S P h) (take (sl_len s) (drop (sl_from s) rs)) l.
(** A slice that is only ranged over: nil is empty. *)
Definition slice_of {R A} `{Cell (list R)} (S : shows R A) : shows (option slice) (list A) := fun P h s l =>
  match s with None => l = [] | Some s => array S P h s l end.
Definition goslice_of {R A} `{Cell (list R)} (S : shows R A) : shows (option slice) (goslice A) := fun P h s l =>
  match s, l with
  | None, nilslice => True
  | Some s, mkslice l => array S P h s l
  | _, _ => False
  end.

Definition shows_OwnerReference : shows OwnerReferenceM OwnerReference := fun P h r o =>
  orm_APIVersion r = or_APIVersion o /\ orm_Kind r = or_Kind o /\ orm_Name r = or_Name o /\
  orm_UID r = or_UID o /\ pointer (R:=bool) plain P h (orm_Controller r) (or_Controller o) /\
  pointer (R:=bool) plain P h (orm_BlockOwnerDeletion r) (or_BlockOwnerDeletion o).
Definition shows_ObjectMeta : shows ObjectMetaM ObjectMeta := fun P h r m =>
  omm_Name r = om_Name m /\ omm_Namespace r = om_Namespace m /\ omm_UID r = om_UID m /\
  omm_ResourceVersion r = om_ResourceVersion m /\ omm_Generation r = om_Generation m /\
  omm_others r = om_others m /\
  map_of string P h (omm_Labels r) (om_Labels m) /\ map_of string P h (omm_Annotations r) (om_Annotations m) /\
  slice_of shows_OwnerReference P h (omm_OwnerReferences r) (om_OwnerReferences m).
Definition shows_ListMeta : shows ListMetaM ListMeta := fun P h r m =>
  lmm_SelfLink r = lm_SelfLink m /\ lmm_ResourceVersion r = lm_ResourceVersion m /\
  lmm_Continue r = lm_Continue m /\
  pointer (R:=Z) plain P h (lmm_RemainingItemCount r) (lm_RemainingItemCount m).
Definition shows_Resources : shows ResourceRequirementsM ResourceRequirements := fun P h r a =>
  map_of Quantity P h (rrm_Limits r) (rr_Limits a) /\ map_of Quantity P h (rrm_Requests r) (rr_Requests a) /\
  goslice_of (R:=ResourceClaim) plain P h (rrm_Claims r) (rr_Claims a).
Definition shows_Toleration : shows TolerationM Toleration := fun P h r t =>
  tolm_Key r = tol_Key t /\ tolm_Operator r = tol_Operator t /\ tolm_Value r = tol_Value t /\
  tolm_Effect r = tol_Effect t /\ pointer (R:=Z) plain P h (tolm_TolerationSeconds r) (tol_TolerationSeconds t).
Definition shows_ContainerOverride : shows ContainerOverrideM ContainerOverride := fun P h r o =>
  slice_of (R:=string) plain P h (com_Args r) (co_Args o) /\
  shows_Resources P h (com_Resources r) (co_Resources o).
Definition shows_DeploymentOverride : shows DeploymentOverrideM DeploymentOverride := fun P h r o =>
  shows_ContainerOverride P h (dom_Container r) (do_Container o) /\
  map_of string P h (dom_NodeSelector r) (do_NodeSelector o) /\
  slice_of shows_Toleration P h (dom_Tolerations r) (do_Tolerations o).
Definition shows_DeploymentOverrides : shows DeploymentOverridesM DeploymentOverrides := fun P h r o =>
  shows_DeploymentOverride P h (dosm_Admission r) (dos_Admission o) /\
  shows_DeploymentOverride P h (dosm_Recommender r) (dos_Recommender o) /\
  shows_DeploymentOverride P h (dosm_Updater r) (dos_Updater o).
Definition shows_VPASpec : shows VPASpecM VerticalPodAutoscalerControllerSpec := fun P h r s =>
  pointer (R:=float64) plain P h (vsm_SafetyMarginFraction r) (vs_SafetyMarginFraction s) /\
  pointer (R:=float64) plain P h (vsm_PodMinCPUMillicores r) (vs_PodMinCPUMillicores s) /\
  pointer (R:=float64) plain P h (vsm_PodMinMemoryMb r) (vs_PodMinMemoryMb s) /\
  pointer (R:=bool) plain P h (vsm_RecommendationOnly r) (vs_RecommendationOnly s) /\
  pointer (R:=Z) plain P h (vsm_MinReplicas r) (vs_MinReplicas s) /\
  shows_DeploymentOverrides P h (vsm_DeploymentOverrides r) (vs_DeploymentOverrides s).
Definition shows_VPA : shows VPAM VerticalPodAutoscalerController := fun P h r o =>
  vpam_type r = vpa_type o /\ shows_ObjectMeta P h (vpam_meta r) (vpa_meta o) /\
  shows_VPASpec P h (vpam_Spec r) (vpa_Spec o).
Definition shows_VPAList : shows VPAListM VerticalPodAutoscalerControllerList := fun P h r o =>
  vpalm_type r = vpal_type o /\ shows_ListMeta P h (vpalm_meta r) (vpal_meta o) /\
  slice_of shows_VPA P h (vpalm_Items r) (vpal_Items o).

(** *** Only the locations in [P] matter *)

Definition kept (P : loc -> Prop) (h h' : heap) : Prop :=
  forall l c, P l -> h !! l = Some c -> h' !! l = Some c.
Class Framed {R A} (S : shows R A) : Prop :=
  frame P Q h h' r a : kept P h h' -> (forall l, P l -> Q l) -> S P h r a -> S Q h' r a.

Lemma kept_cell {T} `{Cell T} P h h' l (x : T) :
  kept P h h' -> P l -> h !! l ≫= of_cell = Some x -> h' !! l ≫= of_cell = Some x.
Proof. intros Hk Hl Hx. destruct (h !! l) as [c|] eqn:Hc; [|done]. by rewrite (Hk l c). Qed.

#[export] Instance frame_plain {A} : Framed (@plain A).
Proof. by intros P Q h h' r a. Qed.
#[export] Instance frame_pointer {R A} `{Cell R} (S : shows R A) : Framed S -> Framed (pointer S).
Proof.
  intros HS P Q h h' [l|] [a|] Hk HP; try done. intros (Hl & r & Hr & Ha). split; [by apply HP|].
  exists r. split; [by eapply kept_cell | by eapply HS].
Qed.
#[export] Instance frame_map V `{Cell (gmap string V)} : Framed (map_of V).
Proof.
  intros P Q h h' [l|] [|m] Hk HP; try done. intros (Hl & Hm). split; [by apply HP | by eapply kept_cell].
Qed.
#[export] Instance frame_array {R A} `{Cell (list R)} (S : shows R A) : Framed S -> Framed (array S).
Proof.
  intros HS P Q h h' s l Hk HP (Hl & rs & Hrs & Hlen & Hall). split; [by apply HP|].
  exists rs. split; [by eapply kept_cell|]. split; [done|].
  eapply Forall2_impl; [exact Hall|]. intros r a. by eapply HS.
Qed.
#[export] Instance frame_slice {R A} `{Cell (list R)} (S : shows R A) : Framed S -> Framed (slice_of S).
Proof. intros HS P Q h h' [s|] l; [apply frame_array, HS | done]. Qed.
#[export] Instance frame_goslice {R A} `{Cell (list R)} (S : shows R A) : Framed S -> Framed (goslice_of S).
Proof. intros HS P Q h h' [s|] [|l]; try done. apply frame_array, HS. Qed.

(** Structs, field by field. *)
Ltac destruct_conj := repeat match goal with H : _ /\ _ |- _ => destruct H as [? ?] end.
Ltac split_conj := repeat match goal with |- _ /\ _ => split end.
Ltac frame_fields S := intros P Q h h' r a Hk HP Hr; unfold S in *; destruct_conj; split_conj;
  try assumption; (eapply frame; [exact Hk | exact HP | eassumption]).
#[export] Instance frame_OwnerReference : Framed shows_OwnerReference := ltac:(frame_fields shows_OwnerReference).
#[export] Instance frame_ObjectMeta : Framed shows_ObjectMeta := ltac:(frame_fields shows_ObjectMeta).
#[export] Instance frame_ListMeta : Framed shows_ListMeta := ltac:(frame_fields shows_ListMeta).
#[export] Instance frame_Resources : Framed shows_Resources := ltac:(frame_fields shows_Resources).
#[export] Instance frame_Toleration : Framed shows_Toleration := ltac:(frame_fields shows_Toleration).
#[export] Instance frame_ContainerOverride : Framed shows_ContainerOverride := ltac:(frame_fields shows_ContainerOverride).
#[export] Instance frame_DeploymentOverride : Framed shows_DeploymentOverride := ltac:(frame_fields shows_DeploymentOverride).
#[export] Instance frame_DeploymentOverrides : Framed shows_DeploymentOverrides := ltac:(frame_fields shows_DeploymentOverrides).
#[export] Instance frame_VPASpec : Framed shows_VPASpec := ltac:(frame_fields shows_VPASpec).
#[export] Instance frame_VPA : Framed shows_VPA := ltac:(frame_fields shows_VPA).
#[export] Instance frame_VPAList : Framed shows_VPAList := ltac:(frame_fields shows_VPAList).

(** ** Copies *)

(** [p] ends, only adds cells, and leaves [Q]. *)
Definition yields {A} (p : mem A) (h : heap) (Q : heap -> A -> Prop) : Prop :=
  exists x k, p h = Some (x, h ++ k) /\ Q (h ++ k) x.
(** The locations that are not in [h] yet. *)
Definition fresh_in (h : heap) : loc -> Prop := fun l => (length h <= l)%nat.
(** Whatever the data reads as, its copy reads as the same, in new cells. *)
Class Copies {R A} (S : shows R A) (into : R -> mem R) : Prop :=
  copies P h r a : S P h r a -> yields (into r) h (fun h' r' => S (fresh_in h) h' r' a).

Lemma yields_give {A} (x : A) h (Q : heap -> A -> Prop) : Q h x -> yields (give x) h Q.
Proof. intros HQ. exists x, []. by rewrite app_nil_r. Qed.
Lemma yields_chain {A B} (p : mem A) (f : A -> mem B) h Q Q' :
  yields p h Q -> (forall x k, Q (h ++ k) x -> yields (f x) (h ++ k) Q') -> yields (chain p f) h Q'.
Proof.
  intros (x & k & Hp & HQ) Hf. destruct (Hf x k HQ) as (y & k' & Hy & HQ').
  rewrite <- app_assoc in Hy, HQ'. exists y, (k ++ k'). split; [|done]. unfold chain. by rewrite Hp.
Qed.
Lemma yields_load {T} `{Cell T} {B} l (x : T) (f : T -> mem B) h Q :
  h !! l ≫= of_cell = Some x -> yields (f x) h Q -> yields (chain (load l) f) h Q.
Proof. intros Hx (y & k & Hy & HQ). exists y, k. split; [|done]. unfold chain, load. by rewrite Hx. Qed.
Lemma yields_alloc {T} `{Cell T} {B} (x : T) (f : loc -> mem B) h Q :
  yields (f (length h)) (h ++ [to_cell x]) Q -> yields (chain (alloc x) f) h Q.
Proof.
  intros (y & k & Hy & HQ). rewrite <- app_assoc in Hy, HQ. exists y, ([to_cell x] ++ k). by split.
Qed.

Lemma kept_refl P h : kept P h h.
Proof. by intros l c. Qed.
Lemma kept_app P h h' k : kept P h h' -> kept P h (h' ++ k).
Proof. intros Hk l c Hl Hc. apply lookup_app_l_Some. by apply Hk. Qed.
Lemma fresh_app h k l : fresh_in (h ++ k) l -> fresh_in h l.
Proof. unfold fresh_in. rewrite length_app. lia. Qed.
Lemma lookup_new {T} `{Cell T} h (x : T) : (h ++ [to_cell x]) !! length h ≫= of_cell = Some x.
Proof. rewrite lookup_app_r, Nat.sub_diag by lia. apply of_to. Qed.
#[export] Hint Resolve kept_refl kept_app : vpa.
#[export] Hint Resolve fresh_app : vpa.
(** Data stays as it is while cells are added. *)
Ltac by_growth := eapply frame; [| |eassumption]; [eauto 12 with vpa | eauto 12 with vpa].

#[export] Instance copies_plain {A} : Copies (@plain A) give.
Proof. intros P h r a Hr. by apply yields_give. Qed.
#[export] Instance copies_pointer {R A} `{Cell R} (S : shows R A) into :
  Framed S -> Copies S into -> Copies (pointer S) (copy_pointer into).
Proof.
  intros HF HC P h [l|] [a|] Hp; try done; [|by apply yields_give].
  destruct Hp as (Hl & r & Hr & Ha). apply (yields_load l r); [done|].
  eapply yields_chain; [by apply (HC P)|]. cbv beta. intros r' k Hr'. apply yields_alloc, yields_give.
  split; [unfold fresh_in; rewrite length_app; lia|]. exists r'. split; [apply lookup_new|].
  by_growth.
Qed.

Lemma range_into_same {V} (m : gmap string V) : range_into m = m.
Proof.
  unfold range_into. apply (map_fold_weak_ind (fun out m => out = m)); [done|].
  by intros key val m' out _ ->.
Qed.
#[export] Instance copies_map V `{Cell (gmap string V)} : Copies (map_of V) copy_map.
Proof.
  intros P h [l|] [|m] Hp; try done; [|by apply yields_give].
  destruct Hp as (Hl & Hm). apply (yields_load l m); [done|]. rewrite range_into_same.
  apply yields_alloc, yields_give. split; [unfold fresh_in; lia | apply lookup_new].
Qed.

Lemma copies_elements {R A} (S : shows R A) into P h rs l :
  Framed S -> Copies S into -> Forall2 (S P h) rs l ->
  yields (map_mem into rs) h (fun h' rs' => Forall2 (S (fresh_in h) h') rs' l).
Proof.
  intros HF HC. revert h l; induction rs as [|r rs IH]; intros h l Hl.
  - apply Forall2_nil_inv_l in Hl as ->. by apply yields_give.
  - apply Forall2_cons_inv_l in Hl as (a & l' & Ha & Hl & ->). cbn [map_mem].
    eapply yields_chain; [by apply (HC P)|]. cbv beta. intros r' k Hr'.
    eapply yields_chain.
    { apply IH. eapply Forall2_impl; [exact Hl|]. intros r1 a1 H1. by_growth. }
    cbv beta. intros rs' k' Hrs'. apply yields_give. constructor; [by_growth|].
    eapply Forall2_impl; [exact Hrs'|]. intros r1 a1 H1. by_growth.
Qed.
Lemma copies_array {R A} `{Cell (list R)} (S : shows R A) into P h s l :
  Framed S -> Copies S into -> array S P h s l ->
  yields (copy_slice into (Some s)) h (fun h' s' => exists s1, s' = Some s1 /\ array S (fresh_in h) h' s1 l).
Proof.
  intros HF HC (Hl & rs & Hrs & Hlen & Hall). cbn [copy_slice].
  assert (Hload : yields (load_slice s) h (fun h' rs' => h' = h /\ rs' = take (sl_len s) (drop (sl_from s) rs))).
  { apply (yields_load _ rs); [done|]. exists (take (sl_len s) (drop (sl_from s) rs)), [].
    rewrite app_nil_r. cbv beta. by rewrite (proj2 (Nat.leb_le _ _) Hlen). }
  eapply yields_chain; [exact Hload|]. cbv beta. intros rs0 k0 [-> ->].
  eapply yields_chain; [by apply (copies_elements S into P)|]. cbv beta. intros rs' k Hrs'.
  apply yields_alloc, yields_give. eexists. split; [done|].
  split; [unfold fresh_in; cbn; rewrite length_app; lia|]. cbn [sl_array sl_from sl_len].
  exists rs'. split; [apply lookup_new|]. split; [lia|]. rewrite drop_0, take_ge by lia.
  eapply Forall2_impl; [exact Hrs'|]. intros r1 a1 H1. by_growth.
Qed.
#[export] Instance copies_slice {R A} `{Cell (list R)} (S : shows R A) into :
  Framed S -> Copies S into -> Copies (slice_of S) (copy_slice into).
Proof.
  intros HF HC P h [s|] l Hs; [|by apply yields_give].
  destruct (copies_array S into P h s l HF HC Hs) as (s' & k & Hr & s1 & -> & Ha).
  by exists (Some s1), k.
Qed.
#[export] Instance copies_goslice {R A} `{Cell (list R)} (S : shows R A) into :
  Framed S -> Copies S into -> Copies (goslice_of S) (copy_slice into).
Proof.
  intros HF HC P h [s|] [|l] Hs; try done; [|by apply yields_give].
  destruct (copies_array S into P h s l HF HC Hs) as (s' & k & Hr & s1 & -> & Ha).
  by exists (Some s1), k.
Qed.

(** Structs: the fields that are references, one after the other. *)
Ltac copy_field :=
  match goal with |- yields (chain (?into ?x) _) _ _ =>
    match goal with H : ?S _ _ x ?a |- _ =>
      eapply yields_chain; [eapply (copies (S:=S) (into:=into) _ _ x a); by_growth | cbv beta; intros ? ? ?]
    end
  end.
Ltac copy_fields S into := intros P h r a Hr; unfold S in *; destruct_conj; unfold into;
  repeat copy_field; apply yields_give; split_conj; cbn; try assumption; by_growth.
#[export] Instance copies_OwnerReference : Copies shows_OwnerReference OwnerReference_DeepCopyInto.
Proof. copy_fields shows_OwnerReference OwnerReference_DeepCopyInto. Qed.
#[export] Instance copies_ObjectMeta : Copies shows_ObjectMeta ObjectMeta_DeepCopyInto.
Proof. copy_fields shows_ObjectMeta ObjectMeta_DeepCopyInto. Qed.
#[export] Instance copies_ListMeta : Copies shows_ListMeta ListMeta_DeepCopyInto.
Proof. copy_fields shows_ListMeta ListMeta_DeepCopyInto. Qed.
#[export] Instance copies_Resources : Copies shows_Resources ResourceRequirements_DeepCopyInto.
Proof. copy_fields shows_Resources ResourceRequirements_DeepCopyInto. Qed.
#[export] Instance copies_Toleration : Copies shows_Toleration Toleration_DeepCopyInto.
Proof. copy_fields shows_Toleration Toleration_DeepCopyInto. Qed.
#[export] Instance copies_ContainerOverride : Copies shows_ContainerOverride ContainerOverride_DeepCopyInto.
Proof. copy_fields shows_ContainerOverride ContainerOverride_DeepCopyInto. Qed.
#[export] Instance copies_DeploymentOverride : Copies shows_DeploymentOverride DeploymentOverride_DeepCopyInto.
Proof. copy_fields shows_DeploymentOverride DeploymentOverride_DeepCopyInto. Qed.
#[export] Instance copies_DeploymentOverrides : Copies shows_DeploymentOverrides DeploymentOverrides_DeepCopyInto.
Proof. copy_fields shows_DeploymentOverrides DeploymentOverrides_DeepCopyInto. Qed.
#[export] Instance copies_VPASpec : Copies shows_VPASpec VPASpec_DeepCopyInto.
Proof. copy_fields shows_VPASpec VPASpec_DeepCopyInto. Qed.
#[export] Instance copies_VPA : Copies shows_VPA VPA_DeepCopyInto.
Proof. copy_fields shows_VPA VPA_DeepCopyInto. Qed.
#[export] Instance copies_VPAList : Copies shows_VPAList VPAList_DeepCopyInto.
Proof. copy_fields shows_VPAList VPAList_DeepCopyInto. Qed.
#[export] Instance copies_VPAStatus : Copies plain VPAStatus_DeepCopyInto.
Proof. exact copies_plain. Qed.

(** ** Isolation *)

Definition anywhere : loc -> Prop := fun _ => True.
(** A pointer to a value is copied to a pointer to the same value, in new cells:
    whatever is written to cells of the copy, the original reads as before, and
    whatever is written to the cells there were before, the copy does.  Nil is
    copied to nil. *)
Definition isolated {R A} `{Cell R} (S : shows R A) (DeepCopy : option loc -> mem (option loc)) : Prop :=
  (forall h, DeepCopy None h = Some (None, h)) /\
  forall h l a, pointer S anywhere h (Some l) (Some a) ->
  exists l' k, DeepCopy (Some l) h = Some (Some l', h ++ k) /\
    (forall h', (forall i, (i < length h)%nat -> h' !! i = h !! i) ->
       pointer S anywhere h' (Some l) (Some a)) /\
    (forall h', (forall i, (length h <= i)%nat -> h' !! i = (h ++ k) !! i) ->
       pointer S anywhere h' (Some l') (Some a)).

Lemma copies_isolated {R A} `{Cell R} (S : shows R A) into :
  Framed S -> Copies S into -> isolated S (copy_pointer into).
Proof.
  intros HF HC. split; [done|]. intros h l a Hp.
  destruct (copies (into:=copy_pointer into) anywhere h (Some l) (Some a) Hp) as (p & k & Hrun & Hcopy).
  destruct p as [l'|]; [|done]. exists l', k. split; [done|]. split; intros h' Hh'.
  - eapply frame; [| |exact Hp]; [|done]. intros i c _ Hc. rewrite Hh'; [done|].
    by apply lookup_lt_Some in Hc.
  - eapply frame; [| |exact Hcopy]; [|done]. intros i c Hi Hc. by rewrite Hh'.
Qed.
Lemma interface_isolated {R A} `{Cell R} (S : shows R A) DeepCopy :
  isolated S DeepCopy -> isolated S (interface_of DeepCopy).
Proof.
  intros [Hnil Hcopy]. split.
  - intros h. unfold interface_of, chain. by rewrite Hnil.
  - intros h l a Hp. destruct (Hcopy h l a Hp) as (l' & k & Hrun & ?). exists l', k. split; [|done].
    unfold interface_of, chain. by rewrite Hrun.
Qed.

(** C40 Deep copies are equal and isolated, for every type of the API package:
    the copy reads as the same value, the original still does, and no later write
    to the cells of one can be seen through the other, even where the original
    shares maps, slices or variables between its fields. *)
Theorem DeepCopy_isolated :
  isolated shows_VPA VPA_DeepCopyObject /\ isolated shows_VPAList VPAList_DeepCopyObject /\
  isolated shows_VPA VPA_DeepCopy /\ isolated shows_VPAList VPAList_DeepCopy /\
  isolated shows_VPASpec VPASpec_DeepCopy /\
  isolated (R := VerticalPodAutoscalerControllerStatus)
    (plain (A := VerticalPodAutoscalerControllerStatus)) VPAStatus_DeepCopy /\
  isolated shows_DeploymentOverrides DeploymentOverrides_DeepCopy /\
  isolated shows_DeploymentOverride DeploymentOverride_DeepCopy /\
  isolated shows_ContainerOverride ContainerOverride_DeepCopy.
Proof.
  split_conj; [apply interface_isolated | apply interface_isolated | ..].
  - exact (copies_isolated shows_VPA VPA_DeepCopyInto _ _).
  - exact (copies_isolated shows_VPAList VPAList_DeepCopyInto _ _).
  - exact (copies_isolated shows_VPA VPA_DeepCopyInto _ _).
  - exact (copies_isolated shows_VPAList VPAList_DeepCopyInto _ _).
  - exact (copies_isolated shows_VPASpec VPASpec_DeepCopyInto _ _).
  - exact (copies_isolated (R := VerticalPodAutoscalerControllerStatus) plain VPAStatus_DeepCopyInto _ _).
  - exact (copies_isolated shows_DeploymentOverrides DeploymentOverrides_DeepCopyInto _ _).
  - exact (copies_isolated shows_DeploymentOverride DeploymentOverride_DeepCopyInto _ _).
  - exact (copies_isolated shows_ContainerOverride ContainerOverride_DeepCopyInto _ _).
Qed.

(** Two overrides that share a node selector. *)
Definition example_override : DeploymentOverrideM :=
  mkDeploymentOverrideM (mkContainerOverrideM None (mkResourcesM None None None)) (Some 0%nat) None.
Definition example_plain_override : DeploymentOverrideM :=
  mkDeploymentOverrideM (mkContainerOverrideM None (mkResourcesM None None None)) None None.
Definition example_selector : gmap string string := {["kubernetes.io/os" := "linux"]}.
Definition example_memory : heap :=
  [CStringMap example_selector;
   CDeploymentOverrides (mkDeploymentOverridesM example_override example_plain_override example_override)].
Definition example_value : DeploymentOverrides :=
  let o := mkDeploymentOverride (mkContainerOverride [] zero_ResourceRequirements) (mkmap example_selector) [] in
  mkDeploymentOverrides o zero_DeploymentOverride o.
(** The copy has a selector for each; emptying them leaves the original alone. *)
Lemma DeepCopy_isolated_witness :
  DeploymentOverrides_DeepCopy (Some 1%nat) example_memory =
    Some (Some 4%nat, example_memory ++
      [CStringMap example_selector; CStringMap example_selector;
       CDeploymentOverrides (mkDeploymentOverridesM
         (mkDeploymentOverrideM (mkContainerOverrideM None (mkResourcesM None None None)) (Some 2%nat) None)
         example_plain_override
         (mkDeploymentOverrideM (mkContainerOverrideM None (mkResourcesM None None None)) (Some 3%nat) None))]) /\
  pointer shows_DeploymentOverrides anywhere
    (example_memory ++ [CStringMap ∅; CStringMap ∅; CBool false]) (Some 1%nat) (Some example_value).
Proof.
  split; [vm_compute; reflexivity|].
  destruct DeepCopy_isolated as (_ & _ & _ & _ & _ & _ & [_ Hiso] & _).
  assert (Hp : pointer shows_DeploymentOverrides anywhere example_memory (Some 1%nat) (Some example_value)).
  { split; [exact I|]. eexists. split; [reflexivity|]. repeat split. }
  destruct (Hiso example_memory 1%nat example_value Hp) as (l' & k & _ & Horig & _).
  apply Horig. intros [|[|i]] Hi; [reflexivity..|]. simpl in Hi. lia.
Defined.
