(* ===== verification/DeepEqual.v ===== *)
(** * Semantic deep equality, as it is computed

    [equality.Semantic.DeepEqual] of k8s.io/apimachinery walks two Go values by
    reflection.  It skips comparisons whose outcome is known: equal addresses,
    slices and maps with the same pointer, and pairs of addresses that it has
    visited before, whether that comparison is over or still under way.  Here the
    walk is a function on values as reflection sees them, with their addresses.
    It is shown to compute the plain structural equality, and that to be the
    equality [sem_eqb] of Go.v that the rest of this library uses. *)

From S2P Require Import Prelude Go GoFmt Objects.

(** ** Values, as reflection shows them *)

(** A value's type, and its address if it has one ([CanAddr]): the target of a
    pointer, an element of a slice, a field of such. *)
Record head := mkHead { hd_type : string; hd_addr : option nat }.
(** Values that are compared as a whole; the fields of a struct that Objects.v
    keeps as [Others], and what is inside a quantity or a time, are. *)
Inductive atom :=
| AString (s : string) | ABool (b : bool) | AInt (z : Z)
| AQuantity (q : Quantity) | ATime (t : Time) | AOthers (o : Others).
#[export] Instance atom_eq_dec : EqDecision atom.
Proof. solve_decision. Defined.

#[local] Set Warnings "-register-all".
(** A value by its kind.  A slice or map that is not nil has a pointer. *)
Inductive rvalue :=
| RAtom (h : head) (a : atom)
| RFunc (h : head) (IsNil : bool)
| RPtr (h : head) (Elem : option rvalue)
| RInterface (h : head) (Elem : option rvalue)
| RArray (h : head) (Index : list rvalue)
| RStruct (h : head) (Field : list rvalue)
| RSlice (h : head) (s : option (nat * list rvalue))
| RMap (h : head) (m : option (nat * list string * list rvalue)).   (* keys and elements *)

Definition rhead (v : rvalue) : head :=
  match v with
  | RAtom h _ | RFunc h _ | RPtr h _ | RInterface h _ | RArray h _ | RStruct h _
  | RSlice h _ | RMap h _ => h
  end.
Definition rType (v : rvalue) : string := hd_type (rhead v).

(** The parts of a value that the walk may enter. *)
Definition parts (v : rvalue) : list rvalue :=
  match v with
  | RAtom _ _ | RFunc _ _ => []
  | RPtr _ o | RInterface _ o => option_list o
  | RArray _ l | RStruct _ l => l
  | RSlice _ s => match s with Some (_, l) => l | None => [] end
  | RMap _ m => match m with Some (_, _, l) => l | None => [] end
  end.

(** [v.MapIndex(k)]: the invalid value when there is no such key. *)
Fixpoint MapIndex (k : string) (keys : list string) (vals : list rvalue) : option rvalue :=
  match keys, vals with
  | k' :: keys, v :: vals => if bool_decide (k = k') then Some v else MapIndex k keys vals
  | _, _ => None
  end.

(** ** The walk *)

(** [Equalities]: equality functions by type. *)
Abbreviation Equalities := (gmap string (rvalue -> rvalue -> bool)) (only parsing).
Definition AddFunc (e : Equalities) (f : string * (rvalue -> rvalue -> bool)) : Equalities :=
  <[f.1 := f.2]> e.
Definition EqualitiesOrDie (funcs : list (string * (rvalue -> rvalue -> bool))) : Equalities :=
  foldl AddFunc ∅ funcs.

(** [visit]: two addresses and the type of the values there. *)
Definition visit : Type := nat * nat * string.

(** [hard]. *)
Definition hard (v : rvalue) : bool :=
  match v with RArray _ _ | RMap _ _ | RSlice _ _ | RStruct _ _ => true | _ => false end.

(** What the addresses of the two values settle, and the visit to remember. *)
Definition visiting (v1 v2 : rvalue) (visited : gset visit) : option bool * gset visit :=
  match hd_addr (rhead v1), hd_addr (rhead v2) with
  | Some addr1, Some addr2 =>
      if hard v1 then
        let v := ((if (addr2 <? addr1)%nat then (addr2, addr1) else (addr1, addr2)), rType v1) in
        if (addr1 =? addr2)%nat then (Some true, visited)
        else if bool_decide (v ∈ visited) then (Some true, visited)
        else (None, {[v]} ∪ visited)
      else (None, visited)
  | _, _ => (None, visited)
  end.

(** What nil-ness and lengths settle for two slices or two maps; the sources say
    the same twice.  A length is [None] for nil. *)
Definition sizes (equateNilAndEmpty : bool) (n1 n2 : option nat) : option bool :=
  let len n := default 0%nat n in
  if equateNilAndEmpty then
    if negb (Bool.eqb (len n1 =? 0)%nat (len n2 =? 0)%nat) then Some false
    else if (len n1 =? 0)%nat then Some true
    else if negb (len n1 =? len n2)%nat then Some false else None
  else
    let IsNil n := match n with None => true | Some _ => false end in
    if negb (Bool.eqb (IsNil n1) (IsNil n2)) then Some false
    else if IsNil n1 then Some true
    else if (len n1 =? 0)%nat || (len n2 =? 0)%nat then Some true
    else if negb (len n1 =? len n2)%nat then Some false else None.

(** The loops over elements, fields and keys: the first difference ends them. *)
Section Each.
Context (equal : rvalue -> rvalue -> gset visit -> bool * gset visit).
Fixpoint each (l1 : list rvalue) (l2 : list (option rvalue)) (visited : gset visit) :
    bool * gset visit :=
  match l1, l2 with
  | [], [] => (true, visited)
  | v1 :: l1, Some v2 :: l2 =>
      match equal v1 v2 visited with
      | (true, visited) => each l1 l2 visited
      | (false, visited) => (false, visited)
      end
  | _, _ => (false, visited)
  end.
End Each.

Section Walk.
Context (e : Equalities) (equateNilAndEmpty : bool).

(** The lengths of slices and maps. *)
Definition slice_len (s : option (nat * list rvalue)) : option nat := length ∘ snd <$> s.
Definition map_len (m : option (nat * list string * list rvalue)) : option nat := length ∘ snd <$> m.

Fixpoint deepValueEqual (v1 v2 : rvalue) (visited : gset visit) {struct v1} : bool * gset visit :=
  if negb (bool_decide (rType v1 = rType v2)) then (false, visited)
  else match e !! rType v1 with Some fv => (fv v1 v2, visited) | None =>
  match visiting v1 v2 visited with
  | (Some known, visited) => (known, visited)
  | (None, visited) =>
  match v1, v2 with
  | RArray _ l1, RArray _ l2 => each deepValueEqual l1 (map Some l2) visited
  | RSlice _ s1, RSlice _ s2 =>
      match sizes equateNilAndEmpty (slice_len s1) (slice_len s2) with
      | Some known => (known, visited)
      | None =>
          match s1, s2 with
          | Some (p1, l1), Some (p2, l2) =>
              if (p1 =? p2)%nat then (true, visited)
              else each deepValueEqual l1 (map Some l2) visited
          | _, _ => (false, visited)
          end
      end
  | RInterface _ o1, RInterface _ o2 | RPtr _ o1, RPtr _ o2 =>
      match o1, o2 with
      | Some v1, Some v2 => deepValueEqual v1 v2 visited
      | None, None => (true, visited)
      | _, _ => (false, visited)
      end
  | RStruct _ l1, RStruct _ l2 => each deepValueEqual l1 (map Some l2) visited
  | RMap _ m1, RMap _ m2 =>
      match sizes equateNilAndEmpty (map_len m1) (map_len m2) with
      | Some known => (known, visited)
      | None =>
          match m1, m2 with
          | Some (p1, keys1, l1), Some (p2, keys2, l2) =>
              if (p1 =? p2)%nat then (true, visited)
              else each deepValueEqual l1 (map (fun k => MapIndex k keys2 l2) keys1) visited
          | _, _ => (false, visited)
          end
      end
  | RFunc _ nil1, RFunc _ nil2 => (nil1 && nil2, visited)
  | RAtom _ a1, RAtom _ a2 => (bool_decide (a1 = a2), visited)
  | _, _ => (false, visited)                (* values of one type have one kind *)
  end
  end
  end.

(** [deepEqual] on two interface values. *)
Definition deepEqual (a1 a2 : option rvalue) : bool :=
  match a1, a2 with
  | Some v1, Some v2 =>
      if negb (bool_decide (rType v1 = rType v2)) then false
      else (deepValueEqual v1 v2 ∅).1
  | None, None => true
  | _, _ => false
  end.

(** *** Structural equality *)

(** The same without looking at an address. *)
Section All.
Context (equal : rvalue -> rvalue -> bool).
Fixpoint all_equal (l1 : list rvalue) (l2 : list (option rvalue)) : bool :=
  match l1, l2 with
  | [], [] => true
  | v1 :: l1, Some v2 :: l2 => equal v1 v2 && all_equal l1 l2
  | _, _ => false
  end.
End All.

Fixpoint same (v1 v2 : rvalue) {struct v1} : bool :=
  if negb (bool_decide (rType v1 = rType v2)) then false
  else match e !! rType v1 with Some fv => fv v1 v2 | None =>
  match v1, v2 with
  | RArray _ l1, RArray _ l2 | RStruct _ l1, RStruct _ l2 => all_equal same l1 (map Some l2)
  | RSlice _ s1, RSlice _ s2 =>
      match sizes equateNilAndEmpty (slice_len s1) (slice_len s2) with
      | Some known => known
      | None =>
          match s1, s2 with
          | Some (_, l1), Some (_, l2) => all_equal same l1 (map Some l2)
          | _, _ => false
          end
      end
  | RInterface _ o1, RInterface _ o2 | RPtr _ o1, RPtr _ o2 =>
      match o1, o2 with
      | Some v1, Some v2 => same v1 v2
      | None, None => true
      | _, _ => false
      end
  | RMap _ m1, RMap _ m2 =>
      match sizes equateNilAndEmpty (map_len m1) (map_len m2) with
      | Some known => known
      | None =>
          match m1, m2 with
          | Some (_, keys1, l1), Some (_, keys2, l2) =>
              all_equal same l1 (map (fun k => MapIndex k keys2 l2) keys1)
          | _, _ => false
          end
      end
  | RFunc _ nil1, RFunc _ nil2 => nil1 && nil2
  | RAtom _ a1, RAtom _ a2 => bool_decide (a1 = a2)
  | _, _ => false
  end
  end.
End Walk.

(** ** The walk computes structural equality *)

Fixpoint rsize (v : rvalue) : nat :=
  let total := foldr (fun v n => (rsize v + n)%nat) 0%nat in
  S match v with
    | RAtom _ _ | RFunc _ _ => 0
    | RPtr _ o | RInterface _ o => match o with Some v => rsize v | None => 0 end
    | RArray _ l | RStruct _ l => total l
    | RSlice _ s => match s with Some (_, l) => total l | None => 0 end
    | RMap _ m => match m with Some (_, _, l) => total l | None => 0 end
    end.

Lemma part_size v x : x ∈ parts v -> (rsize x < rsize v)%nat.
Proof.
  assert (Hl : forall l, x ∈ l -> (rsize x <= foldr (fun v n => (rsize v + n)%nat) 0%nat l)%nat).
  { induction l as [|y l IH]; [by intros ?%elem_of_nil|]. intros [->|?]%elem_of_cons; simpl; [lia|].
    specialize (IH ltac:(done)). lia. }
  destruct v as [| |h [y|]|h [y|]|h l|h l|h [[p l]|]|h [[[p keys] l]|]]; simpl; intros Hx;
    try (by apply elem_of_nil in Hx); try (apply Hl in Hx; lia);
    apply list_elem_of_singleton in Hx as ->; lia.
Qed.
Lemma rvalue_parts_ind (P : rvalue -> Prop) :
  (forall v, (forall x, x ∈ parts v -> P x) -> P v) -> forall v, P v.
Proof.
  intros Hstep. assert (Hn : forall n v, (rsize v < n)%nat -> P v).
  { induction n as [|n IH]; intros v Hv; [lia|]. apply Hstep. intros x Hx%part_size. apply IH. lia. }
  intros v. apply (Hn (S (rsize v))). lia.
Qed.

(** What a loop finds. *)
Lemma all_equal_Forall2 f l1 l2 :
  all_equal f l1 l2 = true <-> Forall2 (fun v1 o => exists v2, o = Some v2 /\ f v1 v2 = true) l1 l2.
Proof.
  revert l2; induction l1 as [|v1 l1 IH]; intros [|o l2]; cbn [all_equal].
  - split; [constructor | done].
  - split; [done | by intros ?%Forall2_nil_cons_inv].
  - split; [done | by intros ?%Forall2_cons_nil_inv].
  - rewrite Forall2_cons, <- IH. destruct o as [v2|].
    + rewrite andb_true_iff. split; [intros [? ?]; eauto|]. by intros [(? & [= <-] & ?) ?].
    + split; [done|]. by intros [(? & ? & _) _].
Qed.
Lemma all_equal_values f l1 l2 :
  all_equal f l1 (map Some l2) = true <-> Forall2 (fun v1 v2 => f v1 v2 = true) l1 l2.
Proof.
  rewrite all_equal_Forall2. change (map Some l2) with (Some <$> l2). rewrite Forall2_fmap_r.
  split; intros Hl; (eapply Forall2_impl; [exact Hl|]); intros v1 v2; [by intros (? & [= <-] & ?) | eauto].
Qed.
Lemma MapIndex_lookup k keys vals v :
  NoDup keys -> length keys = length vals ->
  MapIndex k keys vals = Some v <-> exists i, keys !! i = Some k /\ vals !! i = Some v.
Proof.
  revert vals; induction keys as [|k' keys IH]; intros [|v' vals] Hnd Hlen; try done; cbn [MapIndex].
  { split; [done|]. by intros (i & ? & _). }
  apply NoDup_cons in Hnd as [Hk' Hnd]. injection Hlen as Hlen. case_bool_decide as Hk.
  - subst k'. split; [intros [= <-]; by exists 0%nat|]. intros ([|i] & Hi & Hv); [by simplify_eq/=|].
    exfalso. apply Hk'. by eapply list_elem_of_lookup_2.
  - rewrite IH by done. split; intros (i & Hi & Hv); [by exists (S i)|].
    destruct i as [|i]; [by simplify_eq/= | by exists i].
Qed.
Lemma MapIndex_part k keys vals v : MapIndex k keys vals = Some v -> v ∈ vals.
Proof.
  revert vals; induction keys as [|k' keys IH]; intros [|v' vals]; try done. cbn [MapIndex].
  case_bool_decide; [intros [= <-]; apply list_elem_of_here | intros; by apply list_elem_of_further, IH].
Qed.

(** What the kinds settle, or else what the parts of the first are compared with. *)
Definition against (ne : bool) (v1 v2 : rvalue) : bool + list (option rvalue) :=
  match v1, v2 with
  | RArray _ _, RArray _ l2 | RStruct _ _, RStruct _ l2 => inr (map Some l2)
  | RSlice _ s1, RSlice _ s2 =>
      match sizes ne (slice_len s1) (slice_len s2) with
      | Some known => inl known
      | None => match s1, s2 with Some _, Some (_, l2) => inr (map Some l2) | _, _ => inl false end
      end
  | RInterface _ o1, RInterface _ o2 | RPtr _ o1, RPtr _ o2 =>
      match o1, o2 with
      | Some _, Some v2 => inr [Some v2]
      | None, None => inl true
      | _, _ => inl false
      end
  | RMap _ m1, RMap _ m2 =>
      match sizes ne (map_len m1) (map_len m2) with
      | Some known => inl known
      | None =>
          match m1, m2 with
          | Some (_, keys1, _), Some (_, keys2, l2) => inr (map (fun k => MapIndex k keys2 l2) keys1)
          | _, _ => inl false
          end
      end
  | RFunc _ nil1, RFunc _ nil2 => inl (nil1 && nil2)
  | RAtom _ a1, RAtom _ a2 => inl (bool_decide (a1 = a2))
  | _, _ => inl false
  end.
(** Slices or maps with one pointer. *)
Definition same_pointer (v1 v2 : rvalue) : bool :=
  match v1, v2 with
  | RSlice _ (Some (p1, _)), RSlice _ (Some (p2, _)) => (p1 =? p2)%nat
  | RMap _ (Some (p1, _, _)), RMap _ (Some (p2, _, _)) => (p1 =? p2)%nat
  | _, _ => false
  end.

Lemma same_unfold e ne v1 v2 :
  same e ne v1 v2 =
  if negb (bool_decide (rType v1 = rType v2)) then false
  else match e !! rType v1 with
  | Some fv => fv v1 v2
  | None =>
      match against ne v1 v2 with
      | inl known => known
      | inr l2 => all_equal (same e ne) (parts v1) l2
      end
  end.
Proof.
  destruct v1 as [h1 a1|h1 b1|h1 o1|h1 o1|h1 l1|h1 l1|h1 s1|h1 s1], v2; cbn [same];
    (case_match; [done|]); (case_match; [done|]); try reflexivity; cbn [against].
  - destruct o1, Elem; cbn; rewrite ?andb_true_r; done.
  - destruct o1, Elem; cbn; rewrite ?andb_true_r; done.
  - destruct (sizes _ _ _); [done|]. by destruct s1 as [[? ?]|], s as [[? ?]|].
  - destruct (sizes _ _ _); [done|]. by destruct s1 as [[[? ?] ?]|], m as [[[? ?] ?]|].
Qed.
Lemma walk_unfold e ne v1 v2 visited :
  deepValueEqual e ne v1 v2 visited =
  if negb (bool_decide (rType v1 = rType v2)) then (false, visited)
  else match e !! rType v1 with
  | Some fv => (fv v1 v2, visited)
  | None =>
      match visiting v1 v2 visited with
      | (Some known, visited) => (known, visited)
      | (None, visited) =>
          match against ne v1 v2 with
          | inl known => (known, visited)
          | inr l2 =>
              if same_pointer v1 v2 then (true, visited)
              else each (deepValueEqual e ne) (parts v1) l2 visited
          end
      end
  end.
Proof.
  destruct v1 as [h1 a1|h1 b1|h1 o1|h1 o1|h1 l1|h1 l1|h1 s1|h1 s1], v2; cbn [deepValueEqual];
    (case_match; [done|]); (case_match; [done|]); (destruct (visiting _ _ _) as [[known|] visited']; [done|]);
    try reflexivity; cbn [against same_pointer].
  - destruct o1, Elem; cbn; try done. by destruct (deepValueEqual _ _ _ _ _) as [[] ?].
  - destruct o1, Elem; cbn; try done. by destruct (deepValueEqual _ _ _ _ _) as [[] ?].
  - destruct (sizes _ _ _); [done|]. by destruct s1 as [[? ?]|], s as [[? ?]|].
  - destruct (sizes _ _ _); [done|]. by destruct s1 as [[[? ?] ?]|], m as [[[? ?] ?]|].
Qed.
Lemma against_part ne v1 v2 l2 y : against ne v1 v2 = inr l2 -> Some y ∈ l2 -> y ∈ parts v2.
Proof.
  assert (Hvals : forall l, Some y ∈ map Some l -> y ∈ l).
  { intros l (x & [= ->] & Hx)%list_elem_of_fmap. done. }
  destruct v1 as [h1 a1|h1 b1|h1 o1|h1 o1|h1 l1|h1 l1|h1 s1|h1 s1],
    v2 as [h2 a2|h2 b2|h2 o2|h2 o2|h2 l2'|h2 l2'|h2 s2|h2 s2]; cbn [against parts]; try done.
  - destruct o1, o2 as [x|]; try done. intros [= <-] [= ->]%list_elem_of_singleton. by apply list_elem_of_singleton.
  - destruct o1, o2 as [x|]; try done. intros [= <-] [= ->]%list_elem_of_singleton. by apply list_elem_of_singleton.
  - intros [= <-]. apply Hvals.
  - intros [= <-]. apply Hvals.
  - destruct (sizes _ _ _); [done|]. destruct s1 as [[? ?]|], s2 as [[? l3]|]; try done.
    intros [= <-]. apply Hvals.
  - destruct (sizes _ _ _); [done|]. destruct s1 as [[[? ?] ?]|], s2 as [[[? ?] l3]|]; try done.
    intros [= <-] (k & Hk & _)%list_elem_of_fmap. by eapply MapIndex_part.
Qed.

(** *** Memory *)

(** What is at an address (one per type: a struct and its first field have the
    same), and behind the pointers of slices and maps. *)
Record memory := mkMemory {
  m_var : nat -> string -> option rvalue;
  m_slice : nat -> string -> nat -> option (list rvalue);
  m_map : nat -> string -> option (list string * list rvalue)
}.

Section Memory.
Context (m : memory).

(** A value as it lies in memory; a map has no key twice. *)
Definition stored_here (v : rvalue) : Prop :=
  (forall a, hd_addr (rhead v) = Some a -> m_var m a (rType v) = Some v) /\
  match v with
  | RSlice h (Some (p, l)) => m_slice m p (hd_type h) (length l) = Some l
  | RMap h (Some (p, keys, l)) =>
      m_map m p (hd_type h) = Some (keys, l) /\ NoDup keys /\ length keys = length l
  | _ => True
  end.
Inductive stored (v : rvalue) : Prop :=
  Stored : stored_here v -> (forall x, x ∈ parts v -> stored x) -> stored v.

Lemma stored_address v1 v2 a :
  stored v1 -> stored v2 -> rType v1 = rType v2 ->
  hd_addr (rhead v1) = Some a -> hd_addr (rhead v2) = Some a -> v1 = v2.
Proof.
  intros [[H1 _] _] [[H2 _] _] Ht Ha1 Ha2. specialize (H1 a Ha1). specialize (H2 a Ha2). congruence.
Qed.
Lemma stored_part v x : stored v -> x ∈ parts v -> stored x.
Proof. intros [_ Hp]. apply Hp. Qed.

(** *** Structural equality is symmetric *)

Context (e : Equalities) (ne : bool).
Hypothesis registered_sym : forall ty f, e !! ty = Some f -> forall v1 v2, f v1 v2 = f v2 v1.
#[local] Abbreviation same := (same e ne).

Lemma sizes_sym n1 n2 : sizes ne n1 n2 = sizes ne n2 n1.
Proof.
  unfold sizes. rewrite (Nat.eqb_sym (default 0%nat n1) (default 0%nat n2)).
  destruct ne, n1 as [[|n1]|], n2 as [[|n2]|]; try reflexivity.
Qed.
Lemma sizes_open n1 n2 :
  sizes ne n1 n2 = None -> default 0%nat n1 = default 0%nat n2 /\ is_Some n1 /\ is_Some n2.
Proof.
  unfold sizes. intros Hs. destruct ne, n1 as [[|n1]|], n2 as [[|n2]|]; cbn in Hs |- *; try done.
  all: destruct (Nat.eqb_spec n1 n2) as [->|]; [eauto | done].
Qed.

Lemma Forall2_same_sym l1 l2 :
  (forall x, x ∈ l1 -> forall y, y ∈ l2 -> same x y = true -> same y x = true) ->
  Forall2 (fun v1 v2 => same v1 v2 = true) l1 l2 -> Forall2 (fun v1 v2 => same v1 v2 = true) l2 l1.
Proof.
  intros Hx Hl. induction Hl as [|x y l1 l2 Hxy _ IH]; constructor.
  - apply Hx; [apply list_elem_of_here.. | done].
  - apply IH. intros x' ? y' ?. apply Hx; by apply list_elem_of_further.
Qed.
(** Two maps with as many keys each, if each key of the first is in the second. *)
Definition entries_same keys1 l1 keys2 l2 : Prop :=
  Forall2 (fun v1 o => exists v2, o = Some v2 /\ same v1 v2 = true) l1
    (map (fun k => MapIndex k keys2 l2) keys1).
Lemma entries_same_sym keys1 l1 keys2 l2 :
  NoDup keys1 -> NoDup keys2 -> length keys1 = length l1 -> length keys2 = length l2 ->
  length l1 = length l2 ->
  (forall x, x ∈ l1 -> forall y, y ∈ l2 -> same x y = true -> same y x = true) ->
  entries_same keys1 l1 keys2 l2 -> entries_same keys2 l2 keys1 l1.
Proof.
  intros Hn1 Hn2 Hl1 Hl2 Hl Hsym He.
  assert (Hfind : forall i k v1, keys1 !! i = Some k -> l1 !! i = Some v1 ->
    exists v2, MapIndex k keys2 l2 = Some v2 /\ same v1 v2 = true).
  { intros i k v1 Hk Hv. unfold entries_same in He. rewrite Forall2_lookup in He. specialize (He i).
    change (map ?f keys1) with (f <$> keys1) in He. rewrite list_lookup_fmap, Hk, Hv in He.
    simpl in He. inversion He; subst. eauto. }
  assert (Hperm : keys1 ≡ₚ keys2).
  { apply submseteq_length_Permutation; [|lia]. apply NoDup_submseteq; [done|].
    intros k Hk. apply list_elem_of_lookup in Hk as [i Hi].
    destruct (lookup_lt_is_Some_2 l1 i) as [v1 Hv1]; [rewrite <- Hl1; by eapply lookup_lt_Some|].
    destruct (Hfind i k v1 Hi Hv1) as (v2 & Hv2 & _).
    apply MapIndex_lookup in Hv2 as (j & Hj & _); [|done..]. by eapply list_elem_of_lookup_2. }
  unfold entries_same. rewrite Forall2_lookup. intros j. change (map ?f keys2) with (f <$> keys2).
  rewrite list_lookup_fmap. destruct (keys2 !! j) as [k|] eqn:Hk2; simpl.
  - destruct (lookup_lt_is_Some_2 l2 j) as [v2 Hv2]; [rewrite <- Hl2; by eapply lookup_lt_Some|].
    rewrite Hv2. constructor.
    assert (Hk1 : k ∈ keys1) by (rewrite Hperm; by eapply list_elem_of_lookup_2).
    apply list_elem_of_lookup in Hk1 as [i Hi].
    destruct (lookup_lt_is_Some_2 l1 i) as [v1 Hv1]; [rewrite <- Hl1; by eapply lookup_lt_Some|].
    exists v1. split; [apply MapIndex_lookup; eauto|].
    destruct (Hfind i k v1 Hi Hv1) as (v2' & Hv2' & Hs).
    assert (MapIndex k keys2 l2 = Some v2) as Hv2'' by (apply MapIndex_lookup; eauto).
    rewrite Hv2'' in Hv2'. injection Hv2' as <-.
    apply Hsym; [by eapply list_elem_of_lookup_2.. | done].
  - apply lookup_ge_None in Hk2. rewrite (lookup_ge_None_2 l2) by lia. constructor.
Qed.

Lemma against_sym v1 v2 :
  stored v1 -> stored v2 ->
  (forall x, x ∈ parts v1 -> forall y, y ∈ parts v2 -> same x y = true -> same y x = true) ->
  match against ne v1 v2 with
  | inl b => against ne v2 v1 = inl b
  | inr l2 => all_equal same (parts v1) l2 = true ->
      exists l1, against ne v2 v1 = inr l1 /\ all_equal same (parts v2) l1 = true
  end.
Proof.
  intros [[_ H1] _] [[_ H2] _] Hsym.
  destruct v1 as [h1 a1|h1 b1|h1 o1|h1 o1|h1 l1|h1 l1|h1 s1|h1 s1],
    v2 as [h2 a2|h2 b2|h2 o2|h2 o2|h2 l2|h2 l2|h2 s2|h2 s2]; cbn [against parts] in *; try done.
  - f_equal. by apply bool_decide_ext.
  - f_equal. apply andb_comm.
  - destruct o1 as [x|], o2 as [y|]; cbn [option_list] in *; try done. intros Hxy. exists [Some x]. split; [done|].
    simpl in *. rewrite andb_true_r in *. apply Hsym; [apply list_elem_of_here.. | done].
  - destruct o1 as [x|], o2 as [y|]; cbn [option_list] in *; try done. intros Hxy. exists [Some x]. split; [done|].
    simpl in *. rewrite andb_true_r in *. apply Hsym; [apply list_elem_of_here.. | done].
  - rewrite all_equal_values. intros Hl. exists (map Some l1). split; [done|].
    rewrite all_equal_values. by apply Forall2_same_sym.
  - rewrite all_equal_values. intros Hl. exists (map Some l1). split; [done|].
    rewrite all_equal_values. by apply Forall2_same_sym.
  - rewrite (sizes_sym (slice_len s2)). destruct (sizes ne (slice_len s1) (slice_len s2)); [done|].
    destruct s1 as [[p1 l1]|], s2 as [[p2 l2]|]; try done.
    rewrite all_equal_values. intros Hl. exists (map Some l1). split; [done|].
    rewrite all_equal_values. by apply Forall2_same_sym.
  - rewrite (sizes_sym (map_len s2)). destruct (sizes ne (map_len s1) (map_len s2)) eqn:Hs; [done|].
    destruct s1 as [[[p1 keys1] l1]|], s2 as [[[p2 keys2] l2]|]; try done.
    destruct H1 as (_ & Hn1 & Hl1), H2 as (_ & Hn2 & Hl2).
    apply sizes_open in Hs as [Hs _]. simpl in Hs.
    rewrite all_equal_Forall2. intros Hl. eexists. split; [done|].
    rewrite all_equal_Forall2. by apply entries_same_sym.
Qed.

Lemma same_sym v1 v2 : stored v1 -> stored v2 -> same v1 v2 = true -> same v2 v1 = true.
Proof.
  revert v2. induction v1 as [v1 IH] using rvalue_parts_ind. intros v2 Hv1 Hv2.
  assert (Hparts : forall x, x ∈ parts v1 -> forall y, y ∈ parts v2 -> same x y = true -> same y x = true)
    by (intros x Hx y Hy; apply IH; [done | by apply (stored_part v1) | by apply (stored_part v2)]).
  rewrite !same_unfold. case_bool_decide as Ht; [|done]. rewrite <- Ht, bool_decide_eq_true_2 by done.
  destruct (e !! rType v1) as [f|] eqn:Hf; simpl; [by rewrite (registered_sym _ f Hf)|].
  pose proof (against_sym v1 v2 Hv1 Hv2 Hparts) as Ha.
  destruct (against ne v1 v2) as [b|l2]; [by rewrite Ha|]. intros Hl. by destruct (Ha Hl) as (l1 & -> & ?).
Qed.

(** *** What the walk remembers *)

(** A visit to these two values, in either order. *)
Definition between (x : visit) (n1 n2 : rvalue) : Prop :=
  stored n1 /\ stored n2 /\ rType n1 = x.2 /\ rType n2 = x.2 /\
  exists a1 a2, hd_addr (rhead n1) = Some a1 /\ hd_addr (rhead n2) = Some a2 /\
    (x.1 = (a1, a2) \/ x.1 = (a2, a1)).
(** The comparison is over, and found them equal. *)
Definition finished (x : visit) : Prop := exists n1 n2, between x n1 n2 /\ same n1 n2 = true.
(** The comparisons that are under way are of larger values than those to come. *)
Definition pending (visited : gset visit) (s1 s2 : nat) : Prop :=
  forall x, x ∈ visited ->
    finished x \/ exists n1 n2, between x n1 n2 /\ (s1 <= rsize n1)%nat /\ (s2 <= rsize n2)%nat.

Lemma pending_mono visited visited' s1 s2 s1' s2' :
  pending visited s1 s2 -> (s1' <= s1)%nat -> (s2' <= s2)%nat ->
  (forall x, x ∈ visited' -> x ∈ visited \/ finished x) -> pending visited' s1' s2'.
Proof.
  intros Hp H1 H2 Hv x [Hx|?]%Hv; [|by left]. destruct (Hp x Hx) as [?|(n1 & n2 & ? & ? & ?)]; [by left|].
  right. exists n1, n2. split; [done|]. lia.
Qed.

Lemma between_same x v1 v2 n1 n2 :
  between x v1 v2 -> between x n1 n2 -> (n1 = v1 /\ n2 = v2) \/ (n1 = v2 /\ n2 = v1).
Proof.
  intros (Sv1 & Sv2 & Tv1 & Tv2 & a1 & a2 & A1 & A2 & Ha) (Sn1 & Sn2 & Tn1 & Tn2 & b1 & b2 & B1 & B2 & Hb).
  assert (Hcase : (b1 = a1 /\ b2 = a2) \/ (b1 = a2 /\ b2 = a1)) by (destruct Ha, Hb; simplify_eq; intuition congruence).
  destruct Hcase as [[-> ->]|[-> ->]]; [left | right]; split; (eapply stored_address; [..|eassumption|eassumption]; congruence).
Qed.

Lemma visiting_correct v1 v2 visited :
  stored v1 -> stored v2 -> rType v1 = rType v2 -> same v1 v1 = true ->
  pending visited (S (rsize v1)) (S (rsize v2)) ->
  match visiting v1 v2 visited with
  | (Some known, visited') => known = true /\ same v1 v2 = true /\ visited' = visited
  | (None, visited') => forall x, x ∈ visited' -> x ∈ visited \/ between x v1 v2
  end.
Proof.
  intros S1 S2 Ht Hr Hp. unfold visiting.
  destruct (hd_addr (rhead v1)) as [a1|] eqn:A1, (hd_addr (rhead v2)) as [a2|] eqn:A2; try by left.
  destruct (hard v1); [|by left]. destruct (Nat.eqb_spec a1 a2) as [->|Ha].
  { split; [done|]. split; [|done]. by rewrite <- (stored_address v1 v2 a2 S1 S2 Ht A1 A2). }
  set (x := ((if (a2 <? a1)%nat then (a2, a1) else (a1, a2)), rType v1) : visit).
  assert (Hx : between x v1 v2).
  { split_and!; try done. exists a1, a2. split; [done|]. split; [done|].
    unfold x. simpl. destruct (a2 <? a1)%nat; auto. }
  case_bool_decide as Hin.
  - split; [done|]. split; [|done]. destruct (Hp x Hin) as [(n1 & n2 & Hn & Hs)|(n1 & n2 & Hn & H1 & H2)].
    + destruct (between_same x v1 v2 n1 n2 Hx Hn) as [[-> ->]|[-> ->]]; [done | by apply same_sym].
    + destruct (between_same x v1 v2 n1 n2 Hx Hn) as [[-> ->]|[-> ->]]; lia.
  - intros x' [->%elem_of_singleton|?]%elem_of_union; [by right | by left].
Qed.

Lemma sizes_open_same n1 n2 : sizes ne n1 n2 = None -> n1 = n2 /\ sizes ne n1 n1 = None.
Proof.
  intros Hs. destruct (sizes_open _ _ Hs) as (Hl & [x1 ->] & [x2 ->]). simpl in Hl. by subst.
Qed.
(** What is open against another value is open against the value itself. *)
Lemma against_self v1 v2 l2 :
  stored v1 -> against ne v1 v2 = inr l2 ->
  exists l1, against ne v1 v1 = inr l1 /\
    (all_equal same (parts v1) l1 = true -> forall x, x ∈ parts v1 -> same x x = true).
Proof.
  intros [[_ H1] _].
  assert (Hvals : forall l, all_equal same l (map Some l) = true -> forall x, x ∈ l -> same x x = true).
  { intros l. rewrite all_equal_values, Forall2_lookup. intros Hl x (i & Hi)%list_elem_of_lookup.
    specialize (Hl i). rewrite Hi in Hl. by inversion Hl. }
  destruct v1 as [h1 a1|h1 b1|h1 o1|h1 o1|h1 l1|h1 l1|h1 s1|h1 s1],
    v2 as [h2 a2|h2 b2|h2 o2|h2 o2|h2 l2'|h2 l2'|h2 s2|h2 s2]; cbn [against parts] in *; try done.
  - destruct o1 as [x|]; [|by destruct o2]. intros _. exists [Some x]. split; [done|].
    apply (Hvals [x]).
  - destruct o1 as [x|]; [|by destruct o2]. intros _. exists [Some x]. split; [done|].
    apply (Hvals [x]).
  - intros _. exists (map Some l1). split; [done | apply Hvals].
  - intros _. exists (map Some l1). split; [done | apply Hvals].
  - destruct (sizes ne (slice_len s1) (slice_len s2)) eqn:Hs; [done|]. apply sizes_open_same in Hs as [_ ->].
    destruct s1 as [[p1 l1]|]; [|done]. intros _. exists (map Some l1). split; [done | apply Hvals].
  - destruct (sizes ne (map_len s1) (map_len s2)) eqn:Hs; [done|]. apply sizes_open_same in Hs as [_ ->].
    destruct s1 as [[[p1 keys1] l1]|]; [|done]. intros _. eexists. split; [done|].
    rewrite all_equal_Forall2, Forall2_lookup. intros Hl x (i & Hi)%list_elem_of_lookup. specialize (Hl i).
    destruct H1 as (_ & Hn & Hlen).
    destruct (lookup_lt_is_Some_2 keys1 i) as [k Hk]; [rewrite Hlen; by eapply lookup_lt_Some|].
    change (map ?f keys1) with (f <$> keys1) in Hl. rewrite list_lookup_fmap, Hk, Hi in Hl. simpl in Hl.
    inversion Hl as [? ? (y & Hy & Hs) |]; subst.
    assert (Hx : MapIndex k keys1 l1 = Some x) by (apply MapIndex_lookup; eauto).
    rewrite Hx in Hy. by injection Hy as ->.
Qed.
Lemma same_pointer_self v1 v2 l2 :
  stored v1 -> stored v2 -> rType v1 = rType v2 -> against ne v1 v2 = inr l2 ->
  same_pointer v1 v2 = true -> against ne v1 v1 = inr l2.
Proof.
  intros [[_ H1] _] [[_ H2] _] Ht.
  destruct v1 as [| | | | | |h1 [[p1 l1]|]|h1 [[[p1 keys1] l1]|]], v2 as [| | | | | |h2 [[p2 l3]|]|h2 [[[p2 keys3] l3]|]];
    try done; cbn [against same_pointer] in *; intros Ha ->%Nat.eqb_eq; unfold rType in Ht; simpl in Ht.
  - destruct (sizes _ _ _) eqn:Hs; [done|]. apply sizes_open_same in Hs as [Hl ->].
    injection Ha as <-. simpl in Hl. injection Hl as Hl. rewrite Ht, Hl, H2 in H1. by simplify_eq.
  - destruct (sizes _ _ _) eqn:Hs; [done|]. apply sizes_open_same in Hs as [_ ->].
    injection Ha as <-. destruct H1 as [H1 _], H2 as [H2 _]. rewrite Ht, H2 in H1. by simplify_eq.
Qed.

(** *** The walk *)

Definition outcome (r : bool * gset visit) (b : bool) (visited : gset visit) : Prop :=
  r.1 = b /\ (b = true -> forall x, x ∈ r.2 -> x ∈ visited \/ finished x).
Definition correct (v1 : rvalue) : Prop := forall v2 visited,
  stored v1 -> stored v2 -> same v1 v1 = true -> pending visited (S (rsize v1)) (S (rsize v2)) ->
  outcome (deepValueEqual e ne v1 v2 visited) (same v1 v2) visited.

Lemma each_correct s1 s2 l1 l2 visited :
  (forall x, x ∈ l1 -> correct x /\ stored x /\ same x x = true /\ (S (rsize x) <= s1)%nat) ->
  (forall y, Some y ∈ l2 -> stored y /\ (S (rsize y) <= s2)%nat) ->
  pending visited s1 s2 ->
  outcome (each (deepValueEqual e ne) l1 l2 visited) (all_equal same l1 l2) visited.
Proof.
  revert l2 visited; induction l1 as [|x l1 IH]; intros [|[y|] l2] visited H1 H2 Hp;
    cbn [each all_equal]; try (by split; [done | auto]).
  destruct (H1 x (list_elem_of_here _ _)) as (Hx & Sx & Rx & Zx).
  destruct (H2 y (list_elem_of_here _ _)) as (Sy & Zy).
  destruct (Hx y visited Sx Sy Rx) as [Hb Hv]; [by eapply pending_mono; eauto|].
  destruct (deepValueEqual e ne x y visited) as [b visited']. simpl in Hb, Hv. subst b.
  destruct (same x y); [|by split]. simpl. specialize (Hv eq_refl).
  destruct (IH l2 visited') as [Hb Hv'].
  - intros x' ?. apply H1. by apply list_elem_of_further.
  - intros y' ?. apply H2. by apply list_elem_of_further.
  - by eapply pending_mono.
  - split; [done|]. intros Ht z [?|?]%(Hv' Ht); [by apply Hv | by right].
Qed.

Lemma walk_correct v1 : correct v1.
Proof.
  induction v1 as [v1 IH] using rvalue_parts_ind. intros v2 visited S1 S2 Hr Hp.
  rewrite walk_unfold, same_unfold. case_bool_decide as Ht; [|by split]. simpl.
  pose proof Hr as Hr'. rewrite same_unfold, bool_decide_eq_true_2 in Hr' by done. simpl in Hr'.
  destruct (e !! rType v1) as [f|] eqn:Hf; [split; [done | by left]|].
  pose proof (visiting_correct v1 v2 visited S1 S2 Ht Hr Hp) as Hvis.
  assert (Hs : same v1 v2 = match against ne v1 v2 with inl b => b | inr l2 => all_equal same (parts v1) l2 end)
    by (rewrite same_unfold, bool_decide_eq_true_2, Hf by done; done).
  destruct (visiting v1 v2 visited) as [[known|] visited'].
  { destruct Hvis as (-> & Hs' & ->). rewrite <- Hs, Hs'. split; [done | by left]. }
  assert (Hnew : same v1 v2 = true -> forall x, x ∈ visited' -> x ∈ visited \/ finished x).
  { intros Hs' x [?|Hb]%Hvis; [by left | right; by exists v1, v2]. }
  destruct (against ne v1 v2) as [known|l2] eqn:Ha; [subst known; by split|].
  destruct (against_self v1 v2 l2 S1 Ha) as (l1 & Ha1 & Hself). rewrite Ha1 in Hr'.
  destruct (same_pointer v1 v2) eqn:Hptr.
  { rewrite (same_pointer_self v1 v2 l2 S1 S2 Ht Ha Hptr) in Ha1. injection Ha1 as <-.
    rewrite Hr'. split; [done|]. intros _. apply Hnew. by rewrite Hs. }
  destruct (each_correct (rsize v1) (rsize v2) (parts v1) l2 visited') as [Hb Hv].
  - intros x Hx. split; [by apply IH|]. split; [by apply (stored_part v1)|]. split; [by apply Hself|].
    by apply part_size.
  - intros y Hy. pose proof (against_part ne v1 v2 l2 y Ha Hy) as Hy'.
    split; [by apply (stored_part v2) | by apply part_size].
  - intros x [Hx|Hx]%Hvis.
    + destruct (Hp x Hx) as [?|(n1 & n2 & ? & ? & ?)]; [by left|]. right. exists n1, n2. split; [done|]. lia.
    + right. exists v1, v2. by split.
  - split; [done|]. intros Heq x [Hx|?]%(Hv Heq); [|by right]. apply Hnew; [by rewrite Hs | done].
Qed.

(** The short cuts do not change the result. *)
Lemma deepEqual_same v1 v2 :
  stored v1 -> stored v2 -> same v1 v1 = true -> deepEqual e ne (Some v1) (Some v2) = same v1 v2.
Proof.
  intros S1 S2 Hr. simpl. pose proof (same_unfold e ne v1 v2) as Hs.
  case_bool_decide; simpl in *; [|done].
  apply walk_correct; [done..|]. intros x Hx. by apply not_elem_of_empty in Hx.
Qed.
End Memory.
