(* ===== verification/SemanticEqual.v ===== *)
(** * What semantic deep equality decides

    The walk of DeepEqual.v with the equality functions of
    k8s.io/apimachinery/pkg/api/equality, on API objects: whatever their layout in
    memory, it decides the relation [sem_eqb] of Go.v and Objects.v.  How a value
    of the model lies in memory is a class, with an instance for each type that
    the operator compares. *)

From S2P Require Import Prelude Go GoFmt Objects DeepEqual.

(** ** [equality.Semantic] *)

(** Ignore formatting, only care that the numeric value stayed the same. *)
Definition equal_quantities (a b : rvalue) : bool :=
  match a, b with
  | RAtom _ (AQuantity a), RAtom _ (AQuantity b) => q_value a =? q_value b
  | _, _ => false
  end.
Definition equal_times (a b : rvalue) : bool :=
  match a, b with RAtom _ (ATime a), RAtom _ (ATime b) => a =? b | _, _ => false end.
(** A selector is compared as the string that it prints as. *)
Definition equal_selectors (a b : rvalue) : bool :=
  match a, b with
  | RAtom _ (AString a), RAtom _ (AString b) => bool_decide (a = b)
  | _, _ => false
  end.
Definition Semantic_funcs : gmap string (rvalue -> rvalue -> bool) :=
  EqualitiesOrDie
    [("resource.Quantity", equal_quantities); ("v1.MicroTime", equal_times);
     ("v1.Time", equal_times); ("labels.Selector", equal_selectors);
     ("fields.Selector", equal_selectors)].

(** [equality.Semantic.DeepEqual]. *)
Definition Semantic_DeepEqual : option rvalue -> option rvalue -> bool := deepEqual Semantic_funcs true.
#[local] Abbreviation same := (same Semantic_funcs true).

Lemma registered_cases ty f :
  Semantic_funcs !! ty = Some f ->
  ty ∈ ["resource.Quantity"; "v1.MicroTime"; "v1.Time"; "labels.Selector"; "fields.Selector"] /\
  forall a b, f a b = f b a.
Proof.
  unfold Semantic_funcs, EqualitiesOrDie, AddFunc. cbn [foldl fst snd].
  assert (Hs : forall a b, equal_selectors a b = equal_selectors b a).
  { intros [? []| | | | | | |] [? []| | | | | | |]; try done. by apply bool_decide_ext. }
  assert (Ht : forall a b, equal_times a b = equal_times b a).
  { intros [? []| | | | | | |] [? []| | | | | | |]; try done. apply Z.eqb_sym. }
  assert (Hq : forall a b, equal_quantities a b = equal_quantities b a).
  { intros [? []| | | | | | |] [? []| | | | | | |]; try done. apply Z.eqb_sym. }
  rewrite !lookup_insert_Some, lookup_empty.
  intros [[<- <-]|[_ [[<- <-]|[_ [[<- <-]|[_ [[<- <-]|[_ [[<- <-]|[_ Hf]]]]]]]]]];
    (split; [set_solver | done]) || done.
Qed.
Lemma not_registered ty :
  ty ∉ ["resource.Quantity"; "v1.MicroTime"; "v1.Time"; "labels.Selector"; "fields.Selector"] ->
  Semantic_funcs !! ty = None.
Proof.
  intros Hty. destruct (Semantic_funcs !! ty) eqn:Hf; [|done]. by destruct (registered_cases ty _ Hf).
Qed.
Ltac unregistered := apply not_registered; rewrite !not_elem_of_cons; split_and!;
  [discriminate..|apply not_elem_of_nil].

(** ** How values lie in memory *)

(** The Go type of a type of the model, and the values of it that read as one of
    the model's. *)
Class Reads (A : Type) := { type_of : string; reads : rvalue -> A -> Prop }.
Arguments type_of A {_}.
#[export] Hint Mode Reads ! : typeclass_instances.
(** The fields of a struct that read as a tuple. *)
Class Fields (A : Type) := fields : list rvalue -> A -> Prop.
#[export] Hint Mode Fields ! : typeclass_instances.

(** Structural equality of such values is the equality of the model. *)
Class Decides (A : Type) `{Reads A, Semantic A} := {
  reads_type v (x : A) : reads v x -> rType v = type_of A;
  reads_same v1 v2 (x1 x2 : A) : reads v1 x1 -> reads v2 x2 -> same v1 v2 = sem_eqb x1 x2
}.
Class DecidesFields (A : Type) `{Fields A, Semantic A} :=
  fields_same vs1 vs2 (x1 x2 : A) : fields vs1 x1 -> fields vs2 x2 ->
    length vs1 = length vs2 /\ all_equal same vs1 (map Some vs2) = sem_eqb x1 x2.

(** *** Plain values *)

Definition reads_atom {A} (ty : string) (inject : A -> atom) : Reads A :=
  {| type_of := ty; reads v x := exists h, v = RAtom h (inject x) /\ hd_type h = ty |}.
#[export] Instance reads_string : Reads string := reads_atom "string" AString.
#[export] Instance reads_bool : Reads bool := reads_atom "bool" ABool.
(** All integer types are one here. *)
#[export] Instance reads_Z : Reads Z := reads_atom "int" AInt.
#[export] Instance reads_Others : Reads Others := reads_atom "others" AOthers.
#[export] Instance reads_Quantity : Reads Quantity := reads_atom "resource.Quantity" AQuantity.

Lemma decides_atom {A} `{EqDecision A} ty (inject : A -> atom) :
  Inj (=) (=) inject -> Semantic_funcs !! ty = None -> @Decides A (reads_atom ty inject) sem_atom.
Proof.
  intros Hinj Hty. split; [by intros v x (h & -> & ?)|].
  intros v1 v2 x1 x2 (h1 & -> & H1) (h2 & -> & H2). rewrite same_unfold. unfold rType. simpl.
  rewrite H1, H2, bool_decide_eq_true_2, Hty by done. simpl. unfold sem_eqb, sem_atom.
  apply bool_decide_ext. split; [apply Hinj | by intros ->].
Qed.
#[export] Instance decides_string : Decides string.
Proof. apply decides_atom; [by intros ? ? [=] | unregistered]. Qed.
#[export] Instance decides_bool : Decides bool.
Proof. apply decides_atom; [by intros ? ? [=] | unregistered]. Qed.
#[export] Instance decides_Z : Decides Z.
Proof. apply decides_atom; [by intros ? ? [=] | unregistered]. Qed.
#[export] Instance decides_Others : Decides Others.
Proof. apply decides_atom; [by intros ? ? [=] | unregistered]. Qed.
#[export] Instance decides_Quantity : Decides Quantity.
Proof.
  split; [by intros v x (h & -> & ?)|]. intros v1 v2 x1 x2 (h1 & -> & H1) (h2 & -> & H2).
  rewrite same_unfold. unfold rType. simpl. rewrite H1, H2, bool_decide_eq_true_2 by done.
  change (Semantic_funcs !! "resource.Quantity") with (Some equal_quantities). simpl.
  unfold sem_eqb, sem_Quantity, sem_via, sem_eqb, sem_Z, sem_atom.
  apply eq_true_iff_eq. by rewrite Z.eqb_eq, bool_decide_eq_true.
Qed.

(** *** Pointers, slices, maps *)

#[export] Instance reads_pointer A `{Reads A} : Reads (option A) := {|
  type_of := "*" +:+ type_of A;
  reads v o := exists h t, v = RPtr h t /\ hd_type h = "*" +:+ type_of A /\
    match t, o with None, None => True | Some t, Some x => reads t x | _, _ => False end |}.
(** A slice with these elements, or nil. *)
Definition reads_elements {A} `{Reads A} (v : rvalue) (l : goslice A) : Prop :=
  exists h s, v = RSlice h s /\ hd_type h = "[]" +:+ type_of A /\
    match s, l with None, nilslice => True | Some (_, vs), mkslice l => Forall2 reads vs l | _, _ => False end.
#[export] Instance reads_goslice A `{Reads A} : Reads (goslice A) :=
  {| type_of := "[]" +:+ type_of A; reads := reads_elements |}.
(** Where the model does not tell nil from empty. *)
#[export] Instance reads_slice A `{Reads A} : Reads (list A) := {|
  type_of := "[]" +:+ type_of A;
  reads v l := exists s, reads_elements v s /\ gs_list s = l |}.
#[export] Instance reads_map V `{Reads V} : Reads (gomap V) := {|
  type_of := "map[string]" +:+ type_of V;
  reads v m := exists h t, v = RMap h t /\ hd_type h = "map[string]" +:+ type_of V /\
    match t, m with
    | None, nilmap => True
    | Some (_, keys, vs), mkmap m =>
        NoDup keys /\ exists xs, Forall2 reads vs xs /\ length keys = length xs /\ m = list_to_map (zip keys xs)
    | _, _ => False
    end |}.

Lemma same_known ty v1 v2 :
  rType v1 = ty -> rType v2 = ty -> Semantic_funcs !! ty = None ->
  same v1 v2 = match against true v1 v2 with inl b => b | inr l2 => all_equal same (parts v1) l2 end.
Proof. intros H1 H2 Hty. by rewrite same_unfold, H1, H2, bool_decide_eq_true_2, Hty. Qed.

#[export] Instance decides_pointer A `{Decides A} : Decides (option A).
Proof.
  split; [by intros v x (h & t & -> & Hh & _)|].
  intros v1 v2 x1 x2 (h1 & t1 & -> & H1' & Ht1) (h2 & t2 & -> & H2' & Ht2).
  rewrite (same_known ("*" +:+ type_of A)) by (done || unregistered). cbn [against parts].
  destruct t1 as [v1|], x1 as [y1|], t2 as [v2|], x2 as [y2|]; try done.
  trans (same v1 v2 && true); [done|]. rewrite andb_true_r. exact (reads_same v1 v2 y1 y2 Ht1 Ht2).
Qed.

Lemma all_equal_elements {A} `{Decides A} vs1 vs2 (l1 l2 : list A) :
  Forall2 reads vs1 l1 -> Forall2 reads vs2 l2 -> length l1 = length l2 ->
  all_equal same vs1 (map Some vs2) = elems_eqb l1 l2.
Proof.
  intros Hl1. revert vs2 l2. induction Hl1 as [|v1 x1 vs1 l1 Hx Hl IH]; intros vs2 l2 Hl2 Hlen.
  - destruct l2; [|done]. by apply Forall2_nil_inv_r in Hl2 as ->.
  - destruct l2 as [|x2 l2]; [done|]. apply Forall2_cons_inv_r in Hl2 as (v2 & vs2' & Hx2 & Hl2 & ->).
    cbn [all_equal map elems_eqb]. rewrite (reads_same v1 v2 x1 x2) by done. f_equal. apply IH; [done|]. by injection Hlen.
Qed.
Lemma elements_same {A} `{Decides A} v1 v2 (s1 s2 : goslice A) :
  reads_elements v1 s1 -> reads_elements v2 s2 -> same v1 v2 = sem_eqb (gs_list s1) (gs_list s2).
Proof.
  intros (h1 & t1 & -> & H1' & Ht1) (h2 & t2 & -> & H2' & Ht2).
  rewrite (same_known ("[]" +:+ type_of A)) by (done || unregistered). cbn [against parts].
  assert (Hlen : forall (t : option (nat * list rvalue)) (s : goslice A),
    match t, s with None, nilslice => True | Some (_, vs), mkslice l => Forall2 reads vs l | _, _ => False end ->
    default 0%nat (slice_len t) = length (gs_list s)).
  { intros [[p vs]|] [|l]; simpl; try done. apply Forall2_length. }
  unfold sizes. rewrite (Hlen t1 s1 Ht1), (Hlen t2 s2 Ht2). unfold sem_eqb at 1, sem_slice.
  destruct (negb _); [done|]. destruct (_ =? 0)%nat eqn:Hz; [done|].
  destruct (negb (_ =? _)%nat) eqn:Hl; [done|]. apply negb_false_iff, Nat.eqb_eq in Hl.
  destruct t1 as [[p1 vs1]|], s1 as [|l1]; try done. destruct t2 as [[p2 vs2]|], s2 as [|l2]; try done.
  - by apply all_equal_elements.
  - simpl in Hl, Hz. by rewrite Hl in Hz.
Qed.
#[export] Instance decides_goslice A `{Decides A} : Decides (goslice A).
Proof. split; [by intros v x (h & t & -> & ? & _) | by intros; apply elements_same]. Qed.
#[export] Instance decides_slice A `{Decides A} : Decides (list A).
Proof.
  split; [by intros v x (s & (h & t & -> & ? & _) & _)|].
  intros v1 v2 x1 x2 (s1 & H1' & <-) (s2 & H2' & <-). by apply elements_same.
Qed.

Lemma lookup_zip {A} i (keys : list string) (l : list A) k x :
  zip keys l !! i = Some (k, x) <-> keys !! i = Some k /\ l !! i = Some x.
Proof. rewrite lookup_zip_with_Some. split; [by intros (? & ? & [= <- <-] & ?) | intros []; eauto]. Qed.
Lemma lookup_entries {A} keys (l : list A) k x :
  NoDup keys -> length keys = length l ->
  (list_to_map (zip keys l) : gmap string A) !! k = Some x <->
  exists i, keys !! i = Some k /\ l !! i = Some x.
Proof.
  intros Hn Hl. rewrite <- elem_of_list_to_map by (by rewrite fst_zip by lia).
  rewrite list_elem_of_lookup. by setoid_rewrite lookup_zip.
Qed.

#[export] Instance decides_map V `{Decides V} : Decides (gomap V).
Proof.
  split; [by intros v x (h & t & -> & ? & _)|].
  intros v1 v2 m1 m2 (h1 & t1 & -> & H1' & Ht1) (h2 & t2 & -> & H2' & Ht2).
  rewrite (same_known ("map[string]" +:+ type_of V)) by (done || unregistered). cbn [against parts].
  assert (Hlen : forall (t : option (nat * list string * list rvalue)) (m : gomap V),
    match t, m with
    | None, nilmap => True
    | Some (_, keys, vs), mkmap m => NoDup keys /\
        exists xs, Forall2 reads vs xs /\ length keys = length xs /\ m = list_to_map (zip keys xs)
    | _, _ => False
    end -> default 0%nat (map_len t) = gm_len m).
  { intros [[[p keys] vs]|] [|m]; try done. intros (Hn & xs & Hvs & Hl & ->). unfold gm_len. simpl.
    rewrite map_size_list_to_map by (by rewrite fst_zip by lia).
    rewrite length_zip_with, (Forall2_length _ _ _ Hvs). lia. }
  unfold sizes. rewrite (Hlen t1 m1 Ht1), (Hlen t2 m2 Ht2). unfold sem_eqb at 1, sem_map.
  destruct (negb _); [done|]. destruct (_ =? 0)%nat eqn:Hz; [done|].
  destruct (negb (_ =? _)%nat) eqn:Hl; [done|]. apply negb_false_iff, Nat.eqb_eq in Hl.
  destruct t1 as [[[p1 keys1] vs1]|], m1 as [|m1]; try done.
  destruct t2 as [[[p2 keys2] vs2]|], m2 as [|m2]; try done;
    [|simpl in Hl, Hz; unfold gm_len in Hl, Hz; simpl in Hl, Hz; by rewrite Hl in Hz].
  destruct Ht1 as (Hn1 & l1 & Hvs1 & Hl1 & Hm1), Ht2 as (Hn2 & l2 & Hvs2 & Hl2 & Hm2).
  pose proof (Forall2_length _ _ _ Hvs1) as Hv1. pose proof (Forall2_length _ _ _ Hvs2) as Hv2.
  rewrite Forall2_lookup in Hvs1, Hvs2.
  apply eq_true_iff_eq. rewrite all_equal_Forall2, forallb_forall. simpl.
  transitivity (forall k x1, m1 !! k = Some x1 -> exists x2, m2 !! k = Some x2 /\ sem_eqb x1 x2 = true).
  - rewrite Forall2_lookup. change (map ?f keys1) with (f <$> keys1). split.
    + intros Hall k x1 Hx1. rewrite Hm1, lookup_entries in Hx1 by done. destruct Hx1 as (i & Hk & Hx1).
      specialize (Hall i). specialize (Hvs1 i). rewrite Hx1 in Hvs1. inversion Hvs1 as [v1 ? Hr1 Hi1|]; subst.
      rewrite list_lookup_fmap, Hk, <- Hi1 in Hall. simpl in Hall.
      inversion Hall as [? ? (v2 & Hv & Hs)|]; subst.
      apply MapIndex_lookup in Hv as (j & Hj & Hvj); [|done|lia]. specialize (Hvs2 j).
      rewrite Hvj in Hvs2. inversion Hvs2 as [? x2 Hr2 Hi2 Hi3|]; subst. exists x2. split.
      * rewrite lookup_entries by done. by exists j.
      * by rewrite <- (reads_same v1 v2 x1 x2).
    + intros Hall i. rewrite list_lookup_fmap. specialize (Hvs1 i).
      destruct (vs1 !! i) as [v1|] eqn:Hi1.
      * inversion Hvs1 as [? x1 Hr1 Hi2 Hi3|]; subst.
        destruct (lookup_lt_is_Some_2 keys1 i) as [k Hk]; [rewrite Hl1; by eapply lookup_lt_Some|].
        rewrite Hk. simpl. constructor.
        destruct (Hall k x1) as (x2 & Hx2 & Hs); [rewrite lookup_entries by done; by exists i|].
        rewrite lookup_entries in Hx2 by done. destruct Hx2 as (j & Hj & Hxj).
        specialize (Hvs2 j). rewrite Hxj in Hvs2. inversion Hvs2 as [v2 ? Hr2 Hi4|]; subst.
        exists v2. split; [apply MapIndex_lookup; [done | lia | by exists j]|].
        by rewrite (reads_same v1 v2 x1 x2).
      * rewrite (lookup_ge_None_2 keys1) by (apply lookup_ge_None in Hi1; lia). constructor.
  - split.
    + intros Hall [k x1] Hin. apply list_elem_of_In, elem_of_map_to_list in Hin. simpl.
      destruct (Hall k x1 Hin) as (x2 & Hx2 & Hs). unfold gm_lookup. simpl. by rewrite Hx2.
    + intros Hall k x1 Hx1. specialize (Hall (k, x1)). simpl in Hall. unfold gm_lookup in Hall. simpl in Hall.
      assert (Hin : In (k, x1) (map_to_list m1)) by (by apply list_elem_of_In, elem_of_map_to_list).
      specialize (Hall Hin). destruct (m2 !! k); [eauto | done].
Qed.

(** *** Structs *)

(** The last field, and the ones before it. *)
#[export] Instance fields_more A B `{Fields A, Reads B} : Fields (A * B) := fun vs x =>
  exists vs' v, vs = vs' ++ [v] /\ fields vs' x.1 /\ reads v x.2.
#[export] Instance fields_one A `{Reads A} : Fields A | 100 := fun vs x => exists v, vs = [v] /\ reads v x.
Definition reads_struct {A B} `{Fields B} (ty : string) (f : A -> B) : Reads A := {|
  type_of := ty;
  reads v x := exists h vs, v = RStruct h vs /\ hd_type h = ty /\ fields vs (f x) |}.

Lemma all_equal_app f l1 l1' l2 l2' :
  length l1 = length l2 -> all_equal f (l1 ++ l1') (l2 ++ l2') = all_equal f l1 l2 && all_equal f l1' l2'.
Proof.
  revert l2; induction l1 as [|x l1 IH]; intros [|o l2] Hl; try done. cbn [app all_equal].
  destruct o as [y|]; [|done]. injection Hl as Hl. by rewrite IH, andb_assoc.
Qed.
#[export] Instance decides_fields_more A B `{DecidesFields A, Decides B} : DecidesFields (A * B).
Proof.
  intros vs1 vs2 x1 x2 (vs1' & v1 & -> & Hf1 & Hr1) (vs2' & v2 & -> & Hf2 & Hr2).
  destruct (fields_same vs1' vs2' x1.1 x2.1 Hf1 Hf2) as [Hl Hs]. split; [rewrite !length_app; simpl; lia|].
  rewrite map_app, all_equal_app by (by rewrite length_map). rewrite Hs. unfold sem_eqb at 2, sem_struct.
  f_equal. cbn [map all_equal]. rewrite andb_true_r. by apply reads_same.
Qed.
#[export] Instance decides_fields_one A `{Decides A} : DecidesFields A | 100.
Proof.
  intros vs1 vs2 x1 x2 (v1 & -> & Hr1) (v2 & -> & Hr2). split; [done|]. cbn [map all_equal].
  rewrite andb_true_r. by apply reads_same.
Qed.
Lemma decides_struct {A B} `{DecidesFields B} ty (f : A -> B) :
  Semantic_funcs !! ty = None -> @Decides A (reads_struct ty f) (sem_via f).
Proof.
  intros Hty. split; [by intros v x (h & vs & -> & ? & _)|].
  intros v1 v2 x1 x2 (h1 & vs1 & -> & H1' & Hf1) (h2 & vs2 & -> & H2' & Hf2).
  rewrite (same_known ty) by done. cbn [against parts].
  exact (proj2 (fields_same vs1 vs2 (f x1) (f x2) Hf1 Hf2)).
Qed.

(** A struct's fields are those of its equality in Objects.v. *)
Ltac reads_by sem ty :=
  let t := eval unfold sem in sem in match t with sem_via ?f => exact (reads_struct ty f) end.
Ltac decides_by := refine (decides_struct _ _ _); unregistered.

#[export] Instance reads_TypeMeta : Reads TypeMeta.
Proof. reads_by sem_TypeMeta "v1.TypeMeta". Defined.
#[export] Instance decides_TypeMeta : Decides TypeMeta.
Proof. decides_by. Qed.
#[export] Instance reads_OwnerReference : Reads OwnerReference.
Proof. reads_by sem_OwnerReference "v1.OwnerReference". Defined.
#[export] Instance decides_OwnerReference : Decides OwnerReference.
Proof. decides_by. Qed.
#[export] Instance reads_ObjectMeta : Reads ObjectMeta.
Proof. reads_by sem_ObjectMeta "v1.ObjectMeta". Defined.
#[export] Instance decides_ObjectMeta : Decides ObjectMeta.
Proof. decides_by. Qed.
#[export] Instance reads_LabelSelector : Reads LabelSelector.
Proof. reads_by sem_LabelSelector "v1.LabelSelector". Defined.
#[export] Instance decides_LabelSelector : Decides LabelSelector.
Proof. decides_by. Qed.
#[export] Instance reads_ResourceClaim : Reads ResourceClaim.
Proof. reads_by sem_ResourceClaim "v1.ResourceClaim". Defined.
#[export] Instance decides_ResourceClaim : Decides ResourceClaim.
Proof. decides_by. Qed.
#[export] Instance reads_ResourceRequirements : Reads ResourceRequirements.
Proof. reads_by sem_ResourceRequirements "v1.ResourceRequirements". Defined.
#[export] Instance decides_ResourceRequirements : Decides ResourceRequirements.
Proof. decides_by. Qed.
#[export] Instance reads_Toleration : Reads Toleration.
Proof. reads_by sem_Toleration "v1.Toleration". Defined.
#[export] Instance decides_Toleration : Decides Toleration.
Proof. decides_by. Qed.
#[export] Instance reads_ObjectFieldSelector : Reads ObjectFieldSelector.
Proof. reads_by sem_ObjectFieldSelector "v1.ObjectFieldSelector". Defined.
#[export] Instance decides_ObjectFieldSelector : Decides ObjectFieldSelector.
Proof. decides_by. Qed.
#[export] Instance reads_EnvVarSource : Reads EnvVarSource.
Proof. reads_by sem_EnvVarSource "v1.EnvVarSource". Defined.
#[export] Instance decides_EnvVarSource : Decides EnvVarSource.
Proof. decides_by. Qed.
#[export] Instance reads_EnvVar : Reads EnvVar.
Proof. reads_by sem_EnvVar "v1.EnvVar". Defined.
#[export] Instance decides_EnvVar : Decides EnvVar.
Proof. decides_by. Qed.
#[export] Instance reads_Capabilities : Reads Capabilities.
Proof. reads_by sem_Capabilities "v1.Capabilities". Defined.
#[export] Instance decides_Capabilities : Decides Capabilities.
Proof. decides_by. Qed.
#[export] Instance reads_SeccompProfile : Reads SeccompProfile.
Proof. reads_by sem_SeccompProfile "v1.SeccompProfile". Defined.
#[export] Instance decides_SeccompProfile : Decides SeccompProfile.
Proof. decides_by. Qed.
#[export] Instance reads_SecurityContext : Reads SecurityContext.
Proof. reads_by sem_SecurityContext "v1.SecurityContext". Defined.
#[export] Instance decides_SecurityContext : Decides SecurityContext.
Proof. decides_by. Qed.
#[export] Instance reads_ContainerPort : Reads ContainerPort.
Proof. reads_by sem_ContainerPort "v1.ContainerPort". Defined.
#[export] Instance decides_ContainerPort : Decides ContainerPort.
Proof. decides_by. Qed.
#[export] Instance reads_VolumeMount : Reads VolumeMount.
Proof. reads_by sem_VolumeMount "v1.VolumeMount". Defined.
#[export] Instance decides_VolumeMount : Decides VolumeMount.
Proof. decides_by. Qed.
#[export] Instance reads_SecretVolumeSource : Reads SecretVolumeSource.
Proof. reads_by sem_SecretVolumeSource "v1.SecretVolumeSource". Defined.
#[export] Instance decides_SecretVolumeSource : Decides SecretVolumeSource.
Proof. decides_by. Qed.
#[export] Instance reads_ConfigMapVolumeSource : Reads ConfigMapVolumeSource.
Proof. reads_by sem_ConfigMapVolumeSource "v1.ConfigMapVolumeSource". Defined.
#[export] Instance decides_ConfigMapVolumeSource : Decides ConfigMapVolumeSource.
Proof. decides_by. Qed.
#[export] Instance reads_Volume : Reads Volume.
Proof. reads_by sem_Volume "v1.Volume". Defined.
#[export] Instance decides_Volume : Decides Volume.
Proof. decides_by. Qed.
#[export] Instance reads_Container : Reads Container.
Proof. reads_by sem_Container "v1.Container". Defined.
#[export] Instance decides_Container : Decides Container.
Proof. decides_by. Qed.
#[export] Instance reads_PodSpec : Reads PodSpec.
Proof. reads_by sem_PodSpec "v1.PodSpec". Defined.
#[export] Instance decides_PodSpec : Decides PodSpec.
Proof. decides_by. Qed.

(** [intstr.IntOrString] is a struct of plain values. *)
Definition IntOrStringType_code (t : IntOrStringType) : Z := match t with IntType => 0 | StringType => 1 end.
Definition IntOrString_fields (i : IntOrString) : Z * Z * string :=
  (IntOrStringType_code (is_Type i), is_IntVal i, is_StrVal i).
#[export] Instance reads_IntOrString : Reads IntOrString := reads_struct "intstr.IntOrString" IntOrString_fields.
#[export] Instance decides_IntOrString : Decides IntOrString.
Proof.
  destruct (decides_struct "intstr.IntOrString" IntOrString_fields) as [Ht Hs]; [unregistered|].
  split; [exact Ht|]. intros v1 v2 x1 x2 H1 H2. rewrite (Hs v1 v2 x1 x2 H1 H2).
  apply eq_true_iff_eq. change (IntOrString_fields x1 ≃ IntOrString_fields x2 <-> bool_decide (x1 = x2) = true).
  rewrite bool_decide_eq_true. split; [|by intros ->].
  intros Hx%sem_exact. destruct x1 as [[] ? ?], x2 as [[] ? ?]; unfold IntOrString_fields in Hx;
    simpl in Hx; by simplify_eq.
Qed.
#[export] Instance reads_ServicePort : Reads ServicePort.
Proof. reads_by sem_ServicePort "v1.ServicePort". Defined.
#[export] Instance decides_ServicePort : Decides ServicePort.
Proof. decides_by. Qed.
#[export] Instance reads_ServiceSpec : Reads ServiceSpec.
Proof. reads_by sem_ServiceSpec "v1.ServiceSpec". Defined.
#[export] Instance decides_ServiceSpec : Decides ServiceSpec.
Proof. decides_by. Qed.
#[export] Instance reads_Service : Reads Service.
Proof. reads_by sem_Service "v1.Service". Defined.
#[export] Instance decides_Service : Decides Service.
Proof. decides_by. Qed.
#[export] Instance reads_ConfigMap : Reads ConfigMap.
Proof. reads_by sem_ConfigMap "v1.ConfigMap". Defined.
#[export] Instance decides_ConfigMap : Decides ConfigMap.
Proof. decides_by. Qed.
#[export] Instance reads_NetworkPolicyPort : Reads NetworkPolicyPort.
Proof. reads_by sem_NetworkPolicyPort "v1.NetworkPolicyPort". Defined.
#[export] Instance decides_NetworkPolicyPort : Decides NetworkPolicyPort.
Proof. decides_by. Qed.
#[export] Instance reads_NetworkPolicyPeer : Reads NetworkPolicyPeer.
Proof. reads_by sem_NetworkPolicyPeer "v1.NetworkPolicyPeer". Defined.
#[export] Instance decides_NetworkPolicyPeer : Decides NetworkPolicyPeer.
Proof. decides_by. Qed.
#[export] Instance reads_NetworkPolicyRule : Reads NetworkPolicyRule.
Proof. reads_by sem_NetworkPolicyRule "v1.NetworkPolicyRule". Defined.
#[export] Instance decides_NetworkPolicyRule : Decides NetworkPolicyRule.
Proof. decides_by. Qed.
#[export] Instance reads_NetworkPolicySpec : Reads NetworkPolicySpec.
Proof. reads_by sem_NetworkPolicySpec "v1.NetworkPolicySpec". Defined.
#[export] Instance decides_NetworkPolicySpec : Decides NetworkPolicySpec.
Proof. decides_by. Qed.
#[export] Instance reads_OperandVersion : Reads OperandVersion.
Proof. reads_by sem_OperandVersion "v1.OperandVersion". Defined.
#[export] Instance decides_OperandVersion : Decides OperandVersion.
Proof. decides_by. Qed.
#[export] Instance reads_RelatedObject : Reads RelatedObject.
Proof. reads_by sem_RelatedObject "v1.ObjectReference". Defined.
#[export] Instance decides_RelatedObject : Decides RelatedObject.
Proof. decides_by. Qed.

(** The time of a condition is of a registered type. *)
Inductive time_field := TimeOf (t : Time).
Definition time_of (f : time_field) : Time := match f with TimeOf t => t end.
#[export] Instance sem_time_field : Semantic time_field := sem_via time_of.
#[export] Instance reads_time_field : Reads time_field := reads_atom "v1.Time" (ATime ∘ time_of).
#[export] Instance decides_time_field : Decides time_field.
Proof.
  split; [by intros v x (h & -> & ?)|]. intros v1 v2 x1 x2 (h1 & -> & H1) (h2 & -> & H2).
  rewrite same_unfold. unfold rType. simpl. rewrite H1, H2, bool_decide_eq_true_2 by done.
  change (Semantic_funcs !! "v1.Time") with (Some equal_times). simpl.
  unfold sem_eqb, sem_time_field, sem_via, sem_eqb, sem_Z, sem_atom.
  apply eq_true_iff_eq. by rewrite Z.eqb_eq, bool_decide_eq_true.
Qed.
Definition Condition_fields (c : Condition) : string * string * time_field * string * string :=
  (cond_Type c, cond_Status c, TimeOf (cond_LastTransitionTime c), cond_Reason c, cond_Message c).
#[export] Instance reads_Condition : Reads Condition :=
  reads_struct "v1.ClusterOperatorStatusCondition" Condition_fields.
#[export] Instance decides_Condition : Decides Condition.
Proof.
  destruct (decides_struct "v1.ClusterOperatorStatusCondition" Condition_fields) as [Ht Hs]; [unregistered|].
  split; [exact Ht|]. intros v1 v2 x1 x2 H1 H2. by rewrite (Hs v1 v2 x1 x2 H1 H2).
Qed.

(** ** The theorem *)

(** However two values are laid out in one memory, whatever they share, deep
    equality decides the relation of the model. *)
Definition decided (A : Type) `{Reads A, Semantic A} : Prop :=
  forall m v1 v2 (x1 x2 : A), stored m v1 -> stored m v2 -> reads v1 x1 -> reads v2 x2 ->
    Semantic_DeepEqual (Some v1) (Some v2) = sem_eqb x1 x2.

Lemma always_decided A `{Decides A} `{!SemanticLaws A} : decided A.
Proof.
  intros m v1 v2 x1 x2 S1 S2 R1 R2. unfold Semantic_DeepEqual.
  rewrite (deepEqual_same m); [by apply reads_same | | done | done |].
  - intros ty f Hf. by destruct (registered_cases ty f Hf).
  - rewrite (reads_same v1 v1 x1 x1) by done. apply (sem_refl x1).
Qed.

(** C9 [equality.Semantic.DeepEqual] decides semantic equality on everything the
    operator compares with it: pod specs, counts of replicas, services, config
    maps, policy specs, conditions, versions, raw bytes, related objects and owner
    references.  The walk may cut comparisons short by address, by the pointers of
    slices and maps, and by the visits it remembers; its result is that of the
    plain comparison, on any layout in memory. *)
Theorem DeepEqual_decides :
  decided PodSpec /\ decided (option Z) /\ decided (option Service) /\ decided (option ConfigMap) /\
  decided NetworkPolicySpec /\ decided (list Condition) /\ decided (goslice OperandVersion) /\
  decided (list Z) /\ decided (list RelatedObject) /\ decided OwnerReference.
Proof. split_and!; apply always_decided; exact _. Qed.

(** *** An example *)

(** Two slices that overlap in one array of three references. *)
Definition example_text (a : nat) (s : string) : rvalue := RAtom (mkHead "string" (Some a)) (AString s).
Definition example_reference (a : nat) (resource name : string) : rvalue :=
  RStruct (mkHead "v1.ObjectReference" (Some a))
    [example_text a "apps"; example_text (a + 1) resource; example_text (a + 2) "ns"; example_text (a + 3) name].
Definition example_array : list rvalue :=
  [example_reference 10 "deployments" "updater"; example_reference 20 "deployments" "updater";
   example_reference 30 "deployments" "updater"].
Definition example_slice (i : nat) : rvalue :=
  RSlice (mkHead "[]v1.ObjectReference" None) (Some (10 * (i + 1), take 2 (drop i example_array)))%nat.
Definition example_memory : memory := {|
  m_var a ty :=
    let i := (a / 10 - 1)%nat in
    if bool_decide (ty = "string")
    then example_array !! i ≫= fun v => parts v !! (a mod 10)%nat else example_array !! i;
  m_slice p _ n := Some (take n (drop (p / 10 - 1) example_array));
  m_map _ _ := None |}.
Definition example_related : list RelatedObject :=
  [mkRelatedObject "apps" "deployments" "ns" "updater"; mkRelatedObject "apps" "deployments" "ns" "updater"].

Ltac read_fields :=
  lazymatch goal with
  | |- fields ?vs (_, _) =>
      let n := eval cbv in (pred (length vs)) in
      let vs' := eval cbn in (take n vs) in
      let v := eval cbn in (drop n vs) in
      lazymatch v with
      | [?v] => exists vs', v; split; [reflexivity|]; split; [cbn [fst]; read_fields | by eexists]
      end
  | |- fields [?v] _ => exists v; split; [reflexivity | by eexists]
  end.
Lemma DeepEqual_decides_witness :
  Semantic_DeepEqual (Some (example_slice 0)) (Some (example_slice 1)) = sem_eqb example_related example_related /\
  Semantic_DeepEqual (Some (example_slice 0)) (Some (example_slice 1)) = true /\
  Semantic_DeepEqual (Some (example_slice 0)) (Some (RSlice (mkHead "[]v1.ObjectReference" None) None)) = false.
Proof.
  split; [|vm_compute; split; reflexivity].
  destruct DeepEqual_decides as (_ & _ & _ & _ & _ & _ & _ & _ & Hdec & _).
  assert (Hs : forall i, (i < 2)%nat -> stored example_memory (example_slice i)).
  { intros [|[|i]] Hi; [..|lia];
      repeat (constructor; [split; [intros ? [= <-]; reflexivity | exact I || reflexivity] |
        intros ? Hx; cbn in Hx; repeat (apply elem_of_cons in Hx as [->|Hx]); [..|by apply not_elem_of_nil in Hx]]). }
  assert (Hr : forall i, (i < 2)%nat -> reads (example_slice i) example_related).
  { assert (Ha : forall a, reads (example_reference a "deployments" "updater")
      (mkRelatedObject "apps" "deployments" "ns" "updater")).
    { intros a. eexists _, _. split; [reflexivity|]. split; [reflexivity|]. read_fields. }
    intros [|[|i]] Hi; [..|lia]; (exists (mkslice example_related); split; [|reflexivity]);
      eexists _, _; (split; [reflexivity|]; split; [reflexivity|]); repeat constructor; apply Ha. }
  apply (Hdec example_memory); [apply Hs; lia | apply Hs; lia | apply Hr; lia | apply Hr; lia].
Defined.
