(* ===== verification/Api.v ===== *)
(** * API calls, programs and their executions

    The operator's functions talk to the API server, to the event recorder and
    to the clock.  A function that does is a [prog]: a finite tree of calls, each
    followed by a continuation for every answer.  A program is run against a
    world with a [Handler] ([run]), or examined on every sequence of answers
    whatsoever ([exec], [wp]): the second covers failures, stale caches and any
    interleaving with other clients, because nothing is assumed of the answers. *)

From S2P Require Import Prelude Go GoFmt Objects.

(** ** Errors *)

(** A Go [error] value: an API status, the error of [SetControllerReference],
    a plain error, or an error wrapped with [%w]. *)
Inductive error :=
| StatusError (reason : string) (code : Z) (message : string)
| AlreadyOwnedError (namespace name owner_kind owner_name : string)
| ErrorString (message : string)
| WrapError (prefix : string) (inner : error).

(** [err.Error()]. *)
Fixpoint Error (e : error) : string :=
  match e with
  | StatusError _ _ message => message
  | AlreadyOwnedError ns n k o =>
      "Object " +:+ ns +:+ "/" +:+ n +:+ " is already owned by another " +:+ k +:+
      " controller " +:+ o
  | ErrorString message => message
  | WrapError prefix inner => prefix +:+ ": " +:+ Error inner
  end.

(** [reasonAndCodeForError]: the first API status of the chain. *)
Fixpoint reasonAndCodeForError (e : error) : string * Z :=
  match e with
  | StatusError reason code _ => (reason, code)
  | WrapError _ inner => reasonAndCodeForError inner
  | _ => ("", 0)
  end.
Definition knownReasons : list string :=
  ["Unauthorized"; "Forbidden"; "NotFound"; "AlreadyExists"; "Conflict"; "Gone"; "Invalid";
   "ServerTimeout"; "StorageReadError"; "Timeout"; "TooManyRequests"; "BadRequest";
   "MethodNotAllowed"; "NotAcceptable"; "RequestEntityTooLarge"; "UnsupportedMediaType";
   "InternalError"; "Expired"; "ServiceUnavailable"].
Definition IsNotFound (e : error) : bool :=
  let '(reason, code) := reasonAndCodeForError e in
  if bool_decide (reason = "NotFound") then true
  else negb (bool_decide (reason ∈ knownReasons)) && (code =? 404).
Definition IsAlreadyExists (e : error) : bool :=
  bool_decide ((reasonAndCodeForError e).1 = "AlreadyExists").

(** ** Kinds of objects *)

Inductive kind :=
| KVerticalPodAutoscalerController
| KDeployment
| KService
| KConfigMap
| KNetworkPolicy
| KNamespace
| KAPIServer
| KClusterOperator
| KInfrastructure.
#[export] Instance kind_eq_dec : EqDecision kind.
Proof. solve_decision. Defined.

Definition obj (k : kind) : Type :=
  match k with
  | KVerticalPodAutoscalerController => VerticalPodAutoscalerController
  | KDeployment => Deployment
  | KService => Service
  | KConfigMap => ConfigMap
  | KNetworkPolicy => NetworkPolicy
  | KNamespace => Namespace
  | KAPIServer => APIServer
  | KClusterOperator => ClusterOperator
  | KInfrastructure => Infrastructure
  end.

(** The metadata of an object ([metav1.Object]). *)
Definition obj_meta (k : kind) : obj k -> ObjectMeta :=
  match k with
  | KVerticalPodAutoscalerController => vpa_meta
  | KDeployment => dep_meta
  | KService => svc_meta
  | KConfigMap => cm_meta
  | KNetworkPolicy => np_meta
  | KNamespace => ns_meta
  | KAPIServer => as_meta
  | KClusterOperator => cop_meta
  | KInfrastructure => infra_meta
  end.
Definition with_meta (k : kind) : (ObjectMeta -> ObjectMeta) -> obj k -> obj k :=
  match k return (ObjectMeta -> ObjectMeta) -> obj k -> obj k with
  | KVerticalPodAutoscalerController => fun f o => mkVPA (vpa_type o) (f (vpa_meta o)) (vpa_Spec o)
  | KDeployment => fun f o => mkDeployment (dep_type o) (f (dep_meta o)) (dep_Spec o) (dep_Status o)
  | KService => fun f o => mkService (svc_type o) (f (svc_meta o)) (svc_Spec o) (svc_Status o)
  | KConfigMap => fun f o => mkConfigMap (cm_type o) (f (cm_meta o)) (cm_others o)
  | KNetworkPolicy => fun f o => mkNetworkPolicy (np_type o) (f (np_meta o)) (np_Spec o)
  | KNamespace => fun f o => mkNamespace (f (ns_meta o)) (ns_others o)
  | KAPIServer => fun f o =>
      mkAPIServer (f (as_meta o)) (as_TLSSecurityProfile o) (as_TLSAdherence o) (as_others o)
  | KClusterOperator => fun f o => mkClusterOperator (f (cop_meta o)) (cop_Status o)
  | KInfrastructure => fun f o =>
      mkInfrastructure (f (infra_meta o)) (infra_ControlPlaneTopology o) (infra_others o)
  end.
Definition obj_key {k} (o : obj k) : NamespacedName := meta_key (obj_meta k o).

Lemma obj_meta_with_meta k f (o : obj k) : obj_meta k (with_meta k f o) = f (obj_meta k o).
Proof. by destruct k. Qed.
Lemma with_meta_id k (o : obj k) : with_meta k (fun m => m) o = o.
Proof. by destruct k, o. Qed.

(** [corev1.ObjectReference], the regarding object of an event. *)
Record ObjectReference := mkObjectReference {
  oref_Kind : string;
  oref_Namespace : string;
  oref_Name : string;
  oref_UID : string;
  oref_APIVersion : string;
  oref_ResourceVersion : string
}.
#[export] Instance ObjectReference_eq_dec : EqDecision ObjectReference.
Proof. solve_decision. Defined.

(** An event handed to the recorder. *)
Record Event := mkEvent {
  ev_regarding : option ObjectReference;
  ev_type : string;
  ev_reason : string;
  ev_action : string;
  ev_note : string
}.
#[export] Instance Event_eq_dec : EqDecision Event.
Proof. solve_decision. Defined.

(** ** Calls and answers *)

Inductive call :=
| Get (k : kind) (key : NamespacedName)
| Create (k : kind) (o : obj k)
| Update (k : kind) (o : obj k)
| UpdateStatus (k : kind) (o : obj k)
| Patch (k : kind) (modified original : obj k)
| Eventf (e : Event)
| Now.

Definition resp (c : call) : Type :=
  match c with
  | Get k _ | Create k _ | Update k _ | UpdateStatus k _ | Patch k _ _ => error + obj k
  | Eventf _ => unit
  | Now => Time
  end.

(** The calls that can change what the server stores. *)
Definition is_write (c : call) : bool :=
  match c with
  | Create _ _ | Update _ _ | UpdateStatus _ _ | Patch _ _ _ => true
  | Get _ _ | Eventf _ | Now => false
  end.

(** ** Programs *)

Inductive prog (A : Type) : Type :=
| Ret (a : A)
| Do (c : call) (k : resp c -> prog A).
Arguments Ret {A} a.
Arguments Do {A} c k.

Fixpoint bind {A B} (p : prog A) (f : A -> prog B) : prog B :=
  match p with
  | Ret a => f a
  | Do c k => Do c (fun r => bind (k r) f)
  end.
(** A single call, returning its answer. *)
Definition ask (c : call) : prog (resp c) := Do c Ret.

Notation "x <- p ;; q" := (bind p (fun x => q))
  (at level 100, p at next level, right associativity) : vpa_scope.
Notation "p ;;; q" := (bind p (fun _ => q))
  (at level 100, right associativity) : vpa_scope.

(** ** Running against a world *)

(** A world that answers calls. *)
Class Handler (W : Type) := handle : forall c : call, W -> resp c * W.

(** A call with its answer. *)
Record step := mkStep { st_call : call; st_resp : resp st_call }.

Section Run.
Context {W : Type} `{Handler W}.

Fixpoint run {A} (p : prog A) (w : W) : A * W :=
  match p with
  | Ret a => (a, w)
  | Do c k => let '(r, w') := handle c w in run (k r) w'
  end.
(** The calls of a run with their answers, in order. *)
Fixpoint trace {A} (p : prog A) (w : W) : list step :=
  match p with
  | Ret _ => []
  | Do c k => let '(r, w') := handle c w in mkStep c r :: trace (k r) w'
  end.

Lemma run_bind {A B} (p : prog A) (f : A -> prog B) w :
  run (bind p f) w = run (f (run p w).1) (run p w).2.
Proof.
  revert w; induction p as [a|c k IH]; intros w; simpl; [done|].
  destruct (handle c w) as [r w']. apply IH.
Qed.
Lemma trace_bind {A B} (p : prog A) (f : A -> prog B) w :
  trace (bind p f) w = trace p w ++ trace (f (run p w).1) (run p w).2.
Proof.
  revert w; induction p as [a|c k IH]; intros w; simpl; [done|].
  destruct (handle c w) as [r w']. simpl. by rewrite IH.
Qed.
End Run.

(** ** All executions *)

(** [exec p tr a]: with the answers of [tr], [p] makes the calls of [tr] and
    returns [a]. *)
Fixpoint exec {A} (p : prog A) (tr : list step) (a : A) : Prop :=
  match p, tr with
  | Ret a', [] => a' = a
  | Do c k, s :: tr => exists r, s = mkStep c r /\ exec (k r) tr a
  | _, _ => False
  end.

(** Assumptions on answers, one call at a time. *)
Definition env := forall c : call, resp c -> Prop.
Definition any_answer : env := fun _ _ => True.
Definition respects (E : env) (tr : list step) : Prop :=
  Forall (fun s => E (st_call s) (st_resp s)) tr.

(** The weakest precondition over all answers that [E] allows. *)
Fixpoint wp {A} (E : env) (p : prog A) (Q : list step -> A -> Prop) : Prop :=
  match p with
  | Ret a => Q [] a
  | Do c k => forall r, E c r -> wp E (k r) (fun tr a => Q (mkStep c r :: tr) a)
  end.

Lemma wp_exec {A} E (p : prog A) Q :
  wp E p Q <-> forall tr a, exec p tr a -> respects E tr -> Q tr a.
Proof.
  revert Q; induction p as [a|c k IH]; intros Q; simpl.
  - split; [intros ? [|s tr] a' Hx _; by simplify_eq/= | intros HQ; apply HQ; [done | constructor]].
  - split.
    + intros Hwp [|s tr] a Hx Hr; simpl in Hx; [done|]. destruct Hx as (r & -> & Hx).
      apply Forall_cons in Hr as [HE Hr].
      by apply (proj1 (IH r _) (Hwp r HE)).
    + intros HQ r HE. apply IH. intros tr a Hx Hr.
      apply HQ; [by exists r | by constructor].
Qed.

Lemma wp_mono {A} E (p : prog A) (Q Q' : list step -> A -> Prop) :
  (forall tr a, Q tr a -> Q' tr a) -> wp E p Q -> wp E p Q'.
Proof.
  revert Q Q'; induction p as [a|c k IH]; intros Q Q' HQ; simpl; [auto|].
  intros Hwp r HE. eapply IH, Hwp, HE. auto.
Qed.

Lemma wp_bind {A B} E (p : prog A) (f : A -> prog B) Q :
  wp E p (fun tr a => wp E (f a) (fun tr' b => Q (tr ++ tr') b)) -> wp E (bind p f) Q.
Proof.
  revert Q; induction p as [a|c k IH]; intros Q; simpl; [done|].
  intros Hwp r HE. apply IH. eapply wp_mono; [|by apply Hwp].
  intros tr a. apply wp_mono. done.
Qed.

(** A fact that holds at the end of every execution, where there is one. *)
Lemma wp_possible {A} E (p : prog A) (X : Prop) :
  (forall c, exists r, E c r) -> wp E p (fun _ _ => X) -> X.
Proof.
  intros HE. induction p as [a|c k IH]; simpl; [done|]. intros Hp.
  destruct (HE c) as [r Hr]. by apply (IH r), Hp.
Qed.

(** Whatever the answers, the program makes only calls of [P]. *)
Section OnlyCalls.
Context (E : env).
Hypothesis answerable : forall c, exists r, E c r.
Definition only_calls {A} (P : call -> Prop) (p : prog A) : Prop :=
  wp E p (fun tr _ => Forall (fun s => P (st_call s)) tr).
Lemma only_call {A} P c (k : resp c -> prog A) : only_calls P (Do c k) -> P c.
Proof.
  intros Hp. destruct (answerable c) as [r Hr]. apply (wp_possible E (k r)); [exact answerable|].
  eapply wp_mono; [|exact (Hp r Hr)]. intros tr a Htr. by inversion Htr.
Qed.
Lemma only_next {A} P c (k : resp c -> prog A) r : only_calls P (Do c k) -> E c r -> only_calls P (k r).
Proof. intros Hp Hr. eapply wp_mono; [|exact (Hp r Hr)]. intros tr a Htr. by inversion Htr. Qed.
End OnlyCalls.

(** A run is one of the executions. *)
Lemma run_exec {W} `{Handler W} {A} (p : prog A) w : exec p (trace p w) (run p w).1.
Proof.
  revert w; induction p as [a|c k IH]; intros w; simpl; [done|].
  destruct (handle c w) as [r w'] eqn:Hh. simpl. by exists r.
Qed.

(** The executions of a sequence are those of its parts, one after the other. *)
Lemma exec_bind {A B} (p : prog A) (f : A -> prog B) tr b :
  exec (bind p f) tr b <->
  exists tr1 tr2 a, tr = tr1 ++ tr2 /\ exec p tr1 a /\ exec (f a) tr2 b.
Proof.
  revert tr; induction p as [a|c k IH]; intros tr; simpl.
  - split.
    + intros Hx. by exists [], tr, a.
    + intros ([|? ?] & tr2 & a' & -> & Ha & Hx); simpl in *; [by subst | done].
  - split.
    + destruct tr as [|s tr]; [done|]. intros (r & -> & Hx).
      apply IH in Hx as (tr1 & tr2 & a & -> & H1 & H2).
      exists (mkStep c r :: tr1), tr2, a. split; [done|]. split; [by exists r | done].
    + intros ([|s tr1] & tr2 & a & -> & H1 & H2); [done|]. destruct H1 as (r & -> & H1).
      exists r. split; [done|]. apply IH. by exists tr1, tr2, a.
Qed.
