(* ===== verification/Util.v ===== *)
(** * internal/util and the TLS profile helpers

    The pure helpers of internal/util/util.go and internal/util/tls.go, and the
    functions of the OpenShift libraries they rest on: the cipher table of
    library-go, the TLS profiles of openshift/api, [GetTLSProfileSpec] and
    [ShouldHonorClusterTLSProfile]. *)

From S2P Require Import Prelude Go GoFmt Objects Api.

(** ** util.go *)

Definition ReleaseVersionAnnotation : string := "release.openshift.io/version".

(** [append(s, x)]. *)
Definition gs_append {A} (s : goslice A) (x : A) : goslice A := mkslice (gs_list s ++ [x]).

(** The loop of [FilterString], with [newSlice] and [found] as accumulators. *)
Fixpoint filter_loop (needle : string) (haystack : list string)
    (newSlice : goslice string) (found : Z) : goslice string * Z :=
  match haystack with
  | [] => (newSlice, found)
  | x :: rest =>
      if negb (bool_decide (x = needle))
      then filter_loop needle rest (gs_append newSlice x) found
      else filter_loop needle rest newSlice (found + 1)
  end.
Definition FilterString (haystack : list string) (needle : string) : goslice string * Z :=
  filter_loop needle haystack nilslice 0.

(** The annotations of the object carry the given release version. *)
Definition ReleaseVersionMatches (meta : ObjectMeta) (version : string) : bool :=
  match gm_lookup ReleaseVersionAnnotation (om_Annotations meta) with
  | Some value => if negb (bool_decide (value = version)) then false else true
  | None => false
  end.

Definition DeploymentUpdated (dep : Deployment) : bool :=
  let status := dep_Status dep in
  if dst_ObservedGeneration status <? om_Generation (dep_meta dep) then false
  else if negb (dst_UpdatedReplicas status =? dst_Replicas status) then false
  else if dst_AvailableReplicas status =? 0 then false
  else true.

(** [slices.ContainsFunc]. *)
Definition ContainsFunc {A} (s : list A) (f : A -> bool) : bool := existsb f s.
Definition ArgExists (args : list string) (arg : string) : bool :=
  ContainsFunc args (fun a => HasPrefix a (arg +:+ "=")).

(** ** tls.go *)

Definition VersionTLS10 : string := "VersionTLS10".
Definition VersionTLS11 : string := "VersionTLS11".
Definition VersionTLS12 : string := "VersionTLS12".
Definition VersionTLS13 : string := "VersionTLS13".

Definition TLSVersionToArg (v : string) : string :=
  if bool_decide (v = VersionTLS10) then "tls1_0"
  else if bool_decide (v = VersionTLS11) then "tls1_1"
  else if bool_decide (v = VersionTLS12) then "tls1_2"
  else if bool_decide (v = VersionTLS13) then "tls1_3"
  else v.

(** library-go's table of the OpenSSL names Go's crypto/tls supports. *)
Definition openSSLToIANACiphersList : list (string * string) := [
  ("TLS_AES_128_GCM_SHA256", "TLS_AES_128_GCM_SHA256");
  ("TLS_AES_256_GCM_SHA384", "TLS_AES_256_GCM_SHA384");
  ("TLS_CHACHA20_POLY1305_SHA256", "TLS_CHACHA20_POLY1305_SHA256");
  ("ECDHE-ECDSA-AES128-GCM-SHA256", "TLS_ECDHE_ECDSA_WITH_AES_128_GCM_SHA256");
  ("ECDHE-RSA-AES128-GCM-SHA256", "TLS_ECDHE_RSA_WITH_AES_128_GCM_SHA256");
  ("ECDHE-ECDSA-AES256-GCM-SHA384", "TLS_ECDHE_ECDSA_WITH_AES_256_GCM_SHA384");
  ("ECDHE-RSA-AES256-GCM-SHA384", "TLS_ECDHE_RSA_WITH_AES_256_GCM_SHA384");
  ("ECDHE-ECDSA-CHACHA20-POLY1305", "TLS_ECDHE_ECDSA_WITH_CHACHA20_POLY1305_SHA256");
  ("ECDHE-RSA-CHACHA20-POLY1305", "TLS_ECDHE_RSA_WITH_CHACHA20_POLY1305_SHA256");
  ("ECDHE-ECDSA-AES128-SHA256", "TLS_ECDHE_ECDSA_WITH_AES_128_CBC_SHA256");
  ("ECDHE-RSA-AES128-SHA256", "TLS_ECDHE_RSA_WITH_AES_128_CBC_SHA256");
  ("AES128-GCM-SHA256", "TLS_RSA_WITH_AES_128_GCM_SHA256");
  ("AES256-GCM-SHA384", "TLS_RSA_WITH_AES_256_GCM_SHA384");
  ("AES128-SHA256", "TLS_RSA_WITH_AES_128_CBC_SHA256");
  ("ECDHE-ECDSA-AES128-SHA", "TLS_ECDHE_ECDSA_WITH_AES_128_CBC_SHA");
  ("ECDHE-RSA-AES128-SHA", "TLS_ECDHE_RSA_WITH_AES_128_CBC_SHA");
  ("ECDHE-ECDSA-AES256-SHA", "TLS_ECDHE_ECDSA_WITH_AES_256_CBC_SHA");
  ("ECDHE-RSA-AES256-SHA", "TLS_ECDHE_RSA_WITH_AES_256_CBC_SHA");
  ("AES128-SHA", "TLS_RSA_WITH_AES_128_CBC_SHA");
  ("AES256-SHA", "TLS_RSA_WITH_AES_256_CBC_SHA");
  ("DES-CBC3-SHA", "TLS_RSA_WITH_3DES_EDE_CBC_SHA");
  ("ECDHE-RSA-DES-CBC3-SHA", "TLS_ECDHE_RSA_WITH_3DES_EDE_CBC_SHA")].
Definition openSSLToIANACiphersMap : gmap string string :=
  list_to_map openSSLToIANACiphersList.

Arguments openSSLToIANACiphersMap : simpl never.

(** Unknown ciphers are left out. *)
Fixpoint OpenSSLToIANACipherSuites (ciphers : list string) : list string :=
  match ciphers with
  | [] => []
  | c :: rest =>
      match openSSLToIANACiphersMap !! c with
      | Some ianaCipher => ianaCipher :: OpenSSLToIANACipherSuites rest
      | None => OpenSSLToIANACipherSuites rest
      end
  end.

Definition TLSCiphersToArgs (ciphers : list string) : list string :=
  let iana := OpenSSLToIANACipherSuites ciphers in
  if (length iana =? 0)%nat then ciphers else iana.

(** ** TLS profiles (openshift/api, controller-runtime-common, library-go) *)

Definition TLSProfileOldType : string := "Old".
Definition TLSProfileIntermediateType : string := "Intermediate".
Definition TLSProfileModernType : string := "Modern".
Definition TLSProfileCustomType : string := "Custom".
Definition defaultTLSGroups : goslice string :=
  mkslice ["X25519MLKEM768"; "X25519"; "secp256r1"; "secp384r1"].

(** The ciphers of the built-in profiles; each list extends the one before. *)
Definition modernCiphers : list string :=
  ["TLS_AES_128_GCM_SHA256"; "TLS_AES_256_GCM_SHA384"; "TLS_CHACHA20_POLY1305_SHA256"].
Definition intermediateCiphers : list string := modernCiphers ++
  ["ECDHE-ECDSA-AES128-GCM-SHA256"; "ECDHE-RSA-AES128-GCM-SHA256";
   "ECDHE-ECDSA-AES256-GCM-SHA384"; "ECDHE-RSA-AES256-GCM-SHA384";
   "ECDHE-ECDSA-CHACHA20-POLY1305"; "ECDHE-RSA-CHACHA20-POLY1305"].
Definition oldCiphers : list string := intermediateCiphers ++
  ["ECDHE-ECDSA-AES128-SHA256"; "ECDHE-RSA-AES128-SHA256"; "ECDHE-ECDSA-AES128-SHA";
   "ECDHE-RSA-AES128-SHA"; "ECDHE-ECDSA-AES256-SHA384"; "ECDHE-RSA-AES256-SHA384";
   "ECDHE-ECDSA-AES256-SHA"; "ECDHE-RSA-AES256-SHA"; "AES128-GCM-SHA256";
   "AES256-GCM-SHA384"; "AES128-SHA256"; "AES256-SHA256"; "AES128-SHA"; "AES256-SHA";
   "DES-CBC3-SHA"].
Definition oldProfile : TLSProfileSpec :=
  mkTLSProfileSpec (mkslice oldCiphers) defaultTLSGroups VersionTLS10.
Definition intermediateProfile : TLSProfileSpec :=
  mkTLSProfileSpec (mkslice intermediateCiphers) defaultTLSGroups VersionTLS12.
Definition modernProfile : TLSProfileSpec :=
  mkTLSProfileSpec (mkslice modernCiphers) defaultTLSGroups VersionTLS13.
Definition TLSProfiles : gmap string TLSProfileSpec := list_to_map [
  (TLSProfileOldType, oldProfile);
  (TLSProfileIntermediateType, intermediateProfile);
  (TLSProfileModernType, modernProfile)].

Definition ErrCustomProfileNil : error :=
  ErrorString "custom TLS profile specified but Custom field is nil".

Definition GetTLSProfileSpec (profile : option TLSSecurityProfile) : error + TLSProfileSpec :=
  let defaultProfile := intermediateProfile in
  match profile with
  | None => inr defaultProfile
  | Some p =>
      if bool_decide (tsp_Type p = "") then inr defaultProfile
      else if negb (bool_decide (tsp_Type p = TLSProfileCustomType)) then
        match TLSProfiles !! tsp_Type p with
        | Some tlsConfig => inr tlsConfig
        | None => inr defaultProfile
        end
      else match tsp_Custom p with
           | None => inl ErrCustomProfileNil
           | Some custom => inr custom
           end
  end.

Definition TLSAdherencePolicyNoOpinion : string := "".
Definition TLSAdherencePolicyLegacyAdheringComponentsOnly : string := "LegacyAdheringComponentsOnly".
Definition TLSAdherencePolicyStrictAllComponents : string := "StrictAllComponents".

Definition ShouldHonorClusterTLSProfile (tlsAdherence : string) : bool :=
  if bool_decide (tlsAdherence = TLSAdherencePolicyNoOpinion) ||
     bool_decide (tlsAdherence = TLSAdherencePolicyLegacyAdheringComponentsOnly)
  then false else true.

(** ** Laws *)

Lemma filter_loop_spec needle haystack newSlice found :
  filter_loop needle haystack newSlice found =
  (match List.filter (fun x => negb (bool_decide (x = needle))) haystack with
   | [] => newSlice
   | kept => mkslice (gs_list newSlice ++ kept)
   end,
   found + Z.of_nat (length haystack) -
   Z.of_nat (length (List.filter (fun x => negb (bool_decide (x = needle))) haystack))).
Proof.
  revert newSlice found; induction haystack as [|x rest IH]; intros s n; simpl.
  - f_equal. lia.
  - destruct (bool_decide (x = needle)); simpl; rewrite IH.
    + f_equal. lia.
    + f_equal; [|simpl; lia]. simpl. case_match; [done|]. by rewrite <- app_assoc.
Qed.

Definition count_string (needle : string) (l : list string) : nat :=
  length (List.filter (fun x => bool_decide (x = needle)) l).
Lemma filter_partition needle l :
  (length (List.filter (fun x => negb (bool_decide (x = needle))) l) + count_string needle l)%nat =
  length l.
Proof.
  unfold count_string. induction l as [|x l IH]; simpl; [done|].
  destruct (bool_decide (x = needle)); simpl; lia.
Qed.

(** [FilterString] removes the needle and counts it: the result is the
    haystack without the needle, in order, none is left, the count is the number
    of its occurrences, together they account for every string, the result is
    the nil slice exactly when nothing is kept, and filtering again changes
    nothing. *)
Lemma FilterString_removes haystack needle :
  let '(newSlice, found) := FilterString haystack needle in
  (forall x, x ∈ gs_list newSlice <-> x ∈ haystack /\ x <> needle) /\
  gs_list newSlice `sublist_of` haystack /\
  found = Z.of_nat (count_string needle haystack) /\
  Z.of_nat (length (gs_list newSlice)) + found = Z.of_nat (length haystack) /\
  (gs_isnil newSlice = true <-> gs_list newSlice = []) /\
  FilterString (gs_list newSlice) needle = (newSlice, 0).
Proof.
  unfold FilterString. rewrite filter_loop_spec.
  pose proof (filter_partition needle haystack) as Hp.
  assert (Hsub : List.filter (fun x => negb (bool_decide (x = needle))) haystack `sublist_of` haystack).
  { clear Hp. induction haystack as [|x l IH]; simpl; [constructor|].
    destruct (negb _); by constructor. }
  assert (Hin : forall x, x ∈ List.filter (fun x => negb (bool_decide (x = needle))) haystack <->
    x ∈ haystack /\ x <> needle).
  { intros x. rewrite !list_elem_of_In, filter_In, negb_true_iff, bool_decide_eq_false. done. }
  assert (Hid : List.filter (fun x => negb (bool_decide (x = needle)))
    (List.filter (fun x => negb (bool_decide (x = needle))) haystack) =
    List.filter (fun x => negb (bool_decide (x = needle))) haystack).
  { clear. induction haystack as [|x l IH]; simpl; [done|].
    destruct (negb (bool_decide (x = needle))) eqn:Hx; simpl; rewrite ?Hx, IH; done. }
  destruct (List.filter (fun x => negb (bool_decide (x = needle))) haystack) as [|y kept];
    simpl gs_list; (split; [done|]); (split; [done|]);
    (split; [simpl in *; lia|]); (split; [simpl in *; lia|]); (split; [done|]).
  - done.
  - rewrite filter_loop_spec, Hid. f_equal. simpl. lia.
Qed.

Lemma ReleaseVersionMatches_spec m v :
  ReleaseVersionMatches m v = true <->
  gm_lookup ReleaseVersionAnnotation (om_Annotations m) = Some v.
Proof.
  unfold ReleaseVersionMatches. destruct (gm_lookup _ _) as [v'|]; [|done].
  case_bool_decide; simpl; naive_solver.
Qed.

Lemma ArgExists_spec args arg :
  ArgExists args arg = true <-> exists v, arg +:+ "=" +:+ v ∈ args.
Proof.
  unfold ArgExists, ContainsFunc. rewrite existsb_exists. split.
  - intros (a & Ha & [v ->]%HasPrefix_spec). exists v.
    rewrite append_assoc in Ha. by apply list_elem_of_In.
  - intros [v Hv%list_elem_of_In]. eexists; split; [done|].
    apply HasPrefix_spec. exists v. by rewrite append_assoc.
Qed.

(** The known ciphers, in their order. *)
Lemma OpenSSLToIANA_omap ciphers :
  OpenSSLToIANACipherSuites ciphers = omap (fun c => openSSLToIANACiphersMap !! c) ciphers.
Proof.
  induction ciphers as [|c rest IH]; [done|]. cbn. rewrite IH.
  by destruct (openSSLToIANACiphersMap !! c).
Qed.

Lemma TLSCiphersToArgs_spec ciphers :
  TLSCiphersToArgs ciphers =
  let known := omap (fun c => openSSLToIANACiphersMap !! c) ciphers in
  if bool_decide (known = []) then ciphers else known.
Proof.
  unfold TLSCiphersToArgs. rewrite OpenSSLToIANA_omap. simpl.
  by destruct (omap _ ciphers).
Qed.
