(* ===== verification/Args.v ===== *)
(** * Command lines of the operands

    internal/controller/verticalpodautoscaler/{recommender,updater,admission_plugin}.go:
    the arguments the operator passes to the three VPA processes, and the
    reconciler's [Config] they are computed from. *)

From S2P Require Import Prelude Go GoFmt Objects Api Util.

(** The configuration of a reconciler instance. *)
Record Config := mkConfig {
  cfg_ReleaseVersion : string;
  cfg_Name : string;
  cfg_Namespace : string;
  cfg_Image : string;
  cfg_Verbosity : Z;
  cfg_ExtraArgs : string;
  cfg_TLSProfileSpec : option TLSProfileSpec;
  cfg_IsExternalControlPlane : bool
}.
Definition set_TLSProfileSpec (p : option TLSProfileSpec) (c : Config) : Config :=
  mkConfig (cfg_ReleaseVersion c) (cfg_Name c) (cfg_Namespace c) (cfg_Image c)
    (cfg_Verbosity c) (cfg_ExtraArgs c) p (cfg_IsExternalControlPlane c).

(** The types the code renders with [%v]. *)
Inductive value :=
| VInt (z : Z)
| VFloat (f : float64)
| VString (s : string).
Definition fmt_value (v : value) : string :=
  match v with VInt z => Itoa z | VFloat f => fmt_float64 f | VString s => s end.

(** ** recommender.go *)

Definition RecommenderArg_String (a : string) : string := a.
(** [fmt.Sprintf("%s=%v", a.String(), v)]. *)
Definition Value (a : string) (v : value) : string := RecommenderArg_String a +:+ "=" +:+ fmt_value v.

Definition LogToStderrArg : string := "--logtostderr".
Definition VerbosityArg : string := "--v".
Definition SafetyMarginFractionArg : string := "--recommendation-margin-fraction".
Definition PodMinCPUMillicoresArg : string := "--pod-recommendation-min-cpu-millicores".
Definition PodMinMemoryMbArg : string := "--pod-recommendation-min-memory-mb".

(** [if p != nil { args = append(args, arg.Value( *p )) }]. *)
Definition append_if_set {A} (args : list string) (p : option A) (render : A -> string) :
    list string :=
  match p with None => args | Some x => args ++ [render x] end.

Definition RecommenderArgs (vpa : VerticalPodAutoscalerController) (cfg : Config) : list string :=
  let s := vpa_Spec vpa in
  let args := [RecommenderArg_String LogToStderrArg; Value VerbosityArg (VInt (cfg_Verbosity cfg))] in
  let args := append_if_set args (vs_SafetyMarginFraction s)
                (fun v => Value SafetyMarginFractionArg (VFloat v)) in
  let args := append_if_set args (vs_PodMinCPUMillicores s)
                (fun v => Value PodMinCPUMillicoresArg (VFloat v)) in
  let args := append_if_set args (vs_PodMinMemoryMb s)
                (fun v => Value PodMinMemoryMbArg (VFloat v)) in
  args.

(** ** updater.go *)

Definition UpdaterArg_String (a : string) : string := a.
Definition UpdaterArg_Value (a : string) (v : value) : string := UpdaterArg_String a +:+ "=" +:+ fmt_value v.
Definition MinReplicasArg : string := "--min-replicas".

Definition UpdaterArgs (vpa : VerticalPodAutoscalerController) (cfg : Config) : list string :=
  let s := vpa_Spec vpa in
  let args := [RecommenderArg_String LogToStderrArg; Value VerbosityArg (VInt (cfg_Verbosity cfg))] in
  append_if_set args (vs_MinReplicas s) (fun v => UpdaterArg_Value MinReplicasArg (VInt v)).

(** ** admission_plugin.go *)

Definition AdmissionPluginArg_String (a : string) : string := a.
Definition AdmissionPluginArg_Value (a : string) (v : value) : string :=
  AdmissionPluginArg_String a +:+ "=" +:+ fmt_value v.
Definition KubeAPIQPSArg : string := "--kube-api-qps".
Definition KubeAPIBurstArg : string := "--kube-api-burst".
Definition TLSCertFileArg : string := "--tls-cert-file".
Definition TLSKeyFileArg : string := "--tls-private-key".
Definition TLSCACertFileArg : string := "--client-ca-file".
Definition WebhookTimeout : string := "--webhook-timeout-seconds".
Definition MinTLSVersionArg : string := "--min-tls-version".
Definition TLSCiphersArg : string := "--tls-ciphers".

Definition AdmissionPluginArgs (vpa : VerticalPodAutoscalerController) (cfg : Config) :
    list string :=
  let overrides := co_Args (do_Container (dos_Admission
                     (vs_DeploymentOverrides (vpa_Spec vpa)))) in
  let args :=
    [RecommenderArg_String LogToStderrArg;
     Value VerbosityArg (VInt (cfg_Verbosity cfg));
     AdmissionPluginArg_Value TLSCertFileArg (VString "/data/tls-certs/tls.crt");
     AdmissionPluginArg_Value TLSKeyFileArg (VString "/data/tls-certs/tls.key");
     AdmissionPluginArg_Value TLSCACertFileArg (VString "/data/tls-ca-certs/service-ca.crt");
     AdmissionPluginArg_Value WebhookTimeout (VString "10")] in
  let args := if negb (ArgExists overrides (AdmissionPluginArg_String KubeAPIQPSArg))
              then args ++ [AdmissionPluginArg_Value KubeAPIQPSArg (VString "25.0")] else args in
  let args := if negb (ArgExists overrides (AdmissionPluginArg_String KubeAPIBurstArg))
              then args ++ [AdmissionPluginArg_Value KubeAPIBurstArg (VString "50.0")] else args in
  let args := match cfg_TLSProfileSpec cfg with
              | Some p => if negb (bool_decide (tls_MinTLSVersion p = ""))
                          then args ++ [AdmissionPluginArg_Value MinTLSVersionArg
                                          (VString (TLSVersionToArg (tls_MinTLSVersion p)))]
                          else args
              | None => args
              end in
  match cfg_TLSProfileSpec cfg with
  | Some p => if (0 <? length (gs_list (tls_Ciphers p)))%nat
              then args ++ [AdmissionPluginArg_Value TLSCiphersArg
                              (VString (Join (TLSCiphersToArgs (gs_list (tls_Ciphers p))) ","))]
              else args
  | None => args
  end.
