(* ===== verification/Resources.v ===== *)
(** * The resources the operator expects

    internal/controller/verticalpodautoscaler/verticalpodautoscaler_controller.go,
    the pure half: names, pod specs, the deployments, the webhook service, the
    CA config map, the network policies and the default custom resource.  The
    methods of the reconciler read [r.Config] only, so they take the [Config]. *)

From S2P Require Import Prelude Go GoFmt Objects Api Util Args.

(** ** Constants *)

Definition ControllerName : string := "vertical-pod-autoscaler-controller".
Definition DefaultVPAControllerAnnotation : string :=
  "autoscaling.openshift.io/default-vpa-controller-created".
Definition WebhookServiceName : string := "vpa-webhook".
Definition WebhookCertSecretName : string := "vpa-tls-certs".
Definition webhookCertAnnotationName : string := "service.beta.openshift.io/serving-cert-secret-name".
Definition cACertAnnotationName : string := "service.beta.openshift.io/inject-cabundle".
Definition CACertConfigMapName : string := "vpa-tls-ca-certs".
Definition AdmissionControllerAppName : string := "vpa-admission-controller".

(** 0.15, 25 and 250 as binary64. *)
Definition DefaultSafetyMarginFraction : float64 := S754_finite false 5404319552844595 (-55).
Definition DefaultPodMinCPUMillicores : float64 := S754_finite false 7036874417766400 (-48).
Definition DefaultPodMinMemoryMb : float64 := S754_finite false 8796093022208000 (-45).
Definition DefaultRecommendationOnly : bool := false.
Definition DefaultMinReplicas : Z := 2.
Definition AdmissionWebhookPort : Z := 8000.

(** [resource.MustParse] of the quantities below: milli-units and mebi-units. *)
Definition milli (n : Z) : Quantity := mkQuantity (n * 10 ^ 6) DecimalSI.
Definition mebi (n : Z) : Quantity := mkQuantity (n * 2 ^ 20 * 10 ^ 9) BinarySI.
Definition default_requests (cpu memory : Quantity) : ResourceRequirements :=
  mkResources nilmap (gm_of [("cpu", cpu); ("memory", memory)]) nilslice.
Definition AdmissionResourceRequirements := default_requests (milli 25) (mebi 50).
Definition RecommenderResourceRequirements := default_requests (milli 25) (mebi 100).
Definition UpdaterResourceRequirements := default_requests (milli 25) (mebi 100).

(** ** Names and enablement *)

Definition RecommenderName (cfg : Config) (vpa : VerticalPodAutoscalerController) : NamespacedName :=
  mkNN (cfg_Namespace cfg) ("vpa-recommender-" +:+ om_Name (vpa_meta vpa)).
Definition UpdaterName (cfg : Config) (vpa : VerticalPodAutoscalerController) : NamespacedName :=
  mkNN (cfg_Namespace cfg) ("vpa-updater-" +:+ om_Name (vpa_meta vpa)).
Definition AdmissionPluginName (cfg : Config) (vpa : VerticalPodAutoscalerController) : NamespacedName :=
  mkNN (cfg_Namespace cfg) ("vpa-admission-plugin-" +:+ om_Name (vpa_meta vpa)).

Definition RecommenderEnabled (cfg : Config) (vpa : VerticalPodAutoscalerController) : bool := true.
Definition UpdaterEnabled (cfg : Config) (vpa : VerticalPodAutoscalerController) : bool :=
  match vs_RecommendationOnly (vpa_Spec vpa) with None => true | Some b => negb b end.
Definition AdmissionPluginEnabled (cfg : Config) (vpa : VerticalPodAutoscalerController) : bool :=
  match vs_RecommendationOnly (vpa_Spec vpa) with None => true | Some b => negb b end.

(** ** Annotations *)

(** [annotations := obj.GetAnnotations(); if annotations == nil { ... }]. *)
Definition annotations_or_empty (a : gomap string) : gmap string string :=
  match a with nilmap => ∅ | mkmap m => m end.

Definition UpdateAnnotations (cfg : Config) (meta : ObjectMeta) : ObjectMeta :=
  let annotations := annotations_or_empty (om_Annotations meta) in
  let annotations := <[ReleaseVersionAnnotation := cfg_ReleaseVersion cfg]> annotations in
  SetAnnotations (mkmap annotations) meta.

Definition UpdateServiceAnnotations (cfg : Config) (meta : ObjectMeta) : ObjectMeta :=
  let annotations := annotations_or_empty (om_Annotations meta) in
  let annotations := <[ReleaseVersionAnnotation := cfg_ReleaseVersion cfg]> annotations in
  let annotations := <[webhookCertAnnotationName := WebhookCertSecretName]> annotations in
  SetAnnotations (mkmap annotations) meta.

Definition UpdateConfigMapAnnotations (cfg : Config) (meta : ObjectMeta) : ObjectMeta :=
  let annotations := annotations_or_empty (om_Annotations meta) in
  let annotations := <[ReleaseVersionAnnotation := cfg_ReleaseVersion cfg]> annotations in
  let annotations := <[cACertAnnotationName := "true"]> annotations in
  SetAnnotations (mkmap annotations) meta.

(** ** Pod specs *)

(** The part of [ControllerParams] that a pod spec is computed from. *)
Record OperandParams := mkOperandParams {
  Command : string;
  AppName : string;
  ServiceAccount : string;
  PriorityClassName : string;
  GetArgs : VerticalPodAutoscalerController -> Config -> list string;
  Resources : ResourceRequirements
}.

Definition getDefaultNodeSelector (cfg : Config) : gomap string :=
  if cfg_IsExternalControlPlane cfg
  then gm_of [("kubernetes.io/os", "linux")]
  else gm_of [("node-role.kubernetes.io/control-plane", ""); ("kubernetes.io/os", "linux")].

Definition getDefaultTolerations (cfg : Config) : list Toleration :=
  let tolerations := [mkToleration "CriticalAddonsOnly" "Exists" "" "" None] in
  if negb (cfg_IsExternalControlPlane cfg) then
    tolerations ++ [mkToleration "node-role.kubernetes.io/master" "Exists" "" "NoSchedule" None]
      ++ [mkToleration "node-role.kubernetes.io/control-plane" "Exists" "" "NoSchedule" None]
  else tolerations.

(** The one container of an operand's pod. *)
Definition vpa_container (cfg : Config) (command : string) (args : list string)
    (resources : ResourceRequirements) : Container :=
  mkContainer "vertical-pod-autoscaler" (cfg_Image cfg) [command] args []
    [mkEnvVar "NAMESPACE" ""
       (Some (mkEnvVarSource (Some (mkFieldRef "v1" "metadata.namespace")) no_others))]
    resources [] "/dev/termination-log" "File" "Always"
    (Some (mkSecurityContext (Some (mkCapabilities [] ["ALL"])) (Some true) (Some false)
             (Some (mkSeccompProfile "RuntimeDefault" None)) no_others))
    no_others.

Definition VPAPodSpec (cfg : Config) (vpa : VerticalPodAutoscalerController)
    (params : OperandParams) : PodSpec :=
  let args := GetArgs params vpa cfg in
  let args := if negb (bool_decide (cfg_ExtraArgs cfg = "")) then args ++ [cfg_ExtraArgs cfg]
              else args in
  mkPodSpec [] [vpa_container cfg (Command params) args (Resources params)]
    "Always" (Some 30) "ClusterFirst" (getDefaultNodeSelector cfg)
    (ServiceAccount params) (ServiceAccount params) (Some no_others) "default-scheduler"
    (getDefaultTolerations cfg) (PriorityClassName params) no_others.

(** Assignments to fields of [spec] and of [spec.Containers[0]] (the index would
    panic without a container: [VPAPodSpec] builds one). *)
Definition on_container0 (f : Container -> Container) (s : PodSpec) : PodSpec :=
  mkPodSpec (ps_Volumes s)
    (match ps_Containers s with c :: rest => f c :: rest | [] => [] end)
    (ps_RestartPolicy s) (ps_TerminationGracePeriodSeconds s) (ps_DNSPolicy s)
    (ps_NodeSelector s) (ps_ServiceAccountName s) (ps_DeprecatedServiceAccount s)
    (ps_SecurityContext s) (ps_SchedulerName s) (ps_Tolerations s) (ps_PriorityClassName s)
    (ps_others s).
Definition set_Resources (r : ResourceRequirements) (c : Container) : Container :=
  mkContainer (c_Name c) (c_Image c) (c_Command c) (c_Args c) (c_Ports c) (c_Env c) r
    (c_VolumeMounts c) (c_TerminationMessagePath c) (c_TerminationMessagePolicy c)
    (c_ImagePullPolicy c) (c_SecurityContext c) (c_others c).
Definition append_Args (args : list string) (c : Container) : Container :=
  mkContainer (c_Name c) (c_Image c) (c_Command c) (c_Args c ++ args) (c_Ports c) (c_Env c)
    (c_Resources c) (c_VolumeMounts c) (c_TerminationMessagePath c)
    (c_TerminationMessagePolicy c) (c_ImagePullPolicy c) (c_SecurityContext c) (c_others c).
Definition append_Ports (ports : list ContainerPort) (c : Container) : Container :=
  mkContainer (c_Name c) (c_Image c) (c_Command c) (c_Args c) (c_Ports c ++ ports) (c_Env c)
    (c_Resources c) (c_VolumeMounts c) (c_TerminationMessagePath c)
    (c_TerminationMessagePolicy c) (c_ImagePullPolicy c) (c_SecurityContext c) (c_others c).
Definition append_VolumeMounts (mounts : list VolumeMount) (c : Container) : Container :=
  mkContainer (c_Name c) (c_Image c) (c_Command c) (c_Args c) (c_Ports c) (c_Env c)
    (c_Resources c) (c_VolumeMounts c ++ mounts) (c_TerminationMessagePath c)
    (c_TerminationMessagePolicy c) (c_ImagePullPolicy c) (c_SecurityContext c) (c_others c).
Definition set_NodeSelector (sel : gomap string) (s : PodSpec) : PodSpec :=
  mkPodSpec (ps_Volumes s) (ps_Containers s) (ps_RestartPolicy s)
    (ps_TerminationGracePeriodSeconds s) (ps_DNSPolicy s) sel (ps_ServiceAccountName s)
    (ps_DeprecatedServiceAccount s) (ps_SecurityContext s) (ps_SchedulerName s)
    (ps_Tolerations s) (ps_PriorityClassName s) (ps_others s).
Definition set_Tolerations (t : list Toleration) (s : PodSpec) : PodSpec :=
  mkPodSpec (ps_Volumes s) (ps_Containers s) (ps_RestartPolicy s)
    (ps_TerminationGracePeriodSeconds s) (ps_DNSPolicy s) (ps_NodeSelector s)
    (ps_ServiceAccountName s) (ps_DeprecatedServiceAccount s) (ps_SecurityContext s)
    (ps_SchedulerName s) t (ps_PriorityClassName s) (ps_others s).
Definition append_Volumes (v : list Volume) (s : PodSpec) : PodSpec :=
  mkPodSpec (ps_Volumes s ++ v) (ps_Containers s) (ps_RestartPolicy s)
    (ps_TerminationGracePeriodSeconds s) (ps_DNSPolicy s) (ps_NodeSelector s)
    (ps_ServiceAccountName s) (ps_DeprecatedServiceAccount s) (ps_SecurityContext s)
    (ps_SchedulerName s) (ps_Tolerations s) (ps_PriorityClassName s) (ps_others s).

(** The four overrides of a deployment, which the three pod spec methods apply
    in this order with the same guards. *)
Definition apply_override (o : DeploymentOverride) (spec : PodSpec) : PodSpec :=
  (* Allow the user to override the resources of the container *)
  let spec := if negb (bool_decide (co_Resources (do_Container o) = zero_ResourceRequirements))
              then on_container0 (set_Resources (co_Resources (do_Container o))) spec
              else spec in
  (* Append user args to our container args *)
  let spec := if (0 <? length (co_Args (do_Container o)))%nat
              then on_container0 (append_Args (co_Args (do_Container o))) spec
              else spec in
  (* Replace node selector, if specified *)
  let spec := if (0 <? gm_len (do_NodeSelector o))%nat
              then set_NodeSelector (do_NodeSelector o) spec else spec in
  (* Replace tolerations, if specified *)
  if (0 <? length (do_Tolerations o))%nat
  then set_Tolerations (do_Tolerations o) spec else spec.

Definition RecommenderControllerPodSpec (cfg : Config) (vpa : VerticalPodAutoscalerController)
    (params : OperandParams) : PodSpec :=
  let spec := VPAPodSpec cfg vpa params in
  apply_override (dos_Recommender (vs_DeploymentOverrides (vpa_Spec vpa))) spec.

Definition UpdaterControllerPodSpec (cfg : Config) (vpa : VerticalPodAutoscalerController)
    (params : OperandParams) : PodSpec :=
  let spec := VPAPodSpec cfg vpa params in
  apply_override (dos_Updater (vs_DeploymentOverrides (vpa_Spec vpa))) spec.

Definition AdmissionControllerPodSpec (cfg : Config) (vpa : VerticalPodAutoscalerController)
    (params : OperandParams) : PodSpec :=
  let spec := VPAPodSpec cfg vpa params in
  let spec := apply_override (dos_Admission (vs_DeploymentOverrides (vpa_Spec vpa))) spec in
  let spec := on_container0 (append_Ports
                [mkContainerPort "" 0 (int32 AdmissionWebhookPort) "TCP" ""]) spec in
  let spec := on_container0 (append_VolumeMounts
                [mkVolumeMount "tls-certs" true "/data/tls-certs" no_others]) spec in
  let spec := on_container0 (append_VolumeMounts
                [mkVolumeMount "tls-ca-certs" true "/data/tls-ca-certs" no_others]) spec in
  let defaultMode := 420 (* 0644 *) in
  let spec := append_Volumes [mkVolume "tls-certs"
                (Some (mkSecretVolume WebhookCertSecretName (Some defaultMode) no_others))
                None no_others] spec in
  append_Volumes [mkVolume "tls-ca-certs" None
    (Some (mkConfigMapVolume CACertConfigMapName (Some defaultMode) no_others)) no_others] spec.

(** ** Operands *)

(** [ControllerParams]: the function-valued fields take the parameters of the
    pod spec ([OperandParams]) where the Go struct passes itself. *)
Record ControllerParams := mkControllerParams {
  NameMethod : Config -> VerticalPodAutoscalerController -> NamespacedName;
  EnabledMethod : Config -> VerticalPodAutoscalerController -> bool;
  PodSpecMethod : Config -> VerticalPodAutoscalerController -> OperandParams -> PodSpec;
  operand : OperandParams
}.

Definition recommenderParams : ControllerParams :=
  mkControllerParams RecommenderName RecommenderEnabled RecommenderControllerPodSpec
    (mkOperandParams "recommender" "vpa-recommender" "vpa-recommender"
       "system-cluster-critical" RecommenderArgs RecommenderResourceRequirements).
Definition updaterParams : ControllerParams :=
  mkControllerParams UpdaterName UpdaterEnabled UpdaterControllerPodSpec
    (mkOperandParams "updater" "vpa-updater" "vpa-updater"
       "system-cluster-critical" UpdaterArgs UpdaterResourceRequirements).
Definition admissionParams : ControllerParams :=
  mkControllerParams AdmissionPluginName AdmissionPluginEnabled AdmissionControllerPodSpec
    (mkOperandParams "admission-controller" AdmissionControllerAppName "vpa-admission-controller"
       "system-cluster-critical" AdmissionPluginArgs AdmissionResourceRequirements).
Definition controllerParams : list ControllerParams :=
  [recommenderParams; updaterParams; admissionParams].

(** [params.PodSpecMethod(r, vpa, params)]. *)
Definition expected_podspec (cfg : Config) (vpa : VerticalPodAutoscalerController)
    (params : ControllerParams) : PodSpec :=
  PodSpecMethod params cfg vpa (operand params).
(** [replicas := int32(1)], 0 for a controller that should not be enabled. *)
Definition expected_replicas (cfg : Config) (vpa : VerticalPodAutoscalerController)
    (params : ControllerParams) : Z :=
  if negb (EnabledMethod params cfg vpa) then 0 else 1.

Definition AutoscalerDeployment (cfg : Config) (vpa : VerticalPodAutoscalerController)
    (params : ControllerParams) : Deployment :=
  let namespacedName := NameMethod params cfg vpa in
  let labels := gm_of [("vertical-pod-autoscaler", om_Name (vpa_meta vpa));
                       ("app", AppName (operand params))] in
  let annotations := gm_of [(ReleaseVersionAnnotation, cfg_ReleaseVersion cfg)] in
  let podSpec := expected_podspec cfg vpa params in
  let replicas := expected_replicas cfg vpa params in
  mkDeployment (mkTypeMeta "Deployment" "apps/v1")
    (SetAnnotations annotations
       (named_meta (nn_Name namespacedName) (nn_Namespace namespacedName)))
    (mkDeploymentSpec (Some replicas) (Some (match_labels labels))
       (mkPodTemplateSpec (SetLabels labels (SetAnnotations annotations (named_meta "" "")))
          podSpec)
       no_others)
    zero_DeploymentStatus.

(** ** The webhook's service and CA bundle *)

Definition WebhookService (cfg : Config) (vpa : VerticalPodAutoscalerController) : Service :=
  let service :=
    mkService (mkTypeMeta "Service" "core/v1")
      (named_meta WebhookServiceName (cfg_Namespace cfg))
      (mkServiceSpec
         [mkServicePort "" "TCP" None 443 (FromInt AdmissionWebhookPort) 0]
         (gm_of [("app", AdmissionControllerAppName)]) no_others)
      no_others in
  with_meta KService (UpdateServiceAnnotations cfg) service.

Definition CAConfigMap (cfg : Config) (vpa : VerticalPodAutoscalerController) : ConfigMap :=
  let cm :=
    mkConfigMap (mkTypeMeta "ConfigMap" "core/v1")
      (named_meta CACertConfigMapName (cfg_Namespace cfg)) no_others in
  with_meta KConfigMap (UpdateConfigMapAnnotations cfg) cm.

(** ** Network policies *)

Definition makePort (proto : option string) (port : IntOrString) (endPort : Z) :
    NetworkPolicyPort :=
  mkNetworkPolicyPort proto
    (if negb (bool_decide (port = FromInt32 0)) && negb (bool_decide (port = FromString "")) &&
        negb (bool_decide (port = FromString "0"))
     then Some port else None)
    (if negb (endPort =? 0) then Some endPort else None).

Definition protocolTCP : string := "TCP".
Definition protocolUDP : string := "UDP".
Definition PolicyTypeIngress : string := "Ingress".
Definition PolicyTypeEgress : string := "Egress".

Definition network_policy (cfg : Config) (name : string) (spec : NetworkPolicySpec) :
    NetworkPolicy :=
  mkNetworkPolicy (mkTypeMeta "NetworkPolicy" "networking.k8s.io/v1")
    (named_meta name (cfg_Namespace cfg)) spec.
(** The selector of every pod of the operands. *)
Definition vpa_pods (vpa : VerticalPodAutoscalerController) : LabelSelector :=
  match_labels (gm_of [("vertical-pod-autoscaler", om_Name (vpa_meta vpa))]).

(** Default deny all.  Additional policies will add all allowed traffic. *)
Definition default_deny_policy (cfg : Config) (vpa : VerticalPodAutoscalerController) : NetworkPolicy :=
  network_policy cfg "vpa-default-deny"
    (mkNetworkPolicySpec (vpa_pods vpa) [] [] [PolicyTypeEgress; PolicyTypeIngress]).
(** All VPA pods should be able to reach the cluster DNS. *)
Definition egress_to_dns_policy (cfg : Config) (vpa : VerticalPodAutoscalerController) : NetworkPolicy :=
  network_policy cfg "vpa-allow-egress-to-dns"
    (mkNetworkPolicySpec (vpa_pods vpa) []
       [mkNetworkPolicyRule
          [makePort (Some protocolTCP) (FromInt32 5353) 0;
           makePort (Some protocolUDP) (FromInt32 5353) 0]
          [mkNetworkPolicyPeer
             (Some (match_labels (gm_of [("dns.operator.openshift.io/daemonset-dns", "default")])))
             (Some (match_labels (gm_of [("kubernetes.io/metadata.name", "openshift-dns")])))
             no_others]]
       [PolicyTypeEgress]).
(** All VPA pods should be able to reach the API server. *)
Definition egress_to_api_server_policy (cfg : Config) (vpa : VerticalPodAutoscalerController) : NetworkPolicy :=
  network_policy cfg "vpa-allow-egress-to-api-server"
    (mkNetworkPolicySpec (vpa_pods vpa) []
       [mkNetworkPolicyRule [makePort (Some protocolTCP) (FromInt32 6443) 0] []]
       [PolicyTypeEgress]).
(** The Admission webhook needs to be reachable by the API server. *)
Definition ingress_to_webhook_policy (cfg : Config) (vpa : VerticalPodAutoscalerController) : NetworkPolicy :=
  network_policy cfg "vpa-allow-ingress-to-admission-webhook"
    (mkNetworkPolicySpec
       (match_labels (gm_of [("vertical-pod-autoscaler", om_Name (vpa_meta vpa));
                             ("app", AdmissionControllerAppName)]))
       [mkNetworkPolicyRule
          [makePort (Some protocolTCP) (FromInt32 (int32 AdmissionWebhookPort)) 0] []]
       [] [PolicyTypeIngress]).
(** Metrics endpoints, for a cluster admin who exposed them. *)
Definition ingress_to_metrics_policy (cfg : Config) (vpa : VerticalPodAutoscalerController) : NetworkPolicy :=
  network_policy cfg "vpa-allow-ingress-to-metrics"
    (mkNetworkPolicySpec (vpa_pods vpa)
       [mkNetworkPolicyRule
          [makePort (Some protocolTCP) (FromInt32 (int32 8942)) 0;
           makePort (Some protocolTCP) (FromInt32 (int32 8943)) 0;
           makePort (Some protocolTCP) (FromInt32 (int32 8944)) 0] []]
       [] [PolicyTypeIngress]).
Definition NetworkPolicies (cfg : Config) (vpa : VerticalPodAutoscalerController) :
    list NetworkPolicy :=
  [default_deny_policy cfg vpa; egress_to_dns_policy cfg vpa; egress_to_api_server_policy cfg vpa;
   ingress_to_webhook_policy cfg vpa; ingress_to_metrics_policy cfg vpa].
(** The policies field by field. *)
Ltac unfold_policies :=
  unfold NetworkPolicies, default_deny_policy, egress_to_dns_policy, egress_to_api_server_policy,
    ingress_to_webhook_policy, ingress_to_metrics_policy, network_policy.

(** ** The default custom resource *)

Definition DefaultVPAController (cfg : Config) : VerticalPodAutoscalerController :=
  mkVPA (mkTypeMeta "" "") (named_meta (cfg_Name cfg) (cfg_Namespace cfg))
    (mkVPASpec (Some DefaultSafetyMarginFraction) (Some DefaultPodMinCPUMillicores)
       (Some DefaultPodMinMemoryMb) (Some DefaultRecommendationOnly) (Some DefaultMinReplicas)
       zero_DeploymentOverrides).
