(* ===== verification/Controller.v ===== *)
(** * The reconciler

    internal/controller/verticalpodautoscaler/verticalpodautoscaler_controller.go,
    the effectful half: [Reconcile], [syncTLSProfile], [ensureVPAController], the
    create and update methods, and what they use of controller-runtime and
    client-go ([SetControllerReference], [GetReference]).  The reconciler's
    mutable state is [r.Config], whose TLS profile [syncTLSProfile] replaces: it
    is passed in and returned. *)

From S2P Require Import Prelude Go GoFmt Objects Api Util Args Resources.

(** ** Group, version and kind *)

Record GroupVersionKind := mkGVK { gvk_Group : string; gvk_Version : string; gvk_Kind : string }.
#[export] Instance GroupVersionKind_eq_dec : EqDecision GroupVersionKind.
Proof. solve_decision. Defined.

(** [strings.Split(s, "/")]. *)
Fixpoint split_slash (s : string) : list string :=
  match s with
  | EmptyString => [EmptyString]
  | String "/"%char rest => EmptyString :: split_slash rest
  | String c rest =>
      match split_slash rest with
      | part :: parts => String c part :: parts
      | [] => []
      end
  end.
(** [schema.ParseGroupVersion]: group and version, an error for two slashes. *)
Definition ParseGroupVersion (gv : string) : option (string * string) :=
  if bool_decide (gv = "") || bool_decide (gv = "/") then Some ("", "")
  else match split_slash gv with
       | [v] => Some ("", v)
       | [g; v] => Some (g, v)
       | _ => None
       end.
(** [GroupVersion.String]. *)
Definition GroupVersion_String (gvk : GroupVersionKind) : string :=
  if bool_decide (gvk_Group gvk = "") then gvk_Version gvk
  else gvk_Group gvk +:+ "/" +:+ gvk_Version gvk.
(** [TypeMeta.GroupVersionKind]. *)
Definition FromAPIVersionAndKind (t : TypeMeta) : GroupVersionKind :=
  match ParseGroupVersion (tm_APIVersion t) with
  | Some (g, v) => mkGVK g v (tm_Kind t)
  | None => mkGVK "" "" (tm_Kind t)
  end.
Definition GVK_Empty (g : GroupVersionKind) : bool :=
  bool_decide (gvk_Group g = "") && bool_decide (gvk_Version g = "") &&
  bool_decide (gvk_Kind g = "").

(** The scheme, as its answer for the custom resource's Go type:
    [scheme.ObjectKinds(vpa)], the kinds and whether the type is unversioned. *)
Record Scheme := mkScheme { ObjectKinds : error + (list GroupVersionKind * bool) }.

(** [apiutil.GVKForObject]. *)
Definition GVKForObject (t : TypeMeta) (scheme : Scheme) : error + GroupVersionKind :=
  match ObjectKinds scheme with
  | inl err => inl err
  | inr (gvks, isUnversioned) =>
      if isUnversioned then
        inl (ErrorString "cannot create group-version-kind for unversioned type")
      else match gvks with
           | [] => inl (ErrorString "no GroupVersionKind associated with Go type")
           | [gvk] => inr gvk
           | _ =>
               let err := ErrorString "multiple GroupVersionKinds associated with Go type" in
               let currentGVK := FromAPIVersionAndKind t in
               if negb (GVK_Empty currentGVK) then
                 if bool_decide (currentGVK ∈ gvks) then inr currentGVK
                 else inl (WrapError "the object's supplied GroupVersionKind was not found" err)
               else inl (WrapError "callers can either fix their type registration" err)
           end
  end.

(** ** Owner references (controllerutil) *)

Definition validateOwner (owner object : ObjectMeta) : option error :=
  let ownerNs := om_Namespace owner in
  if negb (bool_decide (ownerNs = "")) then
    let objNs := om_Namespace object in
    if bool_decide (objNs = "") then
      Some (ErrorString ("cluster-scoped resource must not have a namespace-scoped owner, owner's namespace "
                         +:+ ownerNs))
    else if negb (bool_decide (ownerNs = objNs)) then
      Some (ErrorString ("cross-namespace owner references are disallowed, owner's namespace "
                         +:+ ownerNs +:+ ", obj's namespace " +:+ objNs))
    else None
  else None.

(** Same group, kind and name; the version does not matter. *)
Definition referSameObject (a b : OwnerReference) : bool :=
  match ParseGroupVersion (or_APIVersion a), ParseGroupVersion (or_APIVersion b) with
  | Some (aGroup, _), Some (bGroup, _) =>
      bool_decide (aGroup = bGroup) && bool_decide (or_Kind a = or_Kind b) &&
      bool_decide (or_Name a = or_Name b)
  | _, _ => false
  end.

(** [metav1.GetControllerOf]: the first reference with the controller flag. *)
Fixpoint GetControllerOf (refs : list OwnerReference) : option OwnerReference :=
  match refs with
  | [] => None
  | r :: rest => if bool_decide (or_Controller r = Some true) then Some r else GetControllerOf rest
  end.

(** [upsertOwnerRef]: replace the first reference to the same object, or append. *)
Fixpoint upsertOwnerRef (ref : OwnerReference) (owners : list OwnerReference) :
    list OwnerReference :=
  match owners with
  | [] => [ref]
  | r :: rest => if referSameObject r ref then ref :: rest else r :: upsertOwnerRef ref rest
  end.

(** The reference [SetControllerReference] makes to its owner. *)
Definition controller_ref (owner : VerticalPodAutoscalerController) (gvk : GroupVersionKind) :
    OwnerReference :=
  mkOwnerReference (GroupVersion_String gvk) (gvk_Kind gvk) (om_Name (vpa_meta owner))
    (om_UID (vpa_meta owner)) (Some true) (Some true).

Definition SetControllerReference (owner : VerticalPodAutoscalerController)
    (controlled : ObjectMeta) (scheme : Scheme) : error + ObjectMeta :=
  match validateOwner (vpa_meta owner) controlled with
  | Some err => inl err
  | None =>
      match GVKForObject (vpa_type owner) scheme with
      | inl err => inl err
      | inr gvk =>
          let ref := controller_ref owner gvk in
          let update := SetOwnerReferences (upsertOwnerRef ref (om_OwnerReferences controlled))
                          controlled in
          match GetControllerOf (om_OwnerReferences controlled) with
          | Some existing =>
              if negb (referSameObject existing ref) then
                inl (AlreadyOwnedError (om_Namespace controlled) (om_Name controlled)
                       (or_Kind existing) (or_Name existing))
              else inr update
          | None => inr update
          end
      end
  end.

(** ** Event references *)

(** [reference.GetReference] for a custom resource. *)
Definition GetReference (scheme : Scheme) (o : VerticalPodAutoscalerController) :
    error + ObjectReference :=
  let make (gvk : GroupVersionKind) :=
    let m := vpa_meta o in
    mkObjectReference (gvk_Kind gvk) (om_Namespace m) (om_Name m) (om_UID m)
      (GroupVersion_String gvk) (om_ResourceVersion m) in
  let gvk := FromAPIVersionAndKind (vpa_type o) in
  if GVK_Empty gvk then
    match ObjectKinds scheme with
    | inl err => inl err
    | inr ([], _) => inl (ErrorString "unexpected gvks registered for object")
    | inr (gvk0 :: _, _) =>
        if GVK_Empty gvk0 then inl (ErrorString "unexpected gvks registered for object")
        else inr (make gvk0)
    end
  else inr (make gvk).

Definition set_oref_Namespace (ns : string) (r : ObjectReference) : ObjectReference :=
  mkObjectReference (oref_Kind r) ns (oref_Name r) (oref_UID r) (oref_APIVersion r)
    (oref_ResourceVersion r).

(** A reference in the deployment namespace when the object has none. *)
Definition objectReference (scheme : Scheme) (cfg : Config)
    (o : VerticalPodAutoscalerController) : option ObjectReference :=
  match GetReference scheme o with
  | inl _ => None
  | inr ref =>
      if bool_decide (oref_Namespace ref = "") then Some (set_oref_Namespace (cfg_Namespace cfg) ref)
      else Some ref
  end.

(** ** Creating and updating *)

(** The error of a call that returns an object. *)
Definition err_of {A} (r : error + A) : option error :=
  match r with inl err => Some err | inr _ => None end.

Section Operations.
Context (scheme : Scheme) (cfg : Config).

Definition CreateAutoscaler (vpa : VerticalPodAutoscalerController) (params : ControllerParams) :
    prog (option error) :=
  let deployment := AutoscalerDeployment cfg vpa params in
  match SetControllerReference vpa (dep_meta deployment) scheme with
  | inl err => Ret (Some err)
  | inr meta =>
      r <- ask (Create KDeployment (with_meta KDeployment (fun _ => meta) deployment)) ;;
      Ret (err_of r)
  end.

(** The deployment an update writes: the expected pod spec and replicas, and
    the release version in the annotations of the deployment and the template. *)
Definition updated_deployment (vpa : VerticalPodAutoscalerController) (params : ControllerParams)
    (existing : Deployment) : Deployment :=
  let s := dep_Spec existing in
  let template := ds_Template s in
  mkDeployment (dep_type existing) (UpdateAnnotations cfg (dep_meta existing))
    (mkDeploymentSpec (Some (expected_replicas cfg vpa params)) (ds_Selector s)
       (mkPodTemplateSpec (UpdateAnnotations cfg (pt_meta template))
          (expected_podspec cfg vpa params))
       (ds_others s))
    (dep_Status existing).

(** Only podSpec, replicas and release version are compared. *)
Definition deployment_current (vpa : VerticalPodAutoscalerController) (params : ControllerParams)
    (existing : Deployment) : bool :=
  sem_eqb (pt_Spec (ds_Template (dep_Spec existing))) (expected_podspec cfg vpa params) &&
  sem_eqb (ds_Replicas (dep_Spec existing)) (Some (expected_replicas cfg vpa params)) &&
  ReleaseVersionMatches (dep_meta existing) (cfg_ReleaseVersion cfg).

Definition UpdateAutoscaler (vpa : VerticalPodAutoscalerController) (params : ControllerParams) :
    prog (bool * option error) :=
  g <- ask (Get KDeployment (NameMethod params cfg vpa)) ;;
  match g with
  | inl err => Ret (false, Some err)
  | inr existing =>
      if deployment_current vpa params existing then Ret (false, None)
      else
        u <- ask (Update KDeployment (updated_deployment vpa params existing)) ;;
        Ret (match u with inl err => (false, Some err) | inr _ => (true, None) end)
  end.

Definition CreateWebhookService (vpa : VerticalPodAutoscalerController) : prog (option error) :=
  let service := WebhookService cfg vpa in
  match SetControllerReference vpa (svc_meta service) scheme with
  | inl err => Ret (Some err)
  | inr meta =>
      r <- ask (Create KService (with_meta KService (fun _ => meta) service)) ;;
      Ret (err_of r)
  end.

(** The deep copy of the service with the expected ports, selector and annotations. *)
Definition merged_service (vpa : VerticalPodAutoscalerController) (existing : Service) : Service :=
  let expected := WebhookService cfg vpa in
  let s := svc_Spec existing in
  with_meta KService (UpdateServiceAnnotations cfg)
    (mkService (svc_type existing) (svc_meta existing)
       (mkServiceSpec (ss_Ports (svc_Spec expected)) (ss_Selector (svc_Spec expected)) (ss_others s))
       (svc_Status existing)).

Definition UpdateWebhookService (vpa : VerticalPodAutoscalerController) :
    prog (bool * option error) :=
  g <- ask (Get KService (mkNN (cfg_Namespace cfg) WebhookServiceName)) ;;
  match g with
  | inl err => Ret (false, Some err)
  | inr existingService =>
      let merged := merged_service vpa existingService in
      if sem_eqb existingService merged then Ret (false, None)
      else
        u <- ask (Update KService merged) ;;
        Ret (match u with inl err => (false, Some err) | inr _ => (true, None) end)
  end.

Definition CreateCAConfigMap (vpa : VerticalPodAutoscalerController) : prog (option error) :=
  let cm := CAConfigMap cfg vpa in
  match SetControllerReference vpa (cm_meta cm) scheme with
  | inl err => Ret (Some err)
  | inr meta =>
      r <- ask (Create KConfigMap (with_meta KConfigMap (fun _ => meta) cm)) ;;
      Ret (err_of r)
  end.

Definition merged_configmap (existing : ConfigMap) : ConfigMap :=
  with_meta KConfigMap (UpdateConfigMapAnnotations cfg) existing.

Definition UpdateCAConfigMap (vpa : VerticalPodAutoscalerController) :
    prog (bool * option error) :=
  g <- ask (Get KConfigMap (mkNN (cfg_Namespace cfg) CACertConfigMapName)) ;;
  match g with
  | inl err => Ret (false, Some err)
  | inr existingCM =>
      let merged := merged_configmap existingCM in
      if sem_eqb existingCM merged then Ret (false, None)
      else
        u <- ask (Update KConfigMap merged) ;;
        Ret (match u with inl err => (false, Some err) | inr _ => (true, None) end)
  end.
End Operations.

(** ** Reconcile *)

(** [r.Recorder.Eventf(vpaRef, nil, type, reason, action, "%s", note)]. *)
Definition EventTypeNormal : string := "Normal".
Definition EventTypeWarning : string := "Warning".
Definition record_event (vpaRef : option ObjectReference) (ty reason action note : string) :
    prog unit :=
  ask (Eventf (mkEvent vpaRef ty reason action note)).

(** A failure that is reported as a warning and returned. *)
Definition fail_with (vpaRef : option ObjectReference) (reason action what : string) (err : error) :
    prog (option error) :=
  record_event vpaRef EventTypeWarning reason action (what +:+ ": " +:+ Error err) ;;;
  Ret (Some err).

(** A success that is reported, after which [Reconcile] goes on. *)
Definition succeed_with (vpaRef : option ObjectReference) (reason action note : string) :
    prog (option error) :=
  record_event vpaRef EventTypeNormal reason action note ;;;
  Ret None.

(** A [for] loop whose body may return from the function with an error. *)
Fixpoint for_each {A} (l : list A) (body : A -> prog (option error)) : prog (option error) :=
  match l with
  | [] => Ret None
  | x :: rest =>
      e <- body x ;;
      match e with Some err => Ret (Some err) | None => for_each rest body end
  end.

(** Statements in sequence, until one returns an error. *)
Definition and_then (p q : prog (option error)) : prog (option error) :=
  e <- p ;; match e with Some err => Ret (Some err) | None => q end.

Section Reconcile.
Context (scheme : Scheme) (cfg : Config).
Context (vpa : VerticalPodAutoscalerController) (vpaRef : option ObjectReference).

(** The body of the loop over [controllerParams]. *)
Definition reconcile_operand (params : ControllerParams) : prog (option error) :=
  let name := NamespacedName_String (NameMethod params cfg vpa) in
  g <- ask (Get KDeployment (NameMethod params cfg vpa)) ;;
  match g with
  | inl err =>
      if negb (IsNotFound err) then
        fail_with vpaRef "FailedGetDeployment" "GetDeployment"
          "Error getting vertical-pod-autoscaler deployment" err
      else
        e <- CreateAutoscaler scheme cfg vpa params ;;
        match e with
        | Some err => fail_with vpaRef "FailedCreate" "Create"
                        "Error creating VerticalPodAutoscalerController deployment" err
        | None => succeed_with vpaRef "SuccessfulCreate" "Create"
                    ("Created VerticalPodAutoscalerController deployment: " +:+ name)
        end
  | inr _ =>
      u <- UpdateAutoscaler cfg vpa params ;;
      match u with
      | (_, Some err) => fail_with vpaRef "FailedUpdate" "Update"
                           "Error updating vertical-pod-autoscaler deployment" err
      | (true, None) => succeed_with vpaRef "SuccessfulUpdate" "Update"
                          ("Updated VerticalPodAutoscalerController deployment: " +:+ name)
      | (false, None) => Ret None
      end
  end.

Definition reconcile_service : prog (option error) :=
  g <- ask (Get KService (mkNN (cfg_Namespace cfg) WebhookServiceName)) ;;
  match g with
  | inl err =>
      if negb (IsNotFound err) then
        fail_with vpaRef "FailedGetService" "GetService"
          ("Error getting vertical-pod-autoscaler webhook service " +:+ WebhookServiceName) err
      else
        e <- CreateWebhookService scheme cfg vpa ;;
        match e with
        | Some err => fail_with vpaRef "FailedCreate" "Create"
                        "Error creating VerticalPodAutoscalerController service" err
        | None => succeed_with vpaRef "SuccessfulCreate" "Create"
                    ("Created VerticalPodAutoscalerController service: " +:+ WebhookServiceName)
        end
  | inr _ =>
      u <- UpdateWebhookService cfg vpa ;;
      match u with
      | (_, Some err) => fail_with vpaRef "FailedUpdate" "Update"
                           "Error updating vertical-pod-autoscaler webhook service" err
      | (true, None) => succeed_with vpaRef "SuccessfulUpdate" "Update"
                          ("Updated VerticalPodAutoscalerController service: " +:+ WebhookServiceName)
      | (false, None) => Ret None
      end
  end.

Definition reconcile_configmap : prog (option error) :=
  g <- ask (Get KConfigMap (mkNN (cfg_Namespace cfg) CACertConfigMapName)) ;;
  match g with
  | inl err =>
      if negb (IsNotFound err) then
        fail_with vpaRef "FailedGetConfigMap" "GetConfigMap"
          ("Error getting vertical-pod-autoscaler CA ConfigMap " +:+ CACertConfigMapName) err
      else
        e <- CreateCAConfigMap scheme cfg vpa ;;
        match e with
        | Some err => fail_with vpaRef "FailedCreate" "Create"
                        "Error creating VerticalPodAutoscalerController ConfigMap" err
        | None => succeed_with vpaRef "SuccessfulCreate" "Create"
                    ("Created VerticalPodAutoscalerController ConfigMap: " +:+ CACertConfigMapName)
        end
  | inr _ =>
      u <- UpdateCAConfigMap cfg vpa ;;
      match u with
      | (_, Some err) => fail_with vpaRef "FailedUpdate" "Update"
                           "Error updating vertical-pod-autoscaler CA ConfigMap" err
      | (true, None) => succeed_with vpaRef "SuccessfulUpdate" "Update"
                          ("Updated VerticalPodAutoscalerController ConfigMap: " +:+ CACertConfigMapName)
      | (false, None) => Ret None
      end
  end.

(** The body of the loop over [NetworkPolicies]. *)
Definition reconcile_policy (policy : NetworkPolicy) : prog (option error) :=
  let name := om_Name (np_meta policy) in
  g <- ask (Get KNetworkPolicy (mkNN (cfg_Namespace cfg) name)) ;;
  match g with
  | inl err =>
      if negb (IsNotFound err) then
        fail_with vpaRef "FailedGetNetworkPolicy" "GetNetworkPolicy"
          ("Error getting VerticalPodAutoscalerController networkpolicy " +:+ name) err
      else
        match SetControllerReference vpa (np_meta policy) scheme with
        | inl err => Ret (Some err)
        | inr meta =>
            c <- ask (Create KNetworkPolicy (with_meta KNetworkPolicy (fun _ => meta) policy)) ;;
            match err_of c with
            | Some err => fail_with vpaRef "FailedCreate" "Create"
                            ("Error creating VerticalPodAutoscalerController networkpolicy " +:+ name) err
            | None => succeed_with vpaRef "SuccessfulCreate" "Create"
                        ("Created VerticalPodAutoscalerController networkpolicy: " +:+ name)
            end
        end
  | inr oldpolicy =>
      if sem_eqb (np_Spec policy) (np_Spec oldpolicy) then Ret None
      else
        u <- ask (Update KNetworkPolicy policy) ;;
        match err_of u with
        | Some err => fail_with vpaRef "FailedUpdate" "Update"
                        ("Error updating VerticalPodAutoscalerController networkpolicy " +:+ name) err
        | None => succeed_with vpaRef "SuccessfulUpdate" "Update"
                    ("Updated VerticalPodAutoscalerController networkpolicy: " +:+ name)
        end
  end.

(** Everything [Reconcile] does once it has the custom resource. *)
Definition reconcile_all : prog (option error) :=
  and_then (for_each controllerParams reconcile_operand)
    (and_then reconcile_service
       (and_then reconcile_configmap
          (for_each (NetworkPolicies cfg vpa) reconcile_policy))).
End Reconcile.

(** [tlspkg.APIServerName]. *)
Definition APIServerName : string := "cluster".

(** The TLS profile after a reading of the APIServer object; a failure of the
    read or of the profile keeps the existing one. *)
Definition synced_TLSProfile (cfg : Config) (apiServer : error + APIServer) : Config :=
  match apiServer with
  | inl _ => cfg
  | inr apiServerConfig =>
      if ShouldHonorClusterTLSProfile (as_TLSAdherence apiServerConfig) then
        match GetTLSProfileSpec (as_TLSSecurityProfile apiServerConfig) with
        | inl _ => cfg
        | inr tlsProfile => set_TLSProfileSpec (Some tlsProfile) cfg
        end
      else set_TLSProfileSpec None cfg
  end.
Definition syncTLSProfile (cfg : Config) : prog Config :=
  g <- ask (Get KAPIServer (mkNN "" APIServerName)) ;;
  Ret (synced_TLSProfile cfg g).

(** [reconcile.Result]; every return of [Reconcile] has the zero value. *)
Record Result := mkResult { res_Requeue : bool; res_RequeueAfter : Z }.
Definition zero_Result : Result := mkResult false 0.

(** The reconciler's configuration is part of what [Reconcile] returns. *)
Definition Reconcile (scheme : Scheme) (cfg : Config) (req : NamespacedName) :
    prog (Config * (Result * option error)) :=
  cfg <- syncTLSProfile cfg ;;
  g <- ask (Get KVerticalPodAutoscalerController req) ;;
  match g with
  | inl err =>
      if IsNotFound err then Ret (cfg, (zero_Result, None))
      else Ret (cfg, (zero_Result, Some err))
  | inr vpa =>
      let vpaRef := objectReference scheme cfg vpa in
      e <- reconcile_all scheme cfg vpa vpaRef ;;
      Ret (cfg, (zero_Result, e))
  end.

(** ** The reconciler *)

(** Its client, recorder and cache are the API, its log is not modelled. *)
Record VerticalPodAutoscalerControllerReconciler := mkReconciler { r_Scheme : Scheme; r_Config : Config }.
Definition SetConfig (cfg : Config) (r : VerticalPodAutoscalerControllerReconciler) :
    VerticalPodAutoscalerControllerReconciler :=
  mkReconciler (r_Scheme r) cfg.

(** ** Start-up *)

(** The copy of the namespace with the annotation set. *)
Definition annotated_namespace (ns : Namespace) : Namespace :=
  let annotations := annotations_or_empty (om_Annotations (ns_meta ns)) in
  with_meta KNamespace
    (SetAnnotations (mkmap (<[DefaultVPAControllerAnnotation := "true"]> annotations))) ns.

Definition ensureVPAController (cfg : Config) : prog (option error) :=
  let nn := mkNN (cfg_Namespace cfg) (cfg_Name cfg) in
  g <- ask (Get KNamespace (mkNN "" (cfg_Namespace cfg))) ;;
  match g with
  | inl err => Ret (Some err)
  | inr vpaNamespace =>
      match gm_lookup DefaultVPAControllerAnnotation (om_Annotations (ns_meta vpaNamespace)) with
      | Some _ => Ret None
      | None =>
          let annotate :=
            p <- ask (Patch KNamespace (annotated_namespace vpaNamespace) vpaNamespace) ;;
            Ret (err_of p) in
          v <- ask (Get KVerticalPodAutoscalerController nn) ;;
          match v with
          | inl err =>
              if IsNotFound err then
                c <- ask (Create KVerticalPodAutoscalerController (DefaultVPAController cfg)) ;;
                match c with
                | inl err => if negb (IsAlreadyExists err) then Ret (Some err) else annotate
                | inr _ => annotate
                end
              else Ret (Some err)
          | inr _ => annotate
          end
      end
  end.

(** ** Predicates and watches *)

(** Only events of the singleton resource pass. *)
Definition NamePredicate (cfg : Config) (meta : ObjectMeta) : bool :=
  if negb (bool_decide (om_Name meta = cfg_Name cfg)) then false else true.

(** [apiServerToVPA]: an event of the APIServer enqueues the singleton. *)
Definition apiServerToVPA (cfg : Config) : list NamespacedName :=
  [mkNN (cfg_Namespace cfg) (cfg_Name cfg)].
