(* ===== verification/Kinds.v ===== *)
(** * The kinds of Kubernetes and OpenShift

    What the packages that the operator's scheme is built from register: the
    tables of client-go's kubernetes/scheme, with each package's register.go, and of
    openshift/api's config/v1. *)

From S2P Require Import Prelude.

(** The [addKnownTypes] of a package: its path, group and version, and the names
    of its types. *)
Record package := mkPackage {
  pk_path : string;
  pk_Group : string;
  pk_Version : string;
  pk_types : list string;
  pk_common : list string             (* types of apimachinery's meta/v1 *)
}.

(** [localSchemeBuilder] of kubernetes/scheme. *)
Definition kubernetes_packages : list package :=
  [
    mkPackage "k8s.io/api/admissionregistration/v1" "admissionregistration.k8s.io" "v1" [
      "ValidatingWebhookConfiguration"; "ValidatingWebhookConfigurationList";
      "MutatingWebhookConfiguration"; "MutatingWebhookConfigurationList";
      "ValidatingAdmissionPolicy"; "ValidatingAdmissionPolicyList";
      "ValidatingAdmissionPolicyBinding"; "ValidatingAdmissionPolicyBindingList"] [];
    mkPackage "k8s.io/api/admissionregistration/v1alpha1" "admissionregistration.k8s.io" "v1alpha1" [
      "ValidatingAdmissionPolicy"; "ValidatingAdmissionPolicyList";
      "ValidatingAdmissionPolicyBinding"; "ValidatingAdmissionPolicyBindingList";
      "MutatingAdmissionPolicy"; "MutatingAdmissionPolicyList";
      "MutatingAdmissionPolicyBinding"; "MutatingAdmissionPolicyBindingList"] [];
    mkPackage "k8s.io/api/admissionregistration/v1beta1" "admissionregistration.k8s.io" "v1beta1" [
      "ValidatingWebhookConfiguration"; "ValidatingWebhookConfigurationList";
      "MutatingWebhookConfiguration"; "MutatingWebhookConfigurationList";
      "ValidatingAdmissionPolicy"; "ValidatingAdmissionPolicyList";
      "ValidatingAdmissionPolicyBinding"; "ValidatingAdmissionPolicyBindingList";
      "MutatingAdmissionPolicy"; "MutatingAdmissionPolicyList";
      "MutatingAdmissionPolicyBinding"; "MutatingAdmissionPolicyBindingList"] [];
    mkPackage "k8s.io/api/apiserverinternal/v1alpha1" "internal.apiserver.k8s.io" "v1alpha1" [
      "StorageVersion"; "StorageVersionList"] [];
    mkPackage "k8s.io/api/apps/v1" "apps" "v1" [
      "Deployment"; "DeploymentList"; "StatefulSet"; "StatefulSetList"; "DaemonSet";
      "DaemonSetList"; "ReplicaSet"; "ReplicaSetList"; "ControllerRevision";
      "ControllerRevisionList"] [];
    mkPackage "k8s.io/api/apps/v1beta1" "apps" "v1beta1" [
      "Deployment"; "DeploymentList"; "DeploymentRollback"; "Scale"; "StatefulSet";
      "StatefulSetList"; "ControllerRevision"; "ControllerRevisionList"] [];
    mkPackage "k8s.io/api/apps/v1beta2" "apps" "v1beta2" [
      "Deployment"; "DeploymentList"; "Scale"; "StatefulSet"; "StatefulSetList";
      "DaemonSet"; "DaemonSetList"; "ReplicaSet"; "ReplicaSetList";
      "ControllerRevision"; "ControllerRevisionList"] [];
    mkPackage "k8s.io/api/authentication/v1" "authentication.k8s.io" "v1" [
      "TokenReview"; "TokenRequest"; "SelfSubjectReview"] [];
    mkPackage "k8s.io/api/authentication/v1alpha1" "authentication.k8s.io" "v1alpha1" [
      "SelfSubjectReview"] [];
    mkPackage "k8s.io/api/authentication/v1beta1" "authentication.k8s.io" "v1beta1" [
      "SelfSubjectReview"; "TokenReview"] [];
    mkPackage "k8s.io/api/authorization/v1" "authorization.k8s.io" "v1" [
      "SelfSubjectRulesReview"; "SelfSubjectAccessReview"; "SubjectAccessReview";
      "LocalSubjectAccessReview"] [];
    mkPackage "k8s.io/api/authorization/v1beta1" "authorization.k8s.io" "v1beta1" [
      "SelfSubjectRulesReview"; "SelfSubjectAccessReview"; "SubjectAccessReview";
      "LocalSubjectAccessReview"] [];
    mkPackage "k8s.io/api/autoscaling/v1" "autoscaling" "v1" [
      "HorizontalPodAutoscaler"; "HorizontalPodAutoscalerList"; "Scale"] [];
    mkPackage "k8s.io/api/autoscaling/v2" "autoscaling" "v2" [
      "HorizontalPodAutoscaler"; "HorizontalPodAutoscalerList"] [];
    mkPackage "k8s.io/api/autoscaling/v2beta1" "autoscaling" "v2beta1" [
      "HorizontalPodAutoscaler"; "HorizontalPodAutoscalerList"] [];
    mkPackage "k8s.io/api/autoscaling/v2beta2" "autoscaling" "v2beta2" [
      "HorizontalPodAutoscaler"; "HorizontalPodAutoscalerList"] [];
    mkPackage "k8s.io/api/batch/v1" "batch" "v1" [
      "Job"; "JobList"; "CronJob"; "CronJobList"] [];
    mkPackage "k8s.io/api/batch/v1beta1" "batch" "v1beta1" [
      "CronJob"; "CronJobList"] [];
    mkPackage "k8s.io/api/certificates/v1" "certificates.k8s.io" "v1" [
      "CertificateSigningRequest"; "CertificateSigningRequestList"] [];
    mkPackage "k8s.io/api/certificates/v1beta1" "certificates.k8s.io" "v1beta1" [
      "CertificateSigningRequest"; "CertificateSigningRequestList";
      "ClusterTrustBundle"; "ClusterTrustBundleList"; "PodCertificateRequest";
      "PodCertificateRequestList"] [];
    mkPackage "k8s.io/api/certificates/v1alpha1" "certificates.k8s.io" "v1alpha1" [
      "ClusterTrustBundle"; "ClusterTrustBundleList"] [];
    mkPackage "k8s.io/api/coordination/v1alpha2" "coordination.k8s.io" "v1alpha2" [
      "LeaseCandidate"; "LeaseCandidateList"] [];
    mkPackage "k8s.io/api/coordination/v1beta1" "coordination.k8s.io" "v1beta1" [
      "Lease"; "LeaseList"; "LeaseCandidate"; "LeaseCandidateList"] [];
    mkPackage "k8s.io/api/coordination/v1" "coordination.k8s.io" "v1" [
      "Lease"; "LeaseList"] [];
    mkPackage "k8s.io/api/core/v1" "" "v1" [
      "Pod"; "PodList"; "PodStatusResult"; "PodTemplate"; "PodTemplateList";
      "ReplicationController"; "ReplicationControllerList"; "Service";
      "ServiceProxyOptions"; "ServiceList"; "Endpoints"; "EndpointsList"; "Node";
      "NodeList"; "NodeProxyOptions"; "Binding"; "Event"; "EventList"; "List";
      "LimitRange"; "LimitRangeList"; "ResourceQuota"; "ResourceQuotaList"; "Namespace";
      "NamespaceList"; "Secret"; "SecretList"; "ServiceAccount"; "ServiceAccountList";
      "PersistentVolume"; "PersistentVolumeList"; "PersistentVolumeClaim";
      "PersistentVolumeClaimList"; "PodAttachOptions"; "PodLogOptions";
      "PodExecOptions"; "PodPortForwardOptions"; "PodProxyOptions"; "ComponentStatus";
      "ComponentStatusList"; "SerializedReference"; "RangeAllocation"; "ConfigMap";
      "ConfigMapList"] ["Status"];
    mkPackage "k8s.io/api/discovery/v1" "discovery.k8s.io" "v1" [
      "EndpointSlice"; "EndpointSliceList"] [];
    mkPackage "k8s.io/api/discovery/v1beta1" "discovery.k8s.io" "v1beta1" [
      "EndpointSlice"; "EndpointSliceList"] [];
    mkPackage "k8s.io/api/events/v1" "events.k8s.io" "v1" [
      "Event"; "EventList"] [];
    mkPackage "k8s.io/api/events/v1beta1" "events.k8s.io" "v1beta1" [
      "Event"; "EventList"] [];
    mkPackage "k8s.io/api/extensions/v1beta1" "extensions" "v1beta1" [
      "Deployment"; "DeploymentList"; "DeploymentRollback"; "Scale"; "DaemonSetList";
      "DaemonSet"; "Ingress"; "IngressList"; "ReplicaSet"; "ReplicaSetList";
      "NetworkPolicy"; "NetworkPolicyList"] [];
    mkPackage "k8s.io/api/flowcontrol/v1" "flowcontrol.apiserver.k8s.io" "v1" [
      "FlowSchema"; "FlowSchemaList"; "PriorityLevelConfiguration";
      "PriorityLevelConfigurationList"] [];
    mkPackage "k8s.io/api/flowcontrol/v1beta1" "flowcontrol.apiserver.k8s.io" "v1beta1" [
      "FlowSchema"; "FlowSchemaList"; "PriorityLevelConfiguration";
      "PriorityLevelConfigurationList"] [];
    mkPackage "k8s.io/api/flowcontrol/v1beta2" "flowcontrol.apiserver.k8s.io" "v1beta2" [
      "FlowSchema"; "FlowSchemaList"; "PriorityLevelConfiguration";
      "PriorityLevelConfigurationList"] [];
    mkPackage "k8s.io/api/flowcontrol/v1beta3" "flowcontrol.apiserver.k8s.io" "v1beta3" [
      "FlowSchema"; "FlowSchemaList"; "PriorityLevelConfiguration";
      "PriorityLevelConfigurationList"] [];
    mkPackage "k8s.io/api/networking/v1" "networking.k8s.io" "v1" [
      "Ingress"; "IngressList"; "IngressClass"; "IngressClassList"; "NetworkPolicy";
      "NetworkPolicyList"; "IPAddress"; "IPAddressList"; "ServiceCIDR";
      "ServiceCIDRList"] [];
    mkPackage "k8s.io/api/networking/v1beta1" "networking.k8s.io" "v1beta1" [
      "Ingress"; "IngressList"; "IngressClass"; "IngressClassList"; "IPAddress";
      "IPAddressList"; "ServiceCIDR"; "ServiceCIDRList"] [];
    mkPackage "k8s.io/api/node/v1" "node.k8s.io" "v1" [
      "RuntimeClass"; "RuntimeClassList"] [];
    mkPackage "k8s.io/api/node/v1alpha1" "node.k8s.io" "v1alpha1" [
      "RuntimeClass"; "RuntimeClassList"] [];
    mkPackage "k8s.io/api/node/v1beta1" "node.k8s.io" "v1beta1" [
      "RuntimeClass"; "RuntimeClassList"] [];
    mkPackage "k8s.io/api/policy/v1" "policy" "v1" [
      "PodDisruptionBudget"; "PodDisruptionBudgetList"; "Eviction"] [];
    mkPackage "k8s.io/api/policy/v1beta1" "policy" "v1beta1" [
      "PodDisruptionBudget"; "PodDisruptionBudgetList"; "Eviction"] [];
    mkPackage "k8s.io/api/rbac/v1" "rbac.authorization.k8s.io" "v1" [
      "Role"; "RoleBinding"; "RoleBindingList"; "RoleList"; "ClusterRole";
      "ClusterRoleBinding"; "ClusterRoleBindingList"; "ClusterRoleList"] [];
    mkPackage "k8s.io/api/rbac/v1beta1" "rbac.authorization.k8s.io" "v1beta1" [
      "Role"; "RoleBinding"; "RoleBindingList"; "RoleList"; "ClusterRole";
      "ClusterRoleBinding"; "ClusterRoleBindingList"; "ClusterRoleList"] [];
    mkPackage "k8s.io/api/rbac/v1alpha1" "rbac.authorization.k8s.io" "v1alpha1" [
      "Role"; "RoleBinding"; "RoleBindingList"; "RoleList"; "ClusterRole";
      "ClusterRoleBinding"; "ClusterRoleBindingList"; "ClusterRoleList"] [];
    mkPackage "k8s.io/api/resource/v1" "resource.k8s.io" "v1" [
      "DeviceClass"; "DeviceClassList"; "ResourceClaim"; "ResourceClaimList";
      "ResourceClaimTemplate"; "ResourceClaimTemplateList"; "ResourceSlice";
      "ResourceSliceList"] [];
    mkPackage "k8s.io/api/resource/v1beta2" "resource.k8s.io" "v1beta2" [
      "DeviceClass"; "DeviceClassList"; "ResourceClaim"; "ResourceClaimList";
      "ResourceClaimTemplate"; "ResourceClaimTemplateList"; "ResourceSlice";
      "ResourceSliceList"] [];
    mkPackage "k8s.io/api/resource/v1beta1" "resource.k8s.io" "v1beta1" [
      "DeviceClass"; "DeviceClassList"; "ResourceClaim"; "ResourceClaimList";
      "ResourceClaimTemplate"; "ResourceClaimTemplateList"; "ResourceSlice";
      "ResourceSliceList"] [];
    mkPackage "k8s.io/api/resource/v1alpha3" "resource.k8s.io" "v1alpha3" [
      "DeviceTaintRule"; "DeviceTaintRuleList"] [];
    mkPackage "k8s.io/api/scheduling/v1alpha1" "scheduling.k8s.io" "v1alpha1" [
      "PriorityClass"; "PriorityClassList"; "Workload"; "WorkloadList"] [];
    mkPackage "k8s.io/api/scheduling/v1beta1" "scheduling.k8s.io" "v1beta1" [
      "PriorityClass"; "PriorityClassList"] [];
    mkPackage "k8s.io/api/scheduling/v1" "scheduling.k8s.io" "v1" [
      "PriorityClass"; "PriorityClassList"] [];
    mkPackage "k8s.io/api/storage/v1beta1" "storage.k8s.io" "v1beta1" [
      "StorageClass"; "StorageClassList"; "VolumeAttachment"; "VolumeAttachmentList";
      "CSIDriver"; "CSIDriverList"; "CSINode"; "CSINodeList"; "CSIStorageCapacity";
      "CSIStorageCapacityList"; "VolumeAttributesClass"; "VolumeAttributesClassList"] [];
    mkPackage "k8s.io/api/storage/v1" "storage.k8s.io" "v1" [
      "StorageClass"; "StorageClassList"; "VolumeAttachment"; "VolumeAttachmentList";
      "CSINode"; "CSINodeList"; "CSIDriver"; "CSIDriverList"; "CSIStorageCapacity";
      "CSIStorageCapacityList"; "VolumeAttributesClass"; "VolumeAttributesClassList"] [];
    mkPackage "k8s.io/api/storage/v1alpha1" "storage.k8s.io" "v1alpha1" [
      "VolumeAttachment"; "VolumeAttachmentList"; "CSIStorageCapacity";
      "CSIStorageCapacityList"; "VolumeAttributesClass"; "VolumeAttributesClassList"] [];
    mkPackage "k8s.io/api/storagemigration/v1beta1" "storagemigration.k8s.io" "v1beta1" [
      "StorageVersionMigration"; "StorageVersionMigrationList"] []
  ].

(** config.openshift.io. *)
Definition config_package : package :=
    mkPackage "github.com/openshift/api/config/v1" "config.openshift.io" "v1" [
      "APIServer"; "APIServerList"; "Authentication"; "AuthenticationList"; "Build";
      "BuildList"; "ClusterOperator"; "ClusterOperatorList"; "ClusterVersion";
      "ClusterVersionList"; "Console"; "ConsoleList"; "DNS"; "DNSList"; "FeatureGate";
      "FeatureGateList"; "Image"; "ImageList"; "Infrastructure"; "InfrastructureList";
      "Ingress"; "IngressList"; "Node"; "NodeList"; "Network"; "NetworkList"; "OAuth";
      "OAuthList"; "OperatorHub"; "OperatorHubList"; "Project"; "ProjectList"; "Proxy";
      "ProxyList"; "Scheduler"; "SchedulerList"; "ImageContentPolicy";
      "ImageContentPolicyList"; "ImageDigestMirrorSet"; "ImageDigestMirrorSetList";
      "ImageTagMirrorSet"; "ImageTagMirrorSetList"; "ImagePolicy"; "ImagePolicyList";
      "ClusterImagePolicy"; "ClusterImagePolicyList"; "InsightsDataGather";
      "InsightsDataGatherList"] [].
