(* ===== verification/Registry.v ===== *)
(** * The scheme

    [runtime.Scheme] of apimachinery, which tells the Go types of objects and
    their kinds apart; the builders that fill it; and the initialisation of
    cmd/main.go and api/v1 (groupversion_info.go, and the [init] of the types).
    Conversions, defaulting and the priorities of versions are left out; the
    operator does not use them.  Registration panics on a conflict, which would end
    the operator before it starts: it does not. *)

From S2P Require Import Prelude Go GoFmt Objects Api Util Args Resources Controller Kinds.

#[export] Instance GroupVersionKind_countable : Countable GroupVersionKind.
Proof.
  refine (inj_countable' (fun g => (gvk_Group g, gvk_Version g, gvk_Kind g))
    (fun p => mkGVK p.1.1 p.1.2 p.2) _). by intros [].
Defined.

(** [schema.GroupVersion]. *)
Record GroupVersion := mkGroupVersion { gv_Group : string; gv_Version : string }.
#[export] Instance GroupVersion_eq_dec : EqDecision GroupVersion.
Proof. solve_decision. Defined.
Definition WithKind (gv : GroupVersion) (kind : string) : GroupVersionKind :=
  mkGVK (gv_Group gv) (gv_Version gv) kind.

(** The type of an object, a struct, as reflection identifies it. *)
Record gotype := mkGoType { PkgPath : string; Name : string }.
#[export] Instance gotype_eq_dec : EqDecision gotype.
Proof. solve_decision. Defined.
#[export] Instance gotype_countable : Countable gotype.
Proof.
  refine (inj_countable' (fun t => (PkgPath t, Name t)) (fun p => mkGoType p.1 p.2) _). by intros [].
Defined.
(** How [%v] prints it: with the last element of its package's path. *)
Definition gotype_String (t : gotype) : string :=
  default "" (last (split_slash (PkgPath t))) +:+ "." +:+ Name t.

(** ** [runtime.Scheme] *)

Record registry := mkRegistry {
  gvkToType : gmap GroupVersionKind gotype;
  typeToGVK : gmap gotype (list GroupVersionKind);
  unversionedTypes : gmap gotype GroupVersionKind;
  unversionedKinds : gmap string gotype;
  observedVersions : list GroupVersion;
  schemeName : string
}.
Definition NewScheme (name : string) : registry := mkRegistry ∅ ∅ ∅ ∅ [] name.

Definition APIVersionInternal : string := "__internal".
Definition addObservedVersion (version : GroupVersion) (s : registry) : registry :=
  if bool_decide (gv_Version version = "") || bool_decide (gv_Version version = APIVersionInternal) then s
  else if bool_decide (version ∈ observedVersions s) then s
  else mkRegistry (gvkToType s) (typeToGVK s) (unversionedTypes s) (unversionedKinds s)
         (observedVersions s ++ [version]) (schemeName s).

(** [None] is a panic. *)
Definition AddKnownTypeWithName (gvk : GroupVersionKind) (t : gotype) (s : registry) : option registry :=
  let s := addObservedVersion (mkGroupVersion (gvk_Group gvk) (gvk_Version gvk)) s in
  if bool_decide (gvk_Version gvk = "") then None
  else
    let double := match gvkToType s !! gvk with
                  | Some oldT => negb (bool_decide (oldT = t))
                  | None => false
                  end in
    if double then None
    else
      let known := <[gvk := t]> (gvkToType s) in
      let kinds := default [] (typeToGVK s !! t) in
      Some (mkRegistry known
              (if bool_decide (gvk ∈ kinds) then typeToGVK s
               else <[t := kinds ++ [gvk]]> (typeToGVK s))
              (unversionedTypes s) (unversionedKinds s) (observedVersions s) (schemeName s)).

Fixpoint for_types (f : gotype -> registry -> option registry) (types : list gotype) (s : registry) :
    option registry :=
  match types with
  | [] => Some s
  | t :: types => match f t s with Some s => for_types f types s | None => None end
  end.
Definition AddKnownTypes (gv : GroupVersion) (types : list gotype) (s : registry) : option registry :=
  for_types (fun t => AddKnownTypeWithName (WithKind gv (Name t)) t) types (addObservedVersion gv s).

Definition add_unversioned (version : GroupVersion) (t : gotype) (s : registry) : option registry :=
  let gvk := WithKind version (Name t) in
  let unique := match unversionedKinds s !! gvk_Kind gvk with
                | Some old => bool_decide (t = old)
                | None => true
                end in
  if unique then
    Some (mkRegistry (gvkToType s) (typeToGVK s) (<[t := gvk]> (unversionedTypes s))
            (<[gvk_Kind gvk := t]> (unversionedKinds s)) (observedVersions s) (schemeName s))
  else None.
Definition AddUnversionedTypes (version : GroupVersion) (types : list gotype) (s : registry) :
    option registry :=
  match AddKnownTypes version types (addObservedVersion version s) with
  | Some s => for_types (add_unversioned version) types s
  | None => None
  end.

Definition quote_mark : string := String (Ascii.ascii_of_nat 34) EmptyString.
(** The kinds of an object of type [t] (a pointer to one, not unstructured). *)
Definition registry_ObjectKinds (s : registry) (t : gotype) : error + (list GroupVersionKind * bool) :=
  match typeToGVK s !! t with
  | None => inl (ErrorString ("no kind is registered for the type " +:+ gotype_String t +:+
      " in scheme " +:+ quote_mark +:+ schemeName s +:+ quote_mark))
  | Some gvks => inr (gvks, bool_decide (is_Some (unversionedTypes s !! t)))
  end.
(** The type that [scheme.New] makes an object of. *)
Definition New (s : registry) (kind : GroupVersionKind) : option gotype :=
  match gvkToType s !! kind with
  | Some t => Some t
  | None => unversionedKinds s !! gvk_Kind kind
  end.

(** ** apis/meta/v1 *)

Definition metav1 (name : string) : gotype := mkGoType "k8s.io/apimachinery/pkg/apis/meta/v1" name.
Definition Unversioned : GroupVersion := mkGroupVersion "" "v1".
Definition WatchEventKind : string := "WatchEvent".
Definition optionsTypes : list gotype :=
  map metav1 ["ListOptions"; "GetOptions"; "DeleteOptions"; "CreateOptions"; "UpdateOptions"; "PatchOptions"].
Definition AddToGroupVersion (groupVersion : GroupVersion) (scheme : registry) : option registry :=
  scheme ← AddKnownTypeWithName (WithKind groupVersion WatchEventKind) (metav1 "WatchEvent") scheme;
  scheme ← AddKnownTypeWithName
    (WithKind (mkGroupVersion (gv_Group groupVersion) APIVersionInternal) WatchEventKind)
    (metav1 "InternalEvent") scheme;
  scheme ← AddKnownTypes groupVersion optionsTypes scheme;
  AddUnversionedTypes Unversioned
    (map metav1 ["Status"; "APIVersions"; "APIGroupList"; "APIGroup"; "APIResourceList"]) scheme.

(** ** Builders *)

(** The functions that a [runtime.SchemeBuilder] collects. *)
Definition registration : Type := registry -> option (option error * registry).
Fixpoint SchemeBuilder_AddToScheme (sb : list registration) (s : registry) :
    option (option error * registry) :=
  match sb with
  | [] => Some (None, s)
  | f :: sb =>
      match f s with
      | Some (None, s) => SchemeBuilder_AddToScheme sb s
      | Some (Some err, s) => Some (Some err, s)
      | None => None
      end
  end.

(** [scheme.Builder] of controller-runtime. *)
Record Builder := mkBuilder { bld_GroupVersion : GroupVersion; bld_SchemeBuilder : list registration }.
Definition Builder_Register (object : list gotype) (bld : Builder) : Builder :=
  mkBuilder (bld_GroupVersion bld)
    (bld_SchemeBuilder bld ++
       [fun scheme =>
          scheme ← AddKnownTypes (bld_GroupVersion bld) object scheme;
          scheme ← AddToGroupVersion (bld_GroupVersion bld) scheme;
          Some (None, scheme)]).
Definition Builder_AddToScheme (bld : Builder) : registration :=
  SchemeBuilder_AddToScheme (bld_SchemeBuilder bld).

(** [addKnownTypes] of a package. *)
Definition addKnownTypes (p : package) : registration := fun scheme =>
  let gv := mkGroupVersion (pk_Group p) (pk_Version p) in
  scheme ← AddKnownTypes gv (map (mkGoType (pk_path p)) (pk_types p)) scheme;
  scheme ← AddKnownTypes gv (map metav1 (pk_common p)) scheme;
  scheme ← AddToGroupVersion gv scheme;
  Some (None, scheme).
Definition clientgoscheme_AddToScheme : registration :=
  SchemeBuilder_AddToScheme (map addKnownTypes kubernetes_packages).
Definition configv1_Install : registration := SchemeBuilder_AddToScheme [addKnownTypes config_package].

(** ** The operator *)

(** api/v1: the variables, and the [init] of the types. *)
Definition api_GroupVersion : GroupVersion := mkGroupVersion "autoscaling.openshift.io" "v1".
Definition api_package : string := "github.com/openshift/vertical-pod-autoscaler-operator/api/v1".
Definition api_SchemeBuilder : Builder := mkBuilder api_GroupVersion [].
Definition api_init (SchemeBuilder : Builder) : Builder :=
  Builder_Register
    [mkGoType api_package "VerticalPodAutoscalerController";
     mkGoType api_package "VerticalPodAutoscalerControllerList"] SchemeBuilder.
(** A method value of the pointer [SchemeBuilder]: it sees what [init] registers. *)
Definition api_AddToScheme : registration := Builder_AddToScheme (api_init api_SchemeBuilder).

(** [utilruntime.Must]: an error is a panic. *)
Definition Must (r : option (option error * registry)) : option registry :=
  match r with Some (None, s) => Some s | _ => None end.
(** [init] of cmd/main.go. *)
Definition main_init (scheme : registry) : option registry :=
  scheme ← Must (clientgoscheme_AddToScheme scheme);
  scheme ← Must (api_AddToScheme scheme);
  Must (configv1_Install scheme).

(** The Go type of the objects of a kind, and what the API calls them. *)
Definition kind_type (k : kind) : gotype :=
  match k with
  | KVerticalPodAutoscalerController => mkGoType api_package "VerticalPodAutoscalerController"
  | KDeployment => mkGoType "k8s.io/api/apps/v1" "Deployment"
  | KService => mkGoType "k8s.io/api/core/v1" "Service"
  | KConfigMap => mkGoType "k8s.io/api/core/v1" "ConfigMap"
  | KNetworkPolicy => mkGoType "k8s.io/api/networking/v1" "NetworkPolicy"
  | KNamespace => mkGoType "k8s.io/api/core/v1" "Namespace"
  | KAPIServer => mkGoType "github.com/openshift/api/config/v1" "APIServer"
  | KClusterOperator => mkGoType "github.com/openshift/api/config/v1" "ClusterOperator"
  | KInfrastructure => mkGoType "github.com/openshift/api/config/v1" "Infrastructure"
  end.
Definition kind_gvk (k : kind) : GroupVersionKind :=
  match k with
  | KVerticalPodAutoscalerController =>
      mkGVK "autoscaling.openshift.io" "v1" "VerticalPodAutoscalerController"
  | KDeployment => mkGVK "apps" "v1" "Deployment"
  | KService => mkGVK "" "v1" "Service"
  | KConfigMap => mkGVK "" "v1" "ConfigMap"
  | KNetworkPolicy => mkGVK "networking.k8s.io" "v1" "NetworkPolicy"
  | KNamespace => mkGVK "" "v1" "Namespace"
  | KAPIServer => mkGVK "config.openshift.io" "v1" "APIServer"
  | KClusterOperator => mkGVK "config.openshift.io" "v1" "ClusterOperator"
  | KInfrastructure => mkGVK "config.openshift.io" "v1" "Infrastructure"
  end.
(** The scheme as Controller.v uses it. *)
Definition operator_scheme (s : registry) : Scheme :=
  mkScheme (registry_ObjectKinds s (kind_type KVerticalPodAutoscalerController)).

(** ** The maps agree *)

(** The two maps are inverse to each other: a kind has one type, and a type lists
    its kinds, each once. *)
Definition consistent (s : registry) : Prop :=
  (forall gvk t, gvkToType s !! gvk = Some t <-> gvk ∈ default [] (typeToGVK s !! t)) /\
  (forall t l, typeToGVK s !! t = Some l -> NoDup l) /\
  (forall kind t, unversionedKinds s !! kind = Some t -> exists gvk, unversionedTypes s !! t = Some gvk).
(** What is registered stays registered. *)
Definition extends (s s' : registry) : Prop :=
  gvkToType s ⊆ gvkToType s' /\ unversionedKinds s ⊆ unversionedKinds s'.
#[export] Instance extends_preorder : PreOrder extends.
Proof. split; [by intros s | intros s1 s2 s3 [? ?] [? ?]; split; by etrans]. Qed.
(** Registrations that keep the maps in order and lose nothing. *)
Definition registers (f : registry -> option registry) : Prop :=
  forall s s', f s = Some s' -> consistent s -> consistent s' /\ extends s s'.

Lemma addObservedVersion_registers v : registers (Some ∘ addObservedVersion v).
Proof.
  intros s s' [= <-] Hs. unfold addObservedVersion. by repeat case_match.
Qed.
Lemma AddKnownTypeWithName_registers gvk t : registers (AddKnownTypeWithName gvk t).
Proof.
  intros s0 s' Hadd Hs0. unfold AddKnownTypeWithName in Hadd.
  set (v := mkGroupVersion (gvk_Group gvk) (gvk_Version gvk)) in Hadd.
  destruct (addObservedVersion_registers v s0 _ eq_refl Hs0) as [Hs He]. simpl in Hs, He.
  set (s := addObservedVersion v s0) in *. clearbody s. case_bool_decide; [done|].
  assert (Hold : forall old, gvkToType s !! gvk = Some old -> old = t).
  { intros old Hold. rewrite Hold in Hadd. by case_bool_decide. }
  assert (Hadd' : Some s' = Some (mkRegistry (<[gvk := t]> (gvkToType s))
    (if bool_decide (gvk ∈ default [] (typeToGVK s !! t)) then typeToGVK s
     else <[t := default [] (typeToGVK s !! t) ++ [gvk]]> (typeToGVK s))
    (unversionedTypes s) (unversionedKinds s) (observedVersions s) (schemeName s))).
  { rewrite <- Hadd. destruct (gvkToType s !! gvk) as [old|]; [|done].
    rewrite (Hold old eq_refl), bool_decide_eq_true_2 by done. done. }
  injection Hadd' as ->. clear Hadd. destruct Hs as (Hm & Hn & Hu). split.
  - split; [|split; [|exact Hu]]; simpl.
    + intros g t'. case_bool_decide as Hin.
      * rewrite <- Hm. apply Hm in Hin. destruct (decide (g = gvk)) as [->|Hg].
        { by rewrite lookup_insert_eq, Hin. }
        by rewrite lookup_insert_ne.
      * destruct (decide (t' = t)) as [->|Ht].
        { rewrite lookup_insert_eq. simpl. rewrite elem_of_app, list_elem_of_singleton, <- Hm.
          destruct (decide (g = gvk)) as [->|Hg]; [rewrite lookup_insert_eq | rewrite lookup_insert_ne by done];
            intuition congruence. }
        rewrite (lookup_insert_ne _ t t') by done. rewrite <- Hm.
        destruct (decide (g = gvk)) as [->|Hg]; [rewrite lookup_insert_eq | by rewrite lookup_insert_ne].
        split; [congruence|]. intros Hg. by apply Hold in Hg.
    + intros t' l. case_bool_decide as Hin; [apply Hn|]. destruct (decide (t' = t)) as [->|Ht].
      * rewrite lookup_insert_eq. intros [= <-]. apply NoDup_app. split_and!.
        { destruct (typeToGVK s !! t) eqn:Hl; simpl; [by apply (Hn t) | constructor]. }
        { intros x Hx ->%list_elem_of_singleton. done. }
        apply NoDup_singleton.
      * rewrite lookup_insert_ne by done. apply Hn.
  - etrans; [exact He|]. split; simpl; [|done]. apply map_subseteq_spec. intros g t' Hg.
    destruct (decide (g = gvk)) as [->|]; [|by rewrite lookup_insert_ne].
    rewrite lookup_insert_eq. by rewrite (Hold t' Hg).
Qed.

Lemma registers_bind f g :
  registers f -> registers g -> registers (fun s => match f s with Some s => g s | None => None end).
Proof.
  intros Hf Hg s s' Hfg Hs. destruct (f s) as [s1|] eqn:H1; [|done].
  destruct (Hf s s1 H1 Hs) as [Hs1 E1]. destruct (Hg s1 s' Hfg Hs1) as [Hs2 E2]. split; [done | by etrans].
Qed.
Lemma for_types_registers f types : (forall t, registers (f t)) -> registers (for_types f types).
Proof.
  intros Hf. induction types as [|t types IH]; [by intros s s' [= <-]|]. exact (registers_bind _ _ (Hf t) IH).
Qed.
Lemma AddKnownTypes_registers gv types : registers (AddKnownTypes gv types).
Proof.
  apply (registers_bind (Some ∘ addObservedVersion gv)); [apply addObservedVersion_registers|].
  apply for_types_registers. intros t. apply AddKnownTypeWithName_registers.
Qed.
Lemma add_unversioned_registers version t : registers (add_unversioned version t).
Proof.
  intros s s'. unfold add_unversioned. cbn [WithKind gvk_Kind].
  destruct (match unversionedKinds s !! Name t with Some old => bool_decide (t = old) | None => true end) eqn:Hu; [|done].
  intros [= <-] (Hm & Hn & Hk). split.
  - split; [done|]. split; [done|]. simpl. intros k t'.
    destruct (decide (t' = t)) as [->|Ht]; [rewrite lookup_insert_eq; eauto|]. rewrite (lookup_insert_ne _ t t') by done.
    destruct (decide (k = Name t)) as [->|]; [rewrite lookup_insert_eq; congruence | rewrite lookup_insert_ne by done; apply Hk].
  - split; [done|]. simpl. apply map_subseteq_spec. intros k t' Hk'.
    destruct (decide (k = Name t)) as [->|]; [|by rewrite lookup_insert_ne]. rewrite lookup_insert_eq.
    rewrite Hk' in Hu. by reflect_bools; subst.
Qed.
Lemma AddUnversionedTypes_registers version types : registers (AddUnversionedTypes version types).
Proof.
  apply (registers_bind (fun s => AddKnownTypes version types (addObservedVersion version s))).
  - apply (registers_bind (Some ∘ addObservedVersion version)); [apply addObservedVersion_registers|].
    apply AddKnownTypes_registers.
  - apply for_types_registers. intros t. apply add_unversioned_registers.
Qed.
#[export] Hint Resolve AddKnownTypeWithName_registers AddKnownTypes_registers AddUnversionedTypes_registers : vpa.
Lemma AddToGroupVersion_registers gv : registers (AddToGroupVersion gv).
Proof.
  intros s s' Hs. unfold AddToGroupVersion in Hs. revert s s' Hs.
  repeat (apply (registers_bind (AddKnownTypeWithName _ _)); [auto with vpa|]).
  apply (registers_bind (AddKnownTypes _ _)); auto with vpa.
Qed.

(** Functions of a [SchemeBuilder] that do the same. *)
Definition registers_all (f : registration) : Prop :=
  forall s err s', f s = Some (err, s') -> consistent s -> consistent s' /\ extends s s'.
Lemma SchemeBuilder_registers sb : Forall registers_all sb -> registers_all (SchemeBuilder_AddToScheme sb).
Proof.
  induction 1 as [|f sb Hf _ IH]; intros s err s'; simpl; [by intros [= _ <-]|].
  destruct (f s) as [[[e|] s1]|] eqn:H1; [| |done].
  - intros [= _ <-]. by eapply Hf.
  - intros Hs Hc. destruct (Hf _ _ _ H1 Hc) as [Hc1 E1]. destruct (IH _ _ _ Hs Hc1) as [? ?].
    split; [done | by etrans].
Qed.
Lemma addKnownTypes_registers p : registers_all (addKnownTypes p).
Proof.
  intros s err s' Hs. unfold addKnownTypes in Hs.
  apply bind_Some in Hs as (s1 & H1 & Hs). apply bind_Some in Hs as (s2 & H2 & Hs).
  apply bind_Some in Hs as (s3 & H3 & Heq). injection Heq as _ <-. intros Hc.
  destruct (AddKnownTypes_registers _ _ _ _ H1 Hc) as [Hc1 E1].
  destruct (AddKnownTypes_registers _ _ _ _ H2 Hc1) as [Hc2 E2].
  destruct (AddToGroupVersion_registers _ _ _ H3 Hc2) as [Hc3 E3]. split; [done | by repeat (etrans; [eassumption|])].
Qed.
Lemma Must_registers f : registers_all f -> registers (fun s => Must (f s)).
Proof.
  intros Hf s1 s2. unfold Must. destruct (f s1) as [[[e|] s3]|] eqn:H1; try done. intros [= <-]. by eapply Hf.
Qed.
Lemma api_registers : registers_all api_AddToScheme.
Proof.
  apply SchemeBuilder_registers. apply Forall_singleton.
  intros s err s' Hs. apply bind_Some in Hs as (s1 & H1 & Hs). apply bind_Some in Hs as (s2 & H2 & Heq).
  injection Heq as _ <-. intros Hc.
  destruct (AddKnownTypes_registers _ _ _ _ H1 Hc) as [Hc1 E1].
  destruct (AddToGroupVersion_registers _ _ _ H2 Hc1) as [Hc2 E2]. split; [done | by etrans].
Qed.
Lemma main_init_registers : registers main_init.
Proof.
  apply (registers_bind (fun s => Must (clientgoscheme_AddToScheme s))).
  { apply Must_registers, SchemeBuilder_registers, Forall_map, Forall_forall. intros p _.
    apply addKnownTypes_registers. }
  apply (registers_bind (fun s => Must (api_AddToScheme s))); [apply Must_registers, api_registers|].
  apply Must_registers, SchemeBuilder_registers, Forall_singleton. apply addKnownTypes_registers.
Qed.
Lemma NewScheme_consistent name : consistent (NewScheme name).
Proof.
  split; [|split]; simpl.
  - intros gvk t. rewrite !lookup_empty. simpl. rewrite elem_of_nil. by split.
  - intros t l. by rewrite lookup_empty.
  - intros k t. by rewrite lookup_empty.
Qed.

(** ** The operator's scheme *)

(** The scheme knows the objects of [k]. *)
Definition knows (s : registry) (k : kind) : bool :=
  match registry_ObjectKinds s (kind_type k) with
  | inr (gvks, false) => bool_decide (gvks = [kind_gvk k])
  | _ => false
  end &&
  bool_decide (New s (kind_gvk k) = Some (kind_type k)).
Definition client_kinds : list kind :=
  [KVerticalPodAutoscalerController; KDeployment; KService; KConfigMap; KNetworkPolicy; KNamespace;
   KAPIServer; KClusterOperator; KInfrastructure].
Lemma client_kinds_all k : k ∈ client_kinds.
Proof. unfold client_kinds. destruct k; set_solver. Qed.
Lemma main_init_knows name :
  match main_init (NewScheme name) with Some s => forallb (knows s) client_kinds | None => false end = true.
Proof. vm_compute. reflexivity. Qed.

Lemma main_init_kinds name s :
  main_init (NewScheme name) = Some s ->
  forall k, registry_ObjectKinds s (kind_type k) = inr ([kind_gvk k], false) /\
    New s (kind_gvk k) = Some (kind_type k).
Proof.
  intros Hs k. pose proof (main_init_knows name) as Hk. rewrite Hs, forallb_forall in Hk.
  specialize (Hk k (proj1 (list_elem_of_In _ _) (client_kinds_all k))). unfold knows in Hk.
  apply andb_true_iff in Hk as [Hk Hn]. apply bool_decide_eq_true in Hn. split; [|done].
  destruct (registry_ObjectKinds s (kind_type k)) as [|[gvks []]]; [done..|]. by reflect_bools; subst.
Qed.
Lemma operator_scheme_kind name s t :
  main_init (NewScheme name) = Some s ->
  GVKForObject t (operator_scheme s) = inr (kind_gvk KVerticalPodAutoscalerController).
Proof.
  intros Hs. unfold GVKForObject, operator_scheme. cbn [ObjectKinds].
  by rewrite (proj1 (main_init_kinds name s Hs KVerticalPodAutoscalerController)).
Qed.

(** C36 The operator gets past its initialisation with a scheme that is fit for use.
    Registering all of Kubernetes, the operator's own API and the configuration of
    OpenShift conflicts nowhere, so that nothing panics; the scheme's two maps are
    inverse to each other; and every kind of object that the operator reads or
    writes has exactly one group, version and kind, whatever its [TypeMeta] says,
    from which the type is found again.  In particular the custom resource is the
    owner that SetControllerReference puts into the objects. *)
Theorem main_init_scheme name :
  exists s, main_init (NewScheme name) = Some s /\ consistent s /\
    (forall k, registry_ObjectKinds s (kind_type k) = inr ([kind_gvk k], false) /\
      New s (kind_gvk k) = Some (kind_type k)) /\
    (forall t, GVKForObject t (operator_scheme s) = inr (kind_gvk KVerticalPodAutoscalerController)) /\
    ParseGroupVersion (GroupVersion_String (kind_gvk KVerticalPodAutoscalerController)) =
      Some ("autoscaling.openshift.io", "v1").
Proof.
  destruct (main_init (NewScheme name)) as [s|] eqn:Hs; [|by pose proof (main_init_knows name); rewrite Hs in *].
  exists s. split; [done|]. split; [by apply (main_init_registers _ _ Hs), NewScheme_consistent|].
  split; [by eapply main_init_kinds|]. split; [|reflexivity]. intros t. by eapply operator_scheme_kind.
Qed.
