(* ===== verification/Regexp.v ===== *)
(** * Anchored regular expressions

    Package regexp as the validation of names uses it: [^...$] around character
    classes, concatenation, [?], [*] and alternation, on ASCII.  Matching goes by
    derivatives: executable, and one character at a time, which is how strings that
    are only partly known are dealt with.  It is shown to decide the language. *)

From S2P Require Import Prelude.

(** A class of characters, as in brackets: single ones and ranges. *)
Definition range : Type := Ascii.ascii * Ascii.ascii.
Definition code (c : Ascii.ascii) : N := Ascii.N_of_ascii c.
Definition in_class (l : list range) (c : Ascii.ascii) : bool :=
  existsb (fun r => (code r.1 <=? code c)%N && (code c <=? code r.2)%N) l.

Inductive regexp :=
| Nothing
| Empty
| Class (l : list range)
| Cat (r1 r2 : regexp)
| Alt (r1 r2 : regexp)
| Star (r : regexp).
(** [r?]. *)
Definition Opt (r : regexp) : regexp := Alt r Empty.

(** What a regular expression means. *)
Inductive matched : regexp -> string -> Prop :=
| m_Empty : matched Empty ""
| m_Class l c : in_class l c = true -> matched (Class l) (String c "")
| m_Cat r1 r2 s1 s2 : matched r1 s1 -> matched r2 s2 -> matched (Cat r1 r2) (s1 +:+ s2)
| m_Left r1 r2 s : matched r1 s -> matched (Alt r1 r2) s
| m_Right r1 r2 s : matched r2 s -> matched (Alt r1 r2) s
| m_None r : matched (Star r) ""
| m_More r s1 s2 : matched r s1 -> matched (Star r) s2 -> matched (Star r) (s1 +:+ s2).

Fixpoint nullable (r : regexp) : bool :=
  match r with
  | Nothing | Class _ => false
  | Empty | Star _ => true
  | Cat r1 r2 => nullable r1 && nullable r2
  | Alt r1 r2 => nullable r1 || nullable r2
  end.
(** Concatenation and alternation, simplified. *)
Definition cat (r1 r2 : regexp) : regexp :=
  match r1 with Nothing => Nothing | Empty => r2 | _ => Cat r1 r2 end.
Definition alt (r1 r2 : regexp) : regexp :=
  match r1, r2 with Nothing, _ => r2 | _, Nothing => r1 | _, _ => Alt r1 r2 end.
(** What has to follow [c]. *)
Fixpoint deriv (c : Ascii.ascii) (r : regexp) : regexp :=
  match r with
  | Nothing | Empty => Nothing
  | Class l => if in_class l c then Empty else Nothing
  | Cat r1 r2 => if nullable r1 then alt (cat (deriv c r1) r2) (deriv c r2)
                 else cat (deriv c r1) r2
  | Alt r1 r2 => alt (deriv c r1) (deriv c r2)
  | Star r => cat (deriv c r) (Star r)
  end.
Fixpoint MatchString (r : regexp) (s : string) : bool :=
  match s with
  | EmptyString => nullable r
  | String c s => MatchString (deriv c r) s
  end.

(** ** Matching decides the language *)

Ltac inv_matched :=
  repeat match goal with
  | H : matched Nothing _ |- _ => inversion H
  | H : matched Empty _ |- _ => inversion H; clear H; subst
  | H : matched (Class _) _ |- _ => inversion H; clear H; subst
  | H : matched (Alt _ _) _ |- _ => inversion H; clear H; subst
  end.

Lemma matched_cat r1 r2 s : matched (cat r1 r2) s <-> matched (Cat r1 r2) s.
Proof.
  split.
  - destruct r1; cbn [cat]; intros Hm; try done; [inversion Hm|].
    apply (m_Cat Empty r2 "" s); [constructor|done].
  - inversion 1; subst. destruct r1; cbn [cat]; try (by constructor); inv_matched. done.
Qed.
Lemma matched_alt r1 r2 s : matched (alt r1 r2) s <-> matched (Alt r1 r2) s.
Proof.
  split.
  - intros Hm. destruct r1, r2; (try exact Hm); (by apply m_Right) || (by apply m_Left).
  - intros Hm. destruct r1, r2; (try exact Hm); inversion Hm; subst; (try done); inv_matched.
Qed.

Lemma string_app_nil (s1 s2 : string) : s1 +:+ s2 = "" -> s1 = "" /\ s2 = "".
Proof. by destruct s1. Qed.
Lemma nullable_spec r : nullable r = true <-> matched r "".
Proof.
  induction r as [| |l|r1 IH1 r2 IH2|r1 IH1 r2 IH2|r IH]; simpl.
  - split; [done|inversion 1].
  - split; [constructor|done].
  - split; [done|inversion 1].
  - rewrite andb_true_iff, IH1, IH2. split; [intros [H1 H2]; apply (m_Cat _ _ "" "" H1 H2)|].
    inversion 1 as [| |? ? s1 s2 ? ? Hr Hs| | | |]; subst. by apply string_app_nil in Hs as [-> ->].
  - rewrite orb_true_iff, IH1, IH2. split; [intros []; [by apply m_Left|by apply m_Right]|].
    by inversion 1; [left|right].
  - split; [constructor|done].
Qed.

(** A star that consumes something consumes it with an iteration that does. *)
Lemma star_cons r c s :
  matched (Star r) (String c s) -> exists s1 s2, s = s1 +:+ s2 /\ matched r (String c s1) /\ matched (Star r) s2.
Proof.
  remember (Star r) as r' eqn:Hr. remember (String c s) as s' eqn:Hs. intros Hm.
  induction Hm as [| | | | | |r0 s1 s2 H1 IH1 H2 IH2]; simplify_eq.
  destruct s1 as [|c' s1]; [exact (IH2 eq_refl Hs)|]. injection Hs as -> <-. by exists s1, s2.
Qed.

Lemma deriv_spec c r s : matched (deriv c r) s <-> matched r (String c s).
Proof.
  revert s; induction r as [| |l|r1 IH1 r2 IH2|r1 IH1 r2 IH2|r IH]; intros s; simpl.
  - split; inversion 1.
  - split; inversion 1.
  - split; [|inversion 1; subst].
    + destruct (in_class l c) eqn:?; intros; inv_matched. by constructor.
    + rewrite H2. constructor.
  - assert (Hcat : matched (cat (deriv c r1) r2) s <->
        exists s1 s2, s = s1 +:+ s2 /\ matched r1 (String c s1) /\ matched r2 s2).
    { rewrite matched_cat. setoid_rewrite <- IH1.
      split; [inversion 1; subst; eauto | intros (?&?&->&?&?); by constructor]. }
    trans ((nullable r1 = true /\ matched r2 (String c s)) \/ matched (cat (deriv c r1) r2) s).
    { destruct (nullable r1); [|by split; [right | intros [[? _]|?]]]. rewrite matched_alt, <- IH2.
      split; [inversion 1; subst; eauto | intros [[_ ?]|?]; [by apply m_Right|by apply m_Left]]. }
    rewrite Hcat, nullable_spec. split.
    + intros [[H1 H2]|(s1&s2&->&H1&H2)]; [apply (m_Cat _ _ "" _ H1 H2)|].
      exact (m_Cat r1 r2 (String c s1) s2 H1 H2).
    + inversion 1 as [| |? ? s1 s2 H1 H2 Hr Hs| | | |]; subst.
      destruct s1 as [|c' s1]; [by left|]. injection Hs as -> <-. right. by exists s1, s2.
  - rewrite matched_alt. split.
    + inversion 1; subst; [apply m_Left; by apply IH1 | apply m_Right; by apply IH2].
    + inversion 1; subst; [apply m_Left; by apply IH1 | apply m_Right; by apply IH2].
  - rewrite matched_cat. split.
    + inversion 1 as [| |? ? s1 s2 H1 H2| | | |]; subst. apply IH in H1.
      exact (m_More r (String c s1) s2 H1 H2).
    + intros (s1&s2&->&H1&H2)%star_cons. constructor; [by apply IH|done].
Qed.

Lemma MatchString_spec r s : MatchString r s = true <-> matched r s.
Proof.
  revert r; induction s as [|c s IH]; intros r; simpl; [apply nullable_spec|].
  by rewrite IH, deriv_spec.
Qed.

(** Matching goes on where a known beginning leaves it. *)
Lemma MatchString_app r s1 s2 :
  MatchString r (s1 +:+ s2) = MatchString (foldl (fun r c => deriv c r) r (String.list_ascii_of_string s1)) s2.
Proof. revert r; induction s1 as [|c s1 IH]; intros r; simpl; [done|apply IH]. Qed.
