(* ===== verification/Validation.v ===== *)
(** * The checks of apimachinery

    The formats of names, labels and annotations, and the checks of object metadata,
    labels and selectors, as the vendored apimachinery has them (api/validate/content,
    util/validation, api/validation and apis/meta/v1/validation); here each says
    whether it finds no error.  What else the API server asks of an object is not
    among the sources, and not said here. *)

From S2P Require Import Prelude Go GoFmt Objects Api Util Args Resources Controller Regexp.

Definition len (s : string) : Z := Z.of_nat (String.length s).
Definition empty (s : string) : bool := bool_decide (s = "").
(** The entries of a map, in any order. *)
Definition gm_entries {V} (m : gomap V) : list (string * V) := map_to_list (gm_map m).

(** ** Formats *)

Definition one (c : Ascii.ascii) : range := (c, c).
Definition digit : range := ("0", "9")%char.
Definition lower : range := ("a", "z")%char.
Definition upper : range := ("A", "Z")%char.

Definition dns1123LabelFmt : regexp :=
  Cat (Class [lower; digit])
    (Opt (Cat (Star (Class [one "-"; lower; digit])) (Class [lower; digit]))).
Definition dns1123SubdomainFmt : regexp :=
  Cat dns1123LabelFmt (Star (Cat (Class [one "."]) dns1123LabelFmt)).
Definition dns1035LabelFmt : regexp :=
  Cat (Class [lower]) (Opt (Cat (Star (Class [one "-"; lower; digit])) (Class [lower; digit]))).
Definition labelKeyCharFmt : regexp := Class [upper; lower; digit].
Definition labelKeyExtCharFmt : regexp := Class [one "-"; upper; lower; digit; one "_"; one "."].
Definition labelKeyFmt : regexp :=
  Cat (Opt (Cat labelKeyCharFmt (Star labelKeyExtCharFmt))) labelKeyCharFmt.
Definition labelValueFmt : regexp := Opt labelKeyFmt.

Definition IsDNS1123Label (value : string) : bool :=
  (len value <=? 63) && MatchString dns1123LabelFmt value.
Definition IsDNS1123Subdomain (value : string) : bool :=
  (len value <=? 253) && MatchString dns1123SubdomainFmt value.
Definition IsDNS1035Label (value : string) : bool :=
  (len value <=? 63) && MatchString dns1035LabelFmt value.
Definition IsLabelKey (value : string) : bool :=
  let name_part name := negb (empty name) && (len name <=? 63) && MatchString labelKeyFmt name in
  match split_slash value with
  | [name] => name_part name
  | [prefix; name] => negb (empty prefix) && IsDNS1123Subdomain prefix && name_part name
  | _ => false
  end.
Definition IsLabelValue (value : string) : bool :=
  (len value <=? 63) && MatchString labelValueFmt value.

(** The name functions, for names that are not generated. *)
Definition NameIsDNSSubdomain (name : string) : bool := IsDNS1123Subdomain name.
Definition NameIsDNS1035Label (name : string) : bool := IsDNS1035Label name.

(** ** Metadata *)

(** [strings.ToLower], on ASCII. *)
Fixpoint ToLower (s : string) : string :=
  match s with
  | EmptyString => EmptyString
  | String c s =>
      String (if in_class [upper] c then Ascii.ascii_of_N (code c + 32) else c) (ToLower s)
  end.
Definition TotalAnnotationSizeLimitB : Z := 256 * 2 ^ 10.
Definition annotations_size (annotations : gomap string) : Z :=
  foldr (fun kv total => len kv.1 + len kv.2 + total) 0 (gm_entries annotations).
Definition ValidateAnnotations (annotations : gomap string) : bool :=
  forallb (fun kv => IsLabelKey (ToLower kv.1)) (gm_entries annotations) &&
  (annotations_size annotations <=? TotalAnnotationSizeLimitB).
Definition ValidateLabels (labels : gomap string) : bool :=
  forallb (fun kv => IsLabelKey kv.1 && IsLabelValue kv.2) (gm_entries labels).
(** Selectors with expressions keep them in [ls_others]; none is accepted here. *)
Definition ValidateLabelSelector (s : LabelSelector) : bool :=
  ValidateLabels (ls_MatchLabels s) && bool_decide (ls_others s = no_others).

(** Events may not be owners. *)
Definition validateOwnerReference (r : OwnerReference) : bool :=
  let gvk := FromAPIVersionAndKind (mkTypeMeta (or_Kind r) (or_APIVersion r)) in
  negb (empty (gvk_Version gvk)) && negb (empty (gvk_Kind gvk)) && negb (empty (or_Name r)) &&
  negb (empty (or_UID r)) && negb (bool_decide (gvk = mkGVK "" "v1" "Event")).
Definition ValidateOwnerReferences (l : list OwnerReference) : bool :=
  forallb validateOwnerReference l &&
  (length (List.filter (fun r => bool_decide (or_Controller r = Some true)) l) <=? 1)%nat.
(** For a namespaced object; finalizers and managed fields are among [om_others]. *)
Definition ValidateObjectMeta (nameFn : string -> bool) (m : ObjectMeta) : bool :=
  negb (empty (om_Name m)) && nameFn (om_Name m) &&
  negb (empty (om_Namespace m)) && IsDNS1123Label (om_Namespace m) &&
  (0 <=? om_Generation m) && ValidateLabels (om_Labels m) &&
  ValidateAnnotations (om_Annotations m) && ValidateOwnerReferences (om_OwnerReferences m).

(** ** Objects *)

(** A check of a field that may be left open. *)
Definition unset_or {A} (p : A -> bool) (o : option A) : bool :=
  match o with Some x => p x | None => true end.
(** The metadata, labels and selectors of an object pass.  Services are named by the
    stricter of the two name functions. *)
Definition well_formed_deployment (d : Deployment) : bool :=
  let template := ds_Template (dep_Spec d) in
  ValidateObjectMeta NameIsDNSSubdomain (dep_meta d) &&
  unset_or ValidateLabelSelector (ds_Selector (dep_Spec d)) &&
  ValidateLabels (om_Labels (pt_meta template)) &&
  ValidateAnnotations (om_Annotations (pt_meta template)) &&
  ValidateLabels (ps_NodeSelector (pt_Spec template)).
Definition well_formed_service (s : Service) : bool :=
  ValidateObjectMeta NameIsDNS1035Label (svc_meta s) && ValidateLabels (ss_Selector (svc_Spec s)).
Definition well_formed_configmap (c : ConfigMap) : bool := ValidateObjectMeta NameIsDNSSubdomain (cm_meta c).
Definition well_formed_rule (r : NetworkPolicyRule) : bool :=
  forallb (fun p => unset_or ValidateLabelSelector (peer_PodSelector p) &&
                    unset_or ValidateLabelSelector (peer_NamespaceSelector p)) (npr_Peers r).
Definition well_formed_policy (n : NetworkPolicy) : bool :=
  let spec := np_Spec n in
  ValidateObjectMeta NameIsDNSSubdomain (np_meta n) && ValidateLabelSelector (nps_PodSelector spec) &&
  forallb well_formed_rule (nps_Ingress spec) && forallb well_formed_rule (nps_Egress spec).
