(* ===== verification/Server.v ===== *)
(** * The API server, as the operator relies on it

    [Cluster] is the interface between the operator and a cluster: what is
    stored, which events were recorded, and whether calls reach the server; its
    laws are the documented behaviour of the Kubernetes API for a client that is
    not interfered with (the theorems about all executions do without them).
    Admission may fill the fields a client left out: [admitted] says what it
    keeps, [podspec_complete] when a pod spec has nothing left to fill.

    [fake] is an instance that computes: an object store with optimistic
    concurrency, defaulting, a clock, an event log and a queue of failures. *)

From S2P Require Import Prelude Go GoFmt Objects Api.

(** ** Defaulting *)

(** The API server rounds resource quantities up to milli-units. *)
Definition milli_exact (q : Quantity) : bool := q_value q mod 10 ^ 6 =? 0.
Definition resources_exact (r : ResourceRequirements) : bool :=
  forallb (fun kv => milli_exact kv.2) (map_to_list (gm_map (rr_Limits r))) &&
  forallb (fun kv => milli_exact kv.2) (map_to_list (gm_map (rr_Requests r))).

Definition nonempty (s : string) : bool := negb (bool_decide (s = "")).
Definition is_set {A} (p : option A) : bool := match p with Some _ => true | None => false end.

Definition envvar_complete (v : EnvVar) : bool :=
  match env_ValueFrom v with
  | Some s => match evs_FieldRef s with Some f => nonempty (fr_APIVersion f) | None => true end
  | None => true
  end.
Definition volume_complete (v : Volume) : bool :=
  match vol_Secret v with Some s => is_set (svs_DefaultMode s) | None => true end &&
  match vol_ConfigMap v with Some c => is_set (cvs_DefaultMode c) | None => true end.
Definition container_complete (c : Container) : bool :=
  nonempty (c_ImagePullPolicy c) && nonempty (c_TerminationMessagePath c) &&
  nonempty (c_TerminationMessagePolicy c) &&
  forallb (fun p => nonempty (cp_Protocol p)) (c_Ports c) &&
  forallb envvar_complete (c_Env c) && resources_exact (c_Resources c).
(** Every field that defaulting of a pod template would fill is set. *)
Definition podspec_complete (p : PodSpec) : bool :=
  nonempty (ps_RestartPolicy p) && is_set (ps_TerminationGracePeriodSeconds p) &&
  nonempty (ps_DNSPolicy p) && is_set (ps_SecurityContext p) && nonempty (ps_SchedulerName p) &&
  bool_decide (ps_DeprecatedServiceAccount p = ps_ServiceAccountName p) &&
  forallb volume_complete (ps_Volumes p) && forallb container_complete (ps_Containers p).
Definition serviceport_complete (p : ServicePort) : bool :=
  nonempty (svp_Protocol p) && negb (bool_decide (svp_TargetPort p = FromInt32 0)) &&
  negb (bool_decide (svp_TargetPort p = FromString "")).
Definition rule_complete (r : NetworkPolicyRule) : bool :=
  forallb (fun p => is_set (npp_Protocol p)) (npr_Ports r).
Definition policy_complete (s : NetworkPolicySpec) : bool :=
  (0 <? length (nps_PolicyTypes s))%nat &&
  forallb rule_complete (nps_Ingress s) && forallb rule_complete (nps_Egress s).

(** ** What admission keeps *)

(** Identity, annotations and owners are the client's. *)
Definition meta_kept (m m' : ObjectMeta) : Prop :=
  meta_key m' = meta_key m /\ om_Annotations m' = om_Annotations m /\
  om_OwnerReferences m' = om_OwnerReferences m.

Definition spec_kept (k : kind) : obj k -> obj k -> Prop :=
  match k return obj k -> obj k -> Prop with
  | KDeployment => fun d d' =>
      (is_set (ds_Replicas (dep_Spec d)) = true ->
       ds_Replicas (dep_Spec d') = ds_Replicas (dep_Spec d)) /\
      (podspec_complete (pt_Spec (ds_Template (dep_Spec d))) = true ->
       pt_Spec (ds_Template (dep_Spec d')) ≃ pt_Spec (ds_Template (dep_Spec d)))
  | KService => fun s s' =>
      (forallb serviceport_complete (ss_Ports (svc_Spec s)) = true ->
       ss_Ports (svc_Spec s') ≃ ss_Ports (svc_Spec s)) /\
      ss_Selector (svc_Spec s') = ss_Selector (svc_Spec s)
  | KNetworkPolicy => fun p p' =>
      policy_complete (np_Spec p) = true -> np_Spec p' ≃ np_Spec p
  | KVerticalPodAutoscalerController => fun v v' => vpa_Spec v' = vpa_Spec v
  | KClusterOperator => fun c c' =>
      cop_Status c = zero_COStatus -> cop_Status c' = zero_COStatus
  | KConfigMap | KNamespace | KAPIServer | KInfrastructure => fun _ _ => True
  end.
Definition admitted (k : kind) (o o' : obj k) : Prop :=
  meta_kept (obj_meta k o) (obj_meta k o') /\ spec_kept k o o'.

(** The annotations after a patch from [original] to [modified]: the changes of
    the client on top of the live object. *)
Definition patched_annotations (live modified original : gmap string string) :
    gmap string string :=
  merge (fun l mo => match mo with
                     | Some (m, o) => if bool_decide (m = o) then l else m
                     | None => l
                     end) live
    (merge (fun m o => match m, o with None, None => None | _, _ => Some (m, o) end)
       modified original).

Lemma lookup_patched_annotations live modified original k :
  patched_annotations live modified original !! k =
  if bool_decide (modified !! k = original !! k) then live !! k else modified !! k.
Proof.
  unfold patched_annotations. rewrite !lookup_merge. unfold diag_None.
  destruct (modified !! k), (original !! k), (live !! k); simpl;
    repeat case_bool_decide; naive_solver.
Qed.

(** ** The interface *)

(** A slot of the store. *)
Definition slot : Type := kind * NamespacedName.

Class Cluster (W : Type) `{Handler W} := {
  (** The stored objects of a kind. *)
  view : W -> forall k, gmap NamespacedName (obj k);
  (** The events recorded so far. *)
  recorded : W -> list Event;
  (** No call fails on its way to the server. *)
  healthy : W -> Prop
}.

(** The store of [w'] is the store of [w] outside the given slots. *)
Definition unchanged_except {W} `{Cluster W} (S : list slot) (w w' : W) : Prop :=
  forall k key, (k, key) ∉ S -> view w' k !! key = view w k !! key.

(** An answer and the next world that a call may produce. *)
Definition answers {W} `{Handler W} (c : call) (w : W) (Q : resp c -> W -> Prop) : Prop :=
  Q (handle c w).1 (handle c w).2.

(** An update carries no resource version, or the one of the stored object. *)
Definition version_current {k} (o stored : obj k) : Prop :=
  om_ResourceVersion (obj_meta k o) = "" \/
  om_ResourceVersion (obj_meta k o) = om_ResourceVersion (obj_meta k stored).

Class ClusterLaws (W : Type) `{Cluster W} := {
  (** Objects are stored under their own key. *)
  view_key w k key (o : obj k) : healthy w -> view w k !! key = Some o -> obj_key o = key;
  get_law w k key : healthy w -> answers (Get k key) w (fun r w' =>
    healthy w' /\ unchanged_except [] w w' /\ recorded w' = recorded w /\
    match view w k !! key with
    | Some o => r = inr o
    | None => exists e, r = inl e /\ IsNotFound e = true
    end);
  create_law w k (o : obj k) : healthy w -> answers (Create k o) w (fun r w' =>
    healthy w' /\ unchanged_except [(k, obj_key o)] w w' /\ recorded w' = recorded w /\
    match view w k !! obj_key o with
    | Some o0 => view w' k !! obj_key o = Some o0 /\ exists e, r = inl e /\ IsAlreadyExists e = true
    | None => exists o', r = inr o' /\ view w' k !! obj_key o = Some o' /\ admitted k o o'
    end);
  update_law w k (o : obj k) : healthy w -> answers (Update k o) w (fun r w' =>
    healthy w' /\ unchanged_except [(k, obj_key o)] w w' /\ recorded w' = recorded w /\
    (forall stored, view w k !! obj_key o = Some stored -> version_current o stored ->
     exists o', r = inr o' /\ view w' k !! obj_key o = Some o' /\ admitted k o o') /\
    match r with
    | inr o' => view w' k !! obj_key o = Some o' /\ admitted k o o'
    | inl _ => unchanged_except [] w w'
    end);
  patch_law w (modified original live : Namespace) : healthy w ->
    view w KNamespace !! obj_key (k:=KNamespace) modified = Some live ->
    answers (Patch KNamespace modified original) w (fun r w' =>
    healthy w' /\ unchanged_except [(KNamespace, obj_key (k:=KNamespace) modified)] w w' /\
    recorded w' = recorded w /\
    exists ns', r = inr ns' /\
      view w' KNamespace !! obj_key (k:=KNamespace) modified = Some ns' /\
      gm_map (om_Annotations (ns_meta ns')) =
      patched_annotations (gm_map (om_Annotations (ns_meta live)))
        (gm_map (om_Annotations (ns_meta modified))) (gm_map (om_Annotations (ns_meta original))));
  (** A status update stores the status, and keeps the rest of the stored object. *)
  update_status_law w (o stored : ClusterOperator) : healthy w ->
    view w KClusterOperator !! obj_key (k:=KClusterOperator) o = Some stored ->
    version_current (k:=KClusterOperator) o stored ->
    answers (UpdateStatus KClusterOperator o) w (fun r w' =>
    healthy w' /\ unchanged_except [(KClusterOperator, obj_key (k:=KClusterOperator) o)] w w' /\
    recorded w' = recorded w /\
    exists o', r = inr o' /\ view w' KClusterOperator !! obj_key (k:=KClusterOperator) o = Some o' /\
      meta_kept (cop_meta stored) (cop_meta o') /\ cop_Status o' = cop_Status o);
  (** The clock does not read the zero time. *)
  now_law w : healthy w -> answers Now w (fun t w' =>
    healthy w' /\ unchanged_except [] w w' /\ recorded w' = recorded w /\ t <> zero_Time);
  event_law w e : healthy w -> answers (Eventf e) w (fun _ w' =>
    healthy w' /\ unchanged_except [] w w' /\ recorded w' = recorded w ++ [e])
}.

(** ** An executable server *)

Record Store := mkStore {
  st_vpa : gmap NamespacedName VerticalPodAutoscalerController;
  st_deployment : gmap NamespacedName Deployment;
  st_service : gmap NamespacedName Service;
  st_configmap : gmap NamespacedName ConfigMap;
  st_policy : gmap NamespacedName NetworkPolicy;
  st_namespace : gmap NamespacedName Namespace;
  st_apiserver : gmap NamespacedName APIServer;
  st_clusteroperator : gmap NamespacedName ClusterOperator;
  st_infrastructure : gmap NamespacedName Infrastructure
}.
Definition empty_store : Store := mkStore ∅ ∅ ∅ ∅ ∅ ∅ ∅ ∅ ∅.
Definition table (k : kind) : Store -> gmap NamespacedName (obj k) :=
  match k with
  | KVerticalPodAutoscalerController => st_vpa
  | KDeployment => st_deployment
  | KService => st_service
  | KConfigMap => st_configmap
  | KNetworkPolicy => st_policy
  | KNamespace => st_namespace
  | KAPIServer => st_apiserver
  | KClusterOperator => st_clusteroperator
  | KInfrastructure => st_infrastructure
  end.
Definition set_table (k : kind) : gmap NamespacedName (obj k) -> Store -> Store :=
  match k return gmap NamespacedName (obj k) -> Store -> Store with
  | KVerticalPodAutoscalerController => fun m s => mkStore m (st_deployment s) (st_service s)
      (st_configmap s) (st_policy s) (st_namespace s) (st_apiserver s) (st_clusteroperator s)
      (st_infrastructure s)
  | KDeployment => fun m s => mkStore (st_vpa s) m (st_service s)
      (st_configmap s) (st_policy s) (st_namespace s) (st_apiserver s) (st_clusteroperator s)
      (st_infrastructure s)
  | KService => fun m s => mkStore (st_vpa s) (st_deployment s) m
      (st_configmap s) (st_policy s) (st_namespace s) (st_apiserver s) (st_clusteroperator s)
      (st_infrastructure s)
  | KConfigMap => fun m s => mkStore (st_vpa s) (st_deployment s) (st_service s)
      m (st_policy s) (st_namespace s) (st_apiserver s) (st_clusteroperator s)
      (st_infrastructure s)
  | KNetworkPolicy => fun m s => mkStore (st_vpa s) (st_deployment s) (st_service s)
      (st_configmap s) m (st_namespace s) (st_apiserver s) (st_clusteroperator s)
      (st_infrastructure s)
  | KNamespace => fun m s => mkStore (st_vpa s) (st_deployment s) (st_service s)
      (st_configmap s) (st_policy s) m (st_apiserver s) (st_clusteroperator s)
      (st_infrastructure s)
  | KAPIServer => fun m s => mkStore (st_vpa s) (st_deployment s) (st_service s)
      (st_configmap s) (st_policy s) (st_namespace s) m (st_clusteroperator s)
      (st_infrastructure s)
  | KClusterOperator => fun m s => mkStore (st_vpa s) (st_deployment s) (st_service s)
      (st_configmap s) (st_policy s) (st_namespace s) (st_apiserver s) m
      (st_infrastructure s)
  | KInfrastructure => fun m s => mkStore (st_vpa s) (st_deployment s) (st_service s)
      (st_configmap s) (st_policy s) (st_namespace s) (st_apiserver s) (st_clusteroperator s)
      m
  end.
(** Store an object under its key. *)
Definition put {k} (o : obj k) (s : Store) : Store := set_table k (<[obj_key o := o]> (table k s)) s.

Lemma table_set_eq k m s : table k (set_table k m s) = m.
Proof. by destruct k. Qed.
Lemma table_set_ne k k' m s : k' <> k -> table k' (set_table k m s) = table k' s.
Proof. by destruct k, k'. Qed.

(** Defaulting: only what [podspec_complete] and its siblings ask for. *)
Definition or_default (s d : string) : string := if bool_decide (s = "") then d else s.
Definition round_up_milli (q : Quantity) : Quantity :=
  mkQuantity (- (- q_value q / 10 ^ 6) * 10 ^ 6) (q_format q).
Definition map_values {V} (f : V -> V) (m : gomap V) : gomap V :=
  match m with nilmap => nilmap | mkmap m => mkmap (f <$> m) end.
Definition default_envvar (v : EnvVar) : EnvVar :=
  mkEnvVar (env_Name v) (env_Value v)
    ((fun s => mkEnvVarSource
        ((fun f => mkFieldRef (or_default (fr_APIVersion f) "v1") (fr_FieldPath f)) <$> evs_FieldRef s)
        (evs_others s)) <$> env_ValueFrom v).
Definition default_port (p : ContainerPort) : ContainerPort :=
  mkContainerPort (cp_Name p) (cp_HostPort p) (cp_ContainerPort p)
    (or_default (cp_Protocol p) "TCP") (cp_HostIP p).
Definition default_container (c : Container) : Container :=
  mkContainer (c_Name c) (c_Image c) (c_Command c) (c_Args c) (map default_port (c_Ports c))
    (map default_envvar (c_Env c))
    (mkResources (map_values round_up_milli (rr_Limits (c_Resources c)))
       (map_values round_up_milli (rr_Requests (c_Resources c))) (rr_Claims (c_Resources c)))
    (c_VolumeMounts c) (or_default (c_TerminationMessagePath c) "/dev/termination-log")
    (or_default (c_TerminationMessagePolicy c) "File")
    (or_default (c_ImagePullPolicy c) "IfNotPresent") (c_SecurityContext c) (c_others c).
Definition default_volume (v : Volume) : Volume :=
  let mode (m : option Z) := match m with None => Some 420 | _ => m end in
  mkVolume (vol_Name v)
    ((fun s => mkSecretVolume (svs_SecretName s) (mode (svs_DefaultMode s)) (svs_others s))
       <$> vol_Secret v)
    ((fun c => mkConfigMapVolume (cvs_Name c) (mode (cvs_DefaultMode c)) (cvs_others c))
       <$> vol_ConfigMap v)
    (vol_others v).
Definition default_podspec (p : PodSpec) : PodSpec :=
  mkPodSpec (map default_volume (ps_Volumes p)) (map default_container (ps_Containers p))
    (or_default (ps_RestartPolicy p) "Always")
    (match ps_TerminationGracePeriodSeconds p with None => Some 30 | g => g end)
    (or_default (ps_DNSPolicy p) "ClusterFirst") (ps_NodeSelector p) (ps_ServiceAccountName p)
    (ps_ServiceAccountName p)
    (match ps_SecurityContext p with None => Some no_others | c => c end)
    (or_default (ps_SchedulerName p) "default-scheduler") (ps_Tolerations p)
    (ps_PriorityClassName p) (ps_others p).
Definition default_serviceport (p : ServicePort) : ServicePort :=
  mkServicePort (svp_Name p) (or_default (svp_Protocol p) "TCP") (svp_AppProtocol p) (svp_Port p)
    (if bool_decide (svp_TargetPort p = FromInt32 0) || bool_decide (svp_TargetPort p = FromString "")
     then FromInt32 (svp_Port p) else svp_TargetPort p)
    (svp_NodePort p).
Definition default_rule (r : NetworkPolicyRule) : NetworkPolicyRule :=
  mkNetworkPolicyRule
    (map (fun p => mkNetworkPolicyPort
            (match npp_Protocol p with None => Some "TCP" | q => q end) (npp_Port p) (npp_EndPort p))
       (npr_Ports r))
    (npr_Peers r).
Definition default_policyspec (s : NetworkPolicySpec) : NetworkPolicySpec :=
  mkNetworkPolicySpec (nps_PodSelector s) (map default_rule (nps_Ingress s))
    (map default_rule (nps_Egress s))
    (if (length (nps_PolicyTypes s) =? 0)%nat
     then ["Ingress"] ++ (if (length (nps_Egress s) =? 0)%nat then [] else ["Egress"])
     else nps_PolicyTypes s).
Definition apply_defaults (k : kind) : obj k -> obj k :=
  match k return obj k -> obj k with
  | KDeployment => fun d =>
      let s := dep_Spec d in
      mkDeployment (dep_type d) (dep_meta d)
        (mkDeploymentSpec (match ds_Replicas s with None => Some 1 | r => r end) (ds_Selector s)
           (mkPodTemplateSpec (pt_meta (ds_Template s)) (default_podspec (pt_Spec (ds_Template s))))
           (ds_others s))
        (dep_Status d)
  | KService => fun s =>
      mkService (svc_type s) (svc_meta s)
        (mkServiceSpec (map default_serviceport (ss_Ports (svc_Spec s))) (ss_Selector (svc_Spec s))
           (ss_others (svc_Spec s))) (svc_Status s)
  | KNetworkPolicy => fun p => mkNetworkPolicy (np_type p) (np_meta p) (default_policyspec (np_Spec p))
  | _ => fun o => o
  end.

(** The state of the server: failures are consumed one per API call. *)
Record fake := mkFake {
  fk_store : Store;
  fk_version : Z;
  fk_clock : nat;                         (* the clock reads one more *)
  fk_events : list Event;
  fk_faults : list (option error)
}.
Definition with_store (f : Store -> Store) (w : fake) : fake :=
  mkFake (f (fk_store w)) (fk_version w + 1) (fk_clock w) (fk_events w) (fk_faults w).
Definition with_faults (l : list (option error)) (w : fake) : fake :=
  mkFake (fk_store w) (fk_version w) (fk_clock w) (fk_events w) l.

Definition not_found : error := StatusError "NotFound" 404 "not found".
Definition already_exists : error := StatusError "AlreadyExists" 409 "already exists".
Definition conflict : error := StatusError "Conflict" 409 "the object has been modified".
Definition not_allowed : error := StatusError "MethodNotAllowed" 405 "method not allowed".

(** A write stamps a new resource version, and a UID on an object without one. *)
Definition stamp {k} (w : fake) (o : obj k) : obj k :=
  with_meta k (fun m =>
    mkObjectMeta (om_Name m) (om_Namespace m) (or_default (om_UID m) ("uid-" +:+ Itoa (fk_version w)))
      (Itoa (fk_version w)) (om_Generation m) (om_Labels m) (om_Annotations m)
      (om_OwnerReferences m) (om_others m)) (apply_defaults k o).
Definition store_object {k} (o : obj k) (w : fake) : (error + obj k) * fake :=
  let o' := stamp w o in (inr o', with_store (put o') w).

Definition fake_get (k : kind) (key : NamespacedName) (w : fake) : (error + obj k) * fake :=
  (match table k (fk_store w) !! key with Some o => inr o | None => inl not_found end, w).
Definition fake_create {k} (o : obj k) (w : fake) : (error + obj k) * fake :=
  match table k (fk_store w) !! obj_key o with
  | Some _ => (inl already_exists, w)
  | None => store_object o w
  end.
Definition fake_update {k} (o : obj k) (w : fake) : (error + obj k) * fake :=
  match table k (fk_store w) !! obj_key o with
  | None => (inl not_found, w)
  | Some stored =>
      if bool_decide (om_ResourceVersion (obj_meta k o) = "") ||
         bool_decide (om_ResourceVersion (obj_meta k o) = om_ResourceVersion (obj_meta k stored))
      then store_object o w else (inl conflict, w)
  end.
(** The status subresource: only ClusterOperators are updated through it. *)
Definition fake_update_status (k : kind) : obj k -> fake -> (error + obj k) * fake :=
  match k return obj k -> fake -> (error + obj k) * fake with
  | KClusterOperator => fun o w =>
      match st_clusteroperator (fk_store w) !! obj_key (k:=KClusterOperator) o with
      | None => (inl not_found, w)
      | Some stored =>
          if bool_decide (om_ResourceVersion (cop_meta o) = "") ||
             bool_decide (om_ResourceVersion (cop_meta o) = om_ResourceVersion (cop_meta stored))
          then store_object (k:=KClusterOperator) (mkClusterOperator (cop_meta stored) (cop_Status o)) w
          else (inl conflict, w)
      end
  | _ => fun _ w => (inl not_allowed, w)
  end.
Definition fake_patch (k : kind) : obj k -> obj k -> fake -> (error + obj k) * fake :=
  match k return obj k -> obj k -> fake -> (error + obj k) * fake with
  | KNamespace => fun modified original w =>
      match st_namespace (fk_store w) !! obj_key (k:=KNamespace) modified with
      | None => (inl not_found, w)
      | Some live =>
          store_object (k:=KNamespace)
            (with_meta KNamespace (SetAnnotations (mkmap
               (patched_annotations (gm_map (om_Annotations (ns_meta live)))
                  (gm_map (om_Annotations (ns_meta modified)))
                  (gm_map (om_Annotations (ns_meta original)))))) live) w
      end
  | _ => fun _ _ w => (inl not_allowed, w)
  end.

(** The answer of an API call that fails on its way. *)
Definition failed (c : call) (err : error) : option (resp c) :=
  match c return option (resp c) with
  | Get _ _ | Create _ _ | Update _ _ | UpdateStatus _ _ | Patch _ _ _ => Some (inl err)
  | Eventf _ | Now => None
  end.
Definition fake_serve (c : call) : fake -> resp c * fake :=
  match c return fake -> resp c * fake with
  | Get k key => fake_get k key
  | Create k o => fake_create o
  | Update k o => fake_update o
  | UpdateStatus k o => fake_update_status k o
  | Patch k modified original => fake_patch k modified original
  | Eventf e => fun w => (tt, mkFake (fk_store w) (fk_version w) (fk_clock w)
                                (fk_events w ++ [e]) (fk_faults w))
  | Now => fun w => (Z.of_nat (S (fk_clock w)),
                     mkFake (fk_store w) (fk_version w) (S (fk_clock w)) (fk_events w) (fk_faults w))
  end.
#[export] Instance fake_handler : Handler fake := fun c w =>
  match fk_faults w with
  | [] => fake_serve c w
  | fault :: rest =>
      match failed c not_found with
      | None => fake_serve c w
      | Some _ =>
          match fault with
          | None => fake_serve c (with_faults rest w)
          | Some err =>
              match failed c err with
              | Some r => (r, with_faults rest w)
              | None => fake_serve c w
              end
          end
      end
  end.

(** Objects are stored under their own keys. *)
Definition well_keyed (s : Store) : Prop :=
  forall k key (o : obj k), table k s !! key = Some o -> obj_key o = key.
#[export] Instance fake_cluster : Cluster fake := {|
  view := fun w k => table k (fk_store w);
  recorded := fk_events;
  healthy := fun w => fk_faults w = [] /\ well_keyed (fk_store w)
|}.

(** *** Laws of the executable server *)

Lemma forallb_map_id {A} (P : A -> bool) (f : A -> A) l :
  (forall x, P x = true -> f x = x) -> forallb P l = true -> map f l = l.
Proof.
  intros Hf. induction l as [|x l IH]; simpl; [done|].
  intros [Hx Hl]%andb_true_iff. by rewrite Hf, IH.
Qed.
Lemma or_default_nonempty s d : nonempty s = true -> or_default s d = s.
Proof. unfold nonempty, or_default. by case_bool_decide. Qed.
Lemma round_up_milli_exact q : milli_exact q = true -> round_up_milli q = q.
Proof.
  unfold milli_exact, round_up_milli. intros H%Z.eqb_eq. destruct q as [v f]; simpl in *. f_equal.
  pose proof (Z.div_mod v 1000000 ltac:(lia)).
  change (10 ^ 6) with 1000000 in *.
  replace (- v) with ((- (v / 1000000)) * 1000000) by lia.
  rewrite Z.div_mul by lia. lia.
Qed.
Lemma map_values_exact (m : gomap Quantity) :
  forallb (fun kv => milli_exact kv.2) (map_to_list (gm_map m)) = true ->
  map_values round_up_milli m = m.
Proof.
  destruct m as [|m]; simpl; [done|]. intros Hf. f_equal. apply map_eq. intros k.
  rewrite lookup_fmap. destruct (m !! k) as [q|] eqn:Hk; simpl; [|done]. f_equal.
  apply round_up_milli_exact. rewrite forallb_forall in Hf.
  apply (Hf (k, q)), list_elem_of_In, elem_of_map_to_list. done.
Qed.
Lemma default_container_complete c : container_complete c = true -> default_container c = c.
Proof.
  unfold container_complete, resources_exact. intros H. reflect_bools.
  destruct c as [? ? ? ? ports envs [? ? ?] ? ? ? ? ? ?]; unfold default_container; simpl in *.
  rewrite !or_default_nonempty, !map_values_exact by done. f_equal.
  - eapply forallb_map_id; [|done]. intros [] ?; unfold default_port; simpl in *.
    by rewrite or_default_nonempty.
  - eapply forallb_map_id; [|done]. unfold envvar_complete, default_envvar.
    intros [n v [[[[a p]|] o]|]] ?; simpl in *; [|done..]. by rewrite or_default_nonempty.
Qed.
Lemma default_podspec_complete p : podspec_complete p = true -> default_podspec p = p.
Proof.
  unfold podspec_complete. intros H. reflect_bools.
  destruct p; unfold default_podspec; simpl in *. rewrite !or_default_nonempty by done. f_equal.
  - eapply forallb_map_id; [|done]. unfold volume_complete, default_volume.
    intros [n [[? [?|] ?]|] [[? [?|] ?]|] o] ?; simpl in *; done.
  - eapply forallb_map_id; [apply default_container_complete | done].
  - by case_match.
  - done.
  - by case_match.
Qed.
Lemma default_serviceports_complete l :
  forallb serviceport_complete l = true -> map default_serviceport l = l.
Proof.
  apply forallb_map_id. unfold serviceport_complete, default_serviceport.
  intros [] H; simpl in *. reflect_bools. rewrite or_default_nonempty by done.
  by rewrite !bool_decide_false.
Qed.
Lemma default_policyspec_complete s : policy_complete s = true -> default_policyspec s = s.
Proof.
  unfold policy_complete. intros H. reflect_bools.
  assert (Hr : forall r, rule_complete r = true -> default_rule r = r).
  { intros [ports peers] Hp; unfold default_rule; simpl. f_equal.
    eapply forallb_map_id; [|exact Hp]. intros [[] ? ?] ?; done. }
  destruct s as [? ? ? types]; unfold default_policyspec; simpl in *.
  rewrite !(forallb_map_id _ _ _ Hr) by done. by destruct types.
Qed.

Lemma stamp_admitted k w (o : obj k) : admitted k o (stamp w o).
Proof.
  split.
  - unfold stamp. rewrite obj_meta_with_meta. by destruct k.
  - destruct k; simpl; try done.
    + split; [by destruct (ds_Replicas (dep_Spec o))|].
      intros Hc. by rewrite default_podspec_complete.
    + split; [|done]. intros Hc. by rewrite default_serviceports_complete.
    + intros Hc. by rewrite default_policyspec_complete.
Qed.

Lemma admitted_key k (o o' : obj k) : admitted k o o' -> obj_key o' = obj_key o.
Proof. by intros [(? & _) _]. Qed.

(** Storing an object changes its slot only. *)
Lemma table_put_eq k (o : obj k) s : table k (put o s) !! obj_key o = Some o.
Proof. unfold put. rewrite table_set_eq. apply lookup_insert_eq. Qed.
Lemma table_put_ne k (o : obj k) s k' key :
  (k', key) <> (k, obj_key o) -> table k' (put o s) !! key = table k' s !! key.
Proof.
  unfold put. intros Hne. destruct (decide (k' = k)) as [->|]; [|by rewrite table_set_ne].
  rewrite table_set_eq, lookup_insert_ne by congruence. done.
Qed.
Lemma well_keyed_put k (o : obj k) s : well_keyed s -> well_keyed (put o s).
Proof.
  intros Hs k' key o' Ho'. destruct (decide ((k', key) = (k, obj_key o))) as [[= -> ->]|Hne].
  - rewrite table_put_eq in Ho'. by simplify_eq.
  - rewrite table_put_ne in Ho' by done. by apply Hs.
Qed.

Lemma store_object_spec k (o : obj k) w :
  fk_faults w = [] -> well_keyed (fk_store w) ->
  let '(r, w') := store_object o w in
  healthy w' /\ unchanged_except [(k, obj_key o)] w w' /\ recorded w' = recorded w /\
  exists o', r = inr o' /\ view w' k !! obj_key o = Some o' /\ admitted k o o'.
Proof.
  intros Hf Hk. unfold store_object. simpl.
  pose proof (stamp_admitted k w o) as Ha. pose proof (admitted_key _ _ _ Ha) as Hkey.
  split; [split; [done | by apply well_keyed_put]|]. split; [|split; [done|]].
  - intros k' key Hn. simpl. apply table_put_ne. rewrite Hkey. set_solver.
  - eexists; split; [done|]. split; [|done]. simpl. rewrite <- Hkey. apply table_put_eq.
Qed.

Lemma unchanged_except_refl {W} `{Cluster W} S w : unchanged_except S w w.
Proof. by intros ? ? ?. Qed.
Lemma unchanged_except_weaken {W} `{Cluster W} S S' w w' :
  S ⊆ S' -> unchanged_except S w w' -> unchanged_except S' w w'.
Proof. intros Hs Hu k key Hn. apply Hu. set_solver. Qed.
Lemma unchanged_except_trans {W} `{Cluster W} S S' w w' w'' :
  unchanged_except S w w' -> unchanged_except S' w' w'' -> unchanged_except (S ++ S') w w''.
Proof. intros H1 H2 k key Hn. rewrite H2, H1 by set_solver. done. Qed.
#[export] Hint Resolve unchanged_except_refl : vpa.

#[export] Instance fake_laws : ClusterLaws fake.
Proof.
  split.
  - intros w k key o [_ Hk]. apply Hk.
  - intros w k key [Hf Hk]. unfold answers, handle, fake_handler. rewrite Hf. simpl.
    split_and!; auto with vpa. destruct (table k _ !! key); [done|]. by eexists.
  - intros w k o [Hf Hk]. unfold answers, handle, fake_handler. rewrite Hf. simpl.
    unfold fake_create. destruct (table k _ !! obj_key o) as [o0|] eqn:Ho.
    + simpl. rewrite Ho. split_and!; eauto with vpa.
    + pose proof (store_object_spec k o w Hf Hk) as Hs. by destruct (store_object o w).
  - intros w k o [Hf Hk]. unfold answers, handle, fake_handler. rewrite Hf. simpl.
    unfold fake_update. destruct (table k _ !! obj_key o) as [stored|] eqn:Ho.
    + case_match eqn:Hrv; simpl.
      * destruct (store_object_spec k o w Hf Hk) as (Hh & Hu & Hr & Hs).
        refine (conj Hh (conj Hu (conj Hr (conj (fun _ _ _ => Hs) _)))).
        destruct Hs as (o' & Ho' & ?). simpl in Ho'. by simplify_eq.
      * split_and!; auto with vpa. intros stored' [= <-] Hv. reflect_bools.
        apply orb_false_iff in Hrv as [? ?]. reflect_bools. destruct Hv; done.
    + simpl. split_and!; auto with vpa. done.
  - intros w modified original live [Hf Hk] Hlive. unfold answers, handle, fake_handler.
    rewrite Hf. simpl in *. rewrite Hlive.
    match goal with |- context [store_object (k:=KNamespace) ?o w] => set (ns := o) end.
    assert (Hkey : obj_key (k:=KNamespace) ns = obj_key (k:=KNamespace) modified).
    { exact (Hk KNamespace _ _ Hlive). }
    destruct (store_object_spec KNamespace ns w Hf Hk) as (? & ? & ? & o' & ? & ? & ((? & Han & ?) & ?)).
    rewrite Hkey in *. split; [done|]. split; [done|]. split; [done|].
    exists o'. split; [done|]. split; [done|]. simpl in Han. by rewrite Han.
  - intros w o stored [Hf Hk] Hs Hv. unfold answers, handle, fake_handler. rewrite Hf. simpl in *.
    rewrite Hs.
    assert (Hrv : bool_decide (om_ResourceVersion (cop_meta o) = "") ||
      bool_decide (om_ResourceVersion (cop_meta o) = om_ResourceVersion (cop_meta stored)) = true).
    { apply orb_true_iff. destruct Hv as [Hv|Hv]; [left | right]; by apply bool_decide_eq_true. }
    rewrite Hrv. set (o1 := mkClusterOperator (cop_meta stored) (cop_Status o)).
    assert (Hkey : obj_key (k:=KClusterOperator) o1 = obj_key (k:=KClusterOperator) o)
      by exact (Hk KClusterOperator _ _ Hs).
    destruct (store_object_spec KClusterOperator o1 w Hf Hk) as (Hh & Hu & Hr & o' & Ho' & Hv' & Ha).
    rewrite Hkey in *. split; [exact Hh|]. split; [exact Hu|]. split; [exact Hr|].
    exists o'. split; [exact Ho'|]. split; [exact Hv'|]. split; [apply Ha|].
    simpl in Ho'. injection Ho' as <-. done.
  - intros w [Hf Hk]. unfold answers, handle, fake_handler. rewrite Hf. simpl.
    unfold zero_Time. split_and!; try done; lia.
  - intros w e [Hf Hk]. unfold answers, handle, fake_handler. rewrite Hf. simpl.
    split_and!; try done.
Qed.
