(* ===== verification/Operands.v ===== *)
(** * What the operator asks for

    Properties of the expected resources: the pod specs under overrides, their
    completeness for the API server's defaulting, the wiring between the
    deployments, the webhook's service, its certificates and its command line,
    and the traffic the network policies let through. *)

From Stdlib Require Import ZifyBool.
From S2P Require Import Prelude Go GoFmt Objects Api Util Args Resources Server.

(** ** Specifications *)

(** The overrides of an operand, by its parameters' pod spec method. *)
Inductive Operand := Recommender | Updater | Admission.
Definition operand_params (o : Operand) : ControllerParams :=
  match o with
  | Recommender => recommenderParams
  | Updater => updaterParams
  | Admission => admissionParams
  end.
Definition operand_override (vpa : VerticalPodAutoscalerController) (o : Operand) :
    DeploymentOverride :=
  let d := vs_DeploymentOverrides (vpa_Spec vpa) in
  match o with
  | Recommender => dos_Recommender d
  | Updater => dos_Updater d
  | Admission => dos_Admission d
  end.

(** A value of the user when there is one, the operator's otherwise. *)
Definition overridden_resources (o : ContainerOverride) (r : ResourceRequirements) :=
  if bool_decide (co_Resources o = zero_ResourceRequirements) then r else co_Resources o.
Definition overridden_selector (sel dflt : gomap string) : gomap string :=
  if (gm_len sel =? 0)%nat then dflt else sel.
Definition overridden_tolerations (t dflt : list Toleration) : list Toleration :=
  match t with [] => dflt | _ => t end.
Definition extra_args (cfg : Config) : list string :=
  if bool_decide (cfg_ExtraArgs cfg = "") then [] else [cfg_ExtraArgs cfg].

(** What only the admission webhook has: its port, and the mounted certificates. *)
Definition webhook_ports (o : Operand) : list ContainerPort :=
  match o with Admission => [mkContainerPort "" 0 8000 "TCP" ""] | _ => [] end.
Definition webhook_mounts (o : Operand) : list VolumeMount :=
  match o with
  | Admission => [mkVolumeMount "tls-certs" true "/data/tls-certs" no_others;
                  mkVolumeMount "tls-ca-certs" true "/data/tls-ca-certs" no_others]
  | _ => []
  end.
Definition webhook_volumes (o : Operand) : list Volume :=
  match o with
  | Admission =>
      [mkVolume "tls-certs" (Some (mkSecretVolume WebhookCertSecretName (Some 420) no_others))
         None no_others;
       mkVolume "tls-ca-certs" None
         (Some (mkConfigMapVolume CACertConfigMapName (Some 420) no_others)) no_others]
  | _ => []
  end.

(** The restricted security context of every operand. *)
Definition restricted : SecurityContext :=
  mkSecurityContext (Some (mkCapabilities [] ["ALL"])) (Some true) (Some false)
    (Some (mkSeccompProfile "RuntimeDefault" None)) no_others.

(** The pod spec of an operand, field by field. *)
Definition spec_container (cfg : Config) (vpa : VerticalPodAutoscalerController) (o : Operand) :
    Container :=
  let p := operand (operand_params o) in
  let ov := do_Container (operand_override vpa o) in
  mkContainer "vertical-pod-autoscaler" (cfg_Image cfg) [Command p]
    (GetArgs p vpa cfg ++ extra_args cfg ++ co_Args ov)
    (webhook_ports o)
    [mkEnvVar "NAMESPACE" ""
       (Some (mkEnvVarSource (Some (mkFieldRef "v1" "metadata.namespace")) no_others))]
    (overridden_resources ov (Resources p))
    (webhook_mounts o) "/dev/termination-log" "File" "Always" (Some restricted) no_others.
Definition spec_podspec (cfg : Config) (vpa : VerticalPodAutoscalerController) (o : Operand) :
    PodSpec :=
  let p := operand (operand_params o) in
  let ov := operand_override vpa o in
  mkPodSpec (webhook_volumes o) [spec_container cfg vpa o] "Always" (Some 30) "ClusterFirst"
    (overridden_selector (do_NodeSelector ov) (getDefaultNodeSelector cfg))
    (ServiceAccount p) (ServiceAccount p) (Some no_others) "default-scheduler"
    (overridden_tolerations (do_Tolerations ov) (getDefaultTolerations cfg))
    (PriorityClassName p) no_others.

(** The resource overrides are in milli-units, as the API server stores them. *)
Definition overrides_exact (vpa : VerticalPodAutoscalerController) : bool :=
  forallb (fun o => resources_exact (co_Resources (do_Container (operand_override vpa o))))
    [Recommender; Updater; Admission].

(** ** Pod specs *)

Lemma controllerParams_operands : controllerParams = map operand_params [Recommender; Updater; Admission].
Proof. done. Qed.

Lemma apply_override_fields o s c :
  ps_Containers s = [c] ->
  apply_override o s =
  mkPodSpec (ps_Volumes s)
    [set_Resources (overridden_resources (do_Container o) (c_Resources c))
       (append_Args (co_Args (do_Container o)) c)]
    (ps_RestartPolicy s) (ps_TerminationGracePeriodSeconds s) (ps_DNSPolicy s)
    (overridden_selector (do_NodeSelector o) (ps_NodeSelector s)) (ps_ServiceAccountName s)
    (ps_DeprecatedServiceAccount s) (ps_SecurityContext s) (ps_SchedulerName s)
    (overridden_tolerations (do_Tolerations o) (ps_Tolerations s)) (ps_PriorityClassName s)
    (ps_others s).
Proof.
  destruct s, c, o as [[args res] sel tol]; simpl. intros [= ->].
  unfold apply_override, overridden_resources, overridden_selector; simpl.
  destruct (bool_decide (res = _)), args, (gm_len sel), tol; simpl;
    unfold append_Args, set_Resources; simpl; rewrite ?app_nil_r; done.
Qed.

Lemma expected_podspec_operand cfg vpa o :
  expected_podspec cfg vpa (operand_params o) = spec_podspec cfg vpa o.
Proof.
  assert (Hargs : forall (e : string) args, (if negb (bool_decide (e = "")) then args ++ [e] else args) =
                   args ++ (if bool_decide (e = "") then [] else [e])).
  { intros e args. case_bool_decide; simpl; by rewrite ?app_nil_r. }
  unfold expected_podspec, spec_podspec, spec_container, extra_args.
  destruct o; simpl; unfold RecommenderControllerPodSpec, UpdaterControllerPodSpec,
    AdmissionControllerPodSpec, VPAPodSpec; simpl; rewrite Hargs;
    (erewrite apply_override_fields by reflexivity); simpl;
    unfold append_Args, set_Resources; simpl; by rewrite app_assoc.
Qed.

Lemma overrides_exact_operand vpa o :
  overrides_exact vpa = true ->
  resources_exact (co_Resources (do_Container (operand_override vpa o))) = true.
Proof.
  unfold overrides_exact. rewrite forallb_forall. intros H. apply H.
  destruct o; simpl; tauto.
Qed.

(** Nothing is left for the API server to fill in: what is read back is what was asked for. *)
Lemma spec_podspec_complete cfg vpa o :
  resources_exact (co_Resources (do_Container (operand_override vpa o))) = true ->
  podspec_complete (spec_podspec cfg vpa o) = true.
Proof.
  intros Hx. unfold podspec_complete, spec_podspec; simpl.
  rewrite !bool_decide_true by done. simpl.
  assert (Hr : resources_exact (c_Resources (spec_container cfg vpa o)) = true).
  { unfold spec_container, overridden_resources; simpl.
    case_bool_decide; [by destruct o | done]. }
  unfold container_complete. rewrite Hr. by destruct o.
Qed.

(** ** Label selection *)

(** A selector's labels are among the labels of an object. *)
Definition selects (sel labels : gomap string) : bool :=
  forallb (fun kv => bool_decide (gm_lookup kv.1 labels = Some kv.2)) (map_to_list (gm_map sel)).
(** A [LabelSelector] without expressions; the operator writes no other. *)
Definition selector_matches (s : LabelSelector) (labels : gomap string) : bool :=
  bool_decide (ls_others s = no_others) && selects (ls_MatchLabels s) labels.

Lemma selects_spec sel labels :
  selects sel labels = true <-> map_Forall (fun k v => gm_lookup k labels = Some v) (gm_map sel).
Proof.
  unfold selects. rewrite forallb_forall, map_Forall_to_list, Forall_forall.
  setoid_rewrite list_elem_of_In. apply forall_proper; intros [k v]; simpl.
  by rewrite bool_decide_eq_true.
Qed.
(** A selector written as a list of distinct labels. *)
Lemma selects_of l labels :
  NoDup l.*1 ->
  selects (gm_of l) labels = forallb (fun kv => bool_decide (gm_lookup kv.1 labels = Some kv.2)) l.
Proof.
  intros Hl. apply eq_true_iff_eq. rewrite selects_spec, forallb_forall. simpl.
  unfold map_Forall. split.
  - intros Hm [k v] Hkv%list_elem_of_In. apply bool_decide_eq_true, Hm.
    by apply elem_of_list_to_map.
  - intros Hf k v Hkv. apply elem_of_list_to_map in Hkv; [|done].
    apply list_elem_of_In, Hf in Hkv. by apply bool_decide_eq_true in Hkv.
Qed.
Lemma gm_lookup_of {V} k (l : list (string * V)) :
  gm_lookup k (gm_of l) = (list_find (fun kv => kv.1 = k) l) ≫= (fun r => Some r.2.2).
Proof.
  unfold gm_lookup, gm_of; simpl. induction l as [|[k' v] l IH]; simpl; [done|].
  rewrite lookup_insert. case_decide; [done|]. rewrite IH.
  destruct (list_find _ l) as [[? []]|]; done.
Qed.

(** The labels of the pods of an operand. *)
Definition operand_labels (vpa : VerticalPodAutoscalerController) (o : Operand) : gomap string :=
  gm_of [("vertical-pod-autoscaler", om_Name (vpa_meta vpa));
         ("app", AppName (operand (operand_params o)))].
Definition operand_deployment (cfg : Config) (vpa : VerticalPodAutoscalerController) (o : Operand) :
    Deployment :=
  AutoscalerDeployment cfg vpa (operand_params o).
Definition template_labels (d : Deployment) : gomap string :=
  om_Labels (pt_meta (ds_Template (dep_Spec d))).

Lemma template_labels_operand cfg vpa o :
  template_labels (operand_deployment cfg vpa o) = operand_labels vpa o.
Proof. done. Qed.

#[export] Instance Operand_eq_dec : EqDecision Operand.
Proof. solve_decision. Defined.
Lemma selector_matches_labels labels labels' :
  selector_matches (match_labels labels) labels' = selects labels labels'.
Proof. unfold selector_matches. simpl. by rewrite bool_decide_true. Qed.
(** What a selector on the application, on the resource, or on both selects. *)
Lemma selects_app vpa o app :
  selects (gm_of [("app", app)]) (operand_labels vpa o) =
  bool_decide (AppName (operand (operand_params o)) = app).
Proof.
  rewrite selects_of by (repeat constructor; set_solver). simpl.
  unfold operand_labels. rewrite gm_lookup_of, andb_true_r. apply bool_decide_ext. simpl.
  by split; [intros [= ->]|intros ->].
Qed.
Lemma selects_vpa vpa o name :
  selects (gm_of [("vertical-pod-autoscaler", name)]) (operand_labels vpa o) =
  bool_decide (om_Name (vpa_meta vpa) = name).
Proof.
  rewrite selects_of by (repeat constructor; set_solver). simpl.
  unfold operand_labels. rewrite gm_lookup_of, andb_true_r. apply bool_decide_ext. simpl.
  by split; [intros [= ->]|intros ->].
Qed.
Lemma selects_operand vpa o name app :
  selects (gm_of [("vertical-pod-autoscaler", name); ("app", app)]) (operand_labels vpa o) =
  bool_decide (om_Name (vpa_meta vpa) = name) &&
  bool_decide (AppName (operand (operand_params o)) = app).
Proof.
  rewrite <- (selects_vpa vpa o), <- (selects_app vpa o).
  rewrite !selects_of by (repeat constructor; set_solver). simpl. by rewrite !andb_true_r.
Qed.
Lemma AppName_inj o o' :
  AppName (operand (operand_params o)) = AppName (operand (operand_params o')) -> o = o'.
Proof. by destruct o, o'. Qed.

(** ** Command lines *)

(** The arguments of the admission controller that never change. *)
Definition webhook_args (cfg : Config) : list string :=
  [LogToStderrArg;
   Value VerbosityArg (VInt (cfg_Verbosity cfg));
   "--tls-cert-file=/data/tls-certs/tls.crt";
   "--tls-private-key=/data/tls-certs/tls.key";
   "--client-ca-file=/data/tls-ca-certs/service-ca.crt";
   "--webhook-timeout-seconds=10"].
(** A default that a user's argument of the same name removes. *)
Definition default_flag (user : list string) (name v : string) : list string :=
  if ArgExists user name then [] else [name +:+ "=" +:+ v].
(** The flags a TLS profile is passed by. *)
Definition tls_flags (profile : option TLSProfileSpec) : list string :=
  match profile with
  | None => []
  | Some p =>
      (if bool_decide (tls_MinTLSVersion p = "") then []
       else ["--min-tls-version=" +:+ TLSVersionToArg (tls_MinTLSVersion p)]) ++
      match gs_list (tls_Ciphers p) with
      | [] => []
      | ciphers => ["--tls-ciphers=" +:+ Join (TLSCiphersToArgs ciphers) ","]
      end
  end.

Lemma AdmissionPluginArgs_tls profile (args : list string) :
  (let args := match profile with
               | Some p => if negb (bool_decide (tls_MinTLSVersion p = ""))
                           then args ++ [Value MinTLSVersionArg
                                           (VString (TLSVersionToArg (tls_MinTLSVersion p)))]
                           else args
               | None => args
               end in
   match profile with
   | Some p => if (0 <? length (gs_list (tls_Ciphers p)))%nat
               then args ++ [Value TLSCiphersArg
                               (VString (Join (TLSCiphersToArgs (gs_list (tls_Ciphers p))) ","))]
               else args
   | None => args
   end) = args ++ tls_flags profile.
Proof.
  destruct profile as [[ciphers g v]|]; cbn -[TLSCiphersToArgs Join]; [|by rewrite app_nil_r].
  destruct (bool_decide (v = "")), (gs_list ciphers);
    cbn -[TLSCiphersToArgs Join]; rewrite <- ?app_assoc, ?app_nil_r; done.
Qed.
Lemma AdmissionPluginArgs_parts vpa cfg :
  AdmissionPluginArgs vpa cfg =
  webhook_args cfg ++
  default_flag (co_Args (do_Container (operand_override vpa Admission))) KubeAPIQPSArg "25.0" ++
  default_flag (co_Args (do_Container (operand_override vpa Admission))) KubeAPIBurstArg "50.0" ++
  tls_flags (cfg_TLSProfileSpec cfg).
Proof.
  unfold AdmissionPluginArgs, default_flag, AdmissionPluginArg_String. cbn [operand_override].
  set (user := co_Args _).
  rewrite (if_negb (list string)), (if_negb (list string)).
  refine (eq_trans (AdmissionPluginArgs_tls _ _) _).
  by destruct (ArgExists user KubeAPIQPSArg), (ArgExists user KubeAPIBurstArg).
Qed.

(** ** Wiring *)

(** The value of an argument [name=value]. *)
Definition arg_value (name : string) (args : list string) (v : string) : Prop :=
  name +:+ "=" +:+ v ∈ args.
Definition in_dir (dir path : string) : Prop := HasPrefix path (dir +:+ "/") = true.

(** C28 The parts of the installation fit together: each deployment selects the
    pods of its own template and of no other operand; the webhook's service
    selects the admission controller's pods only, and forwards to the port its
    container declares; the certificates are read from volumes that hold the
    secret and the config map the service annotations ask OpenShift to fill. *)
Theorem operands_wired cfg vpa :
  (forall o o', match ds_Selector (dep_Spec (operand_deployment cfg vpa o)) with
                | Some s => selector_matches s (template_labels (operand_deployment cfg vpa o'))
                | None => false
                end = bool_decide (o = o')) /\
  (forall o, selects (ss_Selector (svc_Spec (WebhookService cfg vpa)))
               (template_labels (operand_deployment cfg vpa o)) = bool_decide (o = Admission)) /\
  (exists c v1 v2 m1 m2 p,
    ps_Containers (expected_podspec cfg vpa admissionParams) = [c] /\
    c_Ports c = [p] /\
    map svp_TargetPort (ss_Ports (svc_Spec (WebhookService cfg vpa))) =
      [FromInt32 (cp_ContainerPort p)] /\
    ps_Volumes (expected_podspec cfg vpa admissionParams) = [v1; v2] /\
    c_VolumeMounts c = [m1; m2] /\ vm_Name m1 = vol_Name v1 /\ vm_Name m2 = vol_Name v2 /\
    svs_SecretName <$> vol_Secret v1 =
      gm_lookup webhookCertAnnotationName (om_Annotations (svc_meta (WebhookService cfg vpa))) /\
    cvs_Name <$> vol_ConfigMap v2 = Some (om_Name (cm_meta (CAConfigMap cfg vpa))) /\
    (exists cert key ca,
      arg_value TLSCertFileArg (c_Args c) cert /\ in_dir (vm_MountPath m1) cert /\
      arg_value TLSKeyFileArg (c_Args c) key /\ in_dir (vm_MountPath m1) key /\
      arg_value TLSCACertFileArg (c_Args c) ca /\ in_dir (vm_MountPath m2) ca)).
Proof.
  split; [|split].
  - intros o o'. rewrite template_labels_operand. simpl.
    rewrite selector_matches_labels, selects_operand, bool_decide_true by done.
    apply bool_decide_ext. split; [intros H; symmetry; by apply AppName_inj | by intros ->].
  - intros o. rewrite template_labels_operand. simpl. rewrite selects_app. by destruct o.
  - change admissionParams with (operand_params Admission). rewrite expected_podspec_operand.
    eexists _, _, _, _, _, _. split; [done|]. split; [done|]. split; [done|].
    split; [done|]. split; [done|]. split; [done|]. split; [done|].
    split; [by vm_compute|]. split; [done|].
    exists "/data/tls-certs/tls.crt", "/data/tls-certs/tls.key", "/data/tls-ca-certs/service-ca.crt".
    unfold arg_value, in_dir. simpl c_Args. rewrite AdmissionPluginArgs_parts.
    unfold webhook_args. repeat split; set_solver.
Qed.

(** ** Overrides *)

(** C13 The pod spec of each operand is the operator's, except where the user
    overrides it: arguments are the defaults, then the operator's extra argument,
    then the user's; resources, node selector and tolerations are the user's when
    given and the operator's otherwise. *)
Theorem operand_podspec_refined cfg vpa o :
  expected_podspec cfg vpa (operand_params o) = spec_podspec cfg vpa o /\
  In (operand_params o) controllerParams.
Proof.
  split; [apply expected_podspec_operand | destruct o; simpl; tauto].
Qed.

(** A pod spec without the fields a user may override. *)
Definition without_overridable (s : PodSpec) : PodSpec :=
  set_Tolerations [] (set_NodeSelector nilmap
    (mkPodSpec (ps_Volumes s)
       (map (fun c => set_Resources zero_ResourceRequirements
               (mkContainer (c_Name c) (c_Image c) (c_Command c) [] (c_Ports c) (c_Env c)
                  (c_Resources c) (c_VolumeMounts c) (c_TerminationMessagePath c)
                  (c_TerminationMessagePolicy c) (c_ImagePullPolicy c) (c_SecurityContext c)
                  (c_others c))) (ps_Containers s))
       (ps_RestartPolicy s) (ps_TerminationGracePeriodSeconds s) (ps_DNSPolicy s)
       (ps_NodeSelector s) (ps_ServiceAccountName s) (ps_DeprecatedServiceAccount s)
       (ps_SecurityContext s) (ps_SchedulerName s) (ps_Tolerations s) (ps_PriorityClassName s)
       (ps_others s))).

(** C29 No custom resource can change anything else of a pod: two custom
    resources give pod specs that differ in arguments, resources, node selector
    and tolerations only, and every container runs the operator's image without
    privileges (non-root, no escalation, all capabilities dropped, the runtime's
    seccomp profile). *)
Theorem overrides_confined cfg vpa vpa' o :
  without_overridable (expected_podspec cfg vpa (operand_params o)) =
    without_overridable (expected_podspec cfg vpa' (operand_params o)) /\
  Forall (fun c => c_Image c = cfg_Image cfg /\ c_SecurityContext c = Some restricted)
    (ps_Containers (expected_podspec cfg vpa (operand_params o))).
Proof.
  rewrite !expected_podspec_operand. split; [done | by repeat constructor].
Qed.

(** Quantities that are semantically equal are both whole milli-units, or neither is. *)
Lemma sem_milli_exact (q q' : Quantity) : q ≃ q' -> milli_exact q = milli_exact q'.
Proof. unfold milli_exact. intros H%bool_decide_eq_true; simpl in H. by rewrite H. Qed.
Lemma sem_map_milli_exact (m m' : gomap Quantity) :
  m ≃ m' -> forallb (fun kv => milli_exact kv.2) (map_to_list (gm_map m)) = true ->
  forallb (fun kv => milli_exact kv.2) (map_to_list (gm_map m')) = true.
Proof.
  intros Hm%sem_map_pointwise Hall. rewrite forallb_forall in Hall |- *.
  intros [k q] Hkq%list_elem_of_In%elem_of_map_to_list. simpl.
  specialize (Hm k). rewrite Hkq in Hm. inversion Hm as [q' ? Hq Hq'|]; subst.
  rewrite <- (sem_milli_exact q' q Hq). apply (Hall (k, q')), list_elem_of_In, elem_of_map_to_list. by symmetry.
Qed.

Lemma sem_PodSpec_containers (p q : PodSpec) : p ≃ q -> ps_Containers p ≃ ps_Containers q.
Proof.
  intros H. change ((ps_Volumes p, ps_Containers p, ps_RestartPolicy p,
    ps_TerminationGracePeriodSeconds p, ps_DNSPolicy p, ps_NodeSelector p,
    ps_ServiceAccountName p, ps_DeprecatedServiceAccount p, ps_SecurityContext p,
    ps_SchedulerName p, ps_Tolerations p, ps_PriorityClassName p, ps_others p) ≃
   (ps_Volumes q, ps_Containers q, ps_RestartPolicy q,
    ps_TerminationGracePeriodSeconds q, ps_DNSPolicy q, ps_NodeSelector q,
    ps_ServiceAccountName q, ps_DeprecatedServiceAccount q, ps_SecurityContext q,
    ps_SchedulerName q, ps_Tolerations q, ps_PriorityClassName q, ps_others q)) in H.
  rewrite !sem_struct_fields in H. simpl in H. tauto.
Qed.
Lemma sem_Container_resources (c d : Container) : c ≃ d -> c_Resources c ≃ c_Resources d.
Proof.
  intros H. change ((c_Name c, c_Image c, c_Command c, c_Args c, c_Ports c, c_Env c,
    c_Resources c, c_VolumeMounts c, c_TerminationMessagePath c,
    c_TerminationMessagePolicy c, c_ImagePullPolicy c, c_SecurityContext c, c_others c) ≃
   (c_Name d, c_Image d, c_Command d, c_Args d, c_Ports d, c_Env d,
    c_Resources d, c_VolumeMounts d, c_TerminationMessagePath d,
    c_TerminationMessagePolicy d, c_ImagePullPolicy d, c_SecurityContext d, c_others d)) in H.
  rewrite !sem_struct_fields in H. simpl in H. tauto.
Qed.
Lemma sem_Resources_exact (r r' : ResourceRequirements) :
  r ≃ r' -> resources_exact r = true -> resources_exact r' = true.
Proof.
  intros H. change ((rr_Limits r, rr_Requests r, rr_Claims r) ≃
    (rr_Limits r', rr_Requests r', rr_Claims r')) in H.
  rewrite !sem_struct_fields in H. simpl in H. destruct H as [[H1 H2] _].
  unfold resources_exact. rewrite !andb_true_iff. intros [? ?].
  split; by eapply sem_map_milli_exact.
Qed.

(** C30 What the API server stores of an expected pod spec is equal, for the
    comparison the operator makes, to what the operator asked for: exactly when
    the resources of the container are whole milli-units.  Of the server this takes
    what the API documents: defaults are for fields that were left open, and
    quantities are stored in whole milli-units.  So a comparison of the stored
    deployment with the expected one does not see defaulting, and an override in
    smaller units is never seen as applied. *)
Theorem expected_podspec_survives_defaulting (stored : PodSpec -> PodSpec) cfg vpa o :
  (forall p, podspec_complete p = true -> stored p ≃ p) ->
  (forall p c, c ∈ ps_Containers (stored p) -> resources_exact (c_Resources c) = true) ->
  stored (expected_podspec cfg vpa (operand_params o)) ≃
    expected_podspec cfg vpa (operand_params o) <->
  resources_exact (co_Resources (do_Container (operand_override vpa o))) = true.
Proof.
  intros Hkept Hexact. rewrite expected_podspec_operand. split.
  - intros H%sem_PodSpec_containers%sem_slice_Forall2.
    destruct (ps_Containers (stored (spec_podspec cfg vpa o))) as [|c l] eqn:Hc; [by inversion H|].
    apply Forall2_cons in H as [H%sem_Container_resources _].
    apply sem_Resources_exact in H; [|apply (Hexact (spec_podspec cfg vpa o)); rewrite Hc; apply list_elem_of_here].
    simpl in H. unfold overridden_resources in H. case_bool_decide as Hz; [|done]. by rewrite Hz.
  - intros H. by apply Hkept, spec_podspec_complete.
Qed.

(** ** Flags *)

Definition has_flag (name : string) (a : string) : bool := HasPrefix a (name +:+ "=").
Definition flag_values (name : string) (args : list string) : list string :=
  List.filter (has_flag name) args.

Lemma flag_values_app name l l' :
  flag_values name (l ++ l') = flag_values name l ++ flag_values name l'.
Proof. apply List.filter_app. Qed.
Lemma flag_values_nil name l : ArgExists l name = false <-> flag_values name l = [].
Proof.
  unfold ArgExists, ContainsFunc, flag_values, has_flag.
  induction l as [|a l IH]; simpl; [done|]. by case_match.
Qed.
Lemma has_flag_self name v : has_flag name (name +:+ "=" +:+ v) = true.
Proof. apply HasPrefix_spec. exists v. by rewrite append_assoc. Qed.
Lemma flag_values_here name v l :
  flag_values name ((name +:+ "=" +:+ v) :: l) = (name +:+ "=" +:+ v) :: flag_values name l.
Proof. unfold flag_values. simpl. by rewrite has_flag_self. Qed.
Lemma flag_values_one name v : flag_values name [name +:+ "=" +:+ v] = [name +:+ "=" +:+ v].
Proof. unfold flag_values. simpl. by rewrite has_flag_self. Qed.
Lemma flag_values_default name user v :
  flag_values name (default_flag user name v ++ user) =
  match flag_values name user with [] => [name +:+ "=" +:+ v] | given => given end.
Proof.
  unfold default_flag. destruct (ArgExists user name) eqn:Ha.
  - simpl. destruct (flag_values name user) eqn:Hu; [|done].
    apply flag_values_nil in Hu. congruence.
  - apply flag_values_nil in Ha. rewrite flag_values_app, Ha. simpl.
    by rewrite has_flag_self.
Qed.

(** The webhook's own arguments and the TLS flags, as the other flags see them. *)
Lemma flag_values_webhook name cfg :
  name ∈ [KubeAPIQPSArg; KubeAPIBurstArg; MinTLSVersionArg; TLSCiphersArg] ->
  flag_values name (webhook_args cfg) = [].
Proof.
  rewrite !elem_of_cons, elem_of_nil. by intros [->|[->|[->|[->|[]]]]].
Qed.
Lemma flag_values_tls_flags name p :
  name ∈ [KubeAPIQPSArg; KubeAPIBurstArg] -> flag_values name (tls_flags p) = [].
Proof.
  rewrite !elem_of_cons, elem_of_nil. intros H. unfold tls_flags.
  destruct p as [p|]; [|done].
  destruct (bool_decide _), (gs_list (tls_Ciphers p)); by destruct H as [->|[->|[]]].
Qed.
Lemma flag_values_other name name' user v :
  has_flag name (name' +:+ "=" +:+ v) = false ->
  flag_values name (default_flag user name' v) = [].
Proof. unfold default_flag. intros H. destruct (ArgExists user name'); simpl; [done|]. by rewrite H. Qed.

(** The command line of the admission controller always sets the API
    server's request rate and burst: by the user's arguments when there are any,
    else once, by the operator's defaults, which never precede a user's value.
    (The operator's extra argument is not one of these flags.) *)
Lemma admission_rate_limits cfg vpa name v c :
  (name, v) ∈ [(KubeAPIQPSArg, "25.0"); (KubeAPIBurstArg, "50.0")] ->
  has_flag name (cfg_ExtraArgs cfg) = false ->
  ps_Containers (expected_podspec cfg vpa admissionParams) = [c] ->
  flag_values name (c_Args c) =
  match flag_values name (co_Args (do_Container (dos_Admission (vs_DeploymentOverrides (vpa_Spec vpa))))) with
  | [] => [name +:+ "=" +:+ v]
  | user => user
  end.
Proof.
  intros Hname Hx. change admissionParams with (operand_params Admission).
  rewrite expected_podspec_operand. intros [= <-]. simpl.
  set (user := co_Args _). rewrite AdmissionPluginArgs_parts.
  change (co_Args (do_Container (operand_override vpa Admission))) with user.
  assert (He : flag_values name (extra_args cfg) = []).
  { unfold extra_args. case_bool_decide; simpl; [done|]. by rewrite Hx. }
  assert (Hq : name ∈ [KubeAPIQPSArg; KubeAPIBurstArg]) by set_solver.
  rewrite <- flag_values_default, !flag_values_app, He.
  rewrite flag_values_webhook by set_solver. rewrite flag_values_tls_flags by done.
  rewrite app_nil_r. simpl. f_equal.
  rewrite !elem_of_cons, elem_of_nil in Hname.
  destruct Hname as [[= -> ->]|[[= -> ->]|[]]].
  - rewrite (flag_values_other _ KubeAPIBurstArg) by done. by rewrite ?app_nil_r.
  - rewrite (flag_values_other _ KubeAPIQPSArg) by done. by rewrite ?app_nil_r.
Qed.

Lemma flag_values_default_tls name user name' v :
  name ∈ [MinTLSVersionArg; TLSCiphersArg] -> (name', v) ∈ [(KubeAPIQPSArg, "25.0"); (KubeAPIBurstArg, "50.0")] ->
  flag_values name (default_flag user name' v) = [].
Proof.
  rewrite !elem_of_cons, !elem_of_nil. intros H H'. apply flag_values_other.
  by destruct H as [->|[->|[]]], H' as [[= -> ->]|[[= -> ->]|[]]].
Qed.

(** The TLS profile in force reaches the webhook's command line exactly:
    without a profile there is no TLS flag; a profile with a minimum version is
    passed as one version flag, and one with ciphers as one cipher flag that
    lists, in order, the IANA names of the ciphers Go knows (or the ciphers as
    they are, when it knows none). *)
Lemma admission_tls_flags cfg vpa :
  flag_values MinTLSVersionArg (AdmissionPluginArgs vpa cfg) =
    match cfg_TLSProfileSpec cfg with
    | Some p => if bool_decide (tls_MinTLSVersion p = "") then []
                else [MinTLSVersionArg +:+ "=" +:+ TLSVersionToArg (tls_MinTLSVersion p)]
    | None => []
    end /\
  flag_values TLSCiphersArg (AdmissionPluginArgs vpa cfg) =
    match cfg_TLSProfileSpec cfg with
    | Some p =>
        let ciphers := gs_list (tls_Ciphers p) in
        let known := omap (fun c => openSSLToIANACiphersMap !! c) ciphers in
        if bool_decide (ciphers = []) then []
        else [TLSCiphersArg +:+ "=" +:+ Join (if bool_decide (known = []) then ciphers else known) ","]
    | None => []
    end.
Proof.
  rewrite AdmissionPluginArgs_parts, !flag_values_app.
  rewrite !flag_values_webhook by set_solver.
  rewrite !flag_values_default_tls by set_solver. simpl.
  unfold tls_flags. destruct (cfg_TLSProfileSpec cfg) as [[ciphers g v]|]; [|done].
  simpl tls_MinTLSVersion. simpl tls_Ciphers. rewrite !flag_values_app.
  rewrite <- TLSCiphersToArgs_spec.
  split; destruct (gs_list ciphers) as [|c l]; case_bool_decide; try done.
  all: first [exact (flag_values_one _ _)
             | exact (eq_trans (app_nil_r _) (flag_values_one MinTLSVersionArg _))].
Qed.

(** ** TLS profiles *)

(** The ciphers of a list that Go does not know. *)
Definition unknown_ciphers (l : list string) : list string :=
  List.filter (fun c => negb (is_set (openSSLToIANACiphersMap !! c))) l.

(** The built-in profiles are passed on faithfully: every cipher of the
    Modern and the Intermediate profile has an IANA name, the Old profile loses
    just the three CBC ciphers with SHA-2 digests that Go does not implement; each
    profile's list extends the stricter one's; and an unknown or empty profile
    type means Intermediate. *)
Fact builtin_profiles :
  map (fun t => (fun p => (TLSVersionToArg (tls_MinTLSVersion p),
                           unknown_ciphers (gs_list (tls_Ciphers p)))) <$> TLSProfiles !! t)
    ["Modern"; "Intermediate"; "Old"] =
  [Some ("tls1_3", []); Some ("tls1_2", []);
   Some ("tls1_0", ["ECDHE-ECDSA-AES256-SHA384"; "ECDHE-RSA-AES256-SHA384"; "AES256-SHA256"])] /\
  (exists l l',
    TLSCiphersToArgs (gs_list (tls_Ciphers intermediateProfile)) =
      TLSCiphersToArgs (gs_list (tls_Ciphers modernProfile)) ++ l /\
    TLSCiphersToArgs (gs_list (tls_Ciphers oldProfile)) =
      TLSCiphersToArgs (gs_list (tls_Ciphers intermediateProfile)) ++ l') /\
  (forall p, tsp_Type p ∉ ["Old"; "Modern"; "Custom"] ->
    GetTLSProfileSpec (Some p) = GetTLSProfileSpec None).
Proof.
  split; [by vm_compute|]. split.
  - eexists _, _. split; vm_compute; reflexivity.
  - intros p Hp. unfold GetTLSProfileSpec. case_bool_decide; [done|].
    rewrite bool_decide_false by set_solver. simpl.
    unfold TLSProfiles. simpl. rewrite lookup_insert_ne by set_solver.
    rewrite lookup_insert. case_decide; [done|].
    rewrite lookup_insert_ne by set_solver. by rewrite lookup_empty.
Qed.

(** ** Traffic *)

Inductive Direction := Ingress | Egress.
Definition direction_name (d : Direction) : string :=
  match d with Ingress => PolicyTypeIngress | Egress => PolicyTypeEgress end.
(** The other end of a connection: a pod of a namespace, or something else. *)
Inductive Peer := PodPeer (pod_labels ns_labels : gomap string) | OtherPeer.
(** A connection of a pod: the protocol and the port of its server's end. *)
Record Connection := mkConnection {
  conn_dir : Direction;
  conn_peer : Peer;
  conn_protocol : string;
  conn_port : Z
}.

(** The documented meaning of a network policy (numeric ports, no port ranges,
    peers in other namespaces by both selectors: what the operator writes). *)
Definition peer_matches (p : NetworkPolicyPeer) (q : Peer) : bool :=
  match peer_PodSelector p, peer_NamespaceSelector p, q with
  | Some pods, Some nss, PodPeer l nl => selector_matches pods l && selector_matches nss nl
  | _, _, _ => false
  end.
Definition port_matches (p : NetworkPolicyPort) (proto : string) (port : Z) : bool :=
  bool_decide (npp_Protocol p = Some proto) &&
  match npp_Port p with None => true | Some q => bool_decide (q = FromInt32 port) end.
Definition rule_matches (r : NetworkPolicyRule) (c : Connection) : bool :=
  ((length (npr_Ports r) =? 0)%nat ||
   existsb (fun p => port_matches p (conn_protocol c) (conn_port c)) (npr_Ports r)) &&
  ((length (npr_Peers r) =? 0)%nat || existsb (fun p => peer_matches p (conn_peer c)) (npr_Peers r)).
Definition rules_of (d : Direction) (s : NetworkPolicySpec) : list NetworkPolicyRule :=
  match d with Ingress => nps_Ingress s | Egress => nps_Egress s end.
(** A policy applies to a pod in a direction. *)
Definition applies (s : NetworkPolicySpec) (labels : gomap string) (d : Direction) : bool :=
  selector_matches (nps_PodSelector s) labels &&
  bool_decide (direction_name d ∈ nps_PolicyTypes s).
(** A connection passes when no policy applies, or one that applies has a rule for it. *)
Definition passes (policies : list NetworkPolicySpec) (labels : gomap string) (c : Connection) : bool :=
  negb (existsb (fun s => applies s labels (conn_dir c)) policies) ||
  existsb (fun s => applies s labels (conn_dir c) &&
                    existsb (fun r => rule_matches r c) (rules_of (conn_dir c) s)) policies.

(** The traffic an operand is meant to have. *)
Definition cluster_dns (p : Peer) : bool :=
  match p with
  | PodPeer l nl =>
      bool_decide (gm_lookup "dns.operator.openshift.io/daemonset-dns" l = Some "default") &&
      bool_decide (gm_lookup "kubernetes.io/metadata.name" nl = Some "openshift-dns")
  | OtherPeer => false
  end.
Definition intended (o : Operand) (c : Connection) : bool :=
  match conn_dir c with
  | Ingress =>
      bool_decide (conn_protocol c = "TCP") &&
      ((8942 <=? conn_port c) && (conn_port c <=? 8944) ||
       bool_decide (o = Admission) && (conn_port c =? 8000))
  | Egress =>
      bool_decide (conn_protocol c = "TCP") && (conn_port c =? 6443) ||
      (bool_decide (conn_protocol c = "TCP") || bool_decide (conn_protocol c = "UDP")) &&
      (conn_port c =? 5353) && cluster_dns (conn_peer c)
  end.

(** Evaluate the memberships of closed lists. *)
Ltac decide_membership :=
  repeat match goal with
  | |- context [bool_decide (?x ∈ ?l)] =>
      let v := eval vm_compute in (bool_decide (x ∈ l)) in
      change (bool_decide (x ∈ l)) with v
  end.

Lemma port_matches_makePort proto n proto' port :
  n <> 0 ->
  port_matches (makePort (Some proto) (FromInt32 n) 0) proto' port =
  bool_decide (proto' = proto) && (port =? n).
Proof.
  intros Hn. unfold port_matches, makePort. simpl.
  assert (Hf : bool_decide (FromInt32 n = FromInt32 0) = false).
  { apply bool_decide_false. unfold FromInt32. congruence. }
  rewrite Hf. simpl. f_equal; [apply bool_decide_ext; split; congruence|].
  destruct (Z.eqb_spec port n); [apply bool_decide_true | apply bool_decide_false];
    unfold FromInt32; congruence.
Qed.
Lemma peer_matches_dns q :
  peer_matches
    (mkNetworkPolicyPeer
       (Some (match_labels (gm_of [("dns.operator.openshift.io/daemonset-dns", "default")])))
       (Some (match_labels (gm_of [("kubernetes.io/metadata.name", "openshift-dns")])))
       no_others) q = cluster_dns q.
Proof.
  destruct q as [l nl|]; [|done]. unfold peer_matches, cluster_dns; simpl.
  rewrite !selector_matches_labels, !selects_of by (repeat constructor; set_solver).
  simpl. by rewrite !andb_true_r.
Qed.
Lemma applies_vpa vpa vpa' o d ingress egress types :
  applies (mkNetworkPolicySpec (vpa_pods vpa) ingress egress types) (operand_labels vpa' o) d =
  bool_decide (om_Name (vpa_meta vpa') = om_Name (vpa_meta vpa)) &&
  bool_decide (direction_name d ∈ types).
Proof. unfold applies, vpa_pods. simpl. by rewrite selector_matches_labels, selects_vpa. Qed.

(** C21 The network policies let through the intended traffic of every operand
    and nothing else: metrics to all of them, webhook calls to the admission
    controller, and from all of them the API server and the cluster's DNS. *)
Theorem policies_allow_intended cfg vpa o c :
  passes (map np_Spec (NetworkPolicies cfg vpa)) (template_labels (operand_deployment cfg vpa o)) c =
  intended o c.
Proof.
  rewrite template_labels_operand. unfold passes. unfold_policies.
  cbn [map np_Spec existsb]. rewrite !applies_vpa.
  unfold applies. cbn [nps_PodSelector nps_PolicyTypes].
  rewrite !selector_matches_labels, !selects_operand, !bool_decide_true by done.
  destruct c as [d q proto port]. unfold intended.
  destruct d, o; cbn -[rule_matches cluster_dns bool_decide Z.eqb Z.leb]; decide_membership; simpl.
  all: unfold rule_matches; cbn -[port_matches makePort peer_matches cluster_dns bool_decide Z.eqb Z.leb].
  all: rewrite !port_matches_makePort, ?peer_matches_dns by done.
  all: change (wrap 32 8942) with 8942; change (wrap 32 8943) with 8943;
    change (wrap 32 8944) with 8944; change (wrap 32 AdmissionWebhookPort) with 8000.
  all: unfold protocolTCP, protocolUDP;
    destruct (cluster_dns q), (bool_decide (proto = "TCP")), (bool_decide (proto = "UDP")); simpl; lia.
Qed.

(** The custom resource with another mode. *)
Definition set_RecommendationOnly (b : option bool) (vpa : VerticalPodAutoscalerController) :
    VerticalPodAutoscalerController :=
  let s := vpa_Spec vpa in
  mkVPA (vpa_type vpa) (vpa_meta vpa)
    (mkVPASpec (vs_SafetyMarginFraction s) (vs_PodMinCPUMillicores s) (vs_PodMinMemoryMb s) b
       (vs_MinReplicas s) (vs_DeploymentOverrides s)).

(** In recommendation-only mode the updater and the admission controller are
    scaled to zero and the recommender still runs; otherwise all three run with
    one replica.  Nothing else of a deployment depends on the mode. *)
Lemma recommendation_only_replicas cfg vpa o b :
  let d := operand_deployment cfg (set_RecommendationOnly b vpa) o in
  let d0 := operand_deployment cfg vpa o in
  ds_Replicas (dep_Spec d) =
    Some (if bool_decide (b = Some true) && negb (bool_decide (o = Recommender)) then 0 else 1) /\
  ds_Template (dep_Spec d) = ds_Template (dep_Spec d0) /\
  ds_Selector (dep_Spec d) = ds_Selector (dep_Spec d0) /\ dep_meta d = dep_meta d0.
Proof.
  destruct vpa as [? ? []]; simpl. split.
  - destruct o; simpl; unfold expected_replicas; simpl;
      unfold UpdaterEnabled, AdmissionPluginEnabled; simpl; by destruct b as [[]|].
  - by destruct o.
Qed.

(** ** Numbers on the command line *)

(** The flag is given once, with an integer that reads back as [z]. *)
Definition integer_flag (name : string) (args : list string) (z : Z) : Prop :=
  exists v, flag_values name args = [name +:+ "=" +:+ v] /\ Atoi v = Some z.

Lemma flag_values_verbosity vpa cfg o :
  flag_values VerbosityArg (GetArgs (operand (operand_params o)) vpa cfg) =
  [VerbosityArg +:+ "=" +:+ Itoa (cfg_Verbosity cfg)].
Proof.
  assert (Hstart : forall l, flag_values VerbosityArg l = [] ->
    flag_values VerbosityArg ([LogToStderrArg; Value VerbosityArg (VInt (cfg_Verbosity cfg))] ++ l) =
    [VerbosityArg +:+ "=" +:+ Itoa (cfg_Verbosity cfg)]).
  { intros l Hl. rewrite flag_values_app, Hl, app_nil_r. exact (flag_values_one _ _). }
  destruct o; cbn [operand_params operand GetArgs recommenderParams updaterParams admissionParams].
  - unfold RecommenderArgs, append_if_set.
    destruct (vs_SafetyMarginFraction _), (vs_PodMinCPUMillicores _), (vs_PodMinMemoryMb _);
      rewrite <- ?app_assoc; by apply Hstart.
  - unfold UpdaterArgs, append_if_set. destruct (vs_MinReplicas _); by apply Hstart.
  - rewrite AdmissionPluginArgs_parts. apply (Hstart (drop 2 (webhook_args cfg) ++ _)).
    rewrite !flag_values_app.
    rewrite (flag_values_other _ KubeAPIQPSArg), (flag_values_other _ KubeAPIBurstArg) by reflexivity.
    unfold tls_flags. destruct (cfg_TLSProfileSpec cfg) as [p|]; [|done].
    by destruct (bool_decide _), (gs_list (tls_Ciphers p)).
Qed.

(** The verbosity of every operand and the updater's minimum of replicas. *)
Lemma integer_flags_read_back cfg vpa o :
  in_range 64 (cfg_Verbosity cfg) ->
  (forall n, vs_MinReplicas (vpa_Spec vpa) = Some n -> in_range 64 n) ->
  integer_flag VerbosityArg (GetArgs (operand (operand_params o)) vpa cfg) (cfg_Verbosity cfg) /\
  match vs_MinReplicas (vpa_Spec vpa) with
  | Some n => integer_flag MinReplicasArg (GetArgs (operand updaterParams) vpa cfg) n
  | None => flag_values MinReplicasArg (GetArgs (operand updaterParams) vpa cfg) = []
  end.
Proof.
  intros Hv Hn. split.
  - eexists. split; [apply flag_values_verbosity | by apply Atoi_Itoa].
  - simpl. unfold UpdaterArgs.
    destruct (vs_MinReplicas _) as [n|]; [|done]. exists (Itoa n).
    split; [exact (flag_values_one _ _) | apply Atoi_Itoa; auto].
Qed.

(** *** Inputs for the witnesses *)

Definition example_cfg : Config :=
  mkConfig "4.21.0" "default" "openshift-vertical-pod-autoscaler" "quay.io/openshift/vpa:v1" 1 ""
    None false.
(** A custom resource whose user raises the QPS, asks for more memory and pins the updater. *)
Definition example_overrides : DeploymentOverrides :=
  mkDeploymentOverrides
    (mkDeploymentOverride (mkContainerOverride ["--kube-api-qps=100"] zero_ResourceRequirements)
       nilmap [])
    (mkDeploymentOverride
       (mkContainerOverride [] (mkResources nilmap (gm_of [("memory", mebi 512)]) nilslice)) nilmap [])
    (mkDeploymentOverride (mkContainerOverride [] zero_ResourceRequirements)
       (gm_of [("kubernetes.io/hostname", "worker-0")]) []).
Definition example_vpa : VerticalPodAutoscalerController :=
  mkVPA (mkTypeMeta "VerticalPodAutoscalerController" "autoscaling.openshift.io/v1")
    (mkObjectMeta "default" "openshift-vertical-pod-autoscaler" "uid-vpa" "1" 1 nilmap nilmap [] no_others)
    (mkVPASpec (Some DefaultSafetyMarginFraction) (Some DefaultPodMinCPUMillicores) None None (Some 3)
       example_overrides).

(** The executable server stores pod specs in this way. *)
Lemma round_up_milli_whole q : milli_exact (round_up_milli q) = true.
Proof.
  unfold milli_exact, round_up_milli. cbn [q_value]. apply Z.eqb_eq. change (10 ^ 6) with 1000000.
  apply Z.mod_mul. lia.
Qed.
Lemma map_values_whole m :
  forallb (fun kv => milli_exact kv.2) (map_to_list (gm_map (map_values round_up_milli m))) = true.
Proof.
  apply forallb_forall. intros [k q] Hkq%list_elem_of_In%elem_of_map_to_list. simpl.
  destruct m as [|m]; simpl in Hkq; [by rewrite lookup_empty in Hkq|].
  rewrite lookup_fmap in Hkq. destruct (m !! k); [|done]. injection Hkq as <-. apply round_up_milli_whole.
Qed.
Lemma default_podspec_whole p c :
  c ∈ ps_Containers (default_podspec p) -> resources_exact (c_Resources c) = true.
Proof.
  simpl. intros (c0 & -> & _)%list_elem_of_fmap. simpl. unfold resources_exact. simpl.
  by rewrite !map_values_whole.
Qed.
(** An override by half a milli-unit of CPU. *)
Definition example_half : VerticalPodAutoscalerController :=
  mkVPA (vpa_type example_vpa) (vpa_meta example_vpa)
    (mkVPASpec None None None None None
       (mkDeploymentOverrides
          (mkDeploymentOverride
             (mkContainerOverride [] (mkResources nilmap (gm_of [("cpu", mkQuantity 500000 DecimalSI)]) nilslice))
             nilmap [])
          (dos_Recommender example_overrides) (dos_Updater example_overrides))).
Lemma expected_podspec_survives_defaulting_witness :
  default_podspec (expected_podspec example_cfg example_vpa (operand_params Recommender)) ≃
    expected_podspec example_cfg example_vpa (operand_params Recommender) /\
  ~ default_podspec (expected_podspec example_cfg example_half (operand_params Admission)) ≃
    expected_podspec example_cfg example_half (operand_params Admission).
Proof.
  assert (Hkept : forall p, podspec_complete p = true -> default_podspec p ≃ p)
    by (intros p Hp; rewrite default_podspec_complete by exact Hp; reflexivity).
  split.
  - apply (expected_podspec_survives_defaulting default_podspec _ _ _ Hkept default_podspec_whole).
    vm_compute. reflexivity.
  - intros H. apply (expected_podspec_survives_defaulting default_podspec _ _ _ Hkept default_podspec_whole) in H.
    vm_compute in H. discriminate H.
Defined.

Lemma admission_rate_limits_witness :
  exists c, ps_Containers (expected_podspec example_cfg example_vpa admissionParams) = [c] /\
    flag_values KubeAPIQPSArg (c_Args c) = ["--kube-api-qps=100"].
Proof.
  eexists. split; [reflexivity|].
  refine (eq_trans (admission_rate_limits example_cfg example_vpa KubeAPIQPSArg "25.0" _ _ _ _) _).
  - apply list_elem_of_here.
  - reflexivity.
  - reflexivity.
  - reflexivity.
Defined.

