(* ===== verification/Validity.v ===== *)
(** * What the operator creates is well formed

    Exactly when the objects of the operator pass the checks of Validation.v: the
    operator's own part of them always does; what is left are conditions on the
    configuration, on the name of the custom resource and on the user's node
    selectors. *)

From S2P Require Import Prelude Go GoFmt Objects Api Util Args Resources Controller Kinds Registry.
From S2P Require Import Server Operands Regexp Validation.

(** ** Maps with known keys *)

Lemma gm_entries_of {V} (l : list (string * V)) : NoDup l.*1 -> gm_entries (gm_of l) ≡ₚ l.
Proof. apply map_to_list_to_map. Qed.
Lemma forallb_perm {A} (f : A -> bool) l l' : l ≡ₚ l' -> forallb f l = forallb f l'.
Proof.
  induction 1 as [|x l l' _ IH|x y l|l1 l2 l3 _ IH1 _ IH2]; cbn [forallb];
    [done | by rewrite IH | | by rewrite IH1].
  by rewrite !andb_assoc, (andb_comm (f y)).
Qed.
Lemma annotations_size_of l :
  NoDup l.*1 -> annotations_size (gm_of l) = foldr (fun kv total => len kv.1 + len kv.2 + total) 0 l.
Proof.
  intros Hl. unfold annotations_size. apply gm_entries_of in Hl.
  induction Hl as [|x l l' _ IH|x y l|l1 l2 l3 _ IH1 _ IH2]; cbn [foldr]; lia.
Qed.
Lemma ValidateLabels_of l :
  NoDup l.*1 -> ValidateLabels (gm_of l) = forallb (fun kv => IsLabelKey kv.1 && IsLabelValue kv.2) l.
Proof. intros Hl. by apply forallb_perm, gm_entries_of. Qed.
Lemma ValidateAnnotations_of l :
  NoDup l.*1 ->
  ValidateAnnotations (gm_of l) =
  forallb (fun kv => IsLabelKey (ToLower kv.1)) l &&
  (foldr (fun kv total => len kv.1 + len kv.2 + total) 0 l <=? TotalAnnotationSizeLimitB).
Proof.
  intros Hl. unfold ValidateAnnotations. rewrite annotations_size_of by done.
  by rewrite (forallb_perm _ _ _ (gm_entries_of l Hl)).
Qed.
(** Distinct keys, by computation. *)
Ltac distinct_keys := repeat constructor; set_solver.

(** ** Names *)

(** Inside a subdomain: after an alphanumeric character, and after a hyphen. *)
Definition subdomain_rest : regexp := deriv "a" dns1123SubdomainFmt.
Definition subdomain_hyphen : regexp := deriv "-" subdomain_rest.
Definition label_rest : regexp := deriv "a" labelValueFmt.
Definition label_more : regexp := deriv "-" label_rest.

(** Characters by what they are in names. *)
Inductive sort := Alphanumeric | Hyphen | Dot | Underscore | UpperCase | Other.
Definition sort_of (c : Ascii.ascii) : sort :=
  if in_class [lower; digit] c then Alphanumeric
  else if in_class [one "-"] c then Hyphen
  else if in_class [one "."] c then Dot
  else if in_class [one "_"] c then Underscore
  else if in_class [upper] c then UpperCase else Other.
Definition dead : regexp := Nothing.
Lemma after_dead s : MatchString dead s = false.
Proof. by induction s. Qed.

(** One step of each match, by the sort of the next character. *)
Section Steps.
Context (c : Ascii.ascii) (s : string).
Ltac by_computation := cbn [MatchString]; f_equal; by destruct c as [[] [] [] [] [] [] [] []].
Lemma step_subdomain :
  MatchString dns1123SubdomainFmt (String c s) =
  MatchString (match sort_of c with Alphanumeric => subdomain_rest | _ => dead end) s.
Proof. by_computation. Qed.
Lemma step_subdomain_rest :
  MatchString subdomain_rest (String c s) =
  MatchString (match sort_of c with
               | Alphanumeric => subdomain_rest
               | Hyphen => subdomain_hyphen
               | Dot => dns1123SubdomainFmt
               | _ => dead
               end) s.
Proof. by_computation. Qed.
Lemma step_subdomain_hyphen :
  MatchString subdomain_hyphen (String c s) =
  MatchString (match sort_of c with
               | Alphanumeric => subdomain_rest
               | Hyphen => subdomain_hyphen
               | _ => dead
               end) s.
Proof. by_computation. Qed.
Lemma step_label :
  MatchString labelValueFmt (String c s) =
  MatchString (match sort_of c with Alphanumeric | UpperCase => label_rest | _ => dead end) s.
Proof. by_computation. Qed.
Lemma step_label_rest r :
  r ∈ [label_rest; label_more] ->
  MatchString r (String c s) =
  MatchString (match sort_of c with
               | Alphanumeric | UpperCase => label_rest
               | Other => dead
               | _ => label_more
               end) s.
Proof. rewrite !elem_of_cons, elem_of_nil. intros [->|[->|[]]]; by_computation. Qed.
End Steps.
Ltac match_step c :=
  rewrite ?step_subdomain, ?step_subdomain_rest, ?step_subdomain_hyphen, ?step_label,
    ?(step_label_rest c _ label_rest), ?(step_label_rest c _ label_more) by set_solver;
  destruct (sort_of c); rewrite ?after_dead.

Lemma subdomain_is_label s :
  (MatchString dns1123SubdomainFmt s = true -> MatchString label_more s = true) /\
  (MatchString subdomain_rest s = true -> MatchString label_rest s = true) /\
  (MatchString subdomain_hyphen s = true -> MatchString label_more s = true).
Proof.
  induction s as [|c s (IH0 & IH1 & IH2)]; [done|]. match_step c; naive_solver.
Qed.

(** A subdomain is what may follow a hyphen in one and is a label's value. *)
Lemma subdomain_after_hyphen s :
  MatchString subdomain_hyphen s && MatchString labelValueFmt s = MatchString dns1123SubdomainFmt s.
Proof.
  destruct s as [|c s]; [done|]. pose proof (subdomain_is_label s) as (_ & H & _).
  match_step c; try done; rewrite ?andb_false_r; try done.
  destruct (MatchString subdomain_rest s); [by rewrite H|done].
Qed.

Lemma len_app s1 s2 : len (s1 +:+ s2) = len s1 + len s2.
Proof.
  unfold len. induction s1 as [|c s1 IH]; [done|].
  change (String.length (String c s1 +:+ s2)) with (S (String.length (s1 +:+ s2))).
  cbn [String.length]. lia.
Qed.

(** The names of the operands' deployments, and the label with the custom
    resource's name: together they ask for a subdomain of at most 63 characters. *)
Definition valid_name (name : string) : bool :=
  (len name <=? 63) && MatchString dns1123SubdomainFmt name.
Definition name_prefix (o : Operand) : string :=
  match o with
  | Recommender => "vpa-recommender-"
  | Updater => "vpa-updater-"
  | Admission => "vpa-admission-plugin-"
  end.
Lemma operand_name cfg vpa o :
  NameMethod (operand_params o) cfg vpa = mkNN (cfg_Namespace cfg) (name_prefix o +:+ om_Name (vpa_meta vpa)).
Proof. by destruct o. Qed.
Lemma valid_names o name :
  IsDNS1123Subdomain (name_prefix o +:+ name) && IsLabelValue name = valid_name name.
Proof.
  unfold IsDNS1123Subdomain, IsLabelValue, valid_name. rewrite <- (subdomain_after_hyphen name), len_app.
  assert (Hm : MatchString dns1123SubdomainFmt (name_prefix o +:+ name) = MatchString subdomain_hyphen name).
  { rewrite MatchString_app. by destruct o. }
  rewrite Hm. assert (len (name_prefix o) <= 21) by by destruct o.
  destruct (len name <=? 63) eqn:Hn; [|by rewrite andb_false_r].
  rewrite (proj2 (Z.leb_le _ _)) by lia. by cbn [andb].
Qed.

(** ** Metadata *)

(** An object as it is created: with the custom resource as its controller. *)
Definition owned (k : kind) (vpa : VerticalPodAutoscalerController) : obj k -> obj k :=
  with_meta k (SetOwnerReferences [controller_ref vpa (kind_gvk KVerticalPodAutoscalerController)]).
Definition identified (vpa : VerticalPodAutoscalerController) : bool :=
  negb (empty (om_Name (vpa_meta vpa))) && negb (empty (om_UID (vpa_meta vpa))).

Lemma owner_valid vpa :
  ValidateOwnerReferences [controller_ref vpa (kind_gvk KVerticalPodAutoscalerController)] = identified vpa.
Proof.
  unfold identified, ValidateOwnerReferences, validateOwnerReference, controller_ref.
  cbn [forallb or_Name or_UID or_Kind or_APIVersion].
  generalize (empty (om_Name (vpa_meta vpa))) (empty (om_UID (vpa_meta vpa))).
  intros [] []; vm_compute; reflexivity.
Qed.

Lemma meta_valid nameFn name ns annotations vpa :
  name <> "" ->
  ValidateObjectMeta nameFn
    (SetOwnerReferences [controller_ref vpa (kind_gvk KVerticalPodAutoscalerController)]
       (SetAnnotations annotations (named_meta name ns))) =
  nameFn name && IsDNS1123Label ns && ValidateAnnotations annotations && identified vpa.
Proof.
  intros Hn. unfold ValidateObjectMeta. cbn [om_Name om_Namespace om_Generation om_Labels
    om_Annotations om_OwnerReferences SetOwnerReferences SetAnnotations named_meta].
  rewrite owner_valid. change (ValidateLabels nilmap) with true.
  unfold empty. rewrite (bool_decide_false (name = "")) by done. cbn [negb andb Z.leb Z.compare].
  destruct (decide (ns = "")) as [->|Hns]; [by rewrite !andb_false_r|].
  rewrite bool_decide_false by done. by rewrite !andb_true_r.
Qed.

(** What a release version adds to the annotations that are there without it. *)
Definition release_fits (others : list (string * string)) (cfg : Config) : bool :=
  len (cfg_ReleaseVersion cfg) +
    foldr (fun kv total => len kv.1 + len kv.2 + total) (len ReleaseVersionAnnotation) others
  <=? TotalAnnotationSizeLimitB.
Lemma release_annotations_valid l cfg :
  NoDup (l.*1 ++ [ReleaseVersionAnnotation]) ->
  forallb (fun kv => IsLabelKey (ToLower kv.1)) l = true ->
  ValidateAnnotations (gm_of (l ++ [(ReleaseVersionAnnotation, cfg_ReleaseVersion cfg)])) = release_fits l cfg.
Proof.
  intros Hl Hk. rewrite ValidateAnnotations_of by by rewrite fmap_app.
  rewrite forallb_app, Hk. change (forallb _ [_]) with true. cbn [andb]. unfold release_fits.
  f_equal. rewrite foldr_app. cbn [foldr fst snd]. clear.
  induction l as [|kv l IH]; cbn [foldr]; lia.
Qed.

(** ** Node selectors *)

Lemma overridden_selector_valid sel cfg :
  ValidateLabels (overridden_selector sel (getDefaultNodeSelector cfg)) = ValidateLabels sel.
Proof.
  unfold overridden_selector. destruct (Nat.eqb_spec (gm_len sel) 0) as [Hl|_]; [|done].
  unfold ValidateLabels at 2, gm_entries. unfold gm_len in Hl. apply map_size_empty_inv in Hl.
  rewrite Hl. unfold getDefaultNodeSelector. by destruct (cfg_IsExternalControlPlane cfg); vm_compute.
Qed.
Lemma expected_selector_valid cfg vpa o :
  ValidateLabels (ps_NodeSelector (expected_podspec cfg vpa (operand_params o))) =
  ValidateLabels (do_NodeSelector (operand_override vpa o)).
Proof. rewrite expected_podspec_operand. apply overridden_selector_valid. Qed.

(** ** The objects *)

Lemma ValidateLabelSelector_match labels : ValidateLabelSelector (match_labels labels) = ValidateLabels labels.
Proof. unfold ValidateLabelSelector. cbn [ls_others match_labels]. by rewrite bool_decide_true, andb_true_r. Qed.

Lemma operand_labels_valid vpa o :
  ValidateLabels (operand_labels vpa o) = IsLabelValue (om_Name (vpa_meta vpa)).
Proof.
  unfold operand_labels. rewrite ValidateLabels_of by distinct_keys. cbn [forallb fst snd].
  generalize (IsLabelValue (om_Name (vpa_meta vpa))). intros []; destruct o; vm_compute; reflexivity.
Qed.

Lemma deployment_valid cfg vpa o :
  well_formed_deployment (owned KDeployment vpa (operand_deployment cfg vpa o)) =
  valid_name (om_Name (vpa_meta vpa)) && IsDNS1123Label (cfg_Namespace cfg) && release_fits [] cfg &&
  identified vpa && ValidateLabels (do_NodeSelector (operand_override vpa o)).
Proof.
  unfold well_formed_deployment, operand_deployment, AutoscalerDeployment. rewrite operand_name.
  unfold owned. cbn [with_meta dep_meta dep_Spec ds_Replicas ds_Selector ds_Template pt_meta pt_Spec
    nn_Name nn_Namespace].
  rewrite meta_valid by by destruct o.
  change (gm_of [(ReleaseVersionAnnotation, cfg_ReleaseVersion cfg)])
    with (gm_of ([] ++ [(ReleaseVersionAnnotation, cfg_ReleaseVersion cfg)])).
  rewrite expected_selector_valid. fold (operand_labels vpa o).
  cbn [om_Labels om_Annotations SetLabels SetAnnotations unset_or].
  rewrite release_annotations_valid by (done || distinct_keys).
  rewrite ValidateLabelSelector_match, operand_labels_valid, <- (valid_names o).
  unfold NameIsDNSSubdomain.
  destruct (IsDNS1123Subdomain _), (IsLabelValue _), (IsDNS1123Label _), (release_fits _ _),
    (identified _), (ValidateLabels _); reflexivity.
Qed.

Lemma service_valid cfg vpa :
  well_formed_service (owned KService vpa (WebhookService cfg vpa)) =
  IsDNS1123Label (cfg_Namespace cfg) &&
  release_fits [(webhookCertAnnotationName, WebhookCertSecretName)] cfg && identified vpa.
Proof.
  unfold well_formed_service, owned, WebhookService. cbn [with_meta svc_meta svc_Spec].
  change (UpdateServiceAnnotations cfg (named_meta WebhookServiceName (cfg_Namespace cfg))) with
    (SetAnnotations (gm_of ([(webhookCertAnnotationName, WebhookCertSecretName)] ++
                            [(ReleaseVersionAnnotation, cfg_ReleaseVersion cfg)]))
       (named_meta WebhookServiceName (cfg_Namespace cfg))).
  rewrite meta_valid, release_annotations_valid by (done || distinct_keys).
  cbn [ss_Selector].
  destruct (IsDNS1123Label (cfg_Namespace cfg)), (release_fits _ _), (identified _); vm_compute; reflexivity.
Qed.

Lemma configmap_valid cfg vpa :
  well_formed_configmap (owned KConfigMap vpa (CAConfigMap cfg vpa)) =
  IsDNS1123Label (cfg_Namespace cfg) &&
  release_fits [(cACertAnnotationName, "true")] cfg && identified vpa.
Proof.
  unfold well_formed_configmap, owned, CAConfigMap. cbn [with_meta cm_meta].
  change (UpdateConfigMapAnnotations cfg (named_meta CACertConfigMapName (cfg_Namespace cfg))) with
    (SetAnnotations (gm_of ([(cACertAnnotationName, "true")] ++
                            [(ReleaseVersionAnnotation, cfg_ReleaseVersion cfg)]))
       (named_meta CACertConfigMapName (cfg_Namespace cfg))).
  rewrite meta_valid, release_annotations_valid by (done || distinct_keys). done.
Qed.

Lemma policies_valid cfg vpa :
  forallb (fun n => well_formed_policy (owned KNetworkPolicy vpa n)) (NetworkPolicies cfg vpa) =
  IsDNS1123Label (cfg_Namespace cfg) && identified vpa && IsLabelValue (om_Name (vpa_meta vpa)).
Proof.
  unfold_policies. unfold vpa_pods, well_formed_policy, owned.
  cbn [forallb with_meta np_meta np_Spec nps_PodSelector nps_Ingress nps_Egress].
  change (named_meta ?n ?ns) with (SetAnnotations nilmap (named_meta n ns)).
  rewrite !meta_valid by done. rewrite !ValidateLabelSelector_match, !ValidateLabels_of by distinct_keys.
  cbn [forallb fst snd].
  destruct (IsDNS1123Label (cfg_Namespace cfg)), (identified vpa), (IsLabelValue (om_Name (vpa_meta vpa)));
    vm_compute; reflexivity.
Qed.

(** All that the operator creates for a custom resource. *)
Definition objects_well_formed (cfg : Config) (vpa : VerticalPodAutoscalerController) : bool :=
  forallb (fun params => well_formed_deployment (owned KDeployment vpa (AutoscalerDeployment cfg vpa params)))
    controllerParams &&
  well_formed_service (owned KService vpa (WebhookService cfg vpa)) &&
  well_formed_configmap (owned KConfigMap vpa (CAConfigMap cfg vpa)) &&
  forallb (fun n => well_formed_policy (owned KNetworkPolicy vpa n)) (NetworkPolicies cfg vpa).
(** The room that the other annotations of the service leave for the version. *)
Definition release_limit : Z :=
  TotalAnnotationSizeLimitB -
  (len ReleaseVersionAnnotation + len webhookCertAnnotationName + len WebhookCertSecretName).
Definition admissible (cfg : Config) (vpa : VerticalPodAutoscalerController) : bool :=
  IsDNS1123Label (cfg_Namespace cfg) && (len (cfg_ReleaseVersion cfg) <=? release_limit) &&
  valid_name (om_Name (vpa_meta vpa)) && negb (empty (om_UID (vpa_meta vpa))) &&
  forallb (fun o => ValidateLabels (do_NodeSelector (operand_override vpa o))) [Recommender; Updater; Admission].

Lemma release_fits_all cfg :
  release_fits [] cfg && release_fits [(webhookCertAnnotationName, WebhookCertSecretName)] cfg &&
  release_fits [(cACertAnnotationName, "true")] cfg = (len (cfg_ReleaseVersion cfg) <=? release_limit).
Proof.
  unfold release_fits, release_limit. cbn [foldr fst snd].
  assert (len "true" + len cACertAnnotationName <= len webhookCertAnnotationName + len WebhookCertSecretName)
    by by vm_compute.
  assert (0 <= len webhookCertAnnotationName /\ 0 <= len WebhookCertSecretName) by by vm_compute.
  lia.
Qed.

(** All of it is well formed exactly when the settings and the custom resource are
    admissible. *)
Lemma objects_valid cfg vpa : objects_well_formed cfg vpa = admissible cfg vpa.
Proof.
  unfold objects_well_formed, admissible.
  rewrite controllerParams_operands, service_valid, configmap_valid, policies_valid, <- release_fits_all.
  cbn [map forallb]. fold (operand_deployment cfg vpa Recommender) (operand_deployment cfg vpa Updater)
    (operand_deployment cfg vpa Admission).
  rewrite !deployment_valid, <- (valid_names Recommender). unfold identified.
  assert (Hn : IsLabelValue (om_Name (vpa_meta vpa)) && empty (om_Name (vpa_meta vpa)) = true ->
               IsDNS1123Subdomain (name_prefix Recommender +:+ om_Name (vpa_meta vpa)) = false).
  { intros [_ Hv%bool_decide_eq_true]%andb_true_iff. rewrite Hv. reflexivity. }
  destruct (IsLabelValue _), (empty (om_Name _)), (IsDNS1123Subdomain _); cbn [andb negb] in *;
    rewrite ?andb_true_r, ?andb_false_r; try (specialize (Hn eq_refl)); try done.
  destruct (IsDNS1123Label _), (release_fits [] cfg), (release_fits [_] cfg), (release_fits [_] cfg),
    (empty (om_UID _)), (ValidateLabels _), (ValidateLabels _), (ValidateLabels _);
    reflexivity.
Qed.

(** The default custom resource's neighbours: one character too many in its name. *)
Definition example_named (name : string) : VerticalPodAutoscalerController :=
  mkVPA (vpa_type example_vpa)
    (mkObjectMeta name "openshift-vertical-pod-autoscaler" "uid-vpa" "1" 1 nilmap nilmap [] no_others)
    (vpa_Spec example_vpa).
Example name_bound :
  let name n := String.string_of_list_ascii (replicate n "a"%char) in
  map (fun n => objects_well_formed example_cfg (example_named (name n))) [0; 1; 63; 64]%nat =
  [false; true; true; false].
Proof. vm_compute. reflexivity. Qed.
