(* ===== verification/FloatText.v ===== *)
(** * Floats on the command line, read back

    A reader of decimal floating-point text, as [strconv.ParseFloat] reads it,
    and the proof that it reads what [%v] prints of a [float64] as a decimal that
    rounds to that float.  With it the recommender's three float flags reach the
    process unchanged. *)

From S2P Require Import Prelude Go GoFmt Objects Api Util Args Resources Controller Server Operands.
From Stdlib Require Import DecimalString DecimalN.

(** ** Reading decimals *)

Definition digit_of (c : Ascii.ascii) : option Z :=
  let n := Z.of_nat (nat_of_ascii c) - 48 in
  if (0 <=? n) && (n <=? 9) then Some n else None.

(** The digits in front, with their value after [acc], and the rest. *)
Fixpoint read_digits (l : list Ascii.ascii) (acc : Z) : Z * list Ascii.ascii :=
  match l with
  | c :: rest =>
      match digit_of c with
      | Some d => read_digits rest (10 * acc + d)
      | None => (acc, l)
      end
  | [] => (acc, [])
  end.

(** The exponent, if any: ["e"], a sign and digits up to the end. *)
Definition read_exponent (l : list Ascii.ascii) : option Z :=
  match l with
  | [] => Some 0
  | "e"%char :: "+"%char :: ex =>
      match read_digits ex 0 with (v, []) => Some v | _ => None end
  | "e"%char :: "-"%char :: ex =>
      match read_digits ex 0 with (v, []) => Some (- v) | _ => None end
  | _ => None
  end.
(** A mantissa with an optional point, and an exponent: [x * 10 ^ k]. *)
Definition read_unsigned (l : list Ascii.ascii) : option (Z * Z) :=
  match head l ≫= digit_of with
  | None => None
  | Some _ =>
      let '(x, rest) := read_digits l 0 in
      let '(x, k, rest) :=
        match rest with
        | "."%char :: frac =>
            let '(x, rest) := read_digits frac x in
            (x, Z.of_nat (length rest) - Z.of_nat (length frac), rest)
        | _ => (x, 0, rest)
        end in
      ex ← read_exponent rest; Some (x, k + ex)
  end.
(** The sign, the digits and the exponent of a decimal. *)
Definition read_decimal (s : string) : option (bool * Z * Z) :=
  match String.list_ascii_of_string s with
  | "-"%char :: l => '(x, k) ← read_unsigned l; Some (true, x, k)
  | l => '(x, k) ← read_unsigned l; Some (false, x, k)
  end.

(** A text denotes the float: a decimal of its sign that rounds to it. *)
Definition denotes (v : string) (f : float64) : Prop :=
  match f with
  | S754_finite s m e => exists x k, read_decimal v = Some (s, x, k) /\ rounds_back m e x k = true
  | S754_zero s => read_decimal v = Some (s, 0, 0)
  | S754_infinity s => v = if s then "-Inf" else "+Inf"
  | S754_nan => v = "NaN"
  end.

Example denotes_margin : fmt_float64 (S754_finite false 5404319552844595 (-55)) = "0.15".
Proof. vm_compute. reflexivity. Qed.
Example reads_margin : read_decimal "0.15" = Some (false, 15, -2).
Proof. reflexivity. Qed.
Example reads_exponent : read_decimal "-1.5e+06" = Some (true, 15, 5).
Proof. reflexivity. Qed.

(** ** Digits *)

Definition all_digits (l : list Ascii.ascii) : Prop := Forall (fun c => is_Some (digit_of c)) l.
Definition value_of (l : list Ascii.ascii) (acc : Z) : Z := (read_digits l acc).1.

Lemma read_digits_app l rest acc :
  all_digits l -> read_digits (l ++ rest) acc = read_digits rest (value_of l acc).
Proof.
  intros Hl. revert acc; induction Hl as [|c l [d Hd] _ IH]; intros acc; [done|].
  unfold value_of. cbn [app read_digits]. rewrite Hd. by rewrite IH.
Qed.
Lemma read_digits_all l acc : all_digits l -> read_digits l acc = (value_of l acc, []).
Proof. intros Hl. rewrite <- (app_nil_r l) at 1. by rewrite read_digits_app. Qed.
Lemma value_app l l' acc : all_digits l -> value_of (l ++ l') acc = value_of l' (value_of l acc).
Proof. intros Hl. unfold value_of at 1. by rewrite read_digits_app. Qed.
Lemma value_zeros n acc : value_of (replicate n "0"%char) acc = acc * 10 ^ Z.of_nat n.
Proof.
  revert acc; induction n as [|n IH]; intros acc; [unfold value_of; simpl; lia|].
  change (value_of (replicate (S n) "0"%char) acc) with (value_of (replicate n "0"%char) (10 * acc + 0)).
  rewrite IH, Nat2Z.inj_succ, Z.pow_succ_r by lia. lia.
Qed.
Lemma zeros_digits n : all_digits (zeros n).
Proof. apply Forall_replicate. by eexists. Qed.
Lemma zeros_app_digits l n : all_digits l -> all_digits (l ++ zeros n).
Proof. intros Hl. apply Forall_app. split; [done | apply zeros_digits]. Qed.

(** The digits of a number, from the printer of the Standard Library. *)
Lemma uint_digits d : all_digits (String.list_ascii_of_string (NilEmpty.string_of_uint d)).
Proof. unfold all_digits. induction d; simpl; constructor; try done; by eexists. Qed.
Lemma value_step c k l acc : digit_of c = Some k -> value_of (c :: l) acc = value_of l (10 * acc + k).
Proof. intros Hc. unfold value_of. simpl. by rewrite Hc. Qed.
Ltac take_digit :=
  match goal with
  | |- context [value_of (?c :: ?l) ?acc] =>
      let k := eval vm_compute in (digit_of c) in
      lazymatch k with Some ?d => rewrite (value_step c d l acc eq_refl) end
  end.
Lemma uint_value_acc d p :
  value_of (String.list_ascii_of_string (NilEmpty.string_of_uint d)) (Zpos p) = Zpos (Pos.of_uint_acc d p).
Proof.
  revert p; induction d as [|d IH|d IH|d IH|d IH|d IH|d IH|d IH|d IH|d IH|d IH];
    intros p; [done|..];
    cbn [NilEmpty.string_of_uint String.list_ascii_of_string Pos.of_uint_acc];
    take_digit; rewrite <- IH; f_equal; lia.
Qed.
Lemma uint_value d :
  value_of (String.list_ascii_of_string (NilEmpty.string_of_uint d)) 0 = Z.of_N (N.of_uint d).
Proof.
  induction d as [|d IH|d _|d _|d _|d _|d _|d _|d _|d _|d _]; [done | exact IH |..];
    exact (uint_value_acc d _).
Qed.

(** The text of a natural number. *)
Definition digits_of (x : Z) : list Ascii.ascii := String.list_ascii_of_string (Itoa x).
Lemma Itoa_digits x : 0 <= x ->
  all_digits (digits_of x) /\ value_of (digits_of x) 0 = x /\ digits_of x <> [].
Proof.
  intros Hx. unfold digits_of, Itoa. destruct (Z.ltb_spec x 0); [lia|].
  assert (Hn : NilZero.string_of_uint (N.to_uint (Z.abs_N x)) =
    NilEmpty.string_of_uint (N.to_uint (Z.abs_N x))).
  { pose proof (N_to_uint_nonnil (Z.abs_N x)) as Hn. by destruct (N.to_uint _). }
  rewrite Hn. split; [apply uint_digits|]. split.
  - rewrite uint_value, DecimalN.Unsigned.of_to. lia.
  - pose proof (N_to_uint_nonnil (Z.abs_N x)) as Hd. by destruct (N.to_uint _).
Qed.

Lemma strip_zeros_spec l : exists t, l = replicate t "0"%char ++ strip_zeros l.
Proof.
  induction l as [|c l [t IH]]; [by exists O|].
  destruct (decide (c = "0"%char)) as [->|Hc].
  - exists (S t). simpl. by rewrite <- IH.
  - exists O. destruct c as [[] [] [] [] [] [] [] []]; try done.
Qed.
Lemma rev_replicate {A} n (x : A) : rev (replicate n x) = replicate n x.
Proof. induction n as [|n IH]; [done|]. simpl. by rewrite IH, <- replicate_cons_app. Qed.
(** The digits of a decimal without its trailing zeros. *)
Lemma decimal_digits_spec x k d dp :
  0 < x -> decimal_digits x k = (d, dp) ->
  all_digits d /\ d <> [] /\ exists t, 0 <= t /\ x = value_of d 0 * 10 ^ t /\
    dp - Z.of_nat (length d) = k + t.
Proof.
  intros Hx. unfold decimal_digits. fold (digits_of x). intros [= <- <-].
  destruct (Itoa_digits x ltac:(lia)) as (Hd & Hv & _).
  destruct (strip_zeros_spec (rev (digits_of x))) as [t Ht].
  set (d := rev (strip_zeros (rev (digits_of x)))).
  assert (Hds : digits_of x = d ++ replicate t "0"%char).
  { unfold d. rewrite <- (rev_involutive (digits_of x)), Ht at 1.
    by rewrite rev_app_distr, rev_replicate. }
  assert (Hall : all_digits d) by (rewrite Hds in Hd; by apply Forall_app in Hd as [? _]).
  split; [done|]. assert (Hval : x = value_of d 0 * 10 ^ Z.of_nat t).
  { rewrite <- Hv at 1. rewrite Hds, value_app by done. apply value_zeros. }
  split.
  - intros Hnil. rewrite Hnil in Hval. unfold value_of in Hval. simpl in Hval. lia.
  - exists (Z.of_nat t). split; [lia|]. split; [done|].
    rewrite Hds, length_app, length_replicate. lia.
Qed.

(** ** Reading what is printed *)

Lemma head_digits l rest : all_digits l -> l <> [] -> exists d, head (l ++ rest) ≫= digit_of = Some d.
Proof. destruct 1 as [|c l [d Hd] _]; [done|]. intros _. by exists d. Qed.
Lemma read_unsigned_digits l : all_digits l -> l <> [] -> read_unsigned l = Some (value_of l 0, 0).
Proof.
  intros Hl Hn. unfold read_unsigned. rewrite (read_digits_all l 0) by done.
  destruct Hl as [|c l [d Hd] _]; [done|]. simpl. by rewrite Hd.
Qed.
(** Digits, a point, digits, and an exponent. *)
Lemma read_unsigned_point l frac ex v :
  all_digits l -> l <> [] -> all_digits frac -> read_exponent ex = Some v ->
  match ex with [] => True | c :: _ => digit_of c = None end ->
  read_unsigned (l ++ "."%char :: frac ++ ex) =
    Some (value_of (l ++ frac) 0, v - Z.of_nat (length frac)).
Proof.
  intros Hl Hn Hf He Hx. unfold read_unsigned.
  destruct (head_digits l ("."%char :: frac ++ ex) Hl Hn) as [d Hd]. rewrite Hd.
  rewrite read_digits_app by done. cbn [read_digits].
  change (digit_of ".") with (@None Z). cbv iota beta.
  rewrite read_digits_app, value_app by done.
  assert (Hex : forall y, read_digits ex y = (y, ex)).
  { intros y. destruct ex as [|c' ex]; [done|]. simpl. by rewrite Hx. }
  rewrite Hex. cbv iota beta. rewrite He. simpl. f_equal. f_equal.
  rewrite length_app. lia.
Qed.
Lemma read_unsigned_exponent l ex v :
  all_digits l -> l <> [] -> read_exponent ex = Some v ->
  match ex with [] => True | c :: _ => digit_of c = None /\ c <> "."%char end ->
  read_unsigned (l ++ ex) = Some (value_of l 0, v).
Proof.
  intros Hl Hn He Hx. unfold read_unsigned.
  destruct (head_digits l ex Hl Hn) as [d Hd]. rewrite Hd. rewrite read_digits_app by done.
  assert (Hex : forall y, read_digits ex y = (y, ex)).
  { intros y. destruct ex as [|c' ex]; [done|]. simpl. by rewrite (proj1 Hx). }
  rewrite Hex. cbv iota beta.
  assert (Hdot : match ex with
    | "."%char :: frac => let '(x, rest) := read_digits frac (value_of l 0) in
        (x, Z.of_nat (length rest) - Z.of_nat (length frac), rest)
    | _ => (value_of l 0, 0, ex) end = (value_of l 0, 0, ex)).
  { destruct ex as [|c' ex]; [done|]. destruct Hx as [_ Hx].
    destruct c' as [[] [] [] [] [] [] [] []]; done. }
  rewrite Hdot, He. done.
Qed.

Lemma list_ascii_app s1 s2 :
  String.list_ascii_of_string (s1 +:+ s2) =
  String.list_ascii_of_string s1 ++ String.list_ascii_of_string s2.
Proof. induction s1 as [|c s IH]; [done | exact (f_equal (cons c) IH)]. Qed.

(** The reading of a text with the digits [d] and [dp] of them before the point:
    the digits may come with zeros of the exponent. *)
Definition reads_digits (l : list Ascii.ascii) (d : list Ascii.ascii) (dp : Z) : Prop :=
  exists j, 0 <= j /\
    read_unsigned l = Some (value_of d 0 * 10 ^ j, dp - Z.of_nat (length d) - j).

Lemma fmtF_reads d dp :
  all_digits d -> d <> [] -> reads_digits (String.list_ascii_of_string (fmtF d dp)) d dp.
Proof.
  intros Hd Hn. assert (0 < Z.of_nat (length d)) by (destruct d; [done | simpl; lia]).
  unfold fmtF, ascii_string. rewrite String.list_ascii_of_string_of_list_ascii.
  destruct (Z.ltb_spec 0 dp) as [Hpos|Hpos], (Z.ltb_spec dp (Z.of_nat (length d))) as [Hlt|Hlt]; try lia.
  - exists 0. split; [lia|].
    assert (Hz : forall z, z <= 0 -> zeros z = []).
    { intros z Hz. unfold zeros. by replace (Z.to_nat z) with O by lia. }
    rewrite !Hz by lia. rewrite app_nil_r. cbn [app].
    rewrite <- (app_nil_r (drop (Z.to_nat dp) d)).
    rewrite (read_unsigned_point _ _ [] 0); [| by apply Forall_take | | by apply Forall_drop | done | done].
    + rewrite take_drop, length_drop. f_equal. f_equal; lia.
    + intros Ht. apply (f_equal length) in Ht. rewrite length_take in Ht. simpl in Ht.
      destruct d; [done|]. simpl in *. lia.
  - exists (dp - Z.of_nat (length d)). split; [lia|]. rewrite app_nil_r, take_ge by lia.
    rewrite read_unsigned_digits; [|by apply zeros_app_digits | by destruct d].
    rewrite value_app by done. unfold zeros. rewrite value_zeros, Z2Nat.id by lia. f_equal. f_equal. lia.
  - exists 0. split; [lia|]. replace (Z.to_nat dp) with O by lia. rewrite drop_0. cbn [app].
    rewrite <- (app_nil_r (zeros (- dp) ++ d)).
    change ("0"%char :: "."%char :: (zeros (- dp) ++ d) ++ []) with
      (["0"%char] ++ "."%char :: (zeros (- dp) ++ d) ++ []).
    rewrite (read_unsigned_point _ _ [] 0); [| by repeat constructor; eexists | done | | done | done].
    + change (["0"%char] ++ zeros (- dp) ++ d) with (("0"%char :: zeros (- dp)) ++ d).
      rewrite value_app by (constructor; [by eexists | apply zeros_digits]).
      assert (Hz : value_of ("0"%char :: zeros (- dp)) 0 = 0).
      { change (value_of (zeros (- dp)) (10 * 0 + 0) = 0). unfold zeros. rewrite value_zeros. lia. }
      rewrite Hz, length_app. unfold zeros. rewrite length_replicate. f_equal. f_equal; lia.
    + apply Forall_app. split; [apply zeros_digits | done].
Qed.

(** The exponent of [%e]. *)
Definition exponent_text (ex : Z) : string :=
  (if ex <? 0 then "-" else "+") +:+ (if Z.abs ex <? 10 then "0" else "") +:+ Itoa (Z.abs ex).
Lemma exponent_reads ex :
  read_exponent ("e"%char :: String.list_ascii_of_string (exponent_text ex)) = Some ex.
Proof.
  destruct (Itoa_digits (Z.abs ex) ltac:(lia)) as (Hd & Hv & _). unfold digits_of in *.
  unfold exponent_text. rewrite !list_ascii_app.
  assert (Hr : read_digits (String.list_ascii_of_string (if Z.abs ex <? 10 then "0" else "") ++
    String.list_ascii_of_string (Itoa (Z.abs ex))) 0 = (Z.abs ex, [])).
  { destruct (Z.abs ex <? 10); cbn [String.list_ascii_of_string app];
      [|by rewrite read_digits_all, Hv].
    change (read_digits (String.list_ascii_of_string (Itoa (Z.abs ex))) 0 = (Z.abs ex, [])).
    by rewrite read_digits_all, Hv. }
  destruct (Z.ltb_spec ex 0); cbn [String.list_ascii_of_string app read_exponent]; rewrite Hr; f_equal; lia.
Qed.
Lemma fmtE_reads d dp :
  all_digits d -> d <> [] -> reads_digits (String.list_ascii_of_string (fmtE d dp)) d dp.
Proof.
  intros Hd Hn. destruct d as [|c frac]; [done|]. unfold fmtE. fold (exponent_text (dp - 1)).
  rewrite list_ascii_app. unfold ascii_string. rewrite String.list_ascii_of_string_of_list_ascii.
  cbn [tail take]. change (take 0 frac) with (@nil Ascii.ascii).
  rewrite (list_ascii_app "e"). cbn [String.list_ascii_of_string app].
  pose proof (exponent_reads (dp - 1)) as Hex. pose proof Hd as [Hc Hf]%Forall_cons.
  exists 0. split; [lia|]. destruct frac as [|c' frac].
  - refine (eq_trans (read_unsigned_exponent [c] _ (dp - 1) _ _ Hex _) _);
      [by constructor | done | done |].
    f_equal. f_equal; simpl; lia.
  - refine (eq_trans (read_unsigned_point [c] (c' :: frac) _ (dp - 1) _ _ _ Hex _) _);
      [by constructor | done | done | done |].
    change ([c] ++ c' :: frac) with (c :: c' :: frac). f_equal. f_equal; [lia|]. cbn [length]. lia.
Qed.

(** ** The float *)

(** Zeros of the digits against the exponent. *)
Lemma rounds_back_shift m e x k j :
  0 <= j -> rounds_back m e (x * 10 ^ j) (k - j) = rounds_back m e x k.
Proof.
  intros Hj. pose proof (scale_shift e (k - j) j Hj) as Hs. replace (k - j + j) with k in Hs by lia.
  pose proof (scale2_pos e k) as Hp. pose proof (scale2_pos e (k - j)) as Hq.
  pose proof (scale10_pos e k). pose proof (scale10_pos e (k - j)).
  assert (Heq : x * 10 ^ j * scale10 e (k - j) * scale2 e k = x * scale10 e k * scale2 e (k - j)).
  { rewrite <- (Z.mul_assoc x (scale10 e k)), Hs. ring. }
  assert (Hle : forall y, (y * scale2 e (k - j) <= x * 10 ^ j * scale10 e (k - j)) <->
    y * scale2 e k <= x * scale10 e k).
  { intros y. rewrite (Z.mul_le_mono_pos_r _ _ (scale2 e k)) by done.
    rewrite (Z.mul_le_mono_pos_r (y * scale2 e k) _ (scale2 e (k - j))) by done. rewrite Heq.
    replace (y * scale2 e (k - j) * scale2 e k) with (y * scale2 e k * scale2 e (k - j)) by lia. done. }
  assert (Hge : forall y, (x * 10 ^ j * scale10 e (k - j) <= y * scale2 e (k - j)) <->
    x * scale10 e k <= y * scale2 e k).
  { intros y. rewrite (Z.mul_le_mono_pos_r _ _ (scale2 e k)) by done.
    rewrite (Z.mul_le_mono_pos_r (x * scale10 e k) _ (scale2 e (k - j))) by done. rewrite Heq.
    replace (y * scale2 e (k - j) * scale2 e k) with (y * scale2 e k * scale2 e (k - j)) by lia. done. }
  unfold rounds_back. apply eq_true_iff_eq.
  destruct (fl_inclusive m); rewrite !andb_true_iff, ?Z.leb_le, ?Z.ltb_lt, ?Z.lt_nge, ?Hle, ?Hge; done.
Qed.

(** A finite binary64 value: canonical significand and exponent. *)
Definition binary64 (f : float64) : Prop :=
  match f with
  | S754_finite _ m e => Zpos m < 2 ^ 53 /\ -1074 <= e <= 971
  | _ => True
  end.

Lemma read_decimal_unsigned l x k : read_unsigned l = Some (x, k) ->
  read_decimal (ascii_string l) = Some (false, x, k) /\
  read_decimal ("-" +:+ ascii_string l) = Some (true, x, k).
Proof.
  intros Hl. unfold read_decimal. rewrite list_ascii_app. unfold ascii_string.
  rewrite String.list_ascii_of_string_of_list_ascii. cbn [String.list_ascii_of_string app].
  rewrite Hl. split; [|done]. destruct l as [|c l]; [done|].
  assert (Hc : c <> "-"%char) by (intros ->; discriminate Hl).
  destruct c as [[] [] [] [] [] [] [] []]; first [by rewrite Hl | by destruct Hc].
Qed.

Lemma rounds_back_positive m e x k : rounds_back m e x k = true -> 0 < x.
Proof.
  unfold rounds_back. pose proof (scale2_pos e k). pose proof (scale10_pos e k).
  assert (0 < fl_lo m e) by (unfold fl_lo; destruct (_ && _); lia).
  destruct (fl_inclusive m); rewrite andb_true_iff, ?Z.leb_le, ?Z.ltb_lt; nia.
Qed.

(** [%v] prints every float so that it reads back. *)
Lemma fmt_float64_denotes f : binary64 f -> denotes (fmt_float64 f) f.
Proof.
  destruct f as [s|s| |s m e]; [by destruct s | by destruct s | done |]. intros [Hm He].
  unfold fmt_float64. destruct (shortest_decimal m e) as [x k] eqn:Hs.
  destruct (shortest_decimal_correct m e Hm He x k Hs) as (Hr & _).
  destruct (decimal_digits x k) as [d dp] eqn:Hd.
  destruct (decimal_digits_spec x k d dp (rounds_back_positive _ _ _ _ Hr) Hd)
    as (Hall & Hn & t & Ht & Hx & Hdp).
  set (text := if (dp - 1 <? -4) || (6 <=? dp - 1) then fmtE d dp else fmtF d dp).
  assert (Htext : reads_digits (String.list_ascii_of_string text) d dp).
  { unfold text. destruct (_ || _); [by apply fmtE_reads | by apply fmtF_reads]. }
  destruct Htext as (j & Hj & Hread). destruct (read_decimal_unsigned _ _ _ Hread) as [Hpos Hneg].
  unfold ascii_string in Hpos, Hneg. rewrite String.string_of_list_ascii_of_string in Hpos, Hneg.
  exists (value_of d 0 * 10 ^ j), (dp - Z.of_nat (length d) - j). split; [by destruct s|].
  rewrite rounds_back_shift, Hdp by done. rewrite <- Hr, Hx.
  rewrite <- (rounds_back_shift m e (value_of d 0) (k + t) t) by done. f_equal. lia.
Qed.

(** ** The recommender's flags *)

(** The flag is given once, with a decimal that reads back as [f]. *)
Definition float_flag (name : string) (args : list string) (f : float64) : Prop :=
  exists v, flag_values name args = [name +:+ "=" +:+ v] /\ denotes v f.

(** The float flags of the recommender and the fields they are for. *)
Definition float_fields : list (string * (VerticalPodAutoscalerControllerSpec -> option float64)) :=
  [(SafetyMarginFractionArg, vs_SafetyMarginFraction);
   (PodMinCPUMillicoresArg, vs_PodMinCPUMillicores);
   (PodMinMemoryMbArg, vs_PodMinMemoryMb)].

Lemma flag_values_field vpa cfg name (field : VerticalPodAutoscalerControllerSpec -> option float64) :
  (name, field) ∈ float_fields ->
  flag_values name (RecommenderArgs vpa cfg) =
  match field (vpa_Spec vpa) with
  | Some f => [name +:+ "=" +:+ fmt_float64 f]
  | None => []
  end.
Proof.
  intros H. apply list_elem_of_In in H.
  assert (Hone : forall f l l', flag_values name l = [] -> flag_values name l' = [] ->
    flag_values name (l ++ [Value name (VFloat f)] ++ l') = [name +:+ "=" +:+ fmt_float64 f]).
  { intros f l l' Hl Hl'. rewrite !flag_values_app, Hl, Hl'. rewrite app_nil_r.
    exact (flag_values_one _ _). }
  unfold RecommenderArgs, append_if_set.
  destruct H as [[= <- <-]|[[= <- <-]|[[= <- <-]|[]]]];
    destruct (vs_SafetyMarginFraction _), (vs_PodMinCPUMillicores _), (vs_PodMinMemoryMb _);
    try reflexivity; rewrite <- ?app_assoc.
  all: first [by apply (Hone _ _ []) | by apply Hone | cbn [app]; by apply (Hone _ [_; _] [_])
             | cbn [app]; by apply (Hone _ [_; _] [_; _]) | by apply (Hone _ [_; _; _] [_])
             | by apply (Hone _ [_; _; _] []) | by apply (Hone _ [_; _; _; _] [])].
Qed.

(** C38 Numbers arrive as they are.  The verbosity of every operand, the updater's
    minimum of replicas and the recommender's three floats reach the command lines
    once each: the 64-bit integers as decimals that read back as the same integers,
    the floats as decimals that read back as the same 64-bit floats (sign, zero,
    infinities and not-a-number included).  What is not set is not passed. *)
Theorem number_flags_read_back cfg vpa :
  in_range 64 (cfg_Verbosity cfg) ->
  (forall n, vs_MinReplicas (vpa_Spec vpa) = Some n -> in_range 64 n) ->
  (forall name field f, (name, field) ∈ float_fields -> field (vpa_Spec vpa) = Some f -> binary64 f) ->
  (forall o, integer_flag VerbosityArg (GetArgs (operand (operand_params o)) vpa cfg) (cfg_Verbosity cfg)) /\
  match vs_MinReplicas (vpa_Spec vpa) with
  | Some n => integer_flag MinReplicasArg (GetArgs (operand updaterParams) vpa cfg) n
  | None => flag_values MinReplicasArg (GetArgs (operand updaterParams) vpa cfg) = []
  end /\
  forall name field, (name, field) ∈ float_fields ->
    match field (vpa_Spec vpa) with
    | Some f => float_flag name (GetArgs (operand recommenderParams) vpa cfg) f
    | None => flag_values name (GetArgs (operand recommenderParams) vpa cfg) = []
    end.
Proof.
  intros Hv Hm Hf. split; [intros o; by apply integer_flags_read_back|].
  split; [by apply (integer_flags_read_back cfg vpa Updater)|]. intros name field Hn.
  pose proof (flag_values_field vpa cfg name field Hn) as Hval. specialize (Hf name field).
  destruct (field (vpa_Spec vpa)) as [f|]; [|exact Hval].
  exists (fmt_float64 f). split; [exact Hval | by apply fmt_float64_denotes, Hf].
Qed.

Lemma number_flags_read_back_witness :
  integer_flag VerbosityArg (GetArgs (operand recommenderParams) example_vpa example_cfg) 1 /\
  integer_flag MinReplicasArg (GetArgs (operand updaterParams) example_vpa example_cfg) 3 /\
  float_flag SafetyMarginFractionArg (GetArgs (operand recommenderParams) example_vpa example_cfg)
    DefaultSafetyMarginFraction /\
  flag_values PodMinMemoryMbArg (GetArgs (operand recommenderParams) example_vpa example_cfg) = [].
Proof.
  destruct (number_flags_read_back example_cfg example_vpa) as (Hv & Hm & Hf).
  - unfold in_range. simpl. lia.
  - intros n [= <-]. unfold in_range. lia.
  - intros name field f Hn. unfold float_fields in Hn. rewrite !elem_of_cons, elem_of_nil in Hn.
    destruct Hn as [[= -> ->]|[[= -> ->]|[[= -> ->]|[]]]]; intros [= <-];
      (vm_compute; split; [done | split; discriminate]).
  - split; [exact (Hv Recommender)|]. split; [exact Hm|]. split.
    + apply (Hf SafetyMarginFractionArg vs_SafetyMarginFraction), list_elem_of_here.
    + apply (Hf PodMinMemoryMbArg vs_PodMinMemoryMb). do 2 apply list_elem_of_further. apply list_elem_of_here.
Defined.
