(* ===== verification/Convergence.v ===== *)
(** * Convergence

    What [Reconcile] promises on a cluster nobody interferes with: one run brings
    every owned object to its desired state and touches nothing else, and a further
    run only reads.  The theorems are proved against the [Cluster] interface; the
    executable server is for the witnesses. *)

From S2P Require Import Prelude Go GoFmt Objects Api Util Args Resources Controller Server Operands.

(** ** Desired state *)

(** An object that must be stored in a slot, and what it must satisfy. *)
Record goal := mkGoal {
  goal_kind : kind;
  goal_key : NamespacedName;
  goal_ok : obj goal_kind -> Prop
}.
Definition goal_slot (g : goal) : slot := (goal_kind g, goal_key g).

Section Goals.
Context (cfg : Config) (vpa : VerticalPodAutoscalerController).

(** The deployment runs the expected pods, at the operator's version. *)
Definition deployed (params : ControllerParams) (d : Deployment) : Prop :=
  pt_Spec (ds_Template (dep_Spec d)) ≃ expected_podspec cfg vpa params /\
  ds_Replicas (dep_Spec d) = Some (expected_replicas cfg vpa params) /\
  gm_lookup ReleaseVersionAnnotation (om_Annotations (dep_meta d)) = Some (cfg_ReleaseVersion cfg).
(** The service exposes the webhook and asks for its certificate. *)
Definition served (s : Service) : Prop :=
  ss_Ports (svc_Spec s) ≃ ss_Ports (svc_Spec (WebhookService cfg vpa)) /\
  ss_Selector (svc_Spec s) ≃ ss_Selector (svc_Spec (WebhookService cfg vpa)) /\
  gm_lookup ReleaseVersionAnnotation (om_Annotations (svc_meta s)) = Some (cfg_ReleaseVersion cfg) /\
  gm_lookup webhookCertAnnotationName (om_Annotations (svc_meta s)) = Some WebhookCertSecretName.
(** The config map asks for the CA bundle. *)
Definition injected (c : ConfigMap) : Prop :=
  gm_lookup ReleaseVersionAnnotation (om_Annotations (cm_meta c)) = Some (cfg_ReleaseVersion cfg) /\
  gm_lookup cACertAnnotationName (om_Annotations (cm_meta c)) = Some "true".
Definition enforced (policy : NetworkPolicy) (p : NetworkPolicy) : Prop :=
  np_Spec policy ≃ np_Spec p.

Definition deployment_goal (params : ControllerParams) : goal :=
  mkGoal KDeployment (NameMethod params cfg vpa) (deployed params).
Definition service_goal : goal :=
  mkGoal KService (mkNN (cfg_Namespace cfg) WebhookServiceName) served.
Definition configmap_goal : goal :=
  mkGoal KConfigMap (mkNN (cfg_Namespace cfg) CACertConfigMapName) injected.
Definition policy_goal (policy : NetworkPolicy) : goal :=
  mkGoal KNetworkPolicy (mkNN (cfg_Namespace cfg) (om_Name (np_meta policy))) (enforced policy).
(** Everything the custom resource stands for. *)
Definition goals : list goal :=
  map deployment_goal controllerParams ++ [service_goal] ++ [configmap_goal] ++
  map policy_goal (NetworkPolicies cfg vpa).
Definition owned_slots : list slot := map goal_slot goals.

Lemma goals_NoDup : NoDup owned_slots.
Proof.
  unfold owned_slots, goals, goal_slot. simpl.
  repeat (apply NoDup_cons; split;
    [rewrite ?not_elem_of_cons; repeat split; try apply not_elem_of_nil;
     intros Hx; vm_compute in Hx; discriminate |]).
  apply NoDup_nil_2.
Qed.
End Goals.

(** ** Programs that reach goals *)

Definition is_get (c : call) : bool := match c with Get _ _ => true | _ => false end.

Section Triples.
Context {W : Type} `{ClusterLaws W}.

Definition met (w : W) (g : goal) : Prop :=
  exists o, view w (goal_kind g) !! goal_key g = Some o /\ goal_ok g o.

(** [p] succeeds, reaches the goals, and changes their slots only. *)
Definition establishes (p : prog (option error)) (gs : list goal) : Prop :=
  forall w, healthy w ->
  (run p w).1 = None /\ healthy (run p w).2 /\
  unchanged_except (map goal_slot gs) w (run p w).2 /\ Forall (met (run p w).2) gs.
(** Once the goals are met, [p] only reads. *)
Definition rests (p : prog (option error)) (gs : list goal) : Prop :=
  forall w, healthy w -> Forall (met w) gs ->
  (run p w).1 = None /\ healthy (run p w).2 /\ unchanged_except [] w (run p w).2 /\
  recorded (run p w).2 = recorded w /\
  Forall (fun s => is_get (st_call s) = true) (trace p w).

Lemma met_unchanged S w w' g :
  unchanged_except S w w' -> goal_slot g ∉ S -> met w g -> met w' g.
Proof. intros Hu Hn (o & Ho & Hok). exists o. split; [|done]. by rewrite Hu. Qed.
Lemma mets_unchanged S w w' gs :
  unchanged_except S w w' -> (forall g, g ∈ gs -> goal_slot g ∉ S) ->
  Forall (met w) gs -> Forall (met w') gs.
Proof.
  intros Hu Hn. rewrite !Forall_forall. intros Hm g Hg. eapply met_unchanged; eauto.
Qed.

Lemma establishes_then p q gs hs :
  NoDup (map goal_slot (gs ++ hs)) ->
  establishes p gs -> establishes q hs -> establishes (and_then p q) (gs ++ hs).
Proof.
  rewrite map_app. intros (_ & Hd & _)%NoDup_app Hp Hq w Hw. unfold and_then.
  rewrite run_bind. destruct (Hp w Hw) as (-> & Hw1 & Hu1 & Hm1).
  destruct (Hq _ Hw1) as (He & Hw2 & Hu2 & Hm2). split; [done|]. split; [done|].
  split; [rewrite map_app; by eapply unchanged_except_trans|].
  apply Forall_app. split; [|done]. eapply mets_unchanged; [done | | done].
  intros g Hg. apply Hd. by apply list_elem_of_fmap_2.
Qed.

Lemma rests_then p q gs hs :
  rests p gs -> rests q hs -> rests (and_then p q) (gs ++ hs).
Proof.
  intros Hp Hq w Hw [Hg Hh]%Forall_app. unfold and_then. rewrite run_bind, trace_bind.
  destruct (Hp w Hw Hg) as (-> & Hw1 & Hu1 & Hr1 & Ht1).
  destruct (Hq _ Hw1) as (He & Hw2 & Hu2 & Hr2 & Ht2).
  { eapply mets_unchanged; [done | set_solver | done]. }
  split; [done|]. split; [done|]. split; [by eapply (unchanged_except_trans [] [])|].
  split; [congruence|]. apply Forall_app. done.
Qed.

Lemma establishes_each {A} (l : list A) (body : A -> prog (option error)) (g : A -> goal) :
  NoDup (map goal_slot (map g l)) ->
  (forall x, x ∈ l -> establishes (body x) [g x]) -> establishes (for_each l body) (map g l).
Proof.
  induction l as [|x l IH]; intros Hd Hb.
  - intros w Hw. simpl. split; [done|]. split; [done|]. split; [apply unchanged_except_refl | done].
  - apply (establishes_then (body x) (for_each l body) [g x] (map g l) Hd).
    + apply Hb, list_elem_of_here.
    + apply NoDup_cons in Hd as [_ Hd]. apply (IH Hd).
      intros y Hy. by apply Hb, list_elem_of_further.
Qed.
Lemma rests_each {A} (l : list A) (body : A -> prog (option error)) (g : A -> goal) :
  (forall x, x ∈ l -> rests (body x) [g x]) -> rests (for_each l body) (map g l).
Proof.
  induction l as [|x l IH]; intros Hb.
  - intros w Hw _. simpl. split; [done|]. split; [done|].
    split; [apply unchanged_except_refl|]. split; [done | constructor].
  - apply (rests_then (body x) (for_each l body) [g x] (map g l)).
    + apply Hb, list_elem_of_here.
    + apply IH. intros y Hy. by apply Hb, list_elem_of_further.
Qed.
End Triples.

(** ** The steps of [Reconcile] *)

Lemma SetControllerReference_fresh vpa m scheme gvk :
  (om_Namespace (vpa_meta vpa) = "" \/ om_Namespace (vpa_meta vpa) = om_Namespace m) ->
  om_OwnerReferences m = [] -> GVKForObject (vpa_type vpa) scheme = inr gvk ->
  SetControllerReference vpa m scheme = inr (SetOwnerReferences [controller_ref vpa gvk] m).
Proof.
  intros Hns Ho Hg. unfold SetControllerReference, validateOwner. rewrite Ho, Hg. simpl.
  destruct Hns as [-> | ->]; simpl; [done|].
  destruct (bool_decide (om_Namespace m = "")); simpl; [done|]. by rewrite bool_decide_true.
Qed.

Lemma deployment_current_spec cfg vpa params d :
  deployment_current cfg vpa params d = true <-> deployed cfg vpa params d.
Proof.
  unfold deployment_current, deployed. rewrite !andb_true_iff, ReleaseVersionMatches_spec.
  split.
  - intros [[? Hr] ?]. split; [done|]. split; [|done].
    by apply (sem_exact (A:=option Z)) in Hr.
  - intros (? & -> & ?). split; [split|]; try done. apply (sem_refl (A:=option Z)).
Qed.

Lemma lookup_annotations (a : gomap string) k : annotations_or_empty a !! k = gm_lookup k a.
Proof. by destruct a. Qed.
Lemma annotations_id (a : gomap string) :
  gm_map a <> ∅ -> mkmap (annotations_or_empty a) = a.
Proof. by destruct a. Qed.

Lemma UpdateAnnotations_lookup cfg m :
  gm_lookup ReleaseVersionAnnotation (om_Annotations (UpdateAnnotations cfg m)) =
  Some (cfg_ReleaseVersion cfg).
Proof. apply lookup_insert_eq. Qed.

(** Maps with the same entries are equal. *)
Lemma sem_map_entries_eq {V} `{SemanticLaws V} (a b : gomap V) : gm_map a = gm_map b -> a ≃ b.
Proof. intros Hab. apply sem_map_pointwise. rewrite Hab. intros k. reflexivity. Qed.
(** Setting two annotations changes nothing when they are set. *)
Lemma annotations_set (a : gomap string) k1 v1 k2 v2 :
  k1 <> k2 ->
  a ≃ mkmap (<[k2:=v2]> (<[k1:=v1]> (annotations_or_empty a))) <->
  gm_lookup k1 a = Some v1 /\ gm_lookup k2 a = Some v2.
Proof.
  intros Hk. unfold gm_lookup. split.
  - intros Ha%sem_map_exact. simpl in Ha. rewrite Ha.
    rewrite lookup_insert_eq, lookup_insert_ne, lookup_insert_eq by done. done.
  - intros [H1 H2]. apply sem_map_entries_eq. simpl. destruct a as [|m]; [done|]; simpl in *.
    by rewrite (insert_id m k1), (insert_id m k2).
Qed.
Lemma sem_SetAnnotations m a : m ≃ SetAnnotations a m <-> om_Annotations m ≃ a.
Proof.
  unfold sem_eq at 1, sem_eqb, sem_ObjectMeta, sem_via.
  change ((om_Name m, om_Namespace m, om_UID m, om_ResourceVersion m,
    om_Generation m, om_Labels m, om_Annotations m, om_OwnerReferences m, om_others m) ≃
    (om_Name m, om_Namespace m, om_UID m, om_ResourceVersion m,
    om_Generation m, om_Labels m, a, om_OwnerReferences m, om_others m) <-> om_Annotations m ≃ a).
  rewrite !sem_struct_fields. simpl. split; [tauto|]. intros Ha. split_and!; first [assumption | apply sem_refl].
Qed.

(** A service that serves is its own merge. *)
Lemma merged_service_spec cfg vpa s :
  sem_eqb s (merged_service cfg vpa s) = true <-> served cfg vpa s.
Proof.
  change ((svc_type s, svc_meta s, svc_Spec s, svc_Status s) ≃
    (svc_type s, UpdateServiceAnnotations cfg (svc_meta s), svc_Spec (merged_service cfg vpa s),
     svc_Status s) <-> served cfg vpa s).
  rewrite !sem_struct_fields. simpl. unfold UpdateServiceAnnotations.
  rewrite sem_SetAnnotations, annotations_set by done.
  assert (Hs : svc_Spec s ≃ svc_Spec (merged_service cfg vpa s) <->
    ss_Ports (svc_Spec s) ≃ ss_Ports (svc_Spec (WebhookService cfg vpa)) /\
    ss_Selector (svc_Spec s) ≃ ss_Selector (svc_Spec (WebhookService cfg vpa))).
  { change ((ss_Ports (svc_Spec s), ss_Selector (svc_Spec s), ss_others (svc_Spec s)) ≃
      (ss_Ports (svc_Spec (WebhookService cfg vpa)), ss_Selector (svc_Spec (WebhookService cfg vpa)),
       ss_others (svc_Spec s)) <->
      ss_Ports (svc_Spec s) ≃ ss_Ports (svc_Spec (WebhookService cfg vpa)) /\
      ss_Selector (svc_Spec s) ≃ ss_Selector (svc_Spec (WebhookService cfg vpa))).
    rewrite !sem_struct_fields. simpl. split; [tauto|]. intros []. split_and!; first [assumption | apply sem_refl]. }
  simpl in Hs. rewrite Hs. unfold served. simpl. split; [tauto|].
  intros (? & ? & ? & ?). split_and!; first [assumption | apply sem_refl].
Qed.
Lemma merged_configmap_spec cfg c :
  sem_eqb c (merged_configmap cfg c) = true <-> injected cfg c.
Proof.
  change ((cm_type c, cm_meta c, cm_others c) ≃
    (cm_type c, UpdateConfigMapAnnotations cfg (cm_meta c), cm_others c) <-> injected cfg c).
  rewrite !sem_struct_fields. simpl. unfold UpdateConfigMapAnnotations.
  rewrite sem_SetAnnotations, annotations_set by done. unfold injected.
  split; [tauto|]. intros []. split_and!; first [assumption | apply sem_refl].
Qed.

Section Steps.
Context {W : Type} `{ClusterLaws W}.

(** The goal is reached by an outcome of a program started in [w]. *)
Definition reaches (g : goal) (w : W) (out : option error * W) : Prop :=
  out.1 = None /\ healthy out.2 /\ unchanged_except [goal_slot g] w out.2 /\ met out.2 g.

Lemma establishes_one p g : (forall w, healthy w -> reaches g w (run p w)) -> establishes p [g].
Proof.
  intros Hp w Hw. destruct (Hp w Hw) as (? & ? & ? & ?). split_and!; try done. by constructor.
Qed.
Lemma reaches_read g w w1 out : unchanged_except [] w w1 -> reaches g w1 out -> reaches g w out.
Proof.
  intros Hu (? & ? & Hu' & ?). split; [done|]. split; [done|]. split; [|done].
  by eapply (unchanged_except_trans []).
Qed.
(** Recording a success keeps a goal reached. *)
Lemma reaches_event g w w1 ref reason action note :
  reaches g w (None, w1) -> reaches g w (run (succeed_with ref reason action note) w1).
Proof.
  intros (_ & Hw1 & Hu1 & Hm). unfold succeed_with, record_event; simpl in *.
  match goal with |- context [handle (Eventf ?e) _] => pose proof (event_law w1 e Hw1) as He end.
  unfold answers in He. destruct (handle _ w1) as [r w2]; simpl in *.
  destruct He as (Hw2 & Hu2 & _). split; [done|]. split; [done|].
  split; [by apply (unchanged_except_trans [goal_slot g] [] w w1 w2)|].
  apply (met_unchanged [] w1 w2); [done | set_solver | done].
Qed.

(** Reading a slot. *)
Lemma run_get {A} w k key (f : (error + obj k) -> prog A) :
  healthy w -> exists r w1,
  run (bind (ask (Get k key)) f) w = run (f r) w1 /\
  trace (bind (ask (Get k key)) f) w = mkStep (Get k key) r :: trace (f r) w1 /\
  healthy w1 /\ unchanged_except [] w w1 /\ recorded w1 = recorded w /\
  match view w k !! key with
  | Some o => r = inr o
  | None => exists e, r = inl e /\ IsNotFound e = true
  end.
Proof.
  intros Hw. pose proof (get_law w k key Hw) as Hl. unfold answers in Hl.
  exists (handle (Get k key) w).1, (handle (Get k key) w).2. simpl.
  destruct (handle (Get k key) w) as [r w1]; simpl in *.
  destruct Hl as (? & ? & ? & ?). done.
Qed.
(** Creating an object in a free slot. *)
Lemma run_create {A} w (g : goal) (o : obj (goal_kind g)) (f : _ -> prog A) :
  healthy w -> obj_key o = goal_key g -> view w (goal_kind g) !! goal_key g = None ->
  (forall o', admitted (goal_kind g) o o' -> goal_ok g o') ->
  exists o' w1, run (bind (ask (Create (goal_kind g) o)) f) w = run (f (inr o')) w1 /\
    reaches g w (None, w1).
Proof.
  intros Hw Hkey Hnone Hok. pose proof (create_law w (goal_kind g) o Hw) as Hl.
  unfold answers in Hl. simpl. destruct (handle _ w) as [r w1]; simpl in *.
  rewrite Hkey, Hnone in Hl. destruct Hl as (Hw1 & Hu & _ & o' & -> & Ho' & Ha).
  exists o', w1. split; [done|]. split; [done|]. split; [done|]. split; [done|]. exists o'. auto.
Qed.
(** Updating the stored object. *)
Lemma run_update {A} w (g : goal) (o stored : obj (goal_kind g)) (f : _ -> prog A) :
  healthy w -> obj_key o = goal_key g -> view w (goal_kind g) !! goal_key g = Some stored ->
  version_current o stored -> (forall o', admitted (goal_kind g) o o' -> goal_ok g o') ->
  exists o' w1, run (bind (ask (Update (goal_kind g) o)) f) w = run (f (inr o')) w1 /\
    reaches g w (None, w1).
Proof.
  intros Hw Hkey Hs Hv Hok. pose proof (update_law w (goal_kind g) o Hw) as Hl.
  unfold answers in Hl. simpl. destruct (handle _ w) as [r w1]; simpl in *.
  destruct Hl as (Hw1 & Hu & _ & Hst & _). rewrite Hkey in Hst, Hu.
  destruct (Hst stored Hs Hv) as (o' & -> & Ho' & Ha). exists o', w1. split; [done|].
  split; [done|]. split; [done|]. split; [done|]. exists o'. auto.
Qed.
End Steps.

(** Serve the next call of the program that runs: a read, a creation that
    reaches a goal, an update of a stored object that reaches a goal. *)
Ltac serve_get Hw H :=
  let w := lazymatch type of Hw with healthy ?w => w end in
  lazymatch goal with
  | |- context [run (bind (ask (Get ?k ?key)) ?f) w] => pose proof (run_get w k key f Hw) as H
  end.
Ltac serve_create g Hw H :=
  lazymatch goal with
  | |- context [run (bind (ask (Create ?k ?o)) ?f) ?w] =>
      pose proof (run_create w g o f Hw) as H;
      cbn [goal_kind goal_key deployment_goal service_goal configmap_goal policy_goal] in H
  end.
Ltac serve_update g stored Hw H :=
  lazymatch goal with
  | |- context [run (bind (ask (Update ?k ?o)) ?f) ?w] =>
      pose proof (run_update w g o stored f Hw) as H;
      cbn [goal_kind goal_key deployment_goal service_goal configmap_goal policy_goal] in H
  end.

Section Operator.
Context {W : Type} `{ClusterLaws W}.
Context (scheme : Scheme) (cfg : Config) (vpa : VerticalPodAutoscalerController).
Context (vpaRef : option ObjectReference) (gvk : GroupVersionKind).
Hypothesis owner_namespace :
  om_Namespace (vpa_meta vpa) = "" \/ om_Namespace (vpa_meta vpa) = cfg_Namespace cfg.
Hypothesis owner_kind : GVKForObject (vpa_type vpa) scheme = inr gvk.
Hypothesis exact : overrides_exact vpa = true.

Lemma expected_deployed o (d d0 : Deployment) :
  pt_Spec (ds_Template (dep_Spec d0)) = expected_podspec cfg vpa (operand_params o) ->
  ds_Replicas (dep_Spec d0) = Some (expected_replicas cfg vpa (operand_params o)) ->
  gm_lookup ReleaseVersionAnnotation (om_Annotations (dep_meta d0)) = Some (cfg_ReleaseVersion cfg) ->
  admitted KDeployment d0 d -> deployed cfg vpa (operand_params o) d.
Proof.
  intros Hp Hr Ha ((_ & Han & _) & Hrep & Hpod). simpl in *. unfold deployed.
  rewrite Hrep, Hr by (by rewrite Hr). rewrite Han. split; [|done].
  rewrite <- Hp. apply Hpod. rewrite Hp, expected_podspec_operand.
  apply spec_podspec_complete. by apply overrides_exact_operand.
Qed.

Lemma reconcile_operand_establishes o :
  establishes (W:=W) (reconcile_operand scheme cfg vpa vpaRef (operand_params o))
    [deployment_goal cfg vpa (operand_params o)].
Proof.
  apply establishes_one. intros w Hw. unfold reconcile_operand.
  set (params := operand_params o).
  serve_get Hw Hg. destruct Hg as (r & w1 & -> & _ & Hw1 & Hu1 & _ & Hv).
  apply (reaches_read _ _ _ _ Hu1).
  assert (Hview : view w1 KDeployment !! NameMethod params cfg vpa =
                  view w KDeployment !! NameMethod params cfg vpa) by (apply Hu1; set_solver).
  destruct (view w KDeployment !! _) as [d|] eqn:Hd.
  - subst r. rewrite run_bind. unfold UpdateAutoscaler.
    serve_get Hw1 Hg. destruct Hg as (r & w2 & -> & _ & Hw2 & Hu2 & _ & Hv2).
    rewrite Hview in Hv2. subst r. apply (reaches_read _ _ _ _ Hu2).
    rewrite <- (Hu2 KDeployment (NameMethod params cfg vpa)) in Hview by set_solver.
    destruct (deployment_current cfg vpa params d) eqn:Hcur.
    + apply deployment_current_spec in Hcur. simpl. split; [done|]. split; [done|].
      split; [apply unchanged_except_refl|]. by exists d.
    + serve_update (deployment_goal cfg vpa params) d Hw2 Hg.
      destruct Hg as (o' & w3 & -> & Hr);
        [exact (view_key _ _ _ _ Hw2 Hview) | done | by right | | by apply reaches_event].
      intros d' Hd'. eapply expected_deployed; [| | |exact Hd']; try done.
      apply UpdateAnnotations_lookup.
  - destruct Hv as (e & -> & He). cbv beta iota. rewrite He. cbn [negb]. rewrite run_bind.
    unfold CreateAutoscaler. erewrite SetControllerReference_fresh;
      [ | by destruct o | by destruct o | done].
    cbv beta iota. serve_create (deployment_goal cfg vpa params) Hw1 Hc.
    destruct Hc as (o' & w2 & -> & Hr); [by destruct o | done | | by apply reaches_event].
    intros d' Hd'. eapply expected_deployed; [| | |exact Hd']; done.
Qed.

(** Annotating, merging, and creating give what is looked for. *)
Lemma UpdateServiceAnnotations_lookups m :
  gm_lookup ReleaseVersionAnnotation (om_Annotations (UpdateServiceAnnotations cfg m)) =
    Some (cfg_ReleaseVersion cfg) /\
  gm_lookup webhookCertAnnotationName (om_Annotations (UpdateServiceAnnotations cfg m)) =
    Some WebhookCertSecretName.
Proof.
  split; [|apply lookup_insert_eq].
  refine (eq_trans (lookup_insert_ne _ _ _ _ _) (lookup_insert_eq _ _ _)). done.
Qed.
Lemma UpdateConfigMapAnnotations_lookups m :
  gm_lookup ReleaseVersionAnnotation (om_Annotations (UpdateConfigMapAnnotations cfg m)) =
    Some (cfg_ReleaseVersion cfg) /\
  gm_lookup cACertAnnotationName (om_Annotations (UpdateConfigMapAnnotations cfg m)) = Some "true".
Proof.
  split; [|apply lookup_insert_eq].
  refine (eq_trans (lookup_insert_ne _ _ _ _ _) (lookup_insert_eq _ _ _)). done.
Qed.
Lemma expected_served s0 s m :
  ss_Ports (svc_Spec s0) = ss_Ports (svc_Spec (WebhookService cfg vpa)) ->
  ss_Selector (svc_Spec s0) = ss_Selector (svc_Spec (WebhookService cfg vpa)) ->
  om_Annotations (svc_meta s0) = om_Annotations (UpdateServiceAnnotations cfg m) ->
  admitted KService s0 s -> served cfg vpa s.
Proof.
  intros Hp Hs Hm ((_ & Ha & _) & Hports & Hsel). unfold served. cbn [obj_meta] in Ha.
  rewrite Ha, Hm, Hsel, Hs. rewrite Hp in Hports. split; [by apply Hports|].
  split; [apply sem_refl | apply UpdateServiceAnnotations_lookups].
Qed.
Lemma expected_injected c0 c m :
  om_Annotations (cm_meta c0) = om_Annotations (UpdateConfigMapAnnotations cfg m) ->
  admitted KConfigMap c0 c -> injected cfg c.
Proof.
  intros Hm ((_ & Ha & _) & _). unfold injected. cbn [obj_meta] in Ha. rewrite Ha, Hm.
  apply UpdateConfigMapAnnotations_lookups.
Qed.

Lemma reconcile_service_establishes :
  establishes (W:=W) (reconcile_service scheme cfg vpa vpaRef) [service_goal cfg vpa].
Proof.
  apply establishes_one. intros w Hw. unfold reconcile_service.
  set (key := mkNN (cfg_Namespace cfg) WebhookServiceName).
  serve_get Hw Hg. destruct Hg as (r & w1 & -> & _ & Hw1 & Hu1 & _ & Hv).
  apply (reaches_read _ _ _ _ Hu1).
  assert (Hview : view w1 KService !! key = view w KService !! key) by (apply Hu1; set_solver).
  destruct (view w KService !! key) as [s|] eqn:Hs.
  - subst r. rewrite run_bind. unfold UpdateWebhookService. fold key.
    serve_get Hw1 Hg. destruct Hg as (r & w2 & -> & _ & Hw2 & Hu2 & _ & Hv2).
    rewrite Hview in Hv2. subst r. apply (reaches_read _ _ _ _ Hu2).
    rewrite <- (Hu2 KService key) in Hview by set_solver.
    destruct (sem_eqb s (merged_service cfg vpa s)) eqn:Hcur.
    + apply merged_service_spec in Hcur. simpl. split; [done|]. split; [done|].
      split; [apply unchanged_except_refl|]. by exists s.
    + serve_update (service_goal cfg vpa) s Hw2 Hg.
      destruct Hg as (o' & w3 & -> & Hr);
        [exact (view_key _ _ _ _ Hw2 Hview) | done | by right | | by apply reaches_event].
      intros s' Hs'. refine (expected_served _ _ (svc_meta s) _ _ _ Hs'); reflexivity.
  - destruct Hv as (e & -> & He). cbv beta iota. rewrite He. cbn [negb]. rewrite run_bind.
    unfold CreateWebhookService. erewrite SetControllerReference_fresh; [ | done | done | done].
    cbv beta iota. serve_create (service_goal cfg vpa) Hw1 Hc.
    destruct Hc as (o' & w2 & -> & Hr); [done | done | | by apply reaches_event].
    intros s' Hs'. refine (expected_served _ _ (named_meta "" "") _ _ _ Hs'); reflexivity.
Qed.

Lemma reconcile_configmap_establishes :
  establishes (W:=W) (reconcile_configmap scheme cfg vpa vpaRef) [configmap_goal cfg].
Proof.
  apply establishes_one. intros w Hw. unfold reconcile_configmap.
  set (key := mkNN (cfg_Namespace cfg) CACertConfigMapName).
  serve_get Hw Hg. destruct Hg as (r & w1 & -> & _ & Hw1 & Hu1 & _ & Hv).
  apply (reaches_read _ _ _ _ Hu1).
  assert (Hview : view w1 KConfigMap !! key = view w KConfigMap !! key) by (apply Hu1; set_solver).
  destruct (view w KConfigMap !! key) as [c|] eqn:Hs.
  - subst r. rewrite run_bind. unfold UpdateCAConfigMap. fold key.
    serve_get Hw1 Hg. destruct Hg as (r & w2 & -> & _ & Hw2 & Hu2 & _ & Hv2).
    rewrite Hview in Hv2. subst r. apply (reaches_read _ _ _ _ Hu2).
    rewrite <- (Hu2 KConfigMap key) in Hview by set_solver.
    destruct (sem_eqb c (merged_configmap cfg c)) eqn:Hcur.
    + apply merged_configmap_spec in Hcur. simpl. split; [done|]. split; [done|].
      split; [apply unchanged_except_refl|]. by exists c.
    + serve_update (configmap_goal cfg) c Hw2 Hg.
      destruct Hg as (o' & w3 & -> & Hr);
        [exact (view_key _ _ _ _ Hw2 Hview) | done | by right | | by apply reaches_event].
      intros c' Hc'. refine (expected_injected _ _ (cm_meta c) _ Hc'); reflexivity.
  - destruct Hv as (e & -> & He). cbv beta iota. rewrite He. cbn [negb]. rewrite run_bind.
    unfold CreateCAConfigMap. erewrite SetControllerReference_fresh; [ | done | done | done].
    cbv beta iota. serve_create (configmap_goal cfg) Hw1 Hc.
    destruct Hc as (o' & w2 & -> & Hr); [done | done | | by apply reaches_event].
    intros c' Hc'. refine (expected_injected _ _ (named_meta "" "") _ Hc'); reflexivity.
Qed.

Lemma policies_complete p :
  p ∈ NetworkPolicies cfg vpa ->
  policy_complete (np_Spec p) = true /\ om_Namespace (np_meta p) = cfg_Namespace cfg /\
  om_OwnerReferences (np_meta p) = [] /\ om_ResourceVersion (np_meta p) = "".
Proof.
  unfold NetworkPolicies. rewrite !elem_of_cons, elem_of_nil.
  by intros [->|[->|[->|[->|[->|[]]]]]].
Qed.

Lemma reconcile_policy_establishes p :
  p ∈ NetworkPolicies cfg vpa ->
  establishes (W:=W) (reconcile_policy scheme cfg vpa vpaRef p) [policy_goal cfg p].
Proof.
  intros (Hcomp & Hns & Ho & Hrv)%policies_complete.
  apply establishes_one. intros w Hw. unfold reconcile_policy.
  set (key := mkNN (cfg_Namespace cfg) (om_Name (np_meta p))).
  assert (Hkey : obj_key (k:=KNetworkPolicy) p = key) by (unfold key; by rewrite <- Hns).
  serve_get Hw Hg. destruct Hg as (r & w1 & -> & _ & Hw1 & Hu1 & _ & Hv).
  apply (reaches_read _ _ _ _ Hu1).
  assert (Hview : view w1 KNetworkPolicy !! key = view w KNetworkPolicy !! key)
    by (apply Hu1; set_solver).
  destruct (view w KNetworkPolicy !! key) as [old|] eqn:Hs.
  - subst r. destruct (sem_eqb (np_Spec p) (np_Spec old)) eqn:Hcur.
    + simpl. split; [done|]. split; [done|]. split; [apply unchanged_except_refl|]. by exists old.
    + serve_update (policy_goal cfg p) old Hw1 Hg.
      destruct Hg as (o' & w2 & -> & Hr);
        [done | done | by left | | by apply reaches_event].
      intros p' [_ Hp']. change (np_Spec p ≃ np_Spec p'). symmetry. exact (Hp' Hcomp).
  - destruct Hv as (e & -> & He). cbv beta iota. rewrite He. cbn [negb].
    erewrite SetControllerReference_fresh; [ | by rewrite Hns | done | done].
    cbv beta iota. serve_create (policy_goal cfg p) Hw1 Hc.
    destruct Hc as (o' & w2 & -> & Hr); [done | done | | by apply reaches_event].
    intros p' [_ Hp']. change (np_Spec p ≃ np_Spec p'). symmetry. exact (Hp' Hcomp).
Qed.

Lemma reconcile_all_establishes :
  establishes (W:=W) (reconcile_all scheme cfg vpa vpaRef) (goals cfg vpa).
Proof.
  assert (Hsub : forall l l' : list goal, NoDup (map goal_slot (l ++ l')) ->
            NoDup (map goal_slot l) /\ NoDup (map goal_slot l')).
  { intros l l'. rewrite map_app. intros (? & _ & ?)%NoDup_app. done. }
  pose proof (goals_NoDup cfg vpa : NoDup (map goal_slot (goals cfg vpa))) as Hd.
  unfold goals in *. destruct (Hsub _ _ Hd) as [Hd1 Hd2].
  destruct (Hsub _ _ Hd2) as [_ Hd3]. destruct (Hsub _ _ Hd3) as [_ Hd4].
  unfold reconcile_all. apply establishes_then; [done | |].
  { apply establishes_each; [done|]. rewrite controllerParams_operands.
    intros ? (o & -> & _)%list_elem_of_fmap. apply reconcile_operand_establishes. }
  apply establishes_then; [done | apply reconcile_service_establishes|].
  apply establishes_then; [done | apply reconcile_configmap_establishes|].
  apply establishes_each; [done | apply reconcile_policy_establishes].
Qed.

End Operator.

(** ** When the goals are met *)

Section Rests.
Context {W : Type} `{ClusterLaws W}.
Context (scheme : Scheme) (cfg : Config) (vpa : VerticalPodAutoscalerController).
Context (vpaRef : option ObjectReference).

(** The program reads and returns. *)
Definition only_reads (p : prog (option error)) (w : W) : Prop :=
  (run p w).1 = None /\ healthy (run p w).2 /\ unchanged_except [] w (run p w).2 /\
  recorded (run p w).2 = recorded w /\
  Forall (fun s => is_get (st_call s) = true) (trace p w).

Lemma only_reads_ret w : healthy w -> only_reads (Ret None) w.
Proof. intros Hw. by split_and!. Qed.
(** A read of a stored object, and what follows. *)
Lemma only_reads_get w k key (o : obj k) f :
  healthy w -> view w k !! key = Some o ->
  (forall w1, healthy w1 -> unchanged_except [] w w1 -> only_reads (f (inr o)) w1) ->
  only_reads (Do (Get k key) f) w.
Proof.
  change (Do (Get k key) f) with (bind (ask (Get k key)) f).
  intros Hw Ho Hf. destruct (run_get w k key f Hw) as (r & w1 & Hr & Ht & Hw1 & Hu1 & He1 & Hv).
  unfold only_reads. rewrite Hr, Ht. rewrite Ho in Hv. subst r.
  destruct (Hf w1 Hw1 Hu1) as (? & ? & ? & ? & ?). split; [done|]. split; [done|].
  split; [by eapply (unchanged_except_trans [] [])|]. split; [congruence|]. by constructor.
Qed.
Lemma rests_one p g :
  (forall w o, healthy w -> view w (goal_kind g) !! goal_key g = Some o -> goal_ok g o ->
    only_reads p w) -> rests p [g].
Proof. intros Hp w Hw ((o & Ho & Hok) & _)%Forall_cons. by apply (Hp w o). Qed.

Ltac reading := cbn [ask bind].
(** Follow the branch of a test that succeeds. *)
Ltac take_true H :=
  match goal with |- context [if ?b then _ else _] => replace b with true by (symmetry; exact H) end;
  reading.
Lemma reconcile_operand_rests params :
  rests (reconcile_operand scheme cfg vpa vpaRef params) [deployment_goal cfg vpa params].
Proof.
  unfold reconcile_operand, UpdateAutoscaler. apply rests_one. intros w d Hw Hd Hok.
  cbn [goal_ok goal_kind goal_key deployment_goal service_goal configmap_goal] in *. apply deployment_current_spec in Hok.
  reading. apply (only_reads_get _ _ _ d); [done | done|]. intros w1 Hw1 Hu1.
  rewrite <- (Hu1 KDeployment (NameMethod params cfg vpa)) in Hd by set_solver.
  reading. apply (only_reads_get _ _ _ d); [done | done|]. intros w2 Hw2 Hu2. reading.
  take_true Hok. by apply only_reads_ret.
Qed.
Lemma reconcile_service_rests : rests (reconcile_service scheme cfg vpa vpaRef) [service_goal cfg vpa].
Proof.
  unfold reconcile_service, UpdateWebhookService. apply rests_one. intros w s Hw Hs Hok.
  cbn [goal_ok goal_kind goal_key deployment_goal service_goal configmap_goal] in *. apply merged_service_spec in Hok.
  reading. apply (only_reads_get _ _ _ s); [done | done|]. intros w1 Hw1 Hu1.
  rewrite <- (Hu1 KService (mkNN (cfg_Namespace cfg) WebhookServiceName)) in Hs by set_solver.
  reading. apply (only_reads_get _ _ _ s); [done | done|]. intros w2 Hw2 Hu2. reading.
  take_true Hok. by apply only_reads_ret.
Qed.
Lemma reconcile_configmap_rests : rests (reconcile_configmap scheme cfg vpa vpaRef) [configmap_goal cfg].
Proof.
  unfold reconcile_configmap, UpdateCAConfigMap. apply rests_one. intros w c Hw Hc Hok.
  cbn [goal_ok goal_kind goal_key deployment_goal service_goal configmap_goal] in *. apply merged_configmap_spec in Hok.
  reading. apply (only_reads_get _ _ _ c); [done | done|]. intros w1 Hw1 Hu1.
  rewrite <- (Hu1 KConfigMap (mkNN (cfg_Namespace cfg) CACertConfigMapName)) in Hc by set_solver.
  reading. apply (only_reads_get _ _ _ c); [done | done|]. intros w2 Hw2 Hu2. reading.
  take_true Hok. by apply only_reads_ret.
Qed.
Lemma reconcile_policy_rests p :
  rests (reconcile_policy scheme cfg vpa vpaRef p) [policy_goal cfg p].
Proof.
  unfold reconcile_policy. apply rests_one. intros w old Hw Hold Hok.
  reading. apply (only_reads_get _ _ _ old); [done | done|]. intros w1 Hw1 Hu1. reading.
  change (sem_eqb (np_Spec p) (np_Spec old) = true) in Hok. take_true Hok. by apply only_reads_ret.
Qed.
Lemma reconcile_all_rests : rests (W:=W) (reconcile_all scheme cfg vpa vpaRef) (goals cfg vpa).
Proof.
  unfold reconcile_all, goals. apply rests_then.
  { apply rests_each. intros params _. apply reconcile_operand_rests. }
  apply rests_then; [apply reconcile_service_rests|].
  apply rests_then; [apply reconcile_configmap_rests|].
  apply rests_each. intros p _. apply reconcile_policy_rests.
Qed.
End Rests.

(** ** One run *)

(** The configuration a run works with: the TLS profile of the cluster. *)
Definition cluster_config {W} `{Cluster W} (cfg : Config) (w : W) : Config :=
  match view w KAPIServer !! mkNN "" APIServerName with
  | Some a => synced_TLSProfile cfg (inr a)
  | None => cfg
  end.

Lemma synced_TLSProfile_idem cfg a :
  synced_TLSProfile (synced_TLSProfile cfg (inr a)) (inr a) = synced_TLSProfile cfg (inr a).
Proof.
  unfold synced_TLSProfile. destruct (ShouldHonorClusterTLSProfile _) eqn:Hh; rewrite ?Hh; [|done].
  by destruct (GetTLSProfileSpec _) eqn:Hp; rewrite ?Hh, ?Hp.
Qed.
Lemma synced_TLSProfile_Namespace cfg a :
  cfg_Namespace (synced_TLSProfile cfg a) = cfg_Namespace cfg.
Proof.
  destruct a; simpl; [done|]. destruct (ShouldHonorClusterTLSProfile _); [|done].
  by destruct (GetTLSProfileSpec _).
Qed.

Section Run.
Context {W : Type} `{ClusterLaws W}.
Context (scheme : Scheme) (req : NamespacedName).
Context (vpa : VerticalPodAutoscalerController) (gvk : GroupVersionKind).

Lemma cluster_config_Namespace cfg (w : W) :
  cfg_Namespace (cluster_config cfg w) = cfg_Namespace cfg.
Proof. unfold cluster_config. case_match; [apply synced_TLSProfile_Namespace | done]. Qed.
Lemma owned_slots_config cfg cfg' :
  cfg_Namespace cfg' = cfg_Namespace cfg -> owned_slots cfg' vpa = owned_slots cfg vpa.
Proof.
  intros Hns. unfold owned_slots, goals, goal_slot. simpl.
  unfold RecommenderName, UpdaterName, AdmissionPluginName. by rewrite Hns.
Qed.
(** The owned slots do not hold what a run reads. *)
Lemma owned_slots_inputs cfg k key :
  k ∈ [KVerticalPodAutoscalerController; KAPIServer; KNamespace; KClusterOperator; KInfrastructure] ->
  (k, key) ∉ owned_slots cfg vpa.
Proof.
  unfold owned_slots, goals, goal_slot. simpl. rewrite !elem_of_cons, !elem_of_nil.
  intros Hk Hs. destruct_or!; subst; simplify_eq; done.
Qed.

(** The reading half of a run. *)
Lemma run_Reconcile cfg (w : W) :
  healthy w -> view w KVerticalPodAutoscalerController !! req = Some vpa ->
  exists w1 tr, healthy w1 /\ unchanged_except [] w w1 /\ recorded w1 = recorded w /\
  Forall (fun s => is_get (st_call s) = true) tr /\
  let cfg' := cluster_config cfg w in
  let rest := reconcile_all scheme cfg' vpa (objectReference scheme cfg' vpa) in
  run (Reconcile scheme cfg req) w =
    ((cfg', (zero_Result, (run rest w1).1)), (run rest w1).2) /\
  trace (Reconcile scheme cfg req) w = tr ++ trace rest w1.
Proof.
  intros Hw Hv. unfold Reconcile, syncTLSProfile. rewrite run_bind, trace_bind.
  serve_get Hw Hg. destruct Hg as (r & w1 & -> & -> & Hw1 & Hu1 & Hr1 & Hg). cbn [run fst snd trace app].
  assert (Hcfg : synced_TLSProfile cfg r = cluster_config cfg w).
  { unfold cluster_config. destruct (view w KAPIServer !! _); [by subst|].
    by destruct Hg as (e & -> & _). }
  rewrite Hcfg. set (cfg' := cluster_config cfg w).
  pose proof (eq_trans (Hu1 KVerticalPodAutoscalerController req ltac:(set_solver)) Hv) as Hv1.
  serve_get Hw1 Hx. destruct Hx as (r' & w2 & -> & -> & Hw2 & Hu2 & Hr2 & Hx).
  rewrite Hv1 in Hx. subst r'. cbv beta iota. rewrite run_bind, trace_bind. cbn [run trace].
  exists w2, [mkStep (Get KAPIServer (mkNN "" APIServerName)) r;
              mkStep (Get KVerticalPodAutoscalerController req) (inr vpa)].
  split; [done|]. split; [by eapply (unchanged_except_trans [] [])|]. split; [congruence|].
  split; [by repeat constructor|]. split; [done|]. by rewrite app_nil_r.
Qed.

Lemma Reconcile_rests cfg (w : W) :
  healthy w -> view w KVerticalPodAutoscalerController !! req = Some vpa ->
  Forall (met w) (goals (cluster_config cfg w) vpa) ->
  let out := run (Reconcile scheme cfg req) w in
  out.1 = (cluster_config cfg w, (zero_Result, None)) /\ healthy out.2 /\
  unchanged_except [] w out.2 /\ recorded out.2 = recorded w /\
  Forall (fun s => is_get (st_call s) = true) (trace (Reconcile scheme cfg req) w).
Proof.
  intros Hw Hv Hm. destruct (run_Reconcile cfg w Hw Hv) as
    (w1 & tr & Hw1 & Hu1 & Hr1 & Htr & -> & ->). cbv zeta. cbn [fst snd].
  destruct (reconcile_all_rests scheme (cluster_config cfg w) vpa
    (objectReference scheme (cluster_config cfg w) vpa) w1 Hw1) as (-> & ? & Hu2 & Hr2 & Ht).
  { eapply mets_unchanged; [exact Hu1 | intros g _; apply not_elem_of_nil | done]. }
  split; [done|]. split; [done|]. split; [by eapply (unchanged_except_trans [] [])|].
  split; [congruence|]. by apply Forall_app.
Qed.

Section Owned.
Context (owner_kind : GVKForObject (vpa_type vpa) scheme = inr gvk).
Context (exact : overrides_exact vpa = true).

Lemma Reconcile_establishes cfg (w : W) :
  healthy w -> view w KVerticalPodAutoscalerController !! req = Some vpa ->
  om_Namespace (vpa_meta vpa) = "" \/ om_Namespace (vpa_meta vpa) = cfg_Namespace cfg ->
  let out := run (Reconcile scheme cfg req) w in
  out.1 = (cluster_config cfg w, (zero_Result, None)) /\ healthy out.2 /\
  unchanged_except (owned_slots cfg vpa) w out.2 /\
  Forall (met out.2) (goals (cluster_config cfg w) vpa).
Proof.
  intros Hw Hv Hns. destruct (run_Reconcile cfg w Hw Hv) as
    (w1 & tr & Hw1 & Hu1 & _ & _ & -> & _). cbv zeta. cbn [fst snd].
  rewrite <- (cluster_config_Namespace cfg w) in Hns.
  destruct (reconcile_all_establishes scheme _ vpa
    (objectReference scheme (cluster_config cfg w) vpa) gvk Hns owner_kind exact w1 Hw1)
    as (-> & ? & Hu2 & Hm).
  split; [done|]. split; [done|]. split; [|done].
  rewrite <- (owned_slots_config _ _ (cluster_config_Namespace cfg w)).
  by apply (unchanged_except_trans [] _ w w1).
Qed.
End Owned.
End Run.

(** ** The theorems *)

(** C2 On a cluster nobody interferes with, one run of [Reconcile] succeeds
    without asking to be called again; afterwards every deployment, the service,
    the config map and every network policy is as the custom resource and the
    cluster's TLS profile ask, and no other object has changed. *)
Theorem Reconcile_converges {W} `{ClusterLaws W} scheme cfg req vpa gvk (w : W) :
  healthy w ->
  view w KVerticalPodAutoscalerController !! req = Some vpa ->
  om_Namespace (vpa_meta vpa) = "" \/ om_Namespace (vpa_meta vpa) = cfg_Namespace cfg ->
  GVKForObject (vpa_type vpa) scheme = inr gvk ->
  overrides_exact vpa = true ->
  let out := run (Reconcile scheme cfg req) w in
  out.1 = (cluster_config cfg w, (zero_Result, None)) /\
  Forall (met out.2) (goals (cluster_config cfg w) vpa) /\
  unchanged_except (owned_slots cfg vpa) w out.2.
Proof.
  intros Hw Hv Hns Hg Hx. destruct (Reconcile_establishes scheme req vpa gvk Hg Hx cfg w Hw Hv Hns)
    as (? & _ & ? & ?). done.
Qed.

Lemma cluster_config_idem {W} `{Cluster W} cfg (w w' : W) :
  view w' KAPIServer !! mkNN "" APIServerName = view w KAPIServer !! mkNN "" APIServerName ->
  cluster_config (cluster_config cfg w) w' = cluster_config cfg w.
Proof.
  intros Hv. unfold cluster_config. cbn [obj] in *. rewrite Hv.
  case_match eqn:Ha; cbn [obj] in *; rewrite ?Ha; [apply synced_TLSProfile_idem | done].
Qed.

(** C8 [Reconcile] is idempotent: a second run, with the configuration the
    first one left, makes no write and records no event, and returns the same. *)
Theorem Reconcile_idempotent {W} `{ClusterLaws W} scheme cfg req vpa gvk (w : W) :
  healthy w ->
  view w KVerticalPodAutoscalerController !! req = Some vpa ->
  om_Namespace (vpa_meta vpa) = "" \/ om_Namespace (vpa_meta vpa) = cfg_Namespace cfg ->
  GVKForObject (vpa_type vpa) scheme = inr gvk ->
  overrides_exact vpa = true ->
  let first := run (Reconcile scheme cfg req) w in
  let again := Reconcile scheme first.1.1 req in
  (run again first.2).1 = first.1 /\
  unchanged_except [] first.2 (run again first.2).2 /\
  recorded (run again first.2).2 = recorded first.2 /\
  Forall (fun s => is_get (st_call s) = true) (trace again first.2).
Proof.
  intros Hw Hv Hns Hg Hx first again. unfold again. clear again.
  destruct (Reconcile_establishes scheme req vpa gvk Hg Hx cfg w Hw Hv Hns) as (Hr & Hw1 & Hu & Hm).
  fold first in Hr, Hw1, Hu, Hm. rewrite Hr. cbn [fst].
  assert (Hin : forall k key, k ∈ [KVerticalPodAutoscalerController; KAPIServer; KNamespace;
    KClusterOperator; KInfrastructure] -> view first.2 k !! key = view w k !! key).
  { intros k key Hk. apply Hu. by apply owned_slots_inputs. }
  assert (Hc : cluster_config (cluster_config cfg w) first.2 = cluster_config cfg w).
  { apply cluster_config_idem, Hin. apply list_elem_of_further, list_elem_of_here. }
  pose proof (eq_trans (Hin KVerticalPodAutoscalerController req (list_elem_of_here _ _)) Hv) as Hv1.
  destruct (Reconcile_rests scheme req vpa (cluster_config cfg w) first.2 Hw1 Hv1) as
    (Hr2 & _ & Hu2 & He2 & Ht2); [by rewrite Hc|].
  rewrite Hr2, Hc. done.
Qed.

(** *** An example cluster *)

Definition example_scheme : Scheme :=
  mkScheme (inr ([mkGVK "autoscaling.openshift.io" "v1" "VerticalPodAutoscalerController"], false)).
Definition example_namespace : Namespace :=
  mkNamespace (named_meta "openshift-vertical-pod-autoscaler" "") no_others.
(** A strict cluster with the Modern profile. *)
Definition example_apiserver : APIServer :=
  mkAPIServer (named_meta "cluster" "") (Some (mkTLSSecurityProfile "Modern" None no_others))
    TLSAdherencePolicyStrictAllComponents no_others.
Definition example_store : Store :=
  put (k:=KVerticalPodAutoscalerController) example_vpa
    (put (k:=KAPIServer) example_apiserver
       (put (k:=KNamespace) example_namespace empty_store)).
Definition example_world (faults : list (option error)) : fake :=
  mkFake example_store 10 0%nat [] faults.
Definition example_request : NamespacedName := mkNN "openshift-vertical-pod-autoscaler" "default".

Lemma well_keyed_empty : well_keyed empty_store.
Proof. intros [] key o Ho; simpl in Ho; by rewrite lookup_empty in Ho. Qed.
Lemma example_well_keyed : well_keyed example_store.
Proof. unfold example_store. apply well_keyed_put, well_keyed_put, well_keyed_put, well_keyed_empty. Qed.

(** The run creates ten objects and reports each; the next run does nothing. *)
Lemma Reconcile_converges_witness :
  let out := run (Reconcile example_scheme example_cfg example_request) (example_world []) in
  out.1.2 = (zero_Result, None) /\
  Forall (met out.2) (goals (cluster_config example_cfg (example_world [])) example_vpa) /\
  length (recorded out.2) = 10%nat.
Proof.
  destruct (Reconcile_converges example_scheme example_cfg example_request example_vpa
    (mkGVK "autoscaling.openshift.io" "v1" "VerticalPodAutoscalerController") (example_world []))
    as (Hr & Hm & _).
  - split; [reflexivity | exact example_well_keyed].
  - reflexivity.
  - right. reflexivity.
  - reflexivity.
  - reflexivity.
  - split; [exact (f_equal snd Hr)|]. split; [exact Hm | vm_compute; reflexivity].
Defined.

Lemma Reconcile_idempotent_witness :
  let first := run (Reconcile example_scheme example_cfg example_request) (example_world []) in
  let again := Reconcile example_scheme first.1.1 example_request in
  recorded (run again first.2).2 = recorded first.2.
Proof.
  destruct (Reconcile_idempotent example_scheme example_cfg example_request example_vpa
    (mkGVK "autoscaling.openshift.io" "v1" "VerticalPodAutoscalerController") (example_world []))
    as (_ & _ & He & _).
  - split; [reflexivity | exact example_well_keyed].
  - reflexivity.
  - right. reflexivity.
  - reflexivity.
  - reflexivity.
  - exact He.
Defined.
