(* ===== verification/Protocol.v ===== *)
(** * All executions of [Reconcile]

    What holds of every run, whatever the API server answers: the calls of
    [Reconcile] follow an abstract protocol.  Each owned object is handled in a
    session that reads it and, when it is missing or not as desired, makes one
    write and reports it; the first failure ends the run.  Nothing is assumed of
    the answers, except (where it is said) that a read returns the object asked
    for: failures, stale reads and other clients are all covered. *)

From S2P Require Import Prelude Go GoFmt Objects Api Util Args Resources Controller Server Operands.
From S2P Require Import Convergence.

(** ** The abstract protocol *)

(** A read returns the object it asked for. *)
Definition keyed : env := fun c =>
  match c return resp c -> Prop with
  | Get k key => fun r => match r with inr o => obj_key o = key | inl _ => True end
  | _ => fun _ => True
  end.

(** The metadata that an update keeps: everything but the managed annotations. *)
Definition meta_preserved (managed : list string) (m m' : ObjectMeta) : Prop :=
  om_Name m' = om_Name m /\ om_Namespace m' = om_Namespace m /\ om_UID m' = om_UID m /\
  om_ResourceVersion m' = om_ResourceVersion m /\ om_Labels m' = om_Labels m /\
  om_OwnerReferences m' = om_OwnerReferences m /\ om_others m' = om_others m /\
  forall k, k ∉ managed -> gm_lookup k (om_Annotations m') = gm_lookup k (om_Annotations m).

(** What an update keeps of the object it read.  Network policies are replaced. *)
Definition preserved (k : kind) : obj k -> obj k -> Prop :=
  match k return obj k -> obj k -> Prop with
  | KDeployment => fun d d' =>
      meta_preserved [ReleaseVersionAnnotation] (dep_meta d) (dep_meta d') /\
      meta_preserved [ReleaseVersionAnnotation] (pt_meta (ds_Template (dep_Spec d)))
        (pt_meta (ds_Template (dep_Spec d'))) /\
      ds_Selector (dep_Spec d') = ds_Selector (dep_Spec d) /\
      ds_others (dep_Spec d') = ds_others (dep_Spec d) /\ dep_Status d' = dep_Status d
  | KService => fun s s' =>
      meta_preserved [ReleaseVersionAnnotation; webhookCertAnnotationName] (svc_meta s) (svc_meta s') /\
      ss_others (svc_Spec s') = ss_others (svc_Spec s) /\ svc_Status s' = svc_Status s
  | KConfigMap => fun c c' =>
      meta_preserved [ReleaseVersionAnnotation; cACertAnnotationName] (cm_meta c) (cm_meta c') /\
      cm_others c' = cm_others c
  | KNetworkPolicy => fun _ _ => True
  | _ => eq
  end.

Section Sessions.
Context (scheme : Scheme) (vpa : VerticalPodAutoscalerController).

(** The object has one owner, the custom resource, as its controller. *)
Definition controlled {k} (o : obj k) : Prop :=
  exists gvk, GVKForObject (vpa_type vpa) scheme = inr gvk /\
  om_OwnerReferences (obj_meta k o) = [controller_ref vpa gvk].

Definition warning (e : Event) : Prop := ev_type e = EventTypeWarning.
Definition normal (e : Event) : Prop := ev_type e = EventTypeNormal.
(** The note of a warning ends with the error it reports. *)
Definition reports (e : Event) (err : error) : Prop :=
  warning e /\ exists what, ev_note e = what +:+ ": " +:+ Error err.

Definition reads (k : kind) (key : NamespacedName) (rs : list (error + obj k)) : list step :=
  map (mkStep (Get k key)) rs.
Definition event (e : Event) : step := mkStep (Eventf e) tt.

(** What is written is as desired, and stays so when the server fills in what it
    leaves out (provided it stores the quantities of the overrides as they are). *)
Definition lasting (g : goal) (o : obj (goal_kind g)) : Prop :=
  goal_ok g o /\
  (overrides_exact vpa = true -> forall o', admitted (goal_kind g) o o' -> goal_ok g o').

(** The calls that handle one owned object, and the error they end with. *)
Inductive session (g : goal) : list step -> option error -> Prop :=
| session_settled rs o :
    Forall (fun r => err_of r = None) rs -> goal_ok g o ->
    session g (reads (goal_kind g) (goal_key g) (rs ++ [inr o])) None
| session_read_failed rs err e :
    reports e err ->
    session g (reads (goal_kind g) (goal_key g) (rs ++ [inl err]) ++ [event e]) (Some err)
| session_refused nf m e err :
    IsNotFound nf = true -> om_Namespace m = nn_Namespace (goal_key g) ->
    om_OwnerReferences m = [] -> SetControllerReference vpa m scheme = inl err ->
    Forall (fun e => reports e err) e ->
    session g (reads (goal_kind g) (goal_key g) [inl nf] ++ map event e) (Some err)
| session_create nf o r e :
    IsNotFound nf = true -> obj_key o = goal_key g -> controlled o -> lasting g o ->
    match err_of r with Some err => reports e err | None => normal e end ->
    session g (reads (goal_kind g) (goal_key g) [inl nf] ++
               [mkStep (Create (goal_kind g) o) r; event e]) (err_of r)
| session_update rs o0 o r e :
    Forall (fun r => err_of r = None) rs -> ~ goal_ok g o0 -> obj_key o = goal_key g -> preserved (goal_kind g) o0 o -> lasting g o ->
    match err_of r with Some err => reports e err | None => normal e end ->
    session g (reads (goal_kind g) (goal_key g) (rs ++ [inr o0]) ++
               [mkStep (Update (goal_kind g) o) r; event e]) (err_of r).

(** One session per goal, in order, until one fails. *)
Inductive sessions : list goal -> list step -> option error -> Prop :=
| sessions_nil : sessions [] [] None
| sessions_next g gs tr tr' e :
    session g tr None -> sessions gs tr' e -> sessions (g :: gs) (tr ++ tr') e
| sessions_stop g gs tr err : session g tr (Some err) -> sessions (g :: gs) tr (Some err).

Lemma sessions_one g tr e : session g tr e -> sessions [g] tr e.
Proof.
  intros Hs. destruct e as [err|]; [by apply sessions_stop|].
  rewrite <- (app_nil_r tr). apply sessions_next; [done | constructor].
Qed.
Lemma sessions_app gs hs tr tr' e :
  sessions gs tr None -> sessions hs tr' e -> sessions (gs ++ hs) (tr ++ tr') e.
Proof.
  revert tr; induction gs as [|g gs IH]; intros tr Hg Hh; inversion Hg; subst; [done|].
  rewrite <- app_assoc. simpl. apply sessions_next; auto.
Qed.
Lemma sessions_stop_app gs hs tr err : sessions gs tr (Some err) -> sessions (gs ++ hs) tr (Some err).
Proof.
  revert tr; induction gs as [|g gs IH]; intros tr Hg; inversion Hg; subst; simpl.
  - apply sessions_next; auto.
  - by apply sessions_stop.
Qed.

(** A program whose executions are sessions. *)
Definition follows (p : prog (option error)) (gs : list goal) : Prop :=
  wp keyed p (fun tr e => sessions gs tr e).

Lemma follows_then p q gs hs : follows p gs -> follows q hs -> follows (and_then p q) (gs ++ hs).
Proof.
  intros Hp Hq. unfold follows, and_then. apply wp_bind. eapply wp_mono; [|exact Hp].
  intros tr [err|] Hs.
  - simpl. rewrite app_nil_r. by apply sessions_stop_app.
  - eapply wp_mono; [|exact Hq]. intros tr' e. by apply sessions_app.
Qed.
Lemma follows_each {A} (l : list A) body (g : A -> goal) :
  (forall x, x ∈ l -> follows (body x) [g x]) -> follows (for_each l body) (map g l).
Proof.
  induction l as [|x l IH]; intros Hb; [constructor|].
  apply (follows_then (body x) (for_each l body) [g x] (map g l)).
  - apply Hb, list_elem_of_here.
  - apply IH. intros y Hy. by apply Hb, list_elem_of_further.
Qed.
End Sessions.

(** ** [Reconcile] follows the protocol *)

Lemma SetControllerReference_created vpa m scheme m' :
  om_OwnerReferences m = [] -> SetControllerReference vpa m scheme = inr m' ->
  exists gvk, GVKForObject (vpa_type vpa) scheme = inr gvk /\
    m' = SetOwnerReferences [controller_ref vpa gvk] m.
Proof.
  intros Ho. unfold SetControllerReference. destruct (validateOwner _ _); [done|].
  destruct (GVKForObject _ _) as [|gvk]; [done|]. rewrite Ho. simpl. intros [= <-]. by exists gvk.
Qed.

Lemma reports_failure ref reason action what err :
  reports (mkEvent ref EventTypeWarning reason action (what +:+ ": " +:+ Error err)) err.
Proof. split; [done|]. by exists what. Qed.

Lemma annotation_preserved k v (a : gomap string) (managed : list string) k' :
  k ∈ managed -> k' ∉ managed ->
  gm_lookup k' (mkmap (<[k:=v]> (annotations_or_empty a))) = gm_lookup k' a.
Proof.
  intros Hk Hk'. unfold gm_lookup; simpl. rewrite lookup_insert_ne by (intros ->; done).
  by destruct a.
Qed.
Lemma annotations_preserved k1 v1 k2 v2 (a : gomap string) k' :
  k' ∉ [k1; k2] ->
  gm_lookup k' (mkmap (<[k2:=v2]> (<[k1:=v1]> (annotations_or_empty a)))) = gm_lookup k' a.
Proof.
  rewrite !not_elem_of_cons. intros (H1 & H2 & _). unfold gm_lookup; simpl.
  rewrite !lookup_insert_ne by congruence. by destruct a.
Qed.

(** The end of a session: a failure or a success is reported. *)
Definition reported (ref : option ObjectReference) (bad good : string * string * string)
    (r : option error) : prog (option error) :=
  match r with
  | Some err => fail_with ref bad.1.1 bad.1.2 bad.2 err
  | None => succeed_with ref good.1.1 good.1.2 good.2
  end.

Section Endings.
Context (scheme : Scheme) (vpa : VerticalPodAutoscalerController) (g : goal).
Context (ref : option ObjectReference).
#[local] Abbreviation read r := (mkStep (Get (goal_kind g) (goal_key g)) r).

Lemma follows_failure rs err reason action what :
  wp keyed (fail_with ref reason action what err)
    (fun tr e => sessions scheme vpa [g]
      (reads (goal_kind g) (goal_key g) (rs ++ [inl err]) ++ tr) e).
Proof.
  intros [] _. apply sessions_one. apply session_read_failed. apply reports_failure.
Qed.
Lemma follows_refusal nf m err reason action what :
  IsNotFound nf = true -> SetControllerReference vpa m scheme = inl err ->
  om_Namespace m = nn_Namespace (goal_key g) -> om_OwnerReferences m = [] ->
  wp keyed (fail_with ref reason action what err)
    (fun tr e => sessions scheme vpa [g] (read (inl nf) :: tr) e).
Proof.
  intros Hnf Href Hns Ho [] _. apply sessions_one.
  eapply (session_refused _ _ g nf m [_]); try done. constructor; [|constructor].
  apply reports_failure.
Qed.
Lemma follows_create nf o bad good k :
  IsNotFound nf = true -> obj_key o = goal_key g -> controlled scheme vpa o -> lasting vpa g o ->
  (forall r, k r = reported ref bad good (err_of r)) ->
  wp keyed (Do (Create (goal_kind g) o) k)
    (fun tr e => sessions scheme vpa [g] (read (inl nf) :: tr) e).
Proof.
  intros Hnf Hkey Hc Hok Hk r _. rewrite Hk. destruct r as [err|o']; intros [] _; apply sessions_one.
  - apply (session_create _ _ g nf o (inl err)); try done. apply reports_failure.
  - by apply (session_create _ _ g nf o (inr o')).
Qed.
Lemma follows_update rs o0 o bad good k :
  Forall (fun r => err_of r = None) rs -> ~ goal_ok g o0 -> obj_key o = goal_key g -> preserved (goal_kind g) o0 o -> lasting vpa g o ->
  (forall r, k r = reported ref bad good (err_of r)) ->
  wp keyed (Do (Update (goal_kind g) o) k)
    (fun tr e => sessions scheme vpa [g]
      (reads (goal_kind g) (goal_key g) (rs ++ [inr o0]) ++ tr) e).
Proof.
  intros Hrs H0 Hkey Hp Hok Hk r _. rewrite Hk. destruct r as [err|o']; intros [] _; apply sessions_one.
  - apply (session_update _ _ g rs o0 o (inl err)); try done. apply reports_failure.
  - by apply (session_update _ _ g rs o0 o (inr o')).
Qed.
Lemma follows_settled rs o :
  Forall (fun r => err_of r = None) rs -> goal_ok g o ->
  sessions scheme vpa [g] (reads (goal_kind g) (goal_key g) (rs ++ [inr o])) None.
Proof. intros Hrs Hok. by apply sessions_one, session_settled. Qed.
End Endings.

Section Follows.
Context (scheme : Scheme) (cfg : Config) (vpa : VerticalPodAutoscalerController).
Context (vpaRef : option ObjectReference).

Lemma updated_deployment_preserved params d :
  preserved KDeployment d (updated_deployment cfg vpa params d).
Proof.
  split; [|split; [|done]]; repeat split; intros k Hk; simpl;
    eapply annotation_preserved; [|exact Hk| |exact Hk]; apply list_elem_of_here.
Qed.
Lemma updated_deployment_lasting o d :
  lasting vpa (deployment_goal cfg vpa (operand_params o)) (updated_deployment cfg vpa (operand_params o) d).
Proof.
  split; [split; [apply sem_refl|]; split; [done | apply UpdateAnnotations_lookup]|].
  intros Hx d' Hd'. eapply (expected_deployed cfg vpa Hx); [| | |exact Hd']; try done.
  apply UpdateAnnotations_lookup.
Qed.
Lemma created_deployment_lasting o m :
  om_Annotations m = om_Annotations (dep_meta (AutoscalerDeployment cfg vpa (operand_params o))) ->
  lasting vpa (deployment_goal cfg vpa (operand_params o))
    (with_meta KDeployment (fun _ => m) (AutoscalerDeployment cfg vpa (operand_params o))).
Proof.
  intros Hm. assert (Ha : gm_lookup ReleaseVersionAnnotation (om_Annotations m) = Some (cfg_ReleaseVersion cfg))
    by (by rewrite Hm).
  split; [split; [apply sem_refl | by split]|].
  intros Hx d' Hd'. by eapply (expected_deployed cfg vpa Hx); [| | |exact Hd'].
Qed.
Lemma merged_service_preserved s : preserved KService s (merged_service cfg vpa s).
Proof. split; [|done]. repeat split. intros k Hk. by apply annotations_preserved. Qed.
Lemma served_lasting s m :
  ss_Ports (svc_Spec s) = ss_Ports (svc_Spec (WebhookService cfg vpa)) ->
  ss_Selector (svc_Spec s) = ss_Selector (svc_Spec (WebhookService cfg vpa)) ->
  om_Annotations (svc_meta s) = om_Annotations (UpdateServiceAnnotations cfg m) ->
  lasting vpa (service_goal cfg vpa) s.
Proof.
  intros Hp Hs Hm. split; [|intros _ s'; by apply expected_served with m].
  cbn [goal_ok service_goal]. unfold served. rewrite Hp, Hs, Hm.
  split; [apply sem_refl|]. split; [apply sem_refl|]. apply UpdateServiceAnnotations_lookups.
Qed.
Lemma injected_lasting c m :
  om_Annotations (cm_meta c) = om_Annotations (UpdateConfigMapAnnotations cfg m) ->
  lasting vpa (configmap_goal cfg) c.
Proof.
  intros Hm. split; [|intros _ c'; by apply expected_injected with m].
  cbn [goal_ok configmap_goal]. unfold injected. rewrite Hm. apply UpdateConfigMapAnnotations_lookups.
Qed.
Lemma policy_lasting p o :
  policy_complete (np_Spec p) = true -> np_Spec o = np_Spec p -> lasting vpa (policy_goal cfg p) o.
Proof.
  intros Hp Ho. split; [cbn [goal_ok policy_goal]; unfold enforced; rewrite Ho; apply sem_refl|].
  intros _ o' [_ Ho']. change (np_Spec p ≃ np_Spec o'). symmetry. rewrite <- Ho in Hp |- *.
  exact (Ho' Hp).
Qed.
Lemma merged_configmap_preserved c : preserved KConfigMap c (merged_configmap cfg c).
Proof. split; [|done]. repeat split. intros k Hk. by apply annotations_preserved. Qed.

Lemma reconcile_operand_follows o (params := operand_params o) :
  follows scheme vpa (reconcile_operand scheme cfg vpa vpaRef params)
    [deployment_goal cfg vpa params].
Proof.
  unfold follows, reconcile_operand, UpdateAutoscaler, CreateAutoscaler.
  set (g := deployment_goal cfg vpa params).
  assert (Ho : om_OwnerReferences (dep_meta (AutoscalerDeployment cfg vpa params)) = []) by (by destruct o).
  assert (Hkey : obj_key (k:=KDeployment) (AutoscalerDeployment cfg vpa params) = NameMethod params cfg vpa)
    by (by destruct o).
  cbn [wp bind ask]. intros [err|d0] Hd0; cbv beta iota.
  - destruct (IsNotFound err) eqn:Hnf; [|apply (follows_failure _ _ g _ [])]. cbn [negb].
    destruct (SetControllerReference vpa _ scheme) as [refused|meta] eqn:Href;
      [eapply (follows_refusal _ _ g); [exact Hnf | exact Href | exact (f_equal nn_Namespace Hkey) | done]|].
    destruct (SetControllerReference_created _ _ _ _ Ho Href) as (gvk & Hgvk & ->).
    eapply (follows_create _ _ g _ _ _ (_, _, _) (_, _, _)); try done; [by exists gvk|].
    by apply (created_deployment_lasting o).
  - cbn [wp bind ask]. intros [err|d] Hd; cbv beta iota;
      [apply (follows_failure _ _ g _ [inr d0])|].
    destruct (deployment_current cfg vpa params d) eqn:Hcur.
    + apply (follows_settled _ _ g [inr d0]); [by repeat constructor|].
      exact (proj1 (deployment_current_spec cfg vpa params d) Hcur).
    + eapply (follows_update _ _ g _ [inr d0] _ _ (_, _, _) (_, _, _)).
      * by repeat constructor.
      * cbn [goal_ok deployment_goal]. subst g. cbn [goal_ok deployment_goal].
        rewrite <- deployment_current_spec, Hcur. done.
      * done.
      * apply updated_deployment_preserved.
      * apply (updated_deployment_lasting o).
      * by intros [].
Qed.

Lemma reconcile_service_follows :
  follows scheme vpa (reconcile_service scheme cfg vpa vpaRef) [service_goal cfg vpa].
Proof.
  unfold follows, reconcile_service, UpdateWebhookService, CreateWebhookService.
  set (g := service_goal cfg vpa).
  cbn [wp bind ask]. intros [err|s0] Hs0; cbv beta iota.
  - destruct (IsNotFound err) eqn:Hnf; [|apply (follows_failure _ _ g _ [])]. cbn [negb].
    destruct (SetControllerReference vpa _ scheme) as [refused|meta] eqn:Href;
      [by eapply (follows_refusal _ _ g); [exact Hnf | exact Href | |]|].
    destruct (SetControllerReference_created _ _ _ _
      (eq_refl : om_OwnerReferences (svc_meta (WebhookService cfg vpa)) = []) Href) as (gvk & Hgvk & ->).
    eapply (follows_create _ _ g _ _ _ (_, _, _) (_, _, _)); try done; [by exists gvk|].
    by apply (served_lasting _ (named_meta "" "")).
  - cbn [wp bind ask]. intros [err|s] Hs; cbv beta iota;
      [apply (follows_failure _ _ g _ [inr s0])|].
    destruct (sem_eqb s (merged_service cfg vpa s)) eqn:Hcur.
    + apply (follows_settled _ _ g [inr s0]); [by repeat constructor | by apply merged_service_spec].
    + eapply (follows_update _ _ g _ [inr s0] _ _ (_, _, _) (_, _, _)).
      * by repeat constructor.
      * intros Hok%merged_service_spec. exact (eq_true_false_abs _ Hok Hcur).
      * exact Hs.
      * apply merged_service_preserved.
      * by apply (served_lasting _ (svc_meta s)).
      * by intros [].
Qed.

Lemma reconcile_configmap_follows :
  follows scheme vpa (reconcile_configmap scheme cfg vpa vpaRef) [configmap_goal cfg].
Proof.
  unfold follows, reconcile_configmap, UpdateCAConfigMap, CreateCAConfigMap.
  set (g := configmap_goal cfg).
  cbn [wp bind ask]. intros [err|c0] Hc0; cbv beta iota.
  - destruct (IsNotFound err) eqn:Hnf; [|apply (follows_failure _ _ g _ [])]. cbn [negb].
    destruct (SetControllerReference vpa _ scheme) as [refused|meta] eqn:Href;
      [by eapply (follows_refusal _ _ g); [exact Hnf | exact Href | |]|].
    destruct (SetControllerReference_created _ _ _ _
      (eq_refl : om_OwnerReferences (cm_meta (CAConfigMap cfg vpa)) = []) Href) as (gvk & Hgvk & ->).
    eapply (follows_create _ _ g _ _ _ (_, _, _) (_, _, _)); try done; [by exists gvk|].
    by apply (injected_lasting _ (named_meta "" "")).
  - cbn [wp bind ask]. intros [err|c] Hc; cbv beta iota;
      [apply (follows_failure _ _ g _ [inr c0])|].
    destruct (sem_eqb c (merged_configmap cfg c)) eqn:Hcur.
    + apply (follows_settled _ _ g [inr c0]); [by repeat constructor | by apply merged_configmap_spec].
    + eapply (follows_update _ _ g _ [inr c0] _ _ (_, _, _) (_, _, _)).
      * by repeat constructor.
      * intros Hok%merged_configmap_spec. exact (eq_true_false_abs _ Hok Hcur).
      * exact Hc.
      * apply merged_configmap_preserved.
      * by apply (injected_lasting _ (cm_meta c)).
      * by intros [].
Qed.

Lemma reconcile_policy_follows p :
  p ∈ NetworkPolicies cfg vpa ->
  follows scheme vpa (reconcile_policy scheme cfg vpa vpaRef p) [policy_goal cfg p].
Proof.
  intros (Hcomp & Hns & Ho & _)%policies_complete. unfold follows, reconcile_policy.
  set (g := policy_goal cfg p).
  assert (Hkey : meta_key (np_meta p) = goal_key g) by (subst g; simpl; by rewrite <- Hns).
  cbn [wp bind ask]. intros [err|old] _; cbv beta iota.
  - destruct (IsNotFound err) eqn:Hnf; [|apply (follows_failure _ _ g _ [])]. cbn [negb].
    destruct (SetControllerReference vpa _ scheme) as [refused|meta] eqn:Href.
    { apply sessions_one. by eapply (session_refused _ _ g err _ []); [exact Hnf | | |exact Href|]. }
    destruct (SetControllerReference_created _ _ _ _ Ho Href) as (gvk & Hgvk & ->).
    eapply (follows_create _ _ g _ _ _ (_, _, _) (_, _, _)); try done.
    + by exists gvk.
    + by apply policy_lasting.
  - destruct (sem_eqb (np_Spec p) (np_Spec old)) eqn:Hcur.
    + by apply (follows_settled _ _ g []).
    + eapply (follows_update _ _ g _ [] old _ (_, _, _) (_, _, _)); try done.
      * intros Hok. exact (eq_true_false_abs _ Hok Hcur).
      * by apply policy_lasting.
Qed.

Lemma reconcile_all_follows :
  follows scheme vpa (reconcile_all scheme cfg vpa vpaRef) (goals cfg vpa).
Proof.
  unfold reconcile_all, goals. apply follows_then.
  { apply follows_each. rewrite controllerParams_operands.
    intros ? (o & -> & _)%list_elem_of_fmap. apply reconcile_operand_follows. }
  apply follows_then; [apply reconcile_service_follows|].
  apply follows_then; [apply reconcile_configmap_follows|].
  apply follows_each. apply reconcile_policy_follows.
Qed.
End Follows.

(** ** What the protocol guarantees *)

(** The error a call was answered with. *)
Definition answer_error (c : call) : resp c -> option error :=
  match c return resp c -> option error with
  | Get _ _ | Create _ _ | Update _ _ | UpdateStatus _ _ | Patch _ _ _ => err_of
  | Eventf _ => fun _ => None
  | Now => fun _ => None
  end.
Definition step_error (s : step) : option error := answer_error (st_call s) (st_resp s).
Definition step_writes (s : step) : bool := is_write (st_call s).

(** The custom resource that a step read. *)
Definition vpa_read (s : step) : option VerticalPodAutoscalerController :=
  let '(mkStep c r) := s in
  match c return resp c -> option VerticalPodAutoscalerController with
  | Get KVerticalPodAutoscalerController _ => fun r => match r with inr o => Some o | inl _ => None end
  | _ => fun _ => None
  end r.

(** A call that [Reconcile] may make for the custom resource. *)
Definition lawful (scheme : Scheme) (vpa : VerticalPodAutoscalerController) (slots : list slot)
    (s : step) : Prop :=
  match st_call s with
  | Get k key => (k, key) ∈ slots
  | Create k o => (k, obj_key o) ∈ slots /\ controlled scheme vpa o
  | Update k o => (k, obj_key o) ∈ slots
  | Eventf _ => True
  | UpdateStatus _ _ | Patch _ _ _ | Now => False
  end.

(** The rest of a run after a write that was answered: its report, and nothing
    more if it failed, when the run ends with its error. *)
Definition answered (s : step) (rest : list step) (result : option error) : Prop :=
  exists e rest', rest = event e :: rest' /\
  match step_error s with
  | Some err => reports e err /\ rest' = [] /\ result = Some err
  | None => normal e
  end.
Definition audited (tr : list step) (result : option error) : Prop :=
  forall pre s post, tr = pre ++ s :: post -> step_writes s = true -> answered s post result.

Section Guarantees.
Context (scheme : Scheme) (vpa : VerticalPodAutoscalerController).

Lemma session_lawful g tr e slots :
  goal_slot g ∈ slots -> session scheme vpa g tr e -> Forall (lawful scheme vpa slots) tr.
Proof.
  intros Hg Hs.
  assert (Hr : forall rs, Forall (lawful scheme vpa slots) (reads (goal_kind g) (goal_key g) rs)).
  { intros rs. unfold reads. apply Forall_map, Forall_forall. done. }
  inversion Hs; subst; clear Hs; rewrite ?Forall_app; split_and?; auto.
  - by repeat constructor.
  - apply Forall_map, Forall_forall. done.
  - repeat constructor; try done. unfold lawful, goal_slot in *. simpl. by rewrite H0.
  - repeat constructor. unfold lawful, goal_slot in *. simpl. by rewrite H1.
Qed.
Lemma sessions_lawful gs tr e slots :
  map goal_slot gs ⊆ slots -> sessions scheme vpa gs tr e -> Forall (lawful scheme vpa slots) tr.
Proof.
  intros Hg Hs. induction Hs as [|g gs tr tr' e Hs _ IH|g gs tr err Hs].
  - constructor.
  - apply Forall_app. split.
    + eapply session_lawful; [|exact Hs]. apply Hg, list_elem_of_here.
    + apply IH. intros sl Hsl. by apply Hg, list_elem_of_further.
  - eapply session_lawful; [|exact Hs]. apply Hg, list_elem_of_here.
Qed.

(** Reads and events need no report; a write at the end has its own. *)
Lemma audited_quiet tr e : Forall (fun s => step_writes s = false) tr -> audited tr e.
Proof.
  intros Hq pre s post -> Hw. apply Forall_app in Hq as [_ Hq]. apply Forall_cons in Hq as [Hs _].
  congruence.
Qed.
Lemma audited_prefix tr tr' e :
  Forall (fun s => step_writes s = false) tr -> audited tr' e -> audited (tr ++ tr') e.
Proof.
  intros Hq Ha. induction Hq as [|s tr Hs Hq IH]; [done|].
  intros [|s' pre] w post Heq Hw; simpl in Heq; injection Heq as -> Heq; [congruence|].
  by apply (IH pre w post).
Qed.
Lemma audited_app tr tr' e : audited tr None -> audited tr' e -> audited (tr ++ tr') e.
Proof.
  intros Ha Hb. induction tr as [|s tr IH]; [done|].
  intros [|s' pre] w post Heq Hw; simpl in Heq; injection Heq as -> Heq.
  - destruct (Ha [] w tr eq_refl Hw) as (ev & rest & Htr & Hans). rewrite <- Heq, Htr.
    exists ev, (rest ++ tr'). split; [done|]. destruct (step_error w); [|done].
    by destruct Hans as (_ & _ & ?).
  - apply (IH ltac:(intros p x q Hx; apply (Ha (s' :: p)); by rewrite Hx) pre w post Heq Hw).
Qed.
Lemma session_audited g tr e : session scheme vpa g tr e -> audited tr e.
Proof.
  assert (Hr : forall rs, Forall (fun s => step_writes s = false) (reads (goal_kind g) (goal_key g) rs)).
  { intros rs. unfold reads. apply Forall_map, Forall_forall. done. }
  assert (Hw : forall s ev, step_writes s = true ->
    match step_error s with Some err => reports ev err | None => normal ev end ->
    audited [s; event ev] (step_error s)).
  { intros s ev Hs Hev [|s1 [|s2 [|s3 pre]]] w post Heq Hw'; simplify_eq/=.
    exists ev, []. split; [done|]. by destruct (step_error w). }
  intros Hs; inversion Hs; subst.
  - by apply audited_quiet.
  - apply audited_prefix, audited_quiet; [done|]. by repeat constructor.
  - apply audited_prefix, audited_quiet; [done|]. apply Forall_map, Forall_forall. done.
  - apply audited_prefix; [done|]. by apply Hw.
  - apply audited_prefix; [done|]. by apply Hw.
Qed.
Lemma sessions_audited gs tr e : sessions scheme vpa gs tr e -> audited tr e.
Proof.
  intros Hs. induction Hs as [|g gs tr tr' e Hs _ IH|g gs tr err Hs].
  - by apply audited_quiet.
  - apply audited_app; [|done]. by eapply session_audited.
  - by eapply session_audited.
Qed.

(** A failed run ends with a report, unless the custom resource may not own
    the object that was missing. *)
Lemma session_failed g tr err :
  session scheme vpa g tr (Some err) ->
  (exists tr' e, tr = tr' ++ [event e] /\ reports e err) \/
  (exists m, om_Namespace m = nn_Namespace (goal_key g) /\ om_OwnerReferences m = [] /\
    SetControllerReference vpa m scheme = inl err).
Proof.
  intros Hs; inversion Hs; subst.
  - left. eexists _, e. split; done.
  - right. eexists m. done.
  - left. eexists (_ ++ [_]), e. rewrite <- app_assoc. split; [done|].
    destruct r; simplify_eq/=. done.
  - left. eexists (_ ++ [_]), e. rewrite <- app_assoc. split; [done|].
    destruct r; simplify_eq/=. done.
Qed.
(** The session that fails is one of the goals'. *)
Lemma sessions_failed gs tr err :
  sessions scheme vpa gs tr (Some err) ->
  exists g pre last, tr = pre ++ last /\ g ∈ gs /\ session scheme vpa g last (Some err).
Proof.
  remember (Some err) as e eqn:He. intros Hs.
  induction Hs as [|g gs tr tr' e Hs _ IH|g gs tr err' Hs]; [done | |].
  - destruct (IH He) as (g' & pre & last & -> & Hin & Hl). exists g', (tr ++ pre), last.
    split; [by rewrite app_assoc|]. split; [by apply list_elem_of_further | done].
  - simplify_eq. exists g, [], tr. split; [done|]. split; [apply list_elem_of_here | done].
Qed.
End Guarantees.

(** ** The theorems *)

Section Reconcile.
Context (scheme : Scheme) (cfg : Config) (req : NamespacedName).

Lemma Reconcile_wp :
  wp keyed (Reconcile scheme cfg req) (fun tr out =>
    exists a g rest,
      tr = mkStep (Get KAPIServer (mkNN "" APIServerName)) a ::
           mkStep (Get KVerticalPodAutoscalerController req) g :: rest /\
      out.1 = synced_TLSProfile cfg a /\ out.2.1 = zero_Result /\
      match g with
      | inl err => rest = [] /\ out.2.2 = if IsNotFound err then None else Some err
      | inr vpa => sessions scheme vpa (goals out.1 vpa) rest out.2.2
      end).
Proof.
  unfold Reconcile, syncTLSProfile. cbn [wp bind ask]. intros a _. cbn [wp bind ask].
  intros [err|vpa] _; cbv beta iota.
  - destruct (IsNotFound err) eqn:He; exists a, (inl err), []; simpl; rewrite ?He; done.
  - apply wp_bind. eapply wp_mono; [|apply reconcile_all_follows].
    intros tr e Hs. simpl. exists a, (inr vpa), tr. rewrite app_nil_r. done.
Qed.
End Reconcile.

(** C7 Every execution of [Reconcile], whatever the API server answers, follows
    the protocol: read the cluster's TLS profile, read the custom resource (give
    up quietly when it is gone, with the error when it cannot be read), then one
    session per owned object, in order, up to the first error. *)
Theorem Reconcile_follows_protocol scheme cfg req tr cfg' res e :
  exec (Reconcile scheme cfg req) tr (cfg', (res, e)) -> respects keyed tr ->
  exists a g rest,
    tr = mkStep (Get KAPIServer (mkNN "" APIServerName)) a ::
         mkStep (Get KVerticalPodAutoscalerController req) g :: rest /\
    cfg' = synced_TLSProfile cfg a /\ res = zero_Result /\
    match g with
    | inl err => rest = [] /\ e = if IsNotFound err then None else Some err
    | inr vpa => sessions scheme vpa (goals cfg' vpa) rest e
    end.
Proof. intros Hx Hk. exact (proj1 (wp_exec _ _ _) (Reconcile_wp scheme cfg req) tr _ Hx Hk). Qed.

(** C24 In every execution, after the two initial reads, [Reconcile] touches the
    slots of the ten owned objects only, all of them in the operator's
    namespace; it creates nothing without the custom resource as controller, and
    it deletes nothing, patches nothing and updates no status. *)
Theorem Reconcile_confined scheme cfg req tr cfg' res e vpa :
  exec (Reconcile scheme cfg req) tr (cfg', (res, e)) -> respects keyed tr ->
  vpa_read <$> tr !! 1%nat = Some (Some vpa) ->
  Forall (lawful scheme vpa (owned_slots cfg vpa)) (drop 2 tr) /\
  Forall (fun sl => nn_Namespace sl.2 = cfg_Namespace cfg) (owned_slots cfg vpa).
Proof.
  intros Hx Hk Hv. split; [|by repeat constructor].
  destruct (proj1 (wp_exec _ _ _) (Reconcile_wp scheme cfg req) tr _ Hx Hk) as
    (a & g & rest & -> & Hcfg & _ & Hg). simpl in Hcfg, Hv. destruct g as [|vpa']; simplify_eq.
  simpl in Hg |- *. rewrite drop_0. eapply sessions_lawful; [|exact Hg].
  fold (owned_slots (synced_TLSProfile cfg a) vpa).
  by rewrite (owned_slots_config vpa cfg) by apply synced_TLSProfile_Namespace.
Qed.

(** C11 In every execution each write is followed at once by its event: a
    warning with the error when it failed, and then the run ends with that
    error; a normal event when it succeeded. *)
Theorem Reconcile_audited scheme cfg req tr cfg' res e :
  exec (Reconcile scheme cfg req) tr (cfg', (res, e)) -> respects keyed tr -> audited tr e.
Proof.
  intros Hx Hk. destruct (proj1 (wp_exec _ _ _) (Reconcile_wp scheme cfg req) tr _ Hx Hk) as
    (a & g & rest & -> & _ & _ & Hg). simpl in Hg.
  apply (audited_prefix [_; _]); [by repeat constructor|].
  destruct g as [err|vpa]; [|by eapply sessions_audited].
  destruct Hg as [-> _]. by apply audited_quiet.
Qed.

(** No failure is silent: when a run that has read the custom resource
    returns an error, its last call is a warning event with that error (provided
    the custom resource can own objects of the operator's namespace). *)
Lemma Reconcile_reports_failures scheme cfg req tr cfg' res err vpa gvk :
  exec (Reconcile scheme cfg req) tr (cfg', (res, Some err)) -> respects keyed tr ->
  vpa_read <$> tr !! 1%nat = Some (Some vpa) ->
  GVKForObject (vpa_type vpa) scheme = inr gvk ->
  om_Namespace (vpa_meta vpa) = "" \/ om_Namespace (vpa_meta vpa) = cfg_Namespace cfg ->
  exists tr' ev, tr = tr' ++ [event ev] /\ reports ev err.
Proof.
  intros Hx Hk Hv Hgvk Hns.
  destruct (proj1 (wp_exec _ _ _) (Reconcile_wp scheme cfg req) tr _ Hx Hk) as
    (a & g & rest & -> & Hcfg & _ & Hg). simpl in Hcfg, Hv. destruct g as [|vpa']; simplify_eq.
  simpl in Hg. destruct (sessions_failed _ _ _ _ _ Hg) as (g & pre & last & -> & Hin & Hs).
  destruct (session_failed _ _ _ _ _ Hs) as [(tr' & ev & -> & Hev)|(m & Hm & Ho & Href)].
  - eexists (_ :: _ :: pre ++ tr'), ev. split; [|done]. simpl. by rewrite <- app_assoc.
  - exfalso. rewrite (SetControllerReference_fresh vpa m scheme gvk) in Href; [done | | done | done].
    destruct Hns as [?|Hns]; [by left | right]. rewrite Hm, Hns.
    assert (Hall : Forall (fun g => nn_Namespace (goal_key g) = cfg_Namespace cfg)
      (goals (synced_TLSProfile cfg a) vpa)) by (repeat constructor; apply synced_TLSProfile_Namespace).
    rewrite Forall_forall in Hall. symmetry. by apply Hall.
Qed.
