(* ===== verification/Liveness.v ===== *)
(** * Convergence through failures

    controller-runtime calls [Reconcile] again after an error.  Around any cluster
    that keeps to the laws there may be a network on which calls fail: before they
    reach the server, or after the server has done what was asked, when only the
    answer is lost.  The attempts converge as soon as the failures stop: one attempt
    more than there are failures is enough, whatever they are and wherever they
    strike. *)

From S2P Require Import Prelude Go GoFmt Objects Api Util Args Resources Controller Server Operands.
From S2P Require Import Convergence Protocol.

(** ** Attempts *)

(** Calling [Reconcile] [n] times, with the configuration it keeps. *)
Fixpoint attempts {M} `{Handler M} (scheme : Scheme) (req : NamespacedName) (n : nat) (cfg : Config) (m : M) :
    Config * M :=
  match n with
  | O => (cfg, m)
  | S n =>
      let '((cfg', _), m') := run (Reconcile scheme cfg req) m in
      attempts scheme req n cfg' m'
  end.

(** The slot that a call may write. *)
Definition write_target (c : call) : option slot :=
  match c with
  | Create k o | Update k o | UpdateStatus k o => Some (k, obj_key o)
  | Patch k modified _ => Some (k, obj_key modified)
  | Get _ _ | Eventf _ | Now => None
  end.

(** ** A network that fails *)

(** What may happen to a call: the request does not get to the server, or its
    answer does not get back. *)
Inductive fault := Dropped (err : error) | Lost (err : error).

Section Network.
Context {W : Type} `{ClusterLaws W}.

(** The faults to come, call by call, and the cluster. *)
Record network := mkNetwork { nw_faults : list (option fault); nw_world : W }.

(** What the client is told of a call that fails: events are not answered. *)
Definition told (c : call) (err : error) : option (resp c) :=
  match c return option (resp c) with
  | Eventf _ => Some tt
  | c => failed c err
  end.
(** A call and what may happen to it; [Now] is the local clock. *)
Definition transmit (f : option fault) (c : call) (w : W) : resp c * W :=
  match f with
  | Some (Dropped err) => match told c err with Some r => (r, w) | None => handle c w end
  | Some (Lost err) => match told c err with Some r => (r, (handle c w).2) | None => handle c w end
  | None => handle c w
  end.
#[export] Instance network_handler : Handler network := fun c m =>
  match c, nw_faults m with
  | Now, _ | _, [] => let '(r, w) := handle c (nw_world m) in (r, mkNetwork (nw_faults m) w)
  | _, f :: rest => let '(r, w) := transmit f c (nw_world m) in (r, mkNetwork rest w)
  end.

(** Calls after which the laws say what the cluster is like. *)
Definition plain_call (c : call) : Prop :=
  match c with UpdateStatus _ _ | Patch _ _ _ => False | _ => True end.
Lemma plain_law c (w : W) :
  healthy w -> plain_call c ->
  healthy (handle c w).2 /\ keyed c (handle c w).1 /\
  forall k key, write_target c <> Some (k, key) -> view (handle c w).2 k !! key = view w k !! key.
Proof.
  intros Hw Hc. destruct c as [k key|k o|k o|k o|k m o|e|]; try done.
  - destruct (get_law w k key Hw) as (Hw' & Hu & _ & Hr). split; [exact Hw'|]. split.
    + destruct (handle (Get k key) w) as [[err|o] w']; [exact I|]. cbn in Hr |- *.
      destruct (view w k !! key) as [o'|] eqn:Ho; [injection Hr as ->; by apply (view_key w)|].
      by destruct Hr as (? & ? & _).
    + intros k' key' _. apply Hu, not_elem_of_nil.
  - destruct (create_law w k o Hw) as (Hw' & Hu & _). split_and!; try done.
    intros k' key' Hn. apply Hu. rewrite list_elem_of_singleton. cbn in Hn. congruence.
  - destruct (update_law w k o Hw) as (Hw' & Hu & _). split_and!; try done.
    intros k' key' Hn. apply Hu. rewrite list_elem_of_singleton. cbn in Hn. congruence.
  - destruct (event_law w e Hw) as (Hw' & Hu & _). split_and!; try done.
    intros k' key' _. apply Hu, not_elem_of_nil.
  - destruct (now_law w Hw) as (Hw' & Hu & _). split_and!; try done.
    intros k' key' _. apply Hu, not_elem_of_nil.
Qed.

(** However the call ends, the cluster is as before it, or as after it. *)
Lemma transmit_cases f c (w : W) :
  ((transmit f c w).1 = (handle c w).1 \/ exists err, told c err = Some (transmit f c w).1) /\
  ((transmit f c w).2 = w \/ (transmit f c w).2 = (handle c w).2).
Proof.
  unfold transmit. destruct f as [[err|err]|]; [..|auto].
  all: destruct (told c err) as [r|] eqn:Hr; [|auto]; simpl; split; eauto.
Qed.
Lemma told_keyed c err r : told c err = Some r -> keyed c r.
Proof. destruct c; simpl; intros [=]; subst; done. Qed.

(** Where a call leads on the network. *)
Lemma network_cases c (m : network) :
  exists f, handle c m = ((transmit f c (nw_world m)).1, mkNetwork (nw_faults (handle c m).2) (transmit f c (nw_world m)).2) /\
  (length (nw_faults (handle c m).2) <= length (nw_faults m) - (if is_get c then 1 else 0))%nat.
Proof.
  destruct m as [fs w].
  assert (Hc : c = Now \/ c <> Now) by (destruct c; (by left) || (by right)).
  destruct Hc as [->|Hc].
  { exists None. assert (Hh : handle Now (mkNetwork fs w) = let '(t, w') := handle Now w in (t, mkNetwork fs w')) by done.
    rewrite Hh. cbn [transmit nw_world]. destruct (handle Now w). simpl. split; [done | lia]. }
  destruct fs as [|f rest].
  - exists None. assert (Hh : handle c (mkNetwork [] w) = let '(r, w') := handle c w in (r, mkNetwork [] w'))
      by (by destruct c). rewrite Hh. cbn [transmit nw_world]. destruct (handle c w). simpl. split; [done | lia].
  - exists f. assert (Hh : handle c (mkNetwork (f :: rest) w) =
      let '(r, w') := transmit f c w in (r, mkNetwork rest w')) by (by destruct c).
    rewrite Hh. cbn [nw_world nw_faults]. destruct (transmit f c w). simpl. split; [done|].
    destruct (is_get c); lia.
Qed.
Lemma network_plain c (m : network) :
  healthy (nw_world m) -> plain_call c ->
  healthy (nw_world (handle c m).2) /\ keyed c (handle c m).1 /\
  forall k key, write_target c <> Some (k, key) ->
    view (nw_world (handle c m).2) k !! key = view (nw_world m) k !! key.
Proof.
  intros Hw Hc. destruct (plain_law c _ Hw Hc) as (Hw' & Hk & Hu).
  destruct (network_cases c m) as (f & -> & _). cbn [fst snd nw_world].
  destruct (transmit_cases f c (nw_world m)) as [Hr Hv]. split; [|split].
  - by destruct Hv as [-> | ->].
  - destruct Hr as [-> | [err Hr]]; [done | by eapply told_keyed].
  - intros k key Hn. destruct Hv as [-> | ->]; [done | by apply Hu].
Qed.
Lemma network_faultless {A} (p : prog A) (w : W) :
  run p (mkNetwork [] w) = ((run p w).1, mkNetwork [] (run p w).2).
Proof.
  revert w; induction p as [a|c k IH]; intros w; [done|]. cbn [run].
  assert (Hh : handle c (mkNetwork [] w) = let '(r, w') := handle c w in (r, mkNetwork [] w')) by (by destruct c).
  rewrite Hh. destruct (handle c w) as [r w']. apply IH.
Qed.

(** ** Runs on the network *)

Lemma keyed_exists c : exists r, keyed c r.
Proof. destruct c; try (by exists (inl (ErrorString ""))); [by exists tt | by exists 0%Z]. Qed.
Lemma run_network {A} (P : call -> Prop) (p : prog A) (m : network) :
  (forall c, P c -> plain_call c) ->
  only_calls keyed P p -> healthy (nw_world m) ->
  healthy (nw_world (run p m).2) /\ respects keyed (trace p m) /\
  (forall k key, (forall c, P c -> write_target c <> Some (k, key)) ->
     view (nw_world (run p m).2) k !! key = view (nw_world m) k !! key) /\
  (length (nw_faults (run p m).2) <= length (nw_faults m))%nat.
Proof.
  intros HP. revert m; induction p as [a|c f IH]; intros m Hp Hw; [by split_and!; [done|constructor|done|simpl]|].
  pose proof (only_call keyed keyed_exists P c f Hp) as Hc.
  destruct (network_plain c m Hw (HP c Hc)) as (Hw' & Hk & Hu).
  destruct (network_cases c m) as (_ & _ & Hl). cbn [run trace].
  pose proof (only_next keyed P c f _ Hp Hk) as Hp'.
  destruct (handle c m) as [r m']. cbn [fst snd] in *.
  destruct (IH r m' Hp' Hw') as (? & ? & Hu' & ?). split; [done|]. split; [by constructor|]. split; [|lia].
  intros k key Hn. rewrite Hu' by done. by apply Hu, Hn.
Qed.

(** What [Reconcile] calls: everything is plain, and the inputs are only read. *)
Definition input_kinds : list kind :=
  [KVerticalPodAutoscalerController; KAPIServer; KNamespace; KClusterOperator; KInfrastructure].
Definition reconcile_call (c : call) : Prop :=
  plain_call c /\ forall k key, write_target c = Some (k, key) -> k ∉ input_kinds.
Lemma reconcile_plain c : reconcile_call c -> plain_call c.
Proof. by intros [? _]. Qed.
Lemma Reconcile_calls scheme cfg req : only_calls keyed reconcile_call (Reconcile scheme cfg req).
Proof.
  eapply wp_mono; [|apply Reconcile_wp]. intros tr out (a & g & rest & -> & _ & _ & Hg).
  assert (Hget : forall k key, reconcile_call (Get k key)) by done.
  do 2 (apply Forall_cons; split; [apply Hget|]). destruct g as [err|vpa]; [by destruct Hg as [-> _]|].
  eapply Forall_impl; [eapply sessions_lawful; [reflexivity | exact Hg]|].
  intros s Hs. unfold lawful in Hs. unfold reconcile_call.
  destruct (st_call s) as [| | | | | |]; simpl; try done; (split; [done|]); intros k' key' [= <- <-] Hk;
    [destruct Hs as [Hs _]|]; revert Hs; by apply owned_slots_inputs.
Qed.

(** Each run gets past one fault at least. *)
Lemma Reconcile_faults scheme cfg req (m : network) :
  healthy (nw_world m) ->
  (length (nw_faults (run (Reconcile scheme cfg req) m).2) <= pred (length (nw_faults m)))%nat.
Proof.
  intros Hw. pose proof (Reconcile_calls scheme cfg req) as Hp.
  assert (Hf : exists f, Reconcile scheme cfg req = Do (Get KAPIServer (mkNN "" APIServerName)) f)
    by (eexists; reflexivity).
  destruct Hf as [f Hf]. rewrite Hf in Hp |- *. cbn [run].
  destruct (network_cases (Get KAPIServer (mkNN "" APIServerName)) m) as (_ & _ & Hl).
  destruct (network_plain (Get KAPIServer (mkNN "" APIServerName)) m Hw I) as (Hw' & Hk & _).
  pose proof (only_next keyed _ _ f _ Hp Hk) as Hp'.
  destruct (handle (Get KAPIServer (mkNN "" APIServerName)) m) as [r m']. cbn [fst snd is_get] in *.
  destruct (run_network reconcile_call (f r) m' reconcile_plain Hp' Hw') as (_ & _ & _ & ?). lia.
Qed.
Lemma Reconcile_Namespace scheme cfg req (m : network) :
  healthy (nw_world m) ->
  cfg_Namespace (run (Reconcile scheme cfg req) m).1.1 = cfg_Namespace cfg.
Proof.
  intros Hw. destruct (run_network _ _ m reconcile_plain (Reconcile_calls scheme cfg req) Hw) as (_ & Hk & _).
  destruct (proj1 (wp_exec _ _ _) (Reconcile_wp scheme cfg req) _ _ (run_exec _ m) Hk) as (a & g & rest & _ & -> & _).
  apply synced_TLSProfile_Namespace.
Qed.

Lemma attempts_invariant scheme req n cfg (m : network) :
  healthy (nw_world m) ->
  let out := attempts scheme req n cfg m in
  healthy (nw_world out.2) /\ cfg_Namespace out.1 = cfg_Namespace cfg /\
  (forall k key, k ∈ input_kinds -> view (nw_world out.2) k !! key = view (nw_world m) k !! key) /\
  (length (nw_faults out.2) <= length (nw_faults m) - n)%nat.
Proof.
  revert cfg m; induction n as [|n IH]; intros cfg m Hw; [simpl; split_and!; [done..|lia]|].
  cbn [attempts].
  destruct (run_network _ _ m reconcile_plain (Reconcile_calls scheme cfg req) Hw) as (Hw' & _ & Hu & _).
  pose proof (Reconcile_Namespace scheme cfg req m Hw) as Hns.
  pose proof (Reconcile_faults scheme cfg req m Hw) as Hf.
  destruct (run (Reconcile scheme cfg req) m) as [[cfg' r] m']; cbn [fst snd] in *.
  destruct (IH cfg' m' Hw') as (? & Hns' & Hu' & Hf').
  split; [done|]. split; [congruence|]. split; [|lia].
  intros k key Hk. rewrite Hu' by done. apply Hu. intros c [_ Hc] Ht. by apply (Hc k key).
Qed.
End Network.
Arguments network W : clear implicits.

(** C3 Failures are overcome.  Around any cluster that keeps to the laws, calls may
    fail on the network: before they take effect or after it, with any errors, in
    any order; events may be lost.  After as many attempts as there are faults the
    next run of [Reconcile] succeeds and leaves every owned object as desired.  The
    custom resource is there, in the operator's namespace or in none, its kind is
    known, and its quantities are such as the server stores unchanged.  Failed
    attempts leave nothing behind that would prevent it. *)
Theorem Reconcile_eventually_converges {W} `{ClusterLaws W} scheme cfg req vpa gvk
    (faults : list (option fault)) (w : W) :
  healthy w ->
  view w KVerticalPodAutoscalerController !! req = Some vpa ->
  om_Namespace (vpa_meta vpa) = "" \/ om_Namespace (vpa_meta vpa) = cfg_Namespace cfg ->
  GVKForObject (vpa_type vpa) scheme = inr gvk ->
  overrides_exact vpa = true ->
  let '(cfg', m) := attempts scheme req (length faults) cfg (mkNetwork faults w) in
  let out := run (Reconcile scheme cfg' req) m in
  out.1.2 = (zero_Result, None) /\ Forall (met (nw_world out.2)) (goals out.1.1 vpa).
Proof.
  intros Hw Hv Hns Hg Hx.
  destruct (attempts_invariant scheme req (length faults) cfg (mkNetwork faults w) Hw) as (Hw' & Hns' & Hu & Hf).
  destruct (attempts _ _ _ _ _) as [cfg' [fs w']]; cbn [fst snd nw_faults nw_world] in *. rewrite Nat.sub_diag in Hf.
  apply Nat.le_0_r, nil_length_inv in Hf. subst fs. rewrite network_faultless. cbn [fst snd nw_world].
  destruct (Reconcile_establishes (W:=W) scheme req vpa gvk Hg Hx cfg' w') as (Hr & _ & _ & Hm).
  - done.
  - exact (eq_trans (Hu KVerticalPodAutoscalerController req (list_elem_of_here _ _)) Hv).
  - by rewrite Hns'.
  - cbv zeta. rewrite Hr. done.
Qed.

(** The creation of the first deployment takes effect, but its answer is lost, and
    so is the report of this; in the next attempt the custom resource is said not to
    be there, in the one after it the first read fails. *)
Definition example_network : list (option fault) :=
  [None; None; None; Some (Lost conflict); Some (Dropped conflict);
   None; Some (Dropped not_found); Some (Lost (StatusError "InternalError" 500 "x"))].
Lemma Reconcile_eventually_converges_witness :
  let '(cfg', m) := attempts example_scheme example_request (length example_network) example_cfg
    (mkNetwork example_network (example_world [])) in
  let out := run (Reconcile example_scheme cfg' example_request) m in
  out.1.2 = (zero_Result, None) /\ Forall (met (nw_world out.2)) (goals out.1.1 example_vpa).
Proof.
  assert (Hw : healthy (example_world [])) by (split; [done | exact example_well_keyed]).
  exact (Reconcile_eventually_converges example_scheme example_cfg example_request example_vpa
    (mkGVK "autoscaling.openshift.io" "v1" "VerticalPodAutoscalerController")
    example_network (example_world []) Hw eq_refl (or_intror eq_refl) eq_refl eq_refl).
Defined.

(** ** Runs of the executable server *)

Definition keeps_others (c : call) (w w' : fake) : Prop :=
  well_keyed (fk_store w) ->
  well_keyed (fk_store w') /\ fk_faults w' = fk_faults w /\
  forall k key, write_target c <> Some (k, key) ->
    table k (fk_store w') !! key = table k (fk_store w) !! key.

Lemma store_object_keeps c k (o : obj k) w :
  write_target c = Some (k, obj_key o) -> keeps_others c w (store_object o w).2.
Proof.
  intros Ht Hw. simpl. split; [by apply well_keyed_put|]. split; [done|].
  intros k' key Hn. apply table_put_ne.
  rewrite (admitted_key _ _ _ (stamp_admitted k w o)). congruence.
Qed.
Lemma keeps_refl c w : keeps_others c w w.
Proof. by intros Hw. Qed.

Lemma fake_serve_keeps c w : keeps_others c w (fake_serve c w).2.
Proof.
  destruct c as [k key|k o|k o|k o|k modified original|e|]; simpl; try by intros Hw.
  - unfold fake_create. case_match; [by intros Hw|]. by apply store_object_keeps.
  - unfold fake_update. case_match; [|by intros Hw]. case_match; [|by intros Hw].
    by apply store_object_keeps.
  - destruct k; try by intros Hw. unfold fake_update_status.
    case_match eqn:Hs; [|by intros Hw]. case_match; [|by intros Hw].
    intros Hw. apply (store_object_keeps (UpdateStatus KClusterOperator o) KClusterOperator); [|done].
    simpl. f_equal. f_equal. symmetry. exact (Hw KClusterOperator _ _ Hs).
  - destruct k; try by intros Hw. unfold fake_patch.
    case_match eqn:Hs; [|by intros Hw].
    intros Hw. apply (store_object_keeps (Patch KNamespace modified original) KNamespace); [|done].
    simpl. f_equal. f_equal. symmetry. exact (Hw KNamespace _ _ Hs).
Qed.

Lemma handle_keeps_keyed c w : well_keyed (fk_store w) -> well_keyed (fk_store (handle c w).2).
Proof.
  intros Hw. unfold handle, fake_handler.
  assert (Hs : forall w', fk_store w' = fk_store w -> well_keyed (fk_store (fake_serve c w').2)).
  { intros w' Hs. rewrite <- Hs in Hw. by destruct (fake_serve_keeps c w' Hw) as (? & _). }
  destruct (fk_faults w) as [|fault rest]; [by apply Hs|].
  destruct (failed c not_found); simpl; [|by apply Hs].
  destruct fault as [err|]; [|by apply Hs]. destruct (failed c err); [done | by apply Hs].
Qed.
Lemma handle_keyed c w : well_keyed (fk_store w) -> keyed c (handle c w).1.
Proof.
  intros Hw. destruct c as [k key| | | | | |]; try done.
  unfold handle, fake_handler. simpl.
  assert (Hg : forall w', fk_store w' = fk_store w ->
    match (fake_get k key w').1 with inr o => obj_key o = key | inl _ => True end).
  { intros w' Hs. unfold fake_get. rewrite Hs. simpl. destruct (table k _ !! key) eqn:Ho; [|done].
    by apply (Hw k). }
  destruct (fk_faults w) as [|[err|] rest]; simpl; [by apply Hg | done | by apply Hg].
Qed.

Lemma run_keyed {A} (p : prog A) w :
  well_keyed (fk_store w) -> respects keyed (trace p w) /\ well_keyed (fk_store (run p w).2).
Proof.
  revert w; induction p as [a|c k IH]; intros w Hw; simpl; [split; [constructor | done]|].
  pose proof (handle_keyed c w Hw) as Hk. pose proof (handle_keeps_keyed c w Hw) as Hw'.
  destruct (handle c w) as [r w']; simpl in *. destruct (IH r w' Hw') as [? ?].
  split; [by constructor | done].
Qed.
(** ** The protocol on an example *)

Definition example_run (faults : list (option error)) : list step :=
  trace (Reconcile example_scheme example_cfg example_request) (example_world faults).
Definition example_result (faults : list (option error)) : Config * (Result * option error) :=
  (run (Reconcile example_scheme example_cfg example_request) (example_world faults)).1.
(** A failure of the fourth call: creating the first deployment is refused. *)
Definition example_faults : list (option error) :=
  [None; None; None; Some (StatusError "Forbidden" 403 "quota exceeded")].

Lemma example_run_exec faults :
  exec (Reconcile example_scheme example_cfg example_request) (example_run faults)
    ((example_result faults).1, ((example_result faults).2.1, (example_result faults).2.2)).
Proof.
  rewrite <- !surjective_pairing. apply run_exec.
Qed.
Lemma example_run_keyed faults : respects keyed (example_run faults).
Proof. apply run_keyed, example_well_keyed. Qed.

Lemma Reconcile_follows_protocol_witness :
  exists a rest,
  example_run [] = mkStep (Get KAPIServer (mkNN "" APIServerName)) a ::
    mkStep (Get KVerticalPodAutoscalerController example_request) (inr example_vpa) :: rest /\
  sessions example_scheme example_vpa (goals (synced_TLSProfile example_cfg a) example_vpa) rest None.
Proof.
  assert (Hv : (head (drop 1 (example_run [])) ≫= vpa_read) = Some example_vpa) by (vm_compute; reflexivity).
  assert (He : (example_result []).2.2 = None) by (vm_compute; reflexivity).
  destruct (Reconcile_follows_protocol example_scheme example_cfg example_request _ _ _ _
    (example_run_exec []) (example_run_keyed [])) as (a & g & rest & Htr & Hcfg & _ & Hg).
  rewrite Htr in Hv. destruct g as [|vpa]; [discriminate Hv|]. injection Hv as ->.
  exists a, rest. split; [exact Htr|]. rewrite Hcfg, He in Hg. exact Hg.
Defined.

Lemma Reconcile_confined_witness :
  Forall (lawful example_scheme example_vpa (owned_slots example_cfg example_vpa))
    (drop 2 (example_run example_faults)).
Proof.
  refine (proj1 (Reconcile_confined example_scheme example_cfg example_request _ _ _ _ example_vpa
    (example_run_exec example_faults) (example_run_keyed example_faults) _)).
  vm_compute. reflexivity.
Defined.

Lemma Reconcile_audited_witness :
  audited (example_run example_faults) (Some (StatusError "Forbidden" 403 "quota exceeded")).
Proof.
  assert (He : (example_result example_faults).2.2 = Some (StatusError "Forbidden" 403 "quota exceeded"))
    by (vm_compute; reflexivity).
  rewrite <- He.
  exact (Reconcile_audited example_scheme example_cfg example_request _ _ _ _
    (example_run_exec example_faults) (example_run_keyed example_faults)).
Defined.

Lemma Reconcile_reports_failures_witness :
  exists tr ev, example_run example_faults = tr ++ [event ev] /\
  reports ev (StatusError "Forbidden" 403 "quota exceeded").
Proof.
  assert (He : (example_result example_faults).2.2 = Some (StatusError "Forbidden" 403 "quota exceeded"))
    by (vm_compute; reflexivity).
  pose proof (example_run_exec example_faults) as Hx. rewrite He in Hx.
  refine (Reconcile_reports_failures example_scheme example_cfg example_request _ _ _ _ example_vpa
    (mkGVK "autoscaling.openshift.io" "v1" "VerticalPodAutoscalerController")
    Hx (example_run_keyed example_faults) _ _ _).
  - vm_compute. reflexivity.
  - reflexivity.
  - right. reflexivity.
Defined.
