(* ===== verification/Startup.v ===== *)
(** * Start-up: the default custom resource

    [ensureVPAController] creates a default custom resource the first time an
    operator runs in its namespace, and marks the namespace so that it does not
    come back after the user deletes it.  Several instances may run it at the
    same time (the code tolerates losing the race); the programs of a pool take
    turns call by call, and a rely/guarantee argument covers every interleaving. *)

From S2P Require Import Prelude Go GoFmt Objects Api Util Args Resources Controller Server Operands.
From S2P Require Import Convergence Protocol.

(** ** Interleaving *)

Section Race.
Context {W : Type} `{Handler W} {A : Type}.

(** One program of the pool makes its next call. *)
Inductive race : list (prog A) * W -> list (prog A) * W -> Prop :=
| race_call ps c k ps' w :
    race (ps ++ Do c k :: ps', w) (ps ++ k (handle c w).1 :: ps', (handle c w).2).

(** The interleaving a schedule of program numbers gives. *)
Fixpoint interleave (schedule : list nat) (ps : list (prog A)) (w : W) : list (prog A) * W :=
  match schedule with
  | [] => (ps, w)
  | i :: rest =>
      match ps !! i with
      | Some (Do c k) => interleave rest (<[i := k (handle c w).1]> ps) (handle c w).2
      | _ => interleave rest ps w
      end
  end.
Lemma interleave_race schedule ps w : rtc race (ps, w) (interleave schedule ps w).
Proof.
  revert ps w; induction schedule as [|i rest IH]; intros ps w; [apply rtc_refl|]. simpl.
  destruct (ps !! i) as [[a|c k]|] eqn:Hi; [apply IH | | apply IH].
  eapply rtc_l; [|apply IH].
  pose proof (take_drop_middle ps i _ Hi) as Hps. rewrite <- Hps at 1.
  rewrite insert_take_drop by (by eapply lookup_lt_Some). apply race_call.
Qed.

(** What the others do stays within [R], what the program does within [G]; its calls
    are answered as [answered] says: by the server or, for reads, by a cache. *)
Context (R G : W -> W -> Prop) (answered : forall c, W -> resp c -> W -> Prop) (post : A -> W -> Prop).

(** Whatever the others do within [R], [p] stays within [G] and ends in [post]. *)
Fixpoint robust (p : prog A) (w : W) : Prop :=
  match p with
  | Ret a => forall w', R w w' -> post a w'
  | Do c k => forall w' r w'', R w w' -> answered c w' r w'' -> G w' w'' /\ robust (k r) w''
  end.

Context `{!PreOrder R, !PreOrder G}.
Hypothesis mutual : forall w w', G w w' -> R w w'.

Lemma robust_later p w w' : robust p w -> R w w' -> robust p w'.
Proof.
  destruct p as [a|c k]; simpl; [|intros Hp Hw w1 r w2 Hw1; apply Hp; by trans w'].
  intros Hp Hw w1 Hw1. apply Hp. by trans w'.
Qed.

Context (I : W -> Prop).
Hypothesis live : forall c w, I w -> answered c w (handle c w).1 (handle c w).2.
Hypothesis kept : forall w w', I w -> G w w' -> I w'.

Lemma race_robust ps w ps' w' :
  rtc race (ps, w) (ps', w') -> I w -> Forall (fun p => robust p w) ps ->
  G w w' /\ Forall (fun p => robust p w') ps'.
Proof.
  remember (ps, w) as c eqn:Hc. remember (ps', w') as c' eqn:Hc'.
  intros Hr. revert ps w Hc. induction Hr as [|c1 c2 c3 Hs _ IH]; intros ps w ->; [by simplify_eq|].
  inversion Hs as [ps1 c k ps2 w1]; subst. intros HI [H1 [H2 H3]%Forall_cons]%Forall_app.
  destruct (H2 w _ _ ltac:(reflexivity) (live c w HI)) as [HR Hk].
  destruct (IH eq_refl _ _ eq_refl (kept _ _ HI HR)) as [HR' Hps'].
  { apply Forall_app. split; [|apply Forall_cons; split; [done|]];
      (eapply Forall_impl; [eassumption|]; intros p Hp; exact (robust_later p w _ Hp (mutual _ _ HR))). }
  split; [by trans (handle c w).2 | done].
Qed.
End Race.

(** ** The guarantee of [ensureVPAController] *)

Section Startup.
Context {W : Type} `{ClusterLaws W}.
Context (cfg : Config).

Definition default_key : NamespacedName := mkNN (cfg_Namespace cfg) (cfg_Name cfg).
Definition namespace_key : NamespacedName := mkNN "" (cfg_Namespace cfg).

Definition custom_resource (w : W) : option VerticalPodAutoscalerController :=
  view w KVerticalPodAutoscalerController !! default_key.
(** An annotation of the operator's namespace. *)
Definition annotation (k : string) (w : W) : option string :=
  view w KNamespace !! namespace_key ≫= fun ns => gm_lookup k (om_Annotations (ns_meta ns)).
Definition marked (w : W) : Prop := is_Some (annotation DefaultVPAControllerAnnotation w).

(** The cluster works, and the mark is there only with the custom resource. *)
Definition starting (w : W) : Prop :=
  healthy w /\ is_Some (view w KNamespace !! namespace_key) /\
  (marked w -> is_Some (custom_resource w)).
(** What every instance guarantees to the others: the custom resource is never
    overwritten, the mark stays, the other annotations keep their values. *)
Definition startup (w w' : W) : Prop :=
  (starting w -> starting w') /\ (marked w -> marked w') /\
  (forall o, custom_resource w = Some o -> custom_resource w' = Some o) /\
  (starting w -> forall k, k <> DefaultVPAControllerAnnotation -> annotation k w' = annotation k w).

#[export] Instance startup_preorder : PreOrder startup.
Proof.
  split.
  - intros w. split_and!; auto.
  - intros w1 w2 w3 (A1 & B1 & C1 & D1) (A2 & B2 & C2 & D2). split_and!; auto.
    intros Hs k Hk. by rewrite D2, D1 by auto.
Qed.

(** What an instance needs from the others: the custom resource may change, but
    it and the mark stay. *)
Definition considerate (w w' : W) : Prop :=
  (starting w -> starting w') /\ (marked w -> marked w') /\
  (is_Some (custom_resource w) -> is_Some (custom_resource w')).
#[export] Instance considerate_preorder : PreOrder considerate.
Proof. split; [intros w | intros w1 w2 w3 (? & ? & ?) (? & ? & ?)]; split_and!; auto. Qed.
Lemma startup_considerate w w' : startup w w' -> considerate w w'.
Proof. intros (? & ? & Hc & _). split_and!; [done..|]. intros [o Ho]. exists o. by apply Hc. Qed.

(** What a read may find, at the server or in a cache that may be late: a mark or
    a custom resource that it finds is there by now. *)
Definition honest (w : W) (k : kind) (key : NamespacedName) : error + obj k -> Prop :=
  match k return error + obj k -> Prop with
  | KNamespace => fun r => key = namespace_key -> exists ns, r = inr ns /\
      obj_key (k:=KNamespace) ns = namespace_key /\
      (is_Some (gm_lookup DefaultVPAControllerAnnotation (om_Annotations (ns_meta ns))) -> marked w)
  | KVerticalPodAutoscalerController => fun r => key = default_key ->
      match r with inr _ => is_Some (custom_resource w) | inl e => IsNotFound e = true end
  | _ => fun _ => True
  end.
Definition boot_answers (c : call) (w : W) (r : resp c) (w' : W) : Prop :=
  match c return resp c -> Prop with
  | Get k key => fun r => honest w k key r /\ startup w w'
  | c => fun r => (r, w') = handle c w
  end r.

(** A call that leaves both slots alone is within the guarantee. *)
Lemma startup_frame w w' :
  (starting w -> healthy w') ->
  (starting w -> view w' KNamespace !! namespace_key = view w KNamespace !! namespace_key) ->
  (starting w -> forall o, custom_resource w = Some o -> custom_resource w' = Some o) ->
  starting w -> startup w w'.
Proof.
  intros Hh Hn Hc Hs. specialize (Hh Hs). specialize (Hn Hs). specialize (Hc Hs).
  assert (Ha : forall k, annotation k w' = annotation k w) by (intros k; unfold annotation; cbn [obj] in *; by rewrite Hn).
  assert (Hm : marked w' <-> marked w) by (unfold marked; by rewrite Ha).
  destruct Hs as (_ & Hns & Hmc).
  split; [|split; [tauto|split; [done|auto]]].
  intros _. split; [done|]. split; [by rewrite Hn|].
  intros Hm'%Hm%Hmc. destruct Hm' as [o Ho]. exists o. by apply Hc.
Qed.
Lemma startup_read w w' : starting w -> healthy w' -> unchanged_except [] w w' -> startup w w'.
Proof.
  intros Hs Hh Hu. apply startup_frame; auto.
  - intros _. apply Hu, not_elem_of_nil.
  - intros _ o Ho. rewrite <- Ho. exact (Hu KVerticalPodAutoscalerController _ (not_elem_of_nil _)).
Qed.

(** The world after the mark: the custom resource exists, the namespace is marked. *)
Definition settled (e : option error) (w : W) : Prop :=
  e = None /\ marked w /\ is_Some (custom_resource w).

Lemma settled_later w w' : considerate w w' -> settled None w -> settled None w'.
Proof. intros (_ & Hm & Hc) (_ & ? & ?). split_and!; auto. Qed.

(** The annotation is written on top of the live object. *)
Lemma annotation_patched ns live k :
  gm_lookup DefaultVPAControllerAnnotation (om_Annotations (ns_meta ns)) = None ->
  patched_annotations (gm_map (om_Annotations (ns_meta live)))
    (gm_map (om_Annotations (ns_meta (annotated_namespace ns))))
    (gm_map (om_Annotations (ns_meta ns))) !! k =
  if bool_decide (k = DefaultVPAControllerAnnotation) then Some "true"
  else gm_lookup k (om_Annotations (ns_meta live)).
Proof.
  intros Hn. rewrite lookup_patched_annotations. simpl.
  rewrite lookup_insert, lookup_annotations. unfold gm_lookup in *.
  case_decide as Hk; subst.
  - rewrite Hn. rewrite (bool_decide_false (_ = None)), bool_decide_true by done. done.
  - rewrite bool_decide_true by done. by rewrite bool_decide_false.
Qed.

Lemma patch_robust ns w :
  starting w -> is_Some (custom_resource w) ->
  obj_key (k:=KNamespace) ns = namespace_key ->
  gm_lookup DefaultVPAControllerAnnotation (om_Annotations (ns_meta ns)) = None ->
  let out := handle (Patch KNamespace (annotated_namespace ns) ns) w in
  startup w out.2 /\ settled (err_of out.1) out.2.
Proof.
  intros (Hh & [live Hlive] & Hmc) [o Ho] Hkey Hn.
  pose proof (patch_law w (annotated_namespace ns) ns live Hh) as Hp. unfold answers in Hp.
  assert (Hk : obj_key (k:=KNamespace) (annotated_namespace ns) = namespace_key) by exact Hkey.
  rewrite Hk in Hp. cbv zeta. destruct (handle _ w) as [r w']; cbn [fst snd] in *.
  destruct (Hp Hlive) as (Hh' & Hu & _ & ns' & -> & Hns' & Han). cbn [obj] in *.
  assert (Hall : forall k, annotation k w' = if bool_decide (k = DefaultVPAControllerAnnotation)
    then Some "true" else annotation k w).
  { intros k. unfold annotation. cbn [obj]. rewrite Hns', Hlive. simpl. unfold gm_lookup at 1.
    rewrite Han, annotation_patched by done. done. }
  assert (Hm : marked w') by (unfold marked; rewrite Hall, bool_decide_true by done; by eexists).
  assert (Ho' : custom_resource w' = Some o).
  { rewrite <- Ho. apply (Hu KVerticalPodAutoscalerController). by intros [=]%list_elem_of_singleton. }
  split.
  - split; [|split; [done|split]].
    + intros _. split; [done|]. split; [|intros _; by exists o]. exists ns'. done.
    + intros o' Hx. congruence.
    + intros _ k Hk'. by rewrite Hall, bool_decide_false.
  - split; [done|]. split; [done|]. by exists o.
Qed.

(** The last part of an instance: the custom resource exists, the namespace is
    to be marked. *)
Definition annotate (ns : Namespace) : prog (option error) :=
  p <- ask (Patch KNamespace (annotated_namespace ns) ns) ;; Ret (err_of p).

Lemma annotate_robust ns w :
  starting w -> is_Some (custom_resource w) ->
  obj_key (k:=KNamespace) ns = namespace_key ->
  gm_lookup DefaultVPAControllerAnnotation (om_Annotations (ns_meta ns)) = None ->
  robust considerate startup boot_answers settled (annotate ns) w.
Proof.
  intros Hs Ho Hkey Hn w' r w1 (Hst & _ & Hcr) Ha.
  destruct (patch_robust ns w') as [HR Hset]; auto.
  unfold boot_answers in Ha. rewrite <- Ha in HR, Hset. cbn [fst snd] in *.
  split; [done|]. intros w2 Hw2. revert Hset.
  destruct r as [err|ns']; cbn [err_of]; [by intros []|]. by apply settled_later.
Qed.

(** The server's answers are such answers. *)
Lemma live_answers c w : starting w -> boot_answers c w (handle c w).1 (handle c w).2.
Proof.
  intros Hs. assert (Hh : healthy w) by apply Hs.
  destruct c as [k key|k o|k o|k o|k m o|e|]; unfold boot_answers; try by destruct (handle _ w).
  pose proof (get_law w k key Hh) as Hl. unfold answers in Hl. destruct Hl as (Hh' & Hu & _ & Hv).
  split; [|by apply startup_read]. destruct Hs as (_ & [ns Hns] & _).
  destruct k; try exact I; intros ->; cbn [obj] in *.
  - revert Hv. case_match eqn:Ho; [intros ->; by eexists | by intros (e & -> & ?)].
  - rewrite Hns in Hv. rewrite Hv. exists ns. split; [done|]. split; [exact (view_key w KNamespace _ _ Hh Hns)|].
    intros [v Hm]. exists v. unfold annotation. cbn [obj]. rewrite Hns. exact Hm.
Qed.
Lemma create_startup w :
  starting w ->
  let out := handle (Create KVerticalPodAutoscalerController (DefaultVPAController cfg)) w in
  startup w out.2 /\ is_Some (custom_resource out.2) /\
  match out.1 with inl e => IsAlreadyExists e = true | inr _ => True end.
Proof.
  intros Hs. assert (Hh : healthy w) by apply Hs.
  pose proof (create_law w KVerticalPodAutoscalerController (DefaultVPAController cfg) Hh) as Hl.
  unfold answers in Hl. cbv zeta. destruct (handle _ w) as [r w']; cbn [fst snd] in *.
  destruct Hl as (Hh' & Hu & _ & Hv).
  change (obj_key (k:=KVerticalPodAutoscalerController) (DefaultVPAController cfg)) with default_key in *.
  assert (Hcr : is_Some (custom_resource w') /\
    (forall o, custom_resource w = Some o -> custom_resource w' = Some o) /\
    match r with inl e => IsAlreadyExists e = true | inr _ => True end).
  { revert Hv. case_match eqn:Ho; intros Hv.
    - destruct Hv as (Hv & e & -> & He). split; [by eexists|]. split; [|done].
      intros o' Ho'. rewrite <- Ho'. exact (eq_trans Hv (eq_sym Ho)).
    - destruct Hv as (o' & -> & Hv & _). split; [by eexists|]. split; [|done].
      intros o Ho'. discriminate (eq_trans (eq_sym Ho) Ho'). }
  destruct Hcr as (? & ? & ?). split; [|done].
  apply startup_frame; auto. intros _. apply Hu. by intros [=]%list_elem_of_singleton.
Qed.

Lemma ensureVPAController_robust w :
  starting w -> robust considerate startup boot_answers settled (ensureVPAController cfg) w.
Proof.
  intros Hs w1 g w1' Hw1 [Hns HR1]. assert (Hs1 : starting w1) by (by apply Hw1).
  split; [exact HR1|]. assert (Hs1' : starting w1') by (by apply HR1).
  destruct (Hns eq_refl) as (ns & -> & Hkey & Hmarked). cbn [bind ask].
  destruct (gm_lookup DefaultVPAControllerAnnotation (om_Annotations (ns_meta ns))) as [v|] eqn:Hmark.
  - intros w2 Hw2. apply (settled_later w1' w2 Hw2). split; [done|].
    assert (Hm' : marked w1') by (apply HR1, Hmarked; by eexists). split; [done|]. by apply Hs1'.
  - intros w2 v w2' Hw2 [Hv HR2]. assert (Hs2 : starting w2) by (by apply Hw2).
    split; [exact HR2|]. assert (Hs2' : starting w2') by (by apply HR2). specialize (Hv eq_refl).
    destruct v as [e|o]; cbn [bind ask].
    + rewrite Hv. intros w3 c w3' Hw3 Hc. assert (Hs3 : starting w3) by (by apply Hw3).
      destruct (create_startup w3 Hs3) as (HR3 & Hcr & Hr). unfold boot_answers in Hc.
      rewrite <- Hc in HR3, Hcr, Hr. cbn [fst snd] in *. split; [exact HR3|].
      assert (Hs3' : starting w3') by (by apply HR3).
      destruct c as [e'|o']; cbn [bind ask]; [rewrite Hr; cbn [negb]|]; by apply annotate_robust.
    + apply annotate_robust; [done | | done | done]. by apply (startup_considerate _ _ HR2).
Qed.
End Startup.

(** ** The theorems *)

(** C10 Any number of operator instances that start at the same time, however
    their calls interleave, all succeed: when they are done the custom resource
    exists and the namespace is marked.  None overwrites a custom resource that
    exists, and no annotation of the namespace is lost. *)
Theorem ensureVPAController_race {W} `{ClusterLaws W} cfg n (w : W) ps' w' :
  starting cfg w ->
  rtc race (replicate n (ensureVPAController cfg), w) (ps', w') ->
  (forall e, Ret e ∈ ps' -> settled cfg e w') /\
  (forall o, custom_resource cfg w = Some o -> custom_resource cfg w' = Some o) /\
  (forall k, k <> DefaultVPAControllerAnnotation -> annotation cfg k w' = annotation cfg k w).
Proof.
  intros Hs Hr.
  destruct (race_robust (considerate cfg) (startup cfg) (boot_answers cfg) (settled cfg)
    (startup_considerate cfg) (starting cfg) (live_answers cfg) (fun _ _ Hw HG => proj1 HG Hw)
    _ _ _ _ Hr Hs) as [(_ & _ & Hc & Ha) Hps].
  { apply Forall_replicate. by apply ensureVPAController_robust. }
  split; [|split; [done | by apply Ha]].
  intros e He. rewrite Forall_forall in Hps. apply (Hps _ He). reflexivity.
Qed.

Lemma ensureVPAController_race_witness :
  let '(ps, w) := interleave [0; 1; 0; 1; 0; 1; 0; 1]%nat
    (replicate 2 (ensureVPAController example_cfg))
    (mkFake (put (k:=KNamespace) example_namespace empty_store) 10 0%nat [] []) in
  ps = [Ret None; Ret None] /\ settled example_cfg None w.
Proof.
  set (w0 := mkFake (put (k:=KNamespace) example_namespace empty_store) 10 0%nat [] []).
  pose proof (interleave_race [0; 1; 0; 1; 0; 1; 0; 1]%nat
    (replicate 2 (ensureVPAController example_cfg)) w0) as Hr.
  pose proof (eq_refl : (interleave [0; 1; 0; 1; 0; 1; 0; 1]%nat
    (replicate 2 (ensureVPAController example_cfg)) w0).1 = [Ret None; Ret None]) as Hps.
  destruct (interleave _ _ _) as [ps w]. simpl in Hps. subst ps.
  destruct (ensureVPAController_race (W:=fake) example_cfg 2 w0 [Ret None; Ret None] w) as (Hset & _).
  - split; [split; [reflexivity | apply well_keyed_put, well_keyed_empty]|].
    split; [by eexists|]. intros [v Hv]. vm_compute in Hv. discriminate Hv.
  - exact Hr.
  - split; [reflexivity|]. apply Hset, list_elem_of_here.
Defined.

(** The writes of an instance that read the namespace [ns]. *)
Definition startup_write (cfg : Config) (ns : Namespace) (s : step) : Prop :=
  step_writes s = true ->
  st_call s = Create KVerticalPodAutoscalerController (DefaultVPAController cfg) \/
  st_call s = Patch KNamespace (annotated_namespace ns) ns.

(** An execution that starts with the namespace: one that cannot be read ends the
    run, a marked one too; otherwise only such writes follow, and without an
    error the mark was accepted last. *)
Definition starts_once (cfg : Config) (tr : list step) (e : option error) : Prop :=
  exists g rest, tr = mkStep (Get KNamespace (namespace_key cfg)) g :: rest /\
  match g with
  | inl err => rest = [] /\ e = Some err
  | inr ns =>
      match gm_lookup DefaultVPAControllerAnnotation (om_Annotations (ns_meta ns)) with
      | Some _ => rest = [] /\ e = None
      | None =>
          Forall (startup_write cfg ns) rest /\
          (e = None -> exists pre ns',
             rest = pre ++ [mkStep (Patch KNamespace (annotated_namespace ns) ns) (inr ns')])
      end
  end.

Lemma ensureVPAController_wp cfg : wp any_answer (ensureVPAController cfg) (starts_once cfg).
Proof.
  unfold ensureVPAController. cbn [wp bind ask]. intros g _. unfold starts_once.
  destruct g as [err|ns]; [by eexists (inl err), []|].
  destruct (gm_lookup DefaultVPAControllerAnnotation (om_Annotations (ns_meta ns))) as [v|] eqn:Hv;
    [by eexists (inr ns), []; rewrite Hv|].
  assert (Hp : forall pre r, Forall (startup_write cfg ns) pre ->
    Forall (startup_write cfg ns) (pre ++ [mkStep (Patch KNamespace (annotated_namespace ns) ns) r]) /\
    (err_of r = None -> exists pre' ns',
      pre ++ [mkStep (Patch KNamespace (annotated_namespace ns) ns) r] =
      pre' ++ [mkStep (Patch KNamespace (annotated_namespace ns) ns) (inr ns')])).
  { intros pre r Hpre. split.
    - apply Forall_app. split; [done|]. constructor; [|constructor]. intros _. by right.
    - destruct r as [|ns']; [done|]. intros _. by exists pre, ns'. }
  assert (Hg : forall k key r, startup_write cfg ns (mkStep (Get k key) r)) by done.
  assert (Hc : forall r, startup_write cfg ns
    (mkStep (Create KVerticalPodAutoscalerController (DefaultVPAController cfg)) r)) by (by left).
  cbn [wp bind ask]. intros [err|o] _; cbv beta iota.
  - destruct (IsNotFound err) eqn:He; cbn [wp bind ask].
    + intros [err'|o] _; cbv beta iota; [destruct (IsAlreadyExists err') eqn:Ha; cbn [negb]|]; cbn [wp].
      * intros r _. eexists (inr ns), _. split; [reflexivity|]. rewrite Hv. apply (Hp [_; _]).
        by repeat (constructor; [first [apply Hg | apply Hc]|]).
      * eexists (inr ns), _. split; [reflexivity|]. rewrite Hv. split; [|done]. by repeat (constructor; [first [apply Hg | apply Hc]|]).
      * intros r _. eexists (inr ns), _. split; [reflexivity|]. rewrite Hv. apply (Hp [_; _]).
        by repeat (constructor; [first [apply Hg | apply Hc]|]).
    + eexists (inr ns), _. split; [reflexivity|]. rewrite Hv. split; [|done]. by repeat (constructor; [first [apply Hg | apply Hc]|]).
  - intros r _. eexists (inr ns), _. split; [reflexivity|]. rewrite Hv. apply (Hp [_]). by repeat (constructor; [first [apply Hg | apply Hc]|]).
Qed.

(** C18 In every execution, whatever the API server answers: an instance that
    finds the namespace marked does nothing more, so a custom resource that the
    user deleted stays deleted; an instance that does not writes the default
    custom resource and the mark only, and returns no error only after the mark
    was accepted. *)
Theorem ensureVPAController_once cfg tr e :
  exec (ensureVPAController cfg) tr e -> starts_once cfg tr e.
Proof.
  intros Hx. apply (proj1 (wp_exec _ _ _) (ensureVPAController_wp cfg) tr e Hx).
  by apply Forall_forall.
Qed.

Lemma ensureVPAController_once_witness :
  let w := example_world [] in
  starts_once example_cfg (trace (ensureVPAController example_cfg) w)
    (run (ensureVPAController example_cfg) w).1 /\
  (run (ensureVPAController example_cfg) w).1 = None.
Proof.
  intros w. split; [|reflexivity].
  apply ensureVPAController_once. apply run_exec.
Defined.
