(* ===== verification/Safety.v ===== *)
(** * Owners, namespaces and profiles

    Three guards of the reconciler, for every execution: what
    [SetControllerReference] does to the owners of an object, what happens when
    the custom resource may not own anything, what an update of a network policy
    does to its owners; and which TLS profile the operands follow. *)

From S2P Require Import Prelude Go GoFmt Objects Api Util Args Resources Controller Server Operands.
From S2P Require Import Convergence Protocol Liveness.

(** ** One controller *)

Definition is_controller (r : OwnerReference) : bool := bool_decide (or_Controller r = Some true).
Definition controllers (m : ObjectMeta) : list OwnerReference :=
  List.filter is_controller (om_OwnerReferences m).

Lemma GetControllerOf_None l : GetControllerOf l = None -> List.filter is_controller l = [].
Proof.
  induction l as [|r l IH]; simpl; [done|]. unfold is_controller at 1.
  by destruct (bool_decide (or_Controller r = Some true)).
Qed.
Lemma GetControllerOf_Some l r :
  GetControllerOf l = Some r -> r ∈ l /\ exists rest, List.filter is_controller l = r :: rest.
Proof.
  induction l as [|r' l IH]; simpl; [done|]. unfold is_controller at 1.
  destruct (bool_decide (or_Controller r' = Some true)).
  - intros [= ->]. split; [apply list_elem_of_here | by eexists].
  - intros Hr. destruct (IH Hr) as [? ?]. split; [by apply list_elem_of_further | done].
Qed.

(** A reference of a controller, put among references without another one. *)
Lemma upsert_only_controller ref l :
  is_controller ref = true -> List.filter is_controller l = [] ->
  List.filter is_controller (upsertOwnerRef ref l) = [ref].
Proof.
  intros Href. induction l as [|r l IH]; simpl; [by rewrite Href|].
  destruct (is_controller r) eqn:Hr; [done|]. intros Hl.
  destruct (referSameObject r ref); simpl; rewrite ?Href, ?Hr; [by rewrite Hl | by apply IH].
Qed.
Lemma upsert_replaces_controller ref l existing :
  is_controller ref = true -> GetControllerOf l = Some existing -> referSameObject existing ref = true ->
  (length (List.filter is_controller l) <= 1)%nat ->
  (length (List.filter (fun r => referSameObject r ref) l) <= 1)%nat ->
  List.filter is_controller (upsertOwnerRef ref l) = [ref].
Proof.
  intros Href. induction l as [|r l IH]; [done|]. cbn [GetControllerOf List.filter upsertOwnerRef].
  fold (is_controller r). intros Hg Hs Hc Hd.
  destruct (referSameObject r ref) eqn:Hr.
  - cbn [List.filter]. rewrite Href. f_equal. destruct (is_controller r) eqn:Hcr.
    + cbn [length] in Hc. apply nil_length_inv. lia.
    + exfalso. destruct (GetControllerOf_Some _ _ Hg) as [Hin _]. cbn [length] in Hd.
      assert (existing ∈ List.filter (fun r => referSameObject r ref) l) as Hin'.
      { apply list_elem_of_In. apply filter_In. split; [by apply list_elem_of_In | exact Hs]. }
      destruct (List.filter (fun r => referSameObject r ref) l); [by apply not_elem_of_nil in Hin' | simpl in Hd; lia].
  - cbn [List.filter]. destruct (is_controller r) eqn:Hcr; [congruence|]. by apply IH.
Qed.
(** The other references stay. *)
Lemma upsert_keeps ref l r :
  r ∈ l -> referSameObject r ref = false -> r ∈ upsertOwnerRef ref l.
Proof.
  induction l as [|r' l IH]; [by intros ?%not_elem_of_nil|]. cbn [upsertOwnerRef].
  intros [->|Hr]%elem_of_cons Hs.
  - rewrite Hs. apply list_elem_of_here.
  - destruct (referSameObject r' ref); [by apply list_elem_of_further|].
    apply list_elem_of_further. by apply IH.
Qed.

(** C39 [SetControllerReference] makes the custom resource the only controller of
    an object, and keeps the other owners: whenever it succeeds on an object with
    at most one controller (and at most one reference to the custom resource),
    the result differs in its owners only, has exactly one controller, which is
    the custom resource, and has every reference to another object.  It refuses an
    object with another controller. *)
Theorem SetControllerReference_one_controller owner m scheme gvk :
  GVKForObject (vpa_type owner) scheme = inr gvk ->
  validateOwner (vpa_meta owner) m = None ->
  (length (controllers m) <= 1)%nat ->
  (length (List.filter (fun r => referSameObject r (controller_ref owner gvk)) (om_OwnerReferences m)) <= 1)%nat ->
  match SetControllerReference owner m scheme with
  | inr m' =>
      m' = SetOwnerReferences (om_OwnerReferences m') m /\
      controllers m' = [controller_ref owner gvk] /\
      forall r, r ∈ om_OwnerReferences m -> referSameObject r (controller_ref owner gvk) = false ->
        r ∈ om_OwnerReferences m'
  | inl err => exists other, controllers m = [other] /\
      referSameObject other (controller_ref owner gvk) = false /\
      err = AlreadyOwnedError (om_Namespace m) (om_Name m) (or_Kind other) (or_Name other)
  end.
Proof.
  intros Hg Hv Hc Hd. unfold SetControllerReference. rewrite Hv, Hg. cbv zeta.
  set (ref := controller_ref owner gvk) in *.
  assert (Href : is_controller ref = true) by (by apply bool_decide_eq_true).
  unfold controllers in *. destruct (GetControllerOf _) as [existing|] eqn:He.
  - destruct (referSameObject existing ref) eqn:Hs; cbn [negb].
    + split; [done|]. split; [by eapply upsert_replaces_controller|]. intros r. apply upsert_keeps.
    + destruct (GetControllerOf_Some _ _ He) as (_ & rest & Hf). rewrite Hf in Hc.
      destruct rest; [|simpl in Hc; lia]. exists existing. by rewrite Hf.
  - split; [done|]. split; [by apply upsert_only_controller, GetControllerOf_None|].
    intros r. apply upsert_keeps.
Qed.

(** ** Calls that every execution makes, or never makes *)

(** Every execution of the program, whatever the answers, makes steps that
    satisfy [P] only. *)
Definition makes (P : step -> Prop) {A} (p : prog A) : Prop :=
  wp any_answer p (fun tr _ => Forall P tr).

Lemma respects_any tr : respects any_answer tr.
Proof. by apply Forall_forall. Qed.
Lemma makes_exec (P : step -> Prop) {A} (p : prog A) tr a : makes P p -> exec p tr a -> Forall P tr.
Proof.
  intros Hp Hx. refine (proj1 (wp_exec any_answer p _) Hp tr a Hx (respects_any tr)).
Qed.
Lemma makes_Ret P {A} (a : A) : makes P (Ret a).
Proof. constructor. Qed.
Lemma makes_Do P {A} c (k : resp c -> prog A) :
  (forall r, P (mkStep c r) /\ makes P (k r)) -> makes P (Do c k).
Proof.
  intros Hk r _. destruct (Hk r) as [Hc Hr]. eapply wp_mono; [|exact Hr].
  intros tr a Htr. by constructor.
Qed.
Lemma makes_bind P {A B} (p : prog A) (f : A -> prog B) :
  makes P p -> (forall a, makes P (f a)) -> makes P (bind p f).
Proof.
  intros Hp Hf. apply wp_bind. eapply wp_mono; [|exact Hp]. intros tr a Htr.
  eapply wp_mono; [|apply Hf]. intros tr' b Htr'. by apply Forall_app.
Qed.
Lemma makes_and_then P p q : makes P p -> makes P q -> makes P (and_then p q).
Proof. intros Hp Hq. apply makes_bind; [done|]. intros [err|]; [apply makes_Ret | done]. Qed.
Lemma makes_for_each P {A} (l : list A) body :
  (forall x, x ∈ l -> makes P (body x)) -> makes P (for_each l body).
Proof.
  induction l as [|x l IH]; intros Hb; [apply makes_Ret|].
  apply (makes_and_then P (body x) (for_each l body)).
  - apply Hb, list_elem_of_here.
  - apply IH. intros y Hy. by apply Hb, list_elem_of_further.
Qed.
#[export] Hint Resolve makes_Ret : vpa.

(** Follow a program call by call. *)
Ltac follow_calls :=
  repeat first
    [ apply makes_Ret
    | apply makes_Do; intros ?; split
    | apply makes_bind; [|intros ?]
    | case_match ].

(** The objects that the operator makes anew, before they get their owner. *)
Definition made_anew (cfg : Config) (vpa : VerticalPodAutoscalerController) (k : kind) : obj k -> Prop :=
  match k return obj k -> Prop with
  | KDeployment => fun d => exists params, params ∈ controllerParams /\ d = AutoscalerDeployment cfg vpa params
  | KService => fun s => s = WebhookService cfg vpa
  | KConfigMap => fun c => c = CAConfigMap cfg vpa
  | KNetworkPolicy => fun p => p ∈ NetworkPolicies cfg vpa
  | _ => fun _ => False
  end.
Lemma made_anew_meta cfg vpa k (o : obj k) :
  made_anew cfg vpa k o ->
  om_Namespace (obj_meta k o) = cfg_Namespace cfg /\ om_OwnerReferences (obj_meta k o) = [].
Proof.
  destruct k; simpl; try done.
  - rewrite controllerParams_operands. intros (params & (x & -> & _)%list_elem_of_fmap & ->). by destruct x.
  - by intros ->.
  - by intros ->.
  - by intros (_ & ? & ? & _)%policies_complete.
Qed.

(** Calls of the programs of one object, given what the calls may be. *)
Section Calls.
Context (P : step -> Prop) (scheme : Scheme) (cfg : Config) (vpa : VerticalPodAutoscalerController).
Context (vpaRef : option ObjectReference).
Hypothesis reads_ok : forall k key r, k <> KAPIServer -> P (mkStep (Get k key) r).
Hypothesis events_ok : forall e r, P (mkStep (Eventf e) r).
Hypothesis creates_ok : forall k (o : obj k) m r, made_anew cfg vpa k o ->
  SetControllerReference vpa (obj_meta k o) scheme = inr m ->
  P (mkStep (Create k (with_meta k (fun _ => m) o)) r).
Hypothesis updates_ok : forall k o r, k <> KNetworkPolicy -> P (mkStep (Update k o) r).
Hypothesis policies_ok : forall o r, o ∈ NetworkPolicies cfg vpa ->
  P (mkStep (Update KNetworkPolicy o) r).

#[local] Ltac allowed := first
  [ by apply reads_ok | by apply events_ok | by apply updates_ok | by apply policies_ok
  | match goal with |- P (mkStep (Create ?k (with_meta _ _ ?o)) _) => by apply (creates_ok k o) end ].

Lemma reconcile_operand_makes params :
  params ∈ controllerParams -> makes P (reconcile_operand scheme cfg vpa vpaRef params).
Proof.
  intros Hp. assert (Hd : made_anew cfg vpa KDeployment (AutoscalerDeployment cfg vpa params)) by (by exists params).
  unfold reconcile_operand, CreateAutoscaler, UpdateAutoscaler, fail_with, succeed_with, ask.
  follow_calls; allowed.
Qed.
Lemma reconcile_service_makes : makes P (reconcile_service scheme cfg vpa vpaRef).
Proof.
  unfold reconcile_service, CreateWebhookService, UpdateWebhookService, fail_with, succeed_with, ask.
  follow_calls; allowed.
Qed.
Lemma reconcile_configmap_makes : makes P (reconcile_configmap scheme cfg vpa vpaRef).
Proof.
  unfold reconcile_configmap, CreateCAConfigMap, UpdateCAConfigMap, fail_with, succeed_with, ask.
  follow_calls; allowed.
Qed.
Lemma reconcile_policy_makes p :
  p ∈ NetworkPolicies cfg vpa -> makes P (reconcile_policy scheme cfg vpa vpaRef p).
Proof.
  intros Hp. unfold reconcile_policy, fail_with, succeed_with, ask. follow_calls; allowed.
Qed.
Lemma reconcile_all_makes : makes P (reconcile_all scheme cfg vpa vpaRef).
Proof.
  unfold reconcile_all. apply makes_and_then.
  { apply makes_for_each. apply reconcile_operand_makes. }
  apply makes_and_then; [apply reconcile_service_makes|].
  apply makes_and_then; [apply reconcile_configmap_makes|].
  apply makes_for_each. apply reconcile_policy_makes.
Qed.
End Calls.

(** What holds of the calls for every custom resource that may be read holds of
    [Reconcile]. *)
Lemma Reconcile_makes (P : step -> Prop) scheme cfg req :
  (forall r, P (mkStep (Get KAPIServer (mkNN "" APIServerName)) r)) ->
  (forall r, P (mkStep (Get KVerticalPodAutoscalerController req) r)) ->
  (forall a vpa ref, makes P (reconcile_all scheme (synced_TLSProfile cfg a) vpa ref)) ->
  makes P (Reconcile scheme cfg req).
Proof.
  intros Ha Hv Hp. unfold Reconcile, syncTLSProfile. apply makes_Do. intros a. split; [apply Ha|].
  apply makes_Do. intros [err|vpa]; (split; [apply Hv|]).
  - destruct (IsNotFound err); apply makes_Ret.
  - apply makes_bind; [apply Hp | intros; apply makes_Ret].
Qed.

(** ** Updates of network policies *)

(** An updated policy has no owners and no resource version. *)
Definition disowned (s : step) : Prop :=
  match st_call s with
  | Update KNetworkPolicy p =>
      om_OwnerReferences (np_meta p) = [] /\ om_ResourceVersion (np_meta p) = ""
  | _ => True
  end.

(** C26 An update of a network policy drops its owners: in every execution of
    [Reconcile], a policy that is written over an existing one carries no owner
    references (a policy that is created has the custom resource as its
    controller), and no resource version, so the write is not conditional on
    what was read. *)
Theorem policy_updates_disown scheme cfg req tr out s :
  exec (Reconcile scheme cfg req) tr out -> s ∈ tr -> disowned s.
Proof.
  intros Hx Hs. refine (proj1 (Forall_forall disowned tr) (makes_exec disowned _ tr out _ Hx) s Hs).
  apply Reconcile_makes; [done | done |]. intros a vpa ref. apply reconcile_all_makes; try done.
  - intros k o r Hk. by destruct k.
  - intros o r (_ & _ & Ho & Hrv)%policies_complete. done.
Qed.

(** ** A custom resource of another namespace *)

Definition not_a_create (s : step) : Prop :=
  match st_call s with Create _ _ => False | _ => True end.
(** The custom resource cannot own objects of the operator's namespace. *)
Definition foreign (cfg : Config) (vpa : VerticalPodAutoscalerController) : Prop :=
  om_Namespace (vpa_meta vpa) <> "" /\ om_Namespace (vpa_meta vpa) <> cfg_Namespace cfg.
#[export] Instance foreign_dec cfg vpa : Decision (foreign cfg vpa).
Proof. unfold foreign. apply _. Defined.

Lemma SetControllerReference_foreign cfg vpa m scheme m' :
  foreign cfg vpa -> om_Namespace m = cfg_Namespace cfg ->
  SetControllerReference vpa m scheme = inr m' -> False.
Proof.
  intros [H0 Hcfg] Hm. unfold SetControllerReference, validateOwner.
  rewrite bool_decide_eq_false_2 by done. cbn [negb].
  destruct (bool_decide (om_Namespace m = "")); [done|].
  by rewrite bool_decide_eq_false_2 by congruence.
Qed.

Lemma reconcile_all_foreign scheme cfg vpa ref :
  foreign cfg vpa -> makes not_a_create (reconcile_all scheme cfg vpa ref).
Proof.
  intros Hf. apply reconcile_all_makes; try done.
  intros k o m r [Hns _]%made_anew_meta Hs. exfalso. by eapply SetControllerReference_foreign.
Qed.

(** A step finds the goal's object. *)
Definition found (tr : list step) (g : goal) : Prop :=
  exists o, mkStep (Get (goal_kind g) (goal_key g)) (inr o) ∈ tr.
(** Sessions that end well without creating anything had no failure at all, and
    found the objects. *)
Lemma session_clean scheme vpa g tr :
  session scheme vpa g tr None -> Forall not_a_create tr ->
  Forall (fun s => step_error s = None) tr.
Proof.
  assert (Hr : forall rs : list (error + obj (goal_kind g)),
    Forall (fun r => err_of r = None) rs ->
    Forall (fun s => step_error s = None) (reads (goal_kind g) (goal_key g) rs)).
  { intros rs Hrs. by apply Forall_map. }
  intros Hs; inversion Hs; subst; intros Hc.
  - apply Hr, Forall_app; split; [done | by repeat constructor].
  - inversion Hc as [|? ? _ Hc']; subst. inversion Hc' as [|? ? Hbad]; subst. destruct Hbad.
  - destruct r as [|o']; [discriminate H|]. apply Forall_app; split; [|by repeat constructor].
    apply Hr, Forall_app; split; [done | by repeat constructor].
Qed.
Lemma sessions_clean scheme vpa gs tr e :
  sessions scheme vpa gs tr e -> e = None -> Forall not_a_create tr ->
  Forall (fun s => step_error s = None) tr.
Proof.
  intros Hs. induction Hs as [|g gs tr tr' e Hs _ IH|g gs tr err Hs].
  - constructor.
  - intros He [H1 H2]%Forall_app. apply Forall_app. split; [by eapply session_clean | by apply IH].
  - done.
Qed.
Lemma reads_found g rs (o : obj (goal_kind g)) rest :
  found (reads (goal_kind g) (goal_key g) (rs ++ [inr o]) ++ rest) g.
Proof.
  exists o. rewrite elem_of_app. left. unfold reads. rewrite map_app, elem_of_app. right.
  apply list_elem_of_here.
Qed.
Lemma session_found scheme vpa g tr :
  session scheme vpa g tr None -> Forall not_a_create tr -> found tr g.
Proof.
  intros Hs; inversion Hs; subst; intros Hc.
  - rewrite <- (app_nil_r (reads _ _ _)). apply reads_found.
  - inversion Hc as [|? ? _ Hc']; subst. inversion Hc' as [|? ? Hbad]; subst. destruct Hbad.
  - apply reads_found.
Qed.
Lemma sessions_found scheme vpa gs tr e :
  sessions scheme vpa gs tr e -> e = None -> Forall not_a_create tr -> Forall (found tr) gs.
Proof.
  intros Hs. induction Hs as [|g gs tr tr' e Hs _ IH|g gs tr err Hs]; [constructor | |done].
  intros He [H1 H2]%Forall_app. constructor.
  - destruct (session_found scheme vpa g tr Hs H1) as [o Ho]. exists o. rewrite elem_of_app. by left.
  - eapply Forall_impl; [by apply IH|]. intros g' [o Ho]. exists o. rewrite elem_of_app. by right.
Qed.

Lemma Reconcile_foreign_wp scheme cfg req :
  wp any_answer (Reconcile scheme cfg req) (fun tr _ =>
    forall vpa, vpa_read <$> tr !! 1%nat = Some (Some vpa) -> foreign cfg vpa ->
    Forall not_a_create tr).
Proof.
  unfold Reconcile, syncTLSProfile. cbn [wp bind ask]. intros a _. cbn [wp bind ask].
  intros [err|vpa] _; cbv beta iota.
  - by destruct (IsNotFound err); intros vpa [=].
  - apply wp_bind. destruct (decide (foreign cfg vpa)) as [Hf|Hn].
    + eapply wp_mono; [|apply (reconcile_all_foreign scheme (synced_TLSProfile cfg a) vpa)].
      * intros tr e Htr vpa' _ _. rewrite app_nil_r. by repeat constructor.
      * unfold foreign. by rewrite synced_TLSProfile_Namespace.
    + eapply wp_mono; [|by apply (reconcile_all_makes (fun _ => True))].
      by intros tr e _ vpa' [= <-].
Qed.

(** C27 A custom resource of a namespace other than the operator's is never given
    an object: no execution creates anything, and in an execution that ends without
    an error no call failed once the custom resource was read, and each of the
    objects that belong to a custom resource was found there. *)
Theorem foreign_owner_refused scheme cfg req tr cfg' res e vpa :
  exec (Reconcile scheme cfg req) tr (cfg', (res, e)) -> respects keyed tr ->
  vpa_read <$> tr !! 1%nat = Some (Some vpa) -> foreign cfg vpa ->
  Forall not_a_create tr /\
  (e = None -> Forall (fun s => step_error s = None) (drop 2 tr) /\
     Forall (found (drop 2 tr)) (goals cfg' vpa)).
Proof.
  intros Hx Hk Hv Hf.
  destruct (proj1 (wp_exec _ _ _) (Reconcile_wp scheme cfg req) tr _ Hx Hk) as
    (a & g & rest & -> & Hcfg & _ & Hg). simpl in Hcfg, Hv. destruct g as [|vpa']; simplify_eq.
  pose proof (proj1 (wp_exec _ _ _) (Reconcile_foreign_wp scheme cfg req) _ _ Hx
    (respects_any _) vpa eq_refl Hf) as Hc.
  split; [exact Hc|]. simpl. rewrite drop_0. intros ->. simpl in Hg.
  pose proof (Forall_inv_tail (Forall_inv_tail Hc)) as Hrest.
  split; [by eapply sessions_clean | by eapply sessions_found].
Qed.

(** ** The TLS profile of the operands *)

(** What a reading of the APIServer object says of the profile, if anything:
    [Some None] is no profile of the cluster's. *)
Definition usable (a : error + APIServer) : option (option TLSProfileSpec) :=
  match a with
  | inl _ => None
  | inr s =>
      if ShouldHonorClusterTLSProfile (as_TLSAdherence s) then
        match GetTLSProfileSpec (as_TLSSecurityProfile s) with
        | inl _ => None
        | inr p => Some (Some p)
        end
      else Some None
  end.
Lemma synced_TLSProfile_usable cfg a :
  synced_TLSProfile cfg a = set_TLSProfileSpec (default (cfg_TLSProfileSpec cfg) (usable a)) cfg.
Proof. destruct cfg. unfold synced_TLSProfile, usable. by repeat case_match. Qed.

(** The reading of the APIServer object that a step makes. *)
Definition profile_reading (s : step) : option (error + APIServer) :=
  let '(mkStep c r) := s in
  match c return resp c -> option (error + APIServer) with
  | Get KAPIServer _ => Some
  | _ => fun _ => None
  end r.

(** One reconciliation after the other, each with the configuration that the
    previous one left. *)
Fixpoint reconciles (scheme : Scheme) (reqs : list NamespacedName) (cfg : Config) : prog Config :=
  match reqs with
  | [] => Ret cfg
  | req :: reqs =>
      out <- Reconcile scheme cfg req ;;
      reconciles scheme reqs out.1
  end.

Definition followed (cfg : Config) (readings : list (error + APIServer)) : Config :=
  fold_left synced_TLSProfile readings cfg.

Lemma followed_last readings cfg :
  followed cfg readings =
  set_TLSProfileSpec (default (cfg_TLSProfileSpec cfg) (last (omap usable readings))) cfg.
Proof.
  induction readings as [|a readings IH] using rev_ind; [by destruct cfg|].
  unfold followed in *. rewrite fold_left_app, IH. simpl. rewrite synced_TLSProfile_usable.
  rewrite omap_app. simpl. destruct (usable a) as [p|]; simpl.
  - by rewrite last_snoc.
  - by rewrite app_nil_r.
Qed.

Definition reads_no_profile (s : step) : Prop := profile_reading s = None.
Lemma no_profile_readings tr : Forall reads_no_profile tr -> omap profile_reading tr = [].
Proof. by induction 1 as [|s tr Hs _ IH]; simpl; rewrite ?Hs. Qed.

Lemma Reconcile_reading_wp scheme cfg req :
  wp any_answer (Reconcile scheme cfg req) (fun tr out =>
    out.1 = followed cfg (omap profile_reading tr)).
Proof.
  unfold Reconcile, syncTLSProfile. cbn [wp bind ask]. intros a _. cbn [wp bind ask].
  intros [err|vpa] _; cbv beta iota.
  - by destruct (IsNotFound err).
  - apply wp_bind. eapply wp_mono; [|apply (reconcile_all_makes reads_no_profile); try done].
    + intros tr e Htr. simpl. rewrite app_nil_r. by rewrite no_profile_readings.
    + intros k key r Hk. by destruct k.
Qed.

Lemma reconciles_wp scheme reqs cfg :
  wp any_answer (reconciles scheme reqs cfg) (fun tr cfg' =>
    cfg' = followed cfg (omap profile_reading tr)).
Proof.
  revert cfg; induction reqs as [|req reqs IH]; intros cfg; [done|].
  apply wp_bind. eapply wp_mono; [|apply Reconcile_reading_wp]. intros tr out Hout.
  eapply wp_mono; [|apply IH]. intros tr' cfg' ->. rewrite Hout, omap_app. unfold followed.
  by rewrite fold_left_app.
Qed.

(** C25 The operands follow the cluster's TLS profile, and keep the last one that
    could be read: after any sequence of reconciliations, whatever the API server
    answers, the configuration differs from the first in the profile only, which
    is the one that the last usable reading of the APIServer object names
    (readings that failed, or whose profile is not valid, leave it), or the one
    it started with. *)
Theorem profile_follows_cluster scheme reqs cfg tr cfg' :
  exec (reconciles scheme reqs cfg) tr cfg' ->
  cfg' = set_TLSProfileSpec
    (default (cfg_TLSProfileSpec cfg) (last (omap usable (omap profile_reading tr)))) cfg.
Proof.
  intros Hx. rewrite <- followed_last.
  exact (proj1 (wp_exec _ _ _) (reconciles_wp scheme reqs cfg) tr cfg' Hx (respects_any _)).
Qed.

(** ** On an example *)

(** A policy that another client made controller of nothing, and changed. *)
Definition drifted_policy : NetworkPolicy :=
  mkNetworkPolicy (mkTypeMeta "" "")
    (SetOwnerReferences
       [controller_ref example_vpa
          (mkGVK "autoscaling.openshift.io" "v1" "VerticalPodAutoscalerController")]
       (named_meta "vpa-default-deny" "openshift-vertical-pod-autoscaler"))
    (mkNetworkPolicySpec (match_labels (gm_of [])) [] [] [PolicyTypeIngress]).
Definition drifted_world : fake :=
  mkFake (put (k:=KNetworkPolicy) drifted_policy example_store) 10 0%nat [] [].
Definition drifted_trace : list step :=
  trace (Reconcile example_scheme example_cfg example_request) drifted_world.

Definition updates_policy (s : step) : bool :=
  match st_call s with Update KNetworkPolicy _ => true | _ => false end.

(** The run replaces the drifted policy, and the stored one has no owner left. *)
Lemma policy_updates_disown_witness :
  exists s, s ∈ drifted_trace /\ updates_policy s = true /\ disowned s /\
  (om_OwnerReferences ∘ np_meta <$>
     st_policy (fk_store (run (Reconcile example_scheme example_cfg example_request) drifted_world).2)
       !! mkNN "openshift-vertical-pod-autoscaler" "vpa-default-deny") = Some [].
Proof.
  assert (Hs : exists n s, drifted_trace !! n = Some s /\ updates_policy s = true).
  { assert (Hf : is_set (List.find updates_policy drifted_trace) = true) by (vm_compute; reflexivity).
    destruct (List.find updates_policy drifted_trace) as [s|] eqn:Hs; [|discriminate Hf].
    apply List.find_some in Hs as [Hin Hu].
    apply list_elem_of_In, list_elem_of_lookup in Hin as [n Hn]. by exists n, s. }
  destruct Hs as (n & s & Hn & Hu). exists s.
  split; [exact (list_elem_of_lookup_2 _ _ _ Hn)|]. split; [exact Hu|]. split.
  - exact (policy_updates_disown example_scheme example_cfg example_request drifted_trace _ s
      (run_exec _ drifted_world) (list_elem_of_lookup_2 _ _ _ Hn)).
  - vm_compute. reflexivity.
Defined.

(** A custom resource of the namespace "default": it owns nothing, and the run
    ends with an error at the first deployment. *)
Definition foreign_request : NamespacedName := mkNN "default" "default".
Definition foreign_vpa : VerticalPodAutoscalerController :=
  mkVPA (vpa_type example_vpa) (named_meta "default" "default") (vpa_Spec example_vpa).
Definition foreign_world : fake :=
  mkFake (put (k:=KVerticalPodAutoscalerController) foreign_vpa example_store) 10 0%nat [] [].
(** With everything there already, left by the operator's own custom resource, it
    ends without an error. *)
Definition crowded_world : fake :=
  with_store (put (k:=KVerticalPodAutoscalerController) foreign_vpa)
    (run (Reconcile example_scheme example_cfg example_request) (example_world [])).2.
Lemma foreign_exec (w : fake) :
  let run := run (Reconcile example_scheme example_cfg foreign_request) w in
  exec (Reconcile example_scheme example_cfg foreign_request)
    (trace (Reconcile example_scheme example_cfg foreign_request) w) (run.1.1, (run.1.2.1, run.1.2.2)).
Proof. cbv zeta. rewrite <- !surjective_pairing. apply run_exec. Qed.
Lemma foreign_owner_refused_witness :
  let run w := run (Reconcile example_scheme example_cfg foreign_request) w in
  let trace w := trace (Reconcile example_scheme example_cfg foreign_request) w in
  (Forall not_a_create (trace foreign_world) /\ is_set (run foreign_world).1.2.2 = true) /\
  Forall (found (drop 2 (trace crowded_world))) (goals (run crowded_world).1.1 foreign_vpa).
Proof.
  cbv zeta. split; [split; [|vm_compute; reflexivity]|].
  - refine (proj1 (foreign_owner_refused example_scheme example_cfg foreign_request _ _ _ _ foreign_vpa
      (foreign_exec foreign_world) _ _ _)).
    + apply run_keyed. apply well_keyed_put, example_well_keyed.
    + vm_compute. reflexivity.
    + by split.
  - refine (proj2 (proj2 (foreign_owner_refused example_scheme example_cfg foreign_request _ _ _ _ foreign_vpa
      (foreign_exec crowded_world) _ _ _) _)).
    + apply run_keyed. apply well_keyed_put. apply run_keyed, example_well_keyed.
    + vm_compute. reflexivity.
    + by split.
    + vm_compute. reflexivity.
Defined.

(** A profile that is read, an unreadable APIServer object, a profile that is not
    valid: the operands keep the first. *)
Definition honoring (p : option TLSSecurityProfile) : APIServer :=
  mkAPIServer (named_meta "cluster" "") p TLSAdherencePolicyStrictAllComponents no_others.
Definition example_readings : list (error + APIServer) :=
  [inr (honoring (Some (mkTLSSecurityProfile "Modern" None no_others)));
   inl (StatusError "InternalError" 500 "x");
   inr (honoring (Some (mkTLSSecurityProfile "Custom" None no_others)))].
Definition example_rounds : list step :=
  flat_map (fun a =>
    [mkStep (Get KAPIServer (mkNN "" APIServerName)) a;
     mkStep (Get KVerticalPodAutoscalerController example_request) (inl not_found)]) example_readings.
Lemma profile_follows_cluster_witness :
  exists cfg', exec (reconciles example_scheme [example_request; example_request; example_request]
                       example_cfg) example_rounds cfg' /\
  tls_MinTLSVersion <$> cfg_TLSProfileSpec cfg' = Some "VersionTLS13".
Proof.
  assert (Hx : exists cfg',
    exec (reconciles example_scheme [example_request; example_request; example_request]
            example_cfg) example_rounds cfg').
  { eexists. do 6 (eexists; split; [reflexivity|]). reflexivity. }
  destruct Hx as [cfg' Hx]. exists cfg'. split; [exact Hx|].
  rewrite (profile_follows_cluster _ _ _ _ _ Hx). vm_compute. reflexivity.
Defined.

(** An object with an owner that is no controller keeps it; one that another
    object controls is refused. *)
Definition co_owner (controller : bool) : OwnerReference :=
  mkOwnerReference "v1" "ConfigMap" "parent" "u-1" (Some controller) None.
Definition co_owned (controller : bool) : ObjectMeta :=
  SetOwnerReferences [co_owner controller] (named_meta "x" "openshift-vertical-pod-autoscaler").
Definition example_gvk : GroupVersionKind :=
  mkGVK "autoscaling.openshift.io" "v1" "VerticalPodAutoscalerController".
Lemma SetControllerReference_one_controller_witness :
  (exists m', SetControllerReference example_vpa (co_owned false) example_scheme = inr m' /\
     controllers m' = [controller_ref example_vpa example_gvk] /\
     co_owner false ∈ om_OwnerReferences m') /\
  (exists err, SetControllerReference example_vpa (co_owned true) example_scheme = inl err /\
     Error err = "Object openshift-vertical-pod-autoscaler/x is already owned by another ConfigMap controller parent").
Proof.
  split.
  - pose proof (SetControllerReference_one_controller example_vpa (co_owned false) example_scheme
      example_gvk eq_refl eq_refl ltac:(vm_compute; lia) ltac:(vm_compute; lia)) as Ht.
    destruct (SetControllerReference example_vpa (co_owned false) example_scheme) as [err|m'] eqn:Hs.
    + exfalso. assert (Hb : is_set (err_of (SetControllerReference example_vpa (co_owned false)
        example_scheme)) = false) by (vm_compute; reflexivity). rewrite Hs in Hb. discriminate Hb.
    + destruct Ht as (_ & Hc & Hk). exists m'. split; [done|]. split; [exact Hc|].
      apply Hk; [apply list_elem_of_here | vm_compute; reflexivity].
  - pose proof (SetControllerReference_one_controller example_vpa (co_owned true) example_scheme
      example_gvk eq_refl eq_refl ltac:(vm_compute; lia) ltac:(vm_compute; lia)) as Ht.
    destruct (SetControllerReference example_vpa (co_owned true) example_scheme) as [err|m'] eqn:Hs.
    + destruct Ht as (other & Ho & _ & ->). injection Ho as <-. eexists. split; [done|]. reflexivity.
    + exfalso. assert (Hb : is_set (err_of (SetControllerReference example_vpa (co_owned true)
        example_scheme)) = true) by (vm_compute; reflexivity). rewrite Hs in Hb. discriminate Hb.
Defined.
