(* ===== verification/WellFormed.v ===== *)
(** * What is created is well formed

    Validity.v about the programs: whatever the API server answers, the objects
    that the operator creates pass the checks of Validation.v, for settings and a
    custom resource that are admissible. *)

From S2P Require Import Prelude Go GoFmt Objects Api Util Args Resources Controller Kinds Registry.
From S2P Require Import Server Operands Regexp Validation Validity Convergence Protocol Liveness Startup Safety.

(** A call that creates something creates an object that passes the checks. *)
Definition well_formed (s : step) : Prop :=
  match st_call s with
  | Create k o =>
      match k return obj k -> bool with
      | KDeployment => well_formed_deployment
      | KService => well_formed_service
      | KConfigMap => well_formed_configmap
      | KNetworkPolicy => well_formed_policy
      | KVerticalPodAutoscalerController => fun v => ValidateObjectMeta NameIsDNSSubdomain (vpa_meta v)
      | _ => fun _ => true
      end o = true
  | _ => True
  end.

(** [SetControllerReference] makes [owned] of an object without owners. *)
Lemma SetControllerReference_makes_owned scheme vpa k (o : obj k) m :
  GVKForObject (vpa_type vpa) scheme = inr (kind_gvk KVerticalPodAutoscalerController) ->
  om_OwnerReferences (obj_meta k o) = [] ->
  SetControllerReference vpa (obj_meta k o) scheme = inr m -> with_meta k (fun _ => m) o = owned k vpa o.
Proof.
  unfold SetControllerReference, owned. intros Hg Ho. rewrite Hg.
  destruct (validateOwner _ _); [done|]. cbv zeta.
  unfold GetControllerOf. rewrite Ho. intros [= <-]. by destruct k.
Qed.

Lemma made_anew_well_formed cfg vpa k (o : obj k) r :
  admissible cfg vpa = true -> made_anew cfg vpa k o -> well_formed (mkStep (Create k (owned k vpa o)) r).
Proof.
  rewrite <- objects_valid. unfold objects_well_formed.
  intros [[[Hd Hs]%andb_true_iff Hc]%andb_true_iff Hp]%andb_true_iff.
  rewrite forallb_forall in Hd, Hp.
  destruct k; unfold made_anew, well_formed; cbn [st_call]; [intros [] | | | | | intros [] ..].
  - intros (params & Hin & ->). exact (Hd _ (proj1 (list_elem_of_In _ _) Hin)).
  - intros ->. exact Hs.
  - intros ->. exact Hc.
  - intros Hin. exact (Hp _ (proj1 (list_elem_of_In _ _) Hin)).
Qed.

Lemma reconcile_all_well_formed scheme cfg vpa ref :
  GVKForObject (vpa_type vpa) scheme = inr (kind_gvk KVerticalPodAutoscalerController) ->
  admissible cfg vpa = true -> makes well_formed (reconcile_all scheme cfg vpa ref).
Proof.
  intros Hg Ha. apply reconcile_all_makes; try done.
  intros k o m r Hnew Hs. destruct (made_anew_meta _ _ _ _ Hnew) as [_ Ho].
  rewrite (SetControllerReference_makes_owned scheme vpa k o m Hg Ho Hs). by apply (made_anew_well_formed cfg).
Qed.

Lemma admissible_profile cfg a vpa : admissible (synced_TLSProfile cfg a) vpa = admissible cfg vpa.
Proof. by rewrite synced_TLSProfile_usable. Qed.

(** The scheme knows the custom resource as what it is. *)
Definition is_own_kind (vpa : VerticalPodAutoscalerController) (scheme : Scheme) : bool :=
  match GVKForObject (vpa_type vpa) scheme with
  | inr gvk => bool_decide (gvk = kind_gvk KVerticalPodAutoscalerController)
  | inl _ => false
  end.
Lemma is_own_kind_spec vpa scheme :
  GVKForObject (vpa_type vpa) scheme = inr (kind_gvk KVerticalPodAutoscalerController) <->
  is_own_kind vpa scheme = true.
Proof.
  unfold is_own_kind. destruct (GVKForObject _ _) as [err|gvk]; [done|].
  rewrite bool_decide_eq_true. split; [by intros [=] | by intros ->].
Qed.

Lemma Reconcile_well_formed_wp scheme cfg req :
  wp any_answer (Reconcile scheme cfg req) (fun tr _ =>
    forall vpa, vpa_read <$> tr !! 1%nat = Some (Some vpa) ->
    GVKForObject (vpa_type vpa) scheme = inr (kind_gvk KVerticalPodAutoscalerController) ->
    admissible cfg vpa = true -> Forall well_formed tr).
Proof.
  unfold Reconcile, syncTLSProfile. cbn [wp bind ask]. intros a _. cbn [wp bind ask].
  intros [err|vpa] _; cbv beta iota.
  - by destruct (IsNotFound err); intros vpa [=].
  - apply wp_bind.
    assert (Hone : forall b : bool, b = true \/ b = false) by (intros []; auto).
    destruct (Hone (admissible cfg vpa && is_own_kind vpa scheme)) as [Ha|Hn].
    + apply andb_true_iff in Ha as [Ha Hg%is_own_kind_spec]. rewrite <- (admissible_profile cfg a) in Ha.
      eapply wp_mono; [|by apply (reconcile_all_well_formed scheme (synced_TLSProfile cfg a) vpa)].
      intros tr e Htr vpa' _ _ _. rewrite app_nil_r. by repeat constructor.
    + eapply wp_mono; [|by apply (reconcile_all_makes (fun _ => True))].
      intros tr e _ vpa' [= <-] Hg%is_own_kind_spec Ha. by rewrite Hg, Ha in Hn.
Qed.

(** The settings that admit the default custom resource and all that is made for it. *)
Definition settings_fit (cfg : Config) : bool :=
  IsDNS1123Label (cfg_Namespace cfg) && (len (cfg_ReleaseVersion cfg) <=? release_limit) &&
  valid_name (cfg_Name cfg).

Lemma default_admissible cfg vpa :
  vpa_Spec vpa = vpa_Spec (DefaultVPAController cfg) -> om_Name (vpa_meta vpa) = cfg_Name cfg ->
  admissible cfg vpa = settings_fit cfg && negb (empty (om_UID (vpa_meta vpa))).
Proof.
  intros Hs Hn. unfold admissible, settings_fit, operand_override. rewrite Hs, Hn.
  by rewrite andb_true_r.
Qed.
Lemma default_well_formed cfg r :
  settings_fit cfg = true ->
  well_formed (mkStep (Create KVerticalPodAutoscalerController (DefaultVPAController cfg)) r).
Proof.
  unfold settings_fit, valid_name, well_formed. cbn [st_call vpa_meta DefaultVPAController].
  intros [[Hns _]%andb_true_iff [Hlen Hm]%andb_true_iff]%andb_true_iff.
  unfold ValidateObjectMeta. cbn [named_meta om_Name om_Namespace om_Generation om_Labels om_Annotations om_OwnerReferences].
  rewrite Hns.
  assert (Hn : NameIsDNSSubdomain (cfg_Name cfg) = true).
  { unfold NameIsDNSSubdomain, IsDNS1123Subdomain. rewrite Hm, andb_true_r. apply Z.leb_le in Hlen. apply Z.leb_le. lia. }
  rewrite Hn. unfold empty.
  rewrite (bool_decide_false (cfg_Name cfg = "")) by (intros He; rewrite He in Hm; discriminate Hm).
  rewrite (bool_decide_false (cfg_Namespace cfg = "")) by (intros He; rewrite He in Hns; discriminate Hns).
  reflexivity.
Qed.
Lemma ensureVPAController_well_formed cfg :
  settings_fit cfg = true -> makes well_formed (ensureVPAController cfg).
Proof.
  intros Hf. unfold ensureVPAController, ask. follow_calls; try exact I. by apply default_well_formed.
Qed.

(** C14 What the operator creates is well formed.  Exactly when the settings and the
    custom resource are admissible, all objects pass apimachinery's checks of names,
    namespaces, labels, label selectors, annotations and owner references (the
    names of the service by the stricter name function): the namespace is a DNS
    label; the release version fits into the 256 kB of the annotations; the custom
    resource's name is a DNS subdomain of at most 63 characters (longer names are
    possible for a custom resource, but this one becomes a label's value), it has a
    UID; and the user's node selectors are valid labels.  Nothing the operator adds
    by itself can fail them, whatever the overrides.  And so, whatever the server
    answers, every run of [Reconcile] that reads an admissible custom resource
    creates only objects that pass; so does [ensureVPAController], if the settings
    fit, and the custom resource that it creates is admissible. *)
Theorem creates_well_formed scheme cfg vpa :
  objects_well_formed cfg vpa = admissible cfg vpa /\
  (forall req tr out, exec (Reconcile scheme cfg req) tr out ->
     vpa_read <$> tr !! 1%nat = Some (Some vpa) ->
     GVKForObject (vpa_type vpa) scheme = inr (kind_gvk KVerticalPodAutoscalerController) ->
     admissible cfg vpa = true -> Forall well_formed tr) /\
  (forall tr e, exec (ensureVPAController cfg) tr e -> settings_fit cfg = true -> Forall well_formed tr) /\
  (vpa_Spec vpa = vpa_Spec (DefaultVPAController cfg) -> om_Name (vpa_meta vpa) = cfg_Name cfg ->
   admissible cfg vpa = settings_fit cfg && negb (empty (om_UID (vpa_meta vpa)))).
Proof.
  split; [apply objects_valid|]. split; [|split; [|apply default_admissible]].
  - intros req tr out Hx. exact (proj1 (wp_exec _ _ _) (Reconcile_well_formed_wp scheme cfg req) tr out Hx
      (respects_any _) vpa).
  - intros tr e Hx Hf. by eapply makes_exec; [apply ensureVPAController_well_formed|].
Qed.

(** A start and a run of the example: the custom resource and ten objects. *)
Definition creates (s : step) : bool := match st_call s with Create _ _ => true | _ => false end.
Definition unmarked_world : fake :=
  mkFake (put (k:=KNamespace) example_namespace empty_store) 10 0%nat [] [].
Lemma creates_well_formed_witness :
  let start := trace (ensureVPAController example_cfg) unmarked_world in
  let run := trace (Reconcile example_scheme example_cfg example_request) (example_world []) in
  (Forall well_formed start /\ length (filter (fun s => creates s = true) start) = 1%nat) /\
  (Forall well_formed run /\ length (filter (fun s => creates s = true) run) = 10%nat).
Proof.
  destruct (creates_well_formed example_scheme example_cfg example_vpa) as (_ & Hrun & Hstart & _).
  split; (split; [|vm_compute; reflexivity]).
  - apply (Hstart _ _ (run_exec _ unmarked_world)). vm_compute. reflexivity.
  - apply (Hrun example_request _ _ (run_exec _ (example_world []))); vm_compute; reflexivity.
Defined.
