(* ===== verification/Watches.v ===== *)
(** * From changes to requests

    [SetupWithManager] of the controller: which kinds it watches, which changes
    pass its predicates, and which requests they put into the work queue; and
    the event handlers of controller-runtime it uses ([EnqueueRequestForObject],
    [EnqueueRequestForOwner], [EnqueueRequestsFromMapFunc]), as the vendored code
    has them.  Handlers see the metadata of the objects only. *)

From S2P Require Import Prelude Go GoFmt Objects Api Util Args Resources Controller Server Operands.
From S2P Require Import Convergence Protocol Liveness.

(** ** Changes *)

(** The events of an informer, and the generic one. *)
Inductive change (A : Type) :=
| Added (o : A)
| Modified (old new : A)
| Deleted (o : A)
| Generic (o : A).
Arguments Added {A} o.
Arguments Modified {A} old new.
Arguments Deleted {A} o.
Arguments Generic {A} o.
Definition change_map {A B} (f : A -> B) (c : change A) : change B :=
  match c with
  | Added o => Added (f o)
  | Modified old new => Modified (f old) (f new)
  | Deleted o => Deleted (f o)
  | Generic o => Generic (f o)
  end.

(** A change of an object of some kind. *)
Record notice := mkNotice { no_kind : kind; no_change : change (obj no_kind) }.
Definition notice_meta (n : notice) : change ObjectMeta :=
  change_map (obj_meta (no_kind n)) (no_change n).

(** ** Handlers *)

Definition handler := change ObjectMeta -> list NamespacedName.

Definition request_for (m : ObjectMeta) : NamespacedName := mkNN (om_Namespace m) (om_Name m).

(** [EnqueueRequestForObject]. *)
Definition EnqueueRequestForObject : handler := fun evt =>
  match evt with
  | Added o | Deleted o | Generic o => [request_for o]
  | Modified _ new => [request_for new]
  end.

(** [q.Add] once per request that is new in [reqs]. *)
Fixpoint add_new (requests reqs : list NamespacedName) : list NamespacedName :=
  match requests with
  | [] => reqs
  | req :: rest => add_new rest (if bool_decide (req ∈ reqs) then reqs else reqs ++ [req])
  end.

(** [EnqueueRequestsFromMapFunc]. *)
Definition EnqueueRequestsFromMapFunc (toRequests : ObjectMeta -> list NamespacedName) : handler := fun evt =>
  match evt with
  | Added o | Deleted o | Generic o => add_new (toRequests o) []
  | Modified old new => add_new (toRequests new) (add_new (toRequests old) [])
  end.

(** The scope of the owner's resource, by version: [Some true] is namespaced,
    [None] an error of the REST mapper. *)
Definition RESTMapping := string -> option bool.

Record OwnerHandler := mkOwnerHandler {
  oh_Group : string;
  oh_Kind : string;
  oh_isController : bool;
  oh_mapper : RESTMapping
}.

Definition getOwnersReferences (e : OwnerHandler) (m : ObjectMeta) : list OwnerReference :=
  if negb (oh_isController e) then om_OwnerReferences m
  else match GetControllerOf (om_OwnerReferences m) with
       | Some ownerRef => [ownerRef]
       | None => []
       end.

(** The loop of [getOwnerReconcileRequest]: an error ends it, with what it found. *)
Fixpoint owner_requests (e : OwnerHandler) (m : ObjectMeta) (refs : list OwnerReference)
    (result : list NamespacedName) : list NamespacedName :=
  match refs with
  | [] => result
  | ref :: rest =>
      match ParseGroupVersion (or_APIVersion ref) with
      | None => result
      | Some (group, version) =>
          if bool_decide (or_Kind ref = oh_Kind e) && bool_decide (group = oh_Group e) then
            match oh_mapper e version with
            | None => result
            | Some namespaced =>
                let ns := if (namespaced : bool) then om_Namespace m else "" in
                owner_requests e m rest (add_new [mkNN ns (or_Name ref)] result)
            end
          else owner_requests e m rest result
      end
  end.
Definition getOwnerReconcileRequest (e : OwnerHandler) (m : ObjectMeta)
    (result : list NamespacedName) : list NamespacedName :=
  owner_requests e m (getOwnersReferences e m) result.

(** [EnqueueRequestForOwner]. *)
Definition EnqueueRequestForOwner (e : OwnerHandler) : handler := fun evt =>
  match evt with
  | Added o | Deleted o | Generic o => getOwnerReconcileRequest e o []
  | Modified old new => getOwnerReconcileRequest e new (getOwnerReconcileRequest e old [])
  end.

(** ** The controller's watches *)

Record source := mkSource {
  so_kind : kind;
  so_predicate : change ObjectMeta -> bool;
  so_handler : handler
}.

(** The functions of [predicate.Funcs]. *)
Definition name_predicate (cfg : Config) (evt : change ObjectMeta) : bool :=
  match evt with
  | Added o | Deleted o | Generic o => NamePredicate cfg o
  | Modified _ new => NamePredicate cfg new
  end.

(** The outcome of [SetupWithManager]: an error, a panic, or the watches. *)
Inductive setup_outcome := SetupError (err : error) | SetupPanic | SetupDone (watches : list source).

Definition always (_ : change ObjectMeta) : bool := true.
(** [SetupWithManager]: the builder finds the kind of the custom resource for
    the controller's name, then watches it, the owned kinds, and the APIServer. *)
Definition SetupWithManager (scheme : Scheme) (mapper : RESTMapping) (cfg : Config) : setup_outcome :=
  match GVKForObject (mkTypeMeta "" "") scheme with
  | inl err => SetupError err
  | inr _ =>
      match ObjectKinds scheme with
      | inr ([gvk], _) =>
          let owns k := mkSource k always
            (EnqueueRequestForOwner (mkOwnerHandler (gvk_Group gvk) (gvk_Kind gvk) true mapper)) in
          SetupDone
            [mkSource KVerticalPodAutoscalerController (name_predicate cfg) EnqueueRequestForObject;
             owns KDeployment; owns KService; owns KConfigMap;
             mkSource KAPIServer always (EnqueueRequestsFromMapFunc (fun _ => apiServerToVPA cfg))]
      | _ => SetupPanic
      end
  end.

(** The goroutine that [SetupWithManager] starts: once the caches are synced, the
    default custom resource is ensured; errors are only logged. *)
Definition setup_goroutine (cfg : Config) (synced : bool) : prog unit :=
  if negb synced then Ret tt else ensureVPAController cfg ;;; Ret tt.

(** The requests that a change puts into the work queue. *)
Definition deliver (watches : list source) (n : notice) : list NamespacedName :=
  flat_map (fun w =>
    if bool_decide (so_kind w = no_kind n) && so_predicate w (notice_meta n)
    then so_handler w (notice_meta n) else []) watches.

(** ** What the handlers add *)

Lemma add_new_elem l reqs req : req ∈ add_new l reqs <-> req ∈ l \/ req ∈ reqs.
Proof.
  revert reqs; induction l as [|r l IH]; intros reqs; simpl.
  - rewrite elem_of_nil. tauto.
  - rewrite IH, elem_of_cons. case_bool_decide as Hr.
    + split; [tauto|]. intros [[->|?]|?]; auto.
    + rewrite elem_of_app, list_elem_of_singleton. tauto.
Qed.

(** The custom resource of that name controls the object: the first controller
    among the owners has the kind, the group and the name. *)
Definition managed_by (gvk : GroupVersionKind) (mapper : RESTMapping) (name : string)
    (m : ObjectMeta) : Prop :=
  exists r v, GetControllerOf (om_OwnerReferences m) = Some r /\
    ParseGroupVersion (or_APIVersion r) = Some (gvk_Group gvk, v) /\
    or_Kind r = gvk_Kind gvk /\ or_Name r = name /\ mapper v = Some true.

(** The request of an object: its first controller, if that has the kind and the
    group and the mapper knows its version, in the object's namespace if the kind
    is namespaced there. *)
Definition controller_request (gvk : GroupVersionKind) (mapper : RESTMapping) (m : ObjectMeta)
    (req : NamespacedName) : Prop :=
  exists r v namespaced, GetControllerOf (om_OwnerReferences m) = Some r /\
    ParseGroupVersion (or_APIVersion r) = Some (gvk_Group gvk, v) /\
    or_Kind r = gvk_Kind gvk /\ mapper v = Some namespaced /\
    req = mkNN (if namespaced : bool then om_Namespace m else "") (or_Name r).
Lemma managed_request gvk mapper name m :
  managed_by gvk mapper name m -> controller_request gvk mapper m (mkNN (om_Namespace m) name).
Proof. intros (r & v & ? & ? & ? & <- & ?). by exists r, v, true. Qed.

Lemma owner_request gvk mapper m result req :
  req ∈ getOwnerReconcileRequest (mkOwnerHandler (gvk_Group gvk) (gvk_Kind gvk) true mapper) m result <->
  controller_request gvk mapper m req \/ req ∈ result.
Proof.
  unfold getOwnerReconcileRequest, getOwnersReferences, controller_request. cbn [oh_isController negb].
  destruct (GetControllerOf _) as [r|]; cbn [owner_requests oh_Kind oh_Group oh_mapper];
    [|by split; [auto | intros [(? & ? & ? & [=] & _)|?]]].
  destruct (ParseGroupVersion _) as [[g v]|] eqn:Hp;
    [|split; [auto | intros [(? & ? & ? & [= <-] & ? & _)|?]; congruence]].
  destruct (decide (or_Kind r = gvk_Kind gvk /\ g = gvk_Group gvk)) as [[Hk ->]|Hne].
  - rewrite Hk, !bool_decide_eq_true_2 by done. cbn [andb].
    destruct (mapper v) as [b|] eqn:Hm.
    + rewrite add_new_elem, list_elem_of_singleton. split; (intros [Hr|?]; [left | by right]).
      * by exists r, v, b.
      * destruct Hr as (r' & v' & b' & [= <-] & Hp' & _ & Hm' & ->). rewrite Hp in Hp'. injection Hp' as <-.
        rewrite Hm in Hm'. by injection Hm' as <-.
    + split; [auto|]. intros [(r' & v' & b' & [= <-] & Hp' & _ & Hm' & _)|?]; [|done].
      rewrite Hp in Hp'. injection Hp' as <-. congruence.
  - replace (_ && _) with false; [cbn [owner_requests]|symmetry; apply not_true_is_false; by rewrite andb_true_iff, !bool_decide_eq_true].
    split; [auto|]. intros [(r' & v' & b' & [= <-] & Hp' & Hk & _)|?]; [|done].
    destruct Hne. by simplify_eq.
Qed.

(** The metadata that a change shows. *)
Definition shows (m : ObjectMeta) (c : change ObjectMeta) : Prop :=
  match c with
  | Added o | Deleted o | Generic o => m = o
  | Modified old new => m = old \/ m = new
  end.
(** The object as it is after the change. *)
Definition latest {A} (c : change A) : A :=
  match c with Added o | Deleted o | Generic o => o | Modified _ new => new end.
Definition owned_kinds : list kind := [KDeployment; KService; KConfigMap].

Section Delivery.
Context (scheme : Scheme) (mapper : RESTMapping) (cfg : Config) (sources : list source).
Context (gvk : GroupVersionKind).
Hypothesis kinds : GVKForObject (mkTypeMeta "" "") scheme = inr gvk.
Hypothesis setup : SetupWithManager scheme mapper cfg = SetupDone sources.

Lemma setup_sources :
  let owns k := mkSource k always
    (EnqueueRequestForOwner (mkOwnerHandler (gvk_Group gvk) (gvk_Kind gvk) true mapper)) in
  sources =
    [mkSource KVerticalPodAutoscalerController (name_predicate cfg) EnqueueRequestForObject;
     owns KDeployment; owns KService; owns KConfigMap;
     mkSource KAPIServer always (EnqueueRequestsFromMapFunc (fun _ => apiServerToVPA cfg))].
Proof.
  unfold SetupWithManager in setup. rewrite kinds in setup. unfold GVKForObject in kinds.
  destruct (ObjectKinds scheme) as [|[l [|]]]; [done | done |].
  destruct l as [|g [|? ?]]; by simplify_eq.
Qed.

(** Exactly one of the watches sees an owned kind. *)
Lemma deliver_owner n :
  no_kind n ∈ owned_kinds ->
  deliver sources n =
    EnqueueRequestForOwner (mkOwnerHandler (gvk_Group gvk) (gvk_Kind gvk) true mapper) (notice_meta n).
Proof.
  rewrite setup_sources. unfold owned_kinds. rewrite !elem_of_cons, elem_of_nil.
  destruct n as [k c]. cbn [no_kind]. intros [->|[->|[->|[]]]];
    unfold deliver; cbn -[EnqueueRequestForOwner notice_meta]; by rewrite ?app_nil_r.
Qed.
Lemma deliver_owned n req :
  no_kind n ∈ owned_kinds ->
  req ∈ deliver sources n <->
    exists m, shows m (notice_meta n) /\ controller_request gvk mapper m req.
Proof.
  intros Hk. rewrite deliver_owner by done.
  destruct (notice_meta n) as [o|old new|o|o]; cbn [EnqueueRequestForOwner shows];
    rewrite !owner_request, elem_of_nil; split.
  all: try (intros [?|[]]; by exists o).
  all: try (intros (m & -> & ?); by left).
  - intros [?|[?|[]]]; [exists new | exists old]; auto.
  - intros (m & [->| ->] & ?); auto.
Qed.

Lemma deliver_vpa c :
  deliver sources (mkNotice KVerticalPodAutoscalerController c) =
  let m := vpa_meta (latest c) in
  if bool_decide (om_Name m = cfg_Name cfg) then [request_for m] else [].
Proof.
  rewrite setup_sources. unfold deliver. simpl. rewrite app_nil_r.
  destruct c; simpl; unfold NamePredicate; by destruct (bool_decide _).
Qed.

Lemma deliver_apiserver c :
  deliver sources (mkNotice KAPIServer c) = [mkNN (cfg_Namespace cfg) (cfg_Name cfg)].
Proof.
  rewrite setup_sources. unfold deliver. simpl. destruct c; simpl; [done| |done|done].
  rewrite bool_decide_eq_true_2; [done | apply list_elem_of_here].
Qed.

Lemma deliver_others n :
  no_kind n ∉ KVerticalPodAutoscalerController :: KAPIServer :: owned_kinds ->
  deliver sources n = [].
Proof.
  rewrite setup_sources. unfold deliver, owned_kinds. rewrite !not_elem_of_cons.
  intros (H1 & H2 & H3 & H4 & H5 & _). simpl.
  by rewrite !bool_decide_eq_false_2 by congruence.
Qed.
End Delivery.

(** C19 Which changes wake the reconciler, and which requests they put into the
    queue.  A change of a deployment, a service or a config map requests exactly
    what the controllers of the object before and after it name, where they are of
    the custom resource's kind and group: an object without a controller requests
    nothing, whatever other owners it has.  A change of a custom resource requests
    it exactly if it has the operator's name; a change of the APIServer requests
    the singleton; and no other change requests anything: a change of a network
    policy goes unnoticed. *)
Theorem changes_enqueue scheme mapper cfg sources gvk :
  GVKForObject (mkTypeMeta "" "") scheme = inr gvk ->
  SetupWithManager scheme mapper cfg = SetupDone sources ->
  (forall n req, no_kind n ∈ owned_kinds ->
     req ∈ deliver sources n <->
     exists m, shows m (notice_meta n) /\ controller_request gvk mapper m req) /\
  (forall c, deliver sources (mkNotice KVerticalPodAutoscalerController c) =
     let m := vpa_meta (latest c) in
     if bool_decide (om_Name m = cfg_Name cfg) then [request_for m] else []) /\
  (forall c, deliver sources (mkNotice KAPIServer c) = [mkNN (cfg_Namespace cfg) (cfg_Name cfg)]) /\
  (forall n, no_kind n ∉ KVerticalPodAutoscalerController :: KAPIServer :: owned_kinds ->
     deliver sources n = []).
Proof.
  intros Hk Hs. split; [intros; by eapply deliver_owned|]. split; [|split].
  - by apply (deliver_vpa scheme mapper cfg sources gvk).
  - by apply (deliver_apiserver scheme mapper cfg sources gvk).
  - by apply (deliver_others scheme mapper cfg sources gvk).
Qed.
