(* ===== verification/System.v ===== *)
(** * The controller as a whole

    The closed loop.  Other clients change the cluster; the informers replay the
    changes of each object, in order and with any delay, into the cache that
    [Reconcile] reads from, and notify the handlers; the handlers put requests
    into the work queue; one worker takes a request and runs [Reconcile] call by
    call (reads from the cache, writes to the server), and a request that failed
    is queued again.  Everything may be interleaved with everything, between any
    two calls of a run.

    The work queue is a set, as it joins equal requests; a request added while it
    is being processed stays queued.  Informers lose no change of an object:
    [catch_up] replays all of them (Resync.v lets them lose some).

    The manager's cache serves the cluster-scoped kinds and, of the others, the
    objects in the namespace that WATCH_NAMESPACE names (all of them, if it is
    empty): only these are replayed and notified, and a read of anything else
    fails.  With which errors reads fail is a parameter, [ManagerCache]. *)

From S2P Require Import Prelude Go GoFmt Objects Api Util Args Resources Controller Server Operands.
From S2P Require Import Convergence Protocol Liveness Startup Safety Watches.

(** ** What the cache serves *)

Definition cluster_scoped (k : kind) : bool :=
  match k with
  | KNamespace | KAPIServer | KClusterOperator | KInfrastructure => true
  | _ => false
  end.
(** The slots that the cache serves when main.go hands it the namespace
    [WatchNamespace]. *)
Definition serves (WatchNamespace : string) (k : kind) (key : NamespacedName) : bool :=
  cluster_scoped k || bool_decide (WatchNamespace = "") || bool_decide (nn_Namespace key = WatchNamespace).

(** The manager's cache: its namespace, and the errors of its reads.  An object
    that is not there is reported as not found; the read of a slot that it does not
    serve fails with another error. *)
Record ManagerCache := mkManagerCache {
  mc_WatchNamespace : string;
  mc_missing : kind -> NamespacedName -> error;
  mc_missing_law : forall k key, IsNotFound (mc_missing k key) = serves mc_WatchNamespace k key
}.
Definition cache_serves (mc : ManagerCache) (k : kind) (key : NamespacedName) : Prop :=
  serves (mc_WatchNamespace mc) k key = true.
#[export] Instance cache_serves_dec mc k key : Decision (cache_serves mc k key).
Proof. unfold cache_serves. apply _. Defined.

(** The cache serves what an operator in namespace [ns] needs: everything, or that
    namespace (where the custom resource's kind is a namespaced one). *)
Definition in_scope (mc : ManagerCache) (mapper : RESTMapping) (ns : string) : Prop :=
  mc_WatchNamespace mc = "" \/
  mc_WatchNamespace mc = ns /\ forall version, mapper version <> Some false.

Lemma served_missing mc k key : cache_serves mc k key -> IsNotFound (mc_missing mc k key) = true.
Proof. intros Hs. rewrite mc_missing_law. exact Hs. Qed.
Lemma served_cluster mc k key : cluster_scoped k = true -> cache_serves mc k key.
Proof. intros Hk. unfold cache_serves, serves. by rewrite Hk. Qed.
Lemma served_scope mc mapper ns k name : in_scope mc mapper ns -> cache_serves mc k (mkNN ns name).
Proof.
  unfold cache_serves, serves. cbn [nn_Namespace]. intros [->|[-> _]].
  - by rewrite (bool_decide_eq_true_2 ("" = "")), orb_true_r.
  - by rewrite (bool_decide_eq_true_2 (ns = ns)), orb_true_r.
Qed.
(** Namespaced objects are served by their namespace. *)
Lemma served_namespace mc k k' key key' :
  cluster_scoped k = false -> nn_Namespace key' = nn_Namespace key -> cache_serves mc k key -> cache_serves mc k' key'.
Proof.
  unfold cache_serves, serves. intros Hk ->. rewrite Hk. simpl. intros Hs.
  rewrite <- orb_assoc, Hs. apply orb_true_r.
Qed.

(** ** Caches and notices *)

(** What becomes of a slot: its object from then on. *)
Record update := mkUpdate {
  up_kind : kind;
  up_key : NamespacedName;
  up_object : option (obj up_kind)
}.
Definition up_slot (u : update) : slot := (up_kind u, up_key u).
Definition up_slots (l : list update) : list slot := map up_slot l.

(** A cache is a store of objects that follows the server's. *)
Definition apply_update (c : Store) (u : update) : Store :=
  set_table (up_kind u) (partial_alter (fun _ => up_object u) (up_key u) (table (up_kind u) c)) c.
Definition replay (l : list update) (c : Store) : Store := foldl apply_update c l.

(** What an informer reports when a slot goes from [old] to [new]. *)
Definition difference (k : kind) (old new : option (obj k)) : option notice :=
  match old, new with
  | None, None => None
  | None, Some o => Some (mkNotice k (Added o))
  | Some o, None => Some (mkNotice k (Deleted o))
  | Some o, Some o' => Some (mkNotice k (Modified o o'))
  end.
Definition notices_of (c : Store) (u : update) : list notice :=
  match difference (up_kind u) (table (up_kind u) c !! up_key u) (up_object u) with
  | Some n => [n]
  | None => []
  end.

(** The updates say what becomes of the served slots that differ between two views
    (and may repeat others: informers also report objects that did not change). *)
Definition views : Type := forall k, gmap NamespacedName (obj k).
Definition covers (mc : ManagerCache) (v v' : views) (l : list update) : Prop :=
  (forall u, u ∈ l -> cache_serves mc (up_kind u) (up_key u) /\ up_object u = v' (up_kind u) !! up_key u) /\
  (forall k key, cache_serves mc k key -> (k, key) ∉ up_slots l -> v' k !! key = v k !! key).
Definition tables (c : Store) : views := fun k => table k c.

Lemma apply_update_eq c u : table (up_kind u) (apply_update c u) !! up_key u = up_object u.
Proof. unfold apply_update. rewrite table_set_eq. by rewrite lookup_partial_alter_eq. Qed.
Lemma apply_update_ne c u k key :
  (k, key) <> up_slot u -> table k (apply_update c u) !! key = table k c !! key.
Proof.
  intros Hne. unfold apply_update, up_slot in *. destruct (decide (k = up_kind u)) as [->|Hk].
  - rewrite table_set_eq. apply lookup_partial_alter_ne. congruence.
  - by rewrite table_set_ne.
Qed.
Lemma replay_agree l c c' k key :
  table k c !! key = table k c' !! key -> table k (replay l c) !! key = table k (replay l c') !! key.
Proof.
  revert c c'; induction l as [|u l IH]; intros c c' Hc; [done|]. apply IH.
  destruct (decide ((k, key) = up_slot u)) as [Hs|Hs].
  - unfold up_slot in Hs. injection Hs as -> ->. by rewrite !apply_update_eq.
  - by rewrite !apply_update_ne.
Qed.
Lemma replay_out l c k key :
  (k, key) ∉ up_slots l -> table k (replay l c) !! key = table k c !! key.
Proof.
  revert c; induction l as [|u l IH]; intros c; [done|]. cbn [up_slots map].
  rewrite not_elem_of_cons. intros [Hs Hl]. cbn [replay foldl]. fold (replay l (apply_update c u)).
  rewrite IH by done. by apply apply_update_ne.
Qed.
Lemma replay_app l l' c : replay (l ++ l') c = replay l' (replay l c).
Proof. apply foldl_app. Qed.
Lemma replay_in l c (v : views) k key :
  (forall u, u ∈ l -> up_object u = v (up_kind u) !! up_key u) ->
  (k, key) ∈ up_slots l -> table k (replay l c) !! key = v k !! key.
Proof.
  induction l as [|u l IH] using rev_ind; intros Hl Hs; [by apply elem_of_nil in Hs|].
  rewrite replay_app. cbn [replay foldl].
  destruct (decide ((k, key) = up_slot u)) as [Heq|Hne].
  - unfold up_slot in Heq. injection Heq as -> ->. rewrite apply_update_eq. apply Hl.
    apply elem_of_app. right. apply list_elem_of_here.
  - rewrite apply_update_ne by done. apply IH.
    + intros u' Hu'. apply Hl, elem_of_app. by left.
    + unfold up_slots in Hs. rewrite map_app, elem_of_app in Hs. destruct Hs as [?|Hs]; [done|].
      cbn [map] in Hs. by rewrite list_elem_of_singleton in Hs.
Qed.
(** The first update of a slot may be replayed before the others. *)
Lemma replay_first b1 u b2 c k key :
  up_slot u ∉ up_slots b1 ->
  table k (replay (b1 ++ b2) (apply_update c u)) !! key = table k (replay (b1 ++ u :: b2) c) !! key.
Proof.
  intros Hu. rewrite !replay_app. cbn [replay foldl]. apply replay_agree.
  destruct (decide ((k, key) = up_slot u)) as [Hs|Hs].
  - rewrite replay_out by (by rewrite Hs). unfold up_slot in Hs. injection Hs as -> ->.
    by rewrite !apply_update_eq.
  - rewrite apply_update_ne by done. apply replay_agree. by apply apply_update_ne.
Qed.

(** ** The steps *)

Section Steps.
Context {W : Type} `{ClusterLaws W}.
Context (mc : ManagerCache).

(** The answer of the cache. *)
Definition cached_get (c : Store) (k : kind) (key : NamespacedName) : error + obj k :=
  match table k c !! key with Some o => inr o | None => inl (mc_missing mc k key) end.

Definition run_of_Reconcile : Type := prog (Config * (Result * option error)).

Record sys := mkSys {
  s_config : Config;                                   (* [r.Config] *)
  s_world : W;
  s_cache : Store;                                     (* what the reconciler reads *)
  s_backlog : list update;                             (* changes the cache does not have yet *)
  s_pending : list notice;                             (* changes the handlers have not seen yet *)
  s_queue : gset NamespacedName;                       (* the work queue *)
  s_running : option (NamespacedName * run_of_Reconcile)   (* the worker *)
}.

Context (scheme : Scheme) (sources : list source).
(** What other clients may do to the world. *)
Context (permitted : W -> Prop).

Inductive sys_step : sys -> sys -> Prop :=
| other_client cfg w w' c b l pending q r :
    permitted w' -> covers mc (view w) (view w') l ->
    sys_step (mkSys cfg w c b pending q r) (mkSys cfg w' c (b ++ l) pending q r)
| catch_up cfg w c b1 u b2 pending q r :
    up_slot u ∉ up_slots b1 ->
    sys_step (mkSys cfg w c (b1 ++ u :: b2) pending q r)
             (mkSys cfg w (apply_update c u) (b1 ++ b2) (pending ++ notices_of c u) q r)
| handle_notice cfg w c b n p1 p2 q r :
    sys_step (mkSys cfg w c b (p1 ++ n :: p2) q r)
             (mkSys cfg w c b (p1 ++ p2) (list_to_set (deliver sources n) ∪ q) r)
| take_request cfg w c b pending q req :
    req ∈ q ->
    sys_step (mkSys cfg w c b pending q None)
             (mkSys cfg w c b pending (q ∖ {[req]}) (Some (req, Reconcile scheme cfg req)))
| read_cache cfg w c b pending q req k key f :
    sys_step (mkSys cfg w c b pending q (Some (req, Do (Get k key) f)))
             (mkSys cfg w c b pending q (Some (req, f (cached_get c k key))))
| make_call cfg w c b pending q req cl f l :
    is_get cl = false -> covers mc (view w) (view (handle cl w).2) l ->
    sys_step (mkSys cfg w c b pending q (Some (req, Do cl f)))
             (mkSys cfg (handle cl w).2 c (b ++ l) pending q (Some (req, f (handle cl w).1)))
| end_run cfg w c b pending q req cfg' res e :
    sys_step (mkSys cfg w c b pending q (Some (req, Ret (cfg', (res, e)))))
             (mkSys cfg' w c b pending (if is_set e then {[req]} ∪ q else q) None).

(** At the start the caches are empty and every object that they serve is to be read. *)
Definition sys_start (cfg : Config) (w : W) (s : sys) : Prop :=
  exists l, s = mkSys cfg w empty_store l [] ∅ None /\ covers mc (tables empty_store) (view w) l.

(** The world changes under the loop. *)
Definition world_moves (s : sys) (w' : W) (l : list update) : sys :=
  mkSys (s_config s) w' (s_cache s) (s_backlog s ++ l) (s_pending s) (s_queue s) (s_running s).
(** No other client does anything. *)
Definition nobody (w : W) : Prop := False.
End Steps.
Arguments sys W : clear implicits.

(** ** The settings *)

(** A run may replace the TLS profile, and nothing else of the configuration. *)
Definition same_settings (cfg cfg' : Config) : Prop := cfg' = set_TLSProfileSpec (cfg_TLSProfileSpec cfg') cfg.
Definition keeps_settings {W} (cfg : Config) (s : sys W) : Prop :=
  same_settings cfg (s_config s) /\
  match s_running s with
  | None => True
  | Some (_, p) => wp any_answer p (fun _ out => same_settings cfg out.1)
  end.
Lemma Reconcile_settings scheme cfg cfg' req :
  same_settings cfg cfg' -> wp any_answer (Reconcile scheme cfg' req) (fun _ out => same_settings cfg out.1).
Proof.
  intros Hc. eapply wp_mono; [|apply Reconcile_reading_wp]. intros tr out Hout. unfold same_settings in *.
  rewrite Hout, followed_last, Hc. by destruct cfg.
Qed.
Lemma keeps_settings_step {W} `{ClusterLaws W} mc scheme sources (permitted : W -> Prop) cfg s s' :
  sys_step mc scheme sources permitted s s' -> keeps_settings cfg s -> keeps_settings cfg s'.
Proof.
  intros Hs [Hc Hr]. destruct Hs; cbn in *; split; cbn; try done.
  - by apply Reconcile_settings.
  - by apply (Hr (cached_get mc c k key)).
  - by apply (Hr (handle cl w).1).
Qed.
Lemma keeps_settings_start {W} `{ClusterLaws W} mc cfg (w : W) s : sys_start mc cfg w s -> keeps_settings cfg s.
Proof. intros (l & -> & _). split; [by destruct cfg | done]. Qed.
Lemma keeps_settings_reached {W} `{ClusterLaws W} mc scheme sources (permitted : W -> Prop) cfg s s' :
  rtc (sys_step mc scheme sources permitted) s s' -> keeps_settings cfg s -> keeps_settings cfg s'.
Proof. intros Hr. induction Hr as [|s1 s2 s3 Hs _ IH]; [done|]. intros Hk. by eapply IH, keeps_settings_step. Qed.

(** ** Goals and worlds *)

(** The objects of the operands whose changes are watched. *)
Definition watched_goals (cfg : Config) (vpa : VerticalPodAutoscalerController) : list goal :=
  map (deployment_goal cfg vpa) controllerParams ++ [service_goal cfg vpa] ++ [configmap_goal cfg].

(** A cache, looked at as a cluster. *)
Definition snapshot (c : Store) : fake := mkFake c 0 0%nat [] [].

Section Loop.
Context (scheme : Scheme) (mapper : RESTMapping) (gvk : GroupVersionKind) (ns name : string).
Context (mc : ManagerCache).

(** The operator's custom resource. *)
Definition singleton_key : NamespacedName := mkNN ns name.
Definition operand_slots : list slot :=
  [(KDeployment, mkNN ns ("vpa-recommender-" +:+ name));
   (KDeployment, mkNN ns ("vpa-updater-" +:+ name));
   (KDeployment, mkNN ns ("vpa-admission-plugin-" +:+ name));
   (KService, mkNN ns WebhookServiceName); (KConfigMap, mkNN ns CACertConfigMapName)].
(** The slots on which the operands depend: these, and the inputs. *)
Definition tracked : list slot :=
  (KVerticalPodAutoscalerController, singleton_key) ::
  (KAPIServer, mkNN "" APIServerName) :: operand_slots.

Definition our_config (cfg : Config) : Prop := cfg_Namespace cfg = ns /\ cfg_Name cfg = name.

(** An object as other clients may leave it: it is stored under its name, the
    operands' objects keep the custom resource as their controller, and the custom
    resource is the only one (with quantities the server stores as they are). *)
Definition sound (k : kind) (key : NamespacedName) (o : obj k) : Prop :=
  obj_key o = key /\
  ((k, key) ∈ operand_slots -> managed_by gvk mapper name (obj_meta k o)) /\
  match k return obj k -> Prop with
  | KVerticalPodAutoscalerController => fun vpa =>
      key = singleton_key /\ GVKForObject (vpa_type vpa) scheme = inr gvk /\ overrides_exact vpa = true
  | _ => fun _ => True
  end o.
Definition all_sound (v : views) : Prop := forall k key o, v k !! key = Some o -> sound k key o.

(** The worlds that other clients keep to. *)
Definition orderly {W} `{ClusterLaws W} (w : W) : Prop := healthy w /\ all_sound (view w).

(** The operands are as the custom resource and the cluster's profile ask. *)
Definition operands_settled {W} `{ClusterLaws W} (cfg : Config) (w : W) : Prop :=
  forall vpa, view w KVerticalPodAutoscalerController !! singleton_key = Some vpa ->
  Forall (met w) (watched_goals (cluster_config cfg w) vpa).

Lemma watched_slots cfg vpa :
  our_config cfg -> om_Name (vpa_meta vpa) = name ->
  map goal_slot (watched_goals cfg vpa) = operand_slots.
Proof.
  intros [Hns _] Hn. unfold watched_goals, operand_slots, goal_slot. simpl.
  unfold RecommenderName, UpdaterName, AdmissionPluginName. by rewrite Hns, Hn.
Qed.
Lemma watched_tracked cfg vpa g :
  our_config cfg -> om_Name (vpa_meta vpa) = name -> g ∈ watched_goals cfg vpa -> goal_slot g ∈ tracked.
Proof.
  intros Hc Hn Hg. unfold tracked. do 2 apply list_elem_of_further.
  rewrite <- (watched_slots cfg vpa) by done. exact (list_elem_of_fmap_2 goal_slot _ g Hg).
Qed.
Lemma sound_singleton key (vpa : VerticalPodAutoscalerController) :
  sound KVerticalPodAutoscalerController key vpa ->
  om_Name (vpa_meta vpa) = name /\ om_Namespace (vpa_meta vpa) = ns.
Proof. intros (Hk & _ & -> & _). by injection Hk. Qed.
Lemma operand_slots_owned k key :
  (k, key) ∈ operand_slots -> k ∈ owned_kinds /\ nn_Namespace key = ns.
Proof.
  unfold operand_slots, owned_kinds. rewrite !elem_of_cons, !elem_of_nil.
  intros. destruct_or!; simplify_eq; auto.
Qed.
Lemma cluster_config_ours {W} `{ClusterLaws W} cfg (w : W) :
  our_config cfg -> our_config (cluster_config cfg w).
Proof.
  intros [Hns Hn]. split; [by rewrite cluster_config_Namespace|].
  unfold cluster_config. case_match; [|done]. unfold synced_TLSProfile.
  destruct (ShouldHonorClusterTLSProfile _); [|done]. by destruct (GetTLSProfileSpec _).
Qed.

(** Two clusters that agree on what is tracked are settled alike. *)
Definition agree {W W'} `{ClusterLaws W} `{ClusterLaws W'} (w : W) (w' : W') : Prop :=
  forall k key, (k, key) ∈ tracked -> view w' k !! key = view w k !! key.
Lemma agree_config {W W'} `{ClusterLaws W} `{ClusterLaws W'} cfg (w : W) (w' : W') :
  agree w w' -> cluster_config cfg w' = cluster_config cfg w.
Proof.
  intros Ht. unfold cluster_config.
  assert (Ha : view w' KAPIServer !! mkNN "" APIServerName = view w KAPIServer !! mkNN "" APIServerName)
    by (apply Ht; unfold tracked; set_solver).
  cbn [obj] in *. by rewrite Ha.
Qed.
Lemma agree_settled {W W'} `{ClusterLaws W} `{ClusterLaws W'} cfg (w : W) (w' : W') :
  our_config cfg -> all_sound (view w) -> agree w w' -> operands_settled cfg w -> operands_settled cfg w'.
Proof.
  intros Hc Hw Ht Hs vpa Hv. rewrite (agree_config cfg w w' Ht).
  pose proof (Ht KVerticalPodAutoscalerController singleton_key (list_elem_of_here _ _)) as Hv0.
  pose proof (eq_trans (eq_sym Hv0) Hv) as Hv1.
  destruct (sound_singleton _ vpa (Hw KVerticalPodAutoscalerController _ vpa Hv1)) as [Hn _].
  specialize (Hs vpa Hv1). rewrite Forall_forall in Hs |- *. intros g Hg.
  destruct (Hs g Hg) as (o & Ho & Hok). exists o. split; [|done]. rewrite <- Ho. apply Ht.
  apply (watched_tracked (cluster_config cfg w) vpa); [by apply cluster_config_ours | done | done].
Qed.

(** ** What the runs do to the world *)

(** The answers of caches and worlds that are in order. *)
Definition sound_answers : env := fun c =>
  match c return resp c -> Prop with
  | Get k key => fun r => match r with inr o => sound k key o | inl e => IsNotFound e = true end
  | _ => fun _ => True
  end.
(** Calls that keep a world orderly, write operands only, and read nothing that the
    cache does not serve. *)
Definition operand_kinds : list kind := owned_kinds ++ [KNetworkPolicy].
Definition orderly_call (c : call) : Prop :=
  match c with
  | Get k key => cache_serves mc k key
  | Eventf _ | Now => True
  | Create k o | Update k o =>
      k ∈ operand_kinds /\
      ((k, obj_key o) ∈ operand_slots -> managed_by gvk mapper name (obj_meta k o))
  | UpdateStatus _ _ | Patch _ _ _ => False
  end.
(** Whatever the answers, the program makes such calls only, and returns a
    configuration of this operator. *)
Definition careful (p : run_of_Reconcile) : Prop :=
  wp sound_answers p (fun tr out =>
    Forall (fun s => orderly_call (st_call s)) tr /\ our_config out.1).

Section Worlds.
Context {W : Type} `{ClusterLaws W}.

Lemma managed_kept k (o o' : obj k) :
  admitted k o o' -> managed_by gvk mapper name (obj_meta k o) -> managed_by gvk mapper name (obj_meta k o').
Proof. intros [(_ & _ & Ho) _]. unfold managed_by. by rewrite Ho. Qed.

(** One slot changed, and not to the worse. *)
Lemma orderly_slot (w w' : W) k (o : obj k) :
  orderly w -> healthy w' -> unchanged_except [(k, obj_key o)] w w' ->
  k ∈ operand_kinds ->
  (forall o', (k, obj_key o) ∈ operand_slots -> view w' k !! obj_key o = Some o' ->
     managed_by gvk mapper name (obj_meta k o')) -> orderly w'.
Proof.
  intros [Hw Hs] Hw' Hu Hk Ho. split; [done|]. intros k' key o' Ho'.
  destruct (decide ((k', key) = (k, obj_key o))) as [[= -> ->]|Hne].
  - split; [by apply (view_key w')|]. split; [by intros Hslot; apply Ho|].
    by destruct k; try (exfalso; unfold operand_kinds, owned_kinds in Hk; set_solver).
  - apply Hs. rewrite <- Ho'. symmetry. apply Hu. by rewrite list_elem_of_singleton.
Qed.
Lemma orderly_unchanged (w w' : W) : orderly w -> healthy w' -> unchanged_except [] w w' -> orderly w'.
Proof.
  intros [Hw Hs] Hw' Hu. split; [done|]. intros k key o Ho. apply Hs.
  rewrite <- Ho. symmetry. apply Hu, not_elem_of_nil.
Qed.
Lemma orderly_call_keeps c (w : W) : orderly w -> orderly_call c -> orderly (handle c w).2.
Proof.
  intros Hw Hc. pose proof Hw as [Hh Hs].
  assert (Hm : forall k key o, (k, key) ∈ operand_slots -> view w k !! key = Some o ->
    managed_by gvk mapper name (obj_meta k o)) by (intros k key o Hslot Ho; by apply (Hs k key o Ho)).
  destruct c as [k key|k o|k o|k o|k m o|e|]; simpl in Hc; try done.
  - destruct (get_law w k key Hh) as (? & Hu & _). by eapply orderly_unchanged.
  - destruct Hc as [Hk Ho]. destruct (create_law w k o Hh) as (Hh' & Hu & _ & Hv).
    apply (orderly_slot w _ k o); try done. intros o' Hslot Ho'.
    destruct (view w k !! obj_key o) as [o0|] eqn:Hv0.
    + destruct Hv as [Hv _]. rewrite Hv in Ho'. simplify_eq. by apply (Hm k (obj_key o)).
    + destruct Hv as (o1 & _ & Hv & Ha). rewrite Hv in Ho'. simplify_eq.
      apply (managed_kept _ _ _ Ha). by apply Ho.
  - destruct Hc as [Hk Ho]. destruct (update_law w k o Hh) as (Hh' & Hu & _ & _ & Hv).
    apply (orderly_slot w _ k o); try done. intros o' Hslot Ho'.
    destruct (handle (Update k o) w).1 as [err|o1].
    + rewrite Hv in Ho' by apply not_elem_of_nil. by apply (Hm k (obj_key o)).
    + destruct Hv as [Hv Ha]. rewrite Hv in Ho'. simplify_eq.
      apply (managed_kept _ _ _ Ha). by apply Ho.
  - destruct (event_law w e Hh) as (? & Hu & _). by eapply orderly_unchanged.
  - destruct (now_law w Hh) as (? & Hu & _). by eapply orderly_unchanged.
Qed.
End Worlds.

(** One call of a careful program. *)
Lemma sound_answer_exists c : exists r, sound_answers c r.
Proof.
  destruct c; try (by exists (inl (ErrorString ""))); [|by exists tt | by exists 0].
  exists (inl (StatusError "NotFound" 404 "")). done.
Qed.
(** Whatever the answers, the program makes only calls of [P]. *)
Definition makes_only {A} : (call -> Prop) -> prog A -> Prop := only_calls sound_answers.
Lemma makes_call {A} P c (k : resp c -> prog A) : makes_only P (Do c k) -> P c.
Proof. apply only_call, sound_answer_exists. Qed.
Lemma makes_next {A} P c (k : resp c -> prog A) r :
  makes_only P (Do c k) -> sound_answers c r -> makes_only P (k r).
Proof. apply only_next. Qed.
Lemma careful_call c k : careful (Do c k) -> orderly_call c.
Proof.
  intros Hwp. apply (makes_call _ c k). eapply wp_mono; [|exact Hwp]. by intros tr out [? _].
Qed.
Lemma careful_next c k r : careful (Do c k) -> sound_answers c r -> careful (k r).
Proof.
  intros Hwp Hr. eapply wp_mono; [|exact (Hwp r Hr)]. intros tr out [Htr ?]. by inversion Htr.
Qed.

(** *** [Reconcile] is careful *)

Section Careful.
Hypothesis own_group : ParseGroupVersion (GroupVersion_String gvk) = Some (gvk_Group gvk, gvk_Version gvk).
Hypothesis namespaced : mapper (gvk_Version gvk) = Some true.
Hypothesis scope : in_scope mc mapper ns.
Context (vpa : VerticalPodAutoscalerController).
Hypothesis vpa_kind : GVKForObject (vpa_type vpa) scheme = inr gvk.
Hypothesis vpa_name : om_Name (vpa_meta vpa) = name.

Lemma controlled_managed k (o : obj k) :
  controlled scheme vpa o -> managed_by gvk mapper name (obj_meta k o).
Proof.
  intros (gvk' & Hg & Ho). rewrite vpa_kind in Hg. injection Hg as <-.
  exists (controller_ref vpa gvk), (gvk_Version gvk). rewrite Ho. done.
Qed.
Lemma preserved_managed k (o o' : obj k) :
  k ∈ owned_kinds -> preserved k o o' -> managed_by gvk mapper name (obj_meta k o) ->
  managed_by gvk mapper name (obj_meta k o').
Proof.
  unfold owned_kinds, managed_by. rewrite !elem_of_cons, elem_of_nil.
  intros [->|[->|[->|[]]]] Hp; simpl in Hp |- *; destruct Hp as [(_ & _ & _ & _ & _ & Ho & _) _];
    by rewrite Ho.
Qed.

Lemma session_orderly g tr e :
  goal_kind g ∈ operand_kinds -> nn_Namespace (goal_key g) = ns ->
  session scheme vpa g tr e -> respects sound_answers tr ->
  Forall (fun s => orderly_call (st_call s)) tr.
Proof.
  intros Hk Hns Hs.
  assert (Hserved : cache_serves mc (goal_kind g) (goal_key g))
    by (destruct (goal_key g); simpl in Hns; subst; by eapply served_scope).
  assert (Hr : forall rs, Forall (fun s => orderly_call (st_call s)) (reads (goal_kind g) (goal_key g) rs)).
  { intros rs. unfold reads. by apply Forall_map, Forall_forall. }
  inversion Hs as [| |nf m err ev|nf o r ev|rs o0 o r ev Hrs H0' Hkey Hp Hok]; subst;
    intros Ht; rewrite ?Forall_app; split_and?; auto.
  - by repeat constructor.
  - by apply Forall_map, Forall_forall.
  - apply Forall_cons. split; [|by repeat constructor]. split; [done|]. intros _. by apply controlled_managed.
  - apply Forall_cons. split; [|by repeat constructor]. split; [done|]. rewrite Hkey. intros Hslot.
    apply Forall_app in Ht as [Ht _]. unfold reads in Ht. rewrite map_app in Ht.
    apply Forall_app in Ht as [_ Ht]. apply Forall_cons in Ht as [(_ & Ho0 & _) _].
    eapply preserved_managed; [by eapply operand_slots_owned | exact Hp | by apply Ho0].
Qed.
Lemma sessions_orderly gs tr e :
  Forall (fun g => goal_kind g ∈ operand_kinds /\ nn_Namespace (goal_key g) = ns) gs ->
  sessions scheme vpa gs tr e -> respects sound_answers tr ->
  Forall (fun s => orderly_call (st_call s)) tr.
Proof.
  intros Hg Hs. induction Hs as [|g gs tr tr' e Hs _ IH|g gs tr err Hs]; [constructor | |];
    apply Forall_cons in Hg as [[Hk Hns] Hg].
  - intros [Ht Ht']%Forall_app. apply Forall_app. split; [by eapply session_orderly | by apply IH].
  - by eapply session_orderly.
Qed.
End Careful.

Lemma sound_keyed tr : respects sound_answers tr -> respects keyed tr.
Proof.
  intros Ht. eapply Forall_impl; [exact Ht|]. intros [c r].
  destruct c as [k key|k o|k o|k o|k m o|e|]; simpl; try done. destruct r; [done|]. by intros [? _].
Qed.
Lemma synced_ours cfg a : our_config cfg -> our_config (synced_TLSProfile cfg a).
Proof. intros [Hns Hn]. rewrite synced_TLSProfile_usable. by split. Qed.

Lemma Reconcile_careful cfg req :
  ParseGroupVersion (GroupVersion_String gvk) = Some (gvk_Group gvk, gvk_Version gvk) ->
  mapper (gvk_Version gvk) = Some true -> in_scope mc mapper ns ->
  cache_serves mc KVerticalPodAutoscalerController req -> our_config cfg -> careful (Reconcile scheme cfg req).
Proof.
  intros Hg Hm Hsc Hreq Hc. apply wp_exec. intros tr out Hx Ht.
  destruct (proj1 (wp_exec _ _ _) (Reconcile_wp scheme cfg req) tr out Hx (sound_keyed _ Ht)) as
    (a & g & rest & -> & Hcfg & _ & Hs).
  split; [|rewrite Hcfg; by apply synced_ours].
  apply Forall_cons in Ht as [_ Ht]. apply Forall_cons in Ht as [Hv Ht].
  apply Forall_cons; split; [by apply served_cluster|]. apply Forall_cons; split; [exact Hreq|]. destruct g as [err|vpa]; [by destruct Hs as [-> _]|].
  destruct (sound_singleton _ vpa Hv) as [Hn _]. destruct Hv as (_ & _ & -> & Hk & _).
  apply (sessions_orderly Hg Hm Hsc vpa Hk Hn (goals out.1 vpa) rest out.2.2); [|done|done].
  assert (Hns : cfg_Namespace out.1 = ns) by (rewrite Hcfg; by apply synced_ours).
  repeat (apply Forall_cons_2; [split; [apply list_elem_of_In; cbn; tauto | exact Hns]|]). apply Forall_nil_2.
Qed.
End Loop.
