(* ===== verification/Healing.v ===== *)
(** * The loop at rest

    The proof that the loop of System.v settles the operands.  The invariant: the
    next run is asked for (queued, or announced by a pending notice), or the cache
    lags behind in something the operands depend on, or the operands are settled
    as far as the cache shows, or the run that is under way, reading from this
    cache, will fail (and be asked for again) or end with them settled.  The last
    point rests on the protocol of Protocol.v: a session that ends well found its
    object as desired, or wrote it so. *)

From S2P Require Import Prelude Go GoFmt Objects Api Util Args Resources Controller Server Operands.
From S2P Require Import Convergence Protocol Liveness Startup Safety Watches System.

(** Nothing is left to do: the caches are up to date, no notice is pending, no
    request is queued and nothing runs. *)
Definition at_rest {W} (s : sys W) : Prop :=
  s_backlog s = [] /\ s_pending s = [] /\ s_queue s = ∅ /\ s_running s = None.

Lemma wp_env {A} (E E' : env) (p : prog A) Q :
  (forall c r, E' c r -> E c r) -> wp E p Q -> wp E' p Q.
Proof.
  intros HE. revert Q; induction p as [a|c k IH]; intros Q; simpl; [done|].
  intros Hp r Hr. by apply IH, Hp, HE.
Qed.

Section Healing.
Context {W : Type} `{ClusterLaws W}.
Context (scheme : Scheme) (mapper : RESTMapping) (gvk : GroupVersionKind) (ns name : string).
Context (mc : ManagerCache).
Hypothesis scope : in_scope mc mapper ns.
#[local] Abbreviation tracked := (tracked ns name).
#[local] Abbreviation sound := (sound scheme mapper gvk ns name).
#[local] Abbreviation all_sound := (all_sound scheme mapper gvk ns name).
#[local] Abbreviation orderly := (orderly (W:=W) scheme mapper gvk ns name).
#[local] Abbreviation our_config := (our_config ns name).
#[local] Abbreviation careful := (careful scheme mapper gvk ns name mc).
#[local] Abbreviation sound_answers := (sound_answers scheme mapper gvk ns name).
#[local] Abbreviation settled := (operands_settled ns name).
#[local] Abbreviation key := (singleton_key ns name).

(** ** A run that reads from one cache *)

(** An answer of a world that agrees with the cache before and after the call. *)
Definition quiet_answer (c : Store) (cl : call) (r : resp cl) : Prop :=
  exists w : W, orderly w /\ agree ns name (snapshot c) w /\
    agree ns name (snapshot c) (handle cl w).2 /\ r = (handle cl w).1.
(** Reads of tracked slots are answered by the cache, the rest by such worlds. *)
Definition cache_env (c : Store) : env := fun cl =>
  match cl return resp cl -> Prop with
  | Get k k0 => fun r =>
      sound_answers (Get k k0) r /\ ((k, k0) ∈ tracked -> r = cached_get mc c k k0)
  | cl => quiet_answer c cl
  end.

Lemma cache_env_sound c cl r : cache_env c cl r -> sound_answers cl r.
Proof. by destruct cl; try done; intros [? _]. Qed.
Lemma quiet_agree c c' cl r :
  agree ns name (snapshot c) (snapshot c') -> quiet_answer c' cl r -> quiet_answer c cl r.
Proof.
  intros Hc (w & ? & Ha & Hb & ?). exists w.
  split_and!; try done; intros k k0 Ht; rewrite <- (Hc k k0 Ht); [by apply Ha | by apply Hb].
Qed.
Lemma cache_env_agree c c' cl r :
  agree ns name (snapshot c) (snapshot c') -> cache_env c' cl r -> cache_env c cl r.
Proof.
  intros Hc. destruct cl as [k k0|k o|k o|k o|k m o|e|]; simpl; try by apply quiet_agree.
  intros [Hs Hr]. split; [done|]. intros Ht. rewrite (Hr Ht). unfold cached_get.
  pose proof (Hc k k0 Ht) as Heq. cbn [view fake_cluster snapshot fk_store] in Heq. by rewrite Heq.
Qed.

(** A session that ends well leaves its goal met, as the cache shows it. *)
Lemma session_met c vpa g tr :
  overrides_exact vpa = true -> goal_slot g ∈ tracked ->
  session scheme vpa g tr None -> respects (cache_env c) tr -> met (snapshot c) g.
Proof.
  intros Hx Ht Hs.
  assert (Hread : forall rs r, respects (cache_env c) (reads (goal_kind g) (goal_key g) (rs ++ [r])) ->
    r = cached_get mc c (goal_kind g) (goal_key g)).
  { intros rs r Hr. unfold reads in Hr. rewrite map_app in Hr. apply Forall_app in Hr as [_ Hr].
    apply Forall_cons in Hr as [[_ Hr] _]. by apply Hr. }
  inversion Hs as [rs o Hrs Hok| | |nf o r ev Hnf Hkey Hc Hok Hev Htr Hr|rs o0 o r ev Hrs H0' Hkey Hp Hok Hev Htr Hr];
    subst; intros Hresp.
  - specialize (Hread rs (inr o) Hresp). unfold cached_get in Hread.
    destruct (table _ c !! _) as [o'|] eqn:Ho; [|done]. injection Hread as ->. by exists o'.
  - apply Forall_app in Hresp as [Hg Hresp]. specialize (Hread [] (inl nf) Hg).
    apply Forall_cons in Hresp as [(w & [Hh _] & Ha & Ha' & Hw) _]. simpl in Ha, Ha', Hw.
    destruct (create_law w (goal_kind g) o Hh) as (_ & _ & _ & Hv). rewrite Hkey in Hv.
    unfold cached_get in Hread. specialize (Ha _ _ Ht). specialize (Ha' _ _ Ht). simpl in Ha, Ha'.
    destruct (table (goal_kind g) c !! goal_key g) as [o'|] eqn:Ho; [done|].
    rewrite Ha in Hv. destruct Hv as (o' & _ & Hv & _).
    pose proof (eq_trans (eq_sym Hv) Ha') as Hbad. discriminate Hbad.
  - apply Forall_app in Hresp as [_ Hresp].
    apply Forall_cons in Hresp as [(w & [Hh _] & _ & Ha' & Hw) _]. simpl in Ha', Hw.
    destruct (update_law w (goal_kind g) o Hh) as (_ & _ & _ & _ & Hv). rewrite Hkey in Hv.
    rewrite Hw in Hr. specialize (Ha' _ _ Ht). cbn [fst snd] in *.
    destruct (handle (Update (goal_kind g) o) w) as [[err|o1] w']; [discriminate|].
    destruct Hv as [Hv Hadm]. exists o1. split; [|by apply (proj2 Hok Hx)].
    exact (eq_trans (eq_sym Ha') Hv).
Qed.
Lemma sessions_met c vpa gs tr :
  overrides_exact vpa = true -> sessions scheme vpa gs tr None -> respects (cache_env c) tr ->
  Forall (fun g => goal_slot g ∈ tracked -> met (snapshot c) g) gs.
Proof.
  intros Hx Hs. remember None as e eqn:He.
  induction Hs as [|g gs tr tr' e Hs _ IH|g gs tr err Hs]; [constructor | | done].
  intros [Hr Hr']%Forall_app. constructor; [|by apply IH]. intros Ht. by eapply session_met.
Qed.

(** How a run ends: without an error only with the operands settled; with one, then
    too, or else it was a run for the custom resource. *)
Definition run_ends (req : NamespacedName) (c : Store) (out : Config * (Result * option error)) : Prop :=
  our_config out.1 /\
  match out.2.2 with
  | None => settled out.1 (snapshot c)
  | Some _ => req = key \/ settled out.1 (snapshot c)
  end.

Lemma cached_config cfg c a :
  a = cached_get mc c KAPIServer (mkNN "" APIServerName) ->
  synced_TLSProfile cfg a = cluster_config cfg (snapshot c).
Proof.
  intros ->. unfold cluster_config, cached_get. cbn [view fake_cluster snapshot fk_store].
  by destruct (table KAPIServer c !! _).
Qed.
Lemma cluster_config_twice cfg c :
  cluster_config (cluster_config cfg (snapshot c)) (snapshot c) = cluster_config cfg (snapshot c).
Proof. by apply cluster_config_idem. Qed.

Lemma Reconcile_ends cfg req c :
  our_config cfg -> (req = key \/ settled cfg (snapshot c)) ->
  wp (cache_env c) (Reconcile scheme cfg req) (fun _ out => run_ends req c out).
Proof.
  intros Hc Hreq. apply wp_exec. intros tr out Hx Ht.
  assert (Hs : respects sound_answers tr)
    by (eapply Forall_impl; [exact Ht|]; intros s; apply cache_env_sound).
  destruct (proj1 (wp_exec _ _ _) (Reconcile_wp scheme cfg req) tr out Hx (sound_keyed _ _ _ _ _ _ Hs)) as
    (a & g & rest & -> & Hcfg & _ & Hend). clear Hs Hx.
  apply Forall_cons in Ht as [[_ Ha] Ht]. apply Forall_cons in Ht as [[Hv Hg] Ht]. cbn [st_call st_resp] in *.
  assert (Ha' := Ha ltac:(apply list_elem_of_further, list_elem_of_here)). clear Ha.
  rewrite (cached_config cfg c a Ha') in Hcfg. split; [rewrite Hcfg; exact (cluster_config_ours ns name cfg (snapshot c) Hc)|].
  destruct out as [cfg' [res e]]. cbn [fst snd] in *. subst cfg'.
  assert (Hkeep : settled cfg (snapshot c) -> settled (cluster_config cfg (snapshot c)) (snapshot c)).
  { intros Hst vpa Hvpa. rewrite cluster_config_twice. by apply Hst. }
  destruct (decide (req = key)) as [->|Hne].
  - destruct e as [err|]; [by left|].
    assert (Hg' := Hg (list_elem_of_here _ _)). clear Hg. destruct g as [err|vpa].
    + intros vpa Hvpa. unfold cached_get in Hg'. cbn [view fake_cluster snapshot fk_store] in Hvpa. cbn [obj] in *.
      by rewrite Hvpa in Hg'.
    + intros vpa' Hvpa. rewrite cluster_config_twice.
      unfold cached_get in Hg'. cbn [view fake_cluster snapshot fk_store obj] in *.
      rewrite Hvpa in Hg'. injection Hg' as <-.
      destruct (sound_singleton _ _ _ _ _ _ vpa Hv) as [Hn _]. destruct Hv as (_ & _ & _ & _ & Hexact).
      pose proof (sessions_met c vpa _ rest Hexact Hend Ht) as Hm. rewrite Forall_forall in Hm |- *.
      intros g' Hin. apply Hm; [|apply (watched_tracked ns name (cluster_config cfg (snapshot c)) vpa); [exact (cluster_config_ours ns name cfg (snapshot c) Hc) | done | done]].
      unfold watched_goals in Hin. unfold goals. rewrite !elem_of_app in Hin. rewrite !elem_of_app.
      destruct Hin as [?|[?|?]]; auto.
  - destruct Hreq as [?|Hst]; [done|]. destruct g as [err|vpa].
    + destruct Hend as [_ ->]. simpl in Hv. rewrite Hv. by apply Hkeep.
    + by destruct Hv as (_ & _ & ? & _).
Qed.

(** ** The invariant of the loop *)

Section Invariant.
Context (cfg0 : Config) (sources : list source) (lossless : Prop).
Hypothesis ours0 : our_config cfg0.
Hypothesis kinds : GVKForObject (mkTypeMeta "" "") scheme = inr gvk.
Hypothesis setup : SetupWithManager scheme mapper cfg0 = SetupDone sources.
Hypothesis own_group : ParseGroupVersion (GroupVersion_String gvk) = Some (gvk_Group gvk, gvk_Version gvk).
Hypothesis namespaced : mapper (gvk_Version gvk) = Some true.
#[local] Abbreviation steps := (sys_step mc scheme sources orderly).

(** A change of something tracked asks for a run. *)
Lemma tracked_change k k0 (old new : option (obj k)) n :
  (forall o, old = Some o -> sound k k0 o) -> (forall o, new = Some o -> sound k k0 o) ->
  (k, k0) ∈ tracked -> difference k old new = Some n -> key ∈ deliver sources n.
Proof.
  intros Hold Hnew Ht Hn. destruct ours0 as [Hns Hname].
  unfold System.tracked in Ht. apply elem_of_cons in Ht as [[= -> ->]|Ht].
  { assert (Hdel : forall c, sound KVerticalPodAutoscalerController key (latest c) ->
      key ∈ deliver sources (mkNotice KVerticalPodAutoscalerController c)).
    { intros c Hc. destruct (sound_singleton _ _ _ _ _ _ _ Hc) as [Hc1 Hc2].
      rewrite (deliver_vpa scheme mapper cfg0 sources gvk kinds setup). cbv zeta.
      cbn [obj] in *. rewrite Hc1, Hname, bool_decide_eq_true_2 by done. unfold request_for. rewrite Hc1, Hc2.
      apply list_elem_of_here. }
    destruct old as [o|], new as [o'|]; simpl in Hn; simplify_eq; apply Hdel; auto. }
  apply elem_of_cons in Ht as [[= -> ->]|Ht].
  { assert (Hdel : forall c, key ∈ deliver sources (mkNotice KAPIServer c)).
    { intros c. rewrite (deliver_apiserver scheme mapper cfg0 sources gvk kinds setup), Hns, Hname.
      apply list_elem_of_here. }
    destruct old, new; simpl in Hn; simplify_eq; apply Hdel. }
  destruct (operand_slots_owned _ _ _ _ Ht) as [Hk Hk0].
  assert (Hdel : forall c o, sound k k0 o -> shows (obj_meta k o) (change_map (obj_meta k) c) ->
    key ∈ deliver sources (mkNotice k c)).
  { intros c o (Ho1 & Hm & _) Hs.
    assert (Ho2 : om_Namespace (obj_meta k o) = ns) by (rewrite <- Hk0, <- Ho1; done).
    unfold singleton_key. rewrite <- Ho2.
    apply (deliver_owned scheme mapper cfg0 sources gvk kinds setup (mkNotice k c)); [done|].
    exists (obj_meta k o). split; [done|]. by apply managed_request, Hm. }
  destruct old as [o|], new as [o'|]; simpl in Hn; simplify_eq.
  - apply (Hdel _ o); [by apply Hold | by left].
  - apply (Hdel _ o); [by apply Hold | done].
  - apply (Hdel _ o'); [by apply Hnew | done].
Qed.

(** The cache with its backlog mirrors what it serves of the world. *)
Definition mirrored (c : Store) (b : list update) (w : W) : Prop :=
  forall k k0, cache_serves mc k k0 -> table k (replay b c) !! k0 = view w k !! k0.
Definition sound_update (u : update) : Prop :=
  cache_serves mc (up_kind u) (up_key u) /\ forall o, up_object u = Some o -> sound (up_kind u) (up_key u) o.
(** Nothing else gets into it. *)
Definition scoped (c : Store) : Prop := forall k k0, is_Some (table k c !! k0) -> cache_serves mc k k0.
(** The request of a change, or of the queue, names something that the cache serves. *)
Definition served_request (req : NamespacedName) : Prop := cache_serves mc KVerticalPodAutoscalerController req.
Definition served_notice (n : notice) : Prop := Forall served_request (deliver sources n).

(** The changes of a served slot request what is served. *)
Lemma served_change k k0 (c : change (obj k)) :
  cache_serves mc k k0 -> (forall m, shows m (change_map (obj_meta k) c) -> request_for m = k0) ->
  served_notice (mkNotice k c).
Proof.
  intros Hserved Hkey. unfold served_notice. destruct (decide (k ∈ owned_kinds)) as [Hk|Hk].
  - apply Forall_forall. intros req Hreq.
    apply (deliver_owned scheme mapper cfg0 sources gvk kinds setup (mkNotice k c)) in Hreq as (m & Hm & Hreq); [|done].
    destruct Hreq as (r & v & b & _ & _ & _ & Hb & ->). apply Hkey in Hm. subst k0. destruct b.
    + apply (served_namespace mc k KVerticalPodAutoscalerController (request_for m)); [|done|done].
      unfold owned_kinds in Hk. rewrite !elem_of_cons, elem_of_nil in Hk. by destruct_or!; subst.
    + destruct scope as [Hwn|[_ Hv]]; [|by destruct (Hv v)].
      unfold served_request, cache_serves, serves. by rewrite Hwn.
  - destruct (decide (k = KVerticalPodAutoscalerController)) as [->|Hv];
      [|destruct (decide (k = KAPIServer)) as [->|Ha]].
    + rewrite (deliver_vpa scheme mapper cfg0 sources gvk kinds setup). cbv zeta.
      case_bool_decide; [|done]. apply Forall_singleton.
      by rewrite (Hkey (vpa_meta (latest c))) by (destruct c; simpl; auto).
    + rewrite (deliver_apiserver scheme mapper cfg0 sources gvk kinds setup). apply Forall_singleton.
      destruct ours0 as [-> ->]. by eapply served_scope.
    + rewrite (deliver_others scheme mapper cfg0 sources gvk kinds setup); [done|].
      cbn [no_kind]. by rewrite !not_elem_of_cons.
Qed.
Lemma served_notices c u : all_sound (tables c) -> sound_update u -> Forall served_notice (notices_of c u).
Proof.
  intros Hc [Hserved Hu]. unfold notices_of. specialize (Hc (up_kind u) (up_key u)). unfold tables in Hc.
  destruct (table (up_kind u) c !! up_key u) as [o|], (up_object u) as [o'|]; cbn [difference]; try done;
    apply Forall_singleton, (served_change _ (up_key u)); try done; simpl.
  - destruct (Hc o eq_refl) as [Ho _]. destruct (Hu o' eq_refl) as [Ho' _]. by intros m [->| ->].
  - destruct (Hc o eq_refl) as [Ho _]. by intros m ->.
  - destruct (Hu o' eq_refl) as [Ho' _]. by intros m ->.
Qed.
Lemma scoped_apply c u : scoped c -> sound_update u -> scoped (apply_update c u).
Proof.
  intros Hc [Hu _] k k0. destruct (decide ((k, k0) = up_slot u)) as [Hs|Hs].
  - unfold up_slot in Hs. by injection Hs as -> ->.
  - rewrite apply_update_ne by done. apply Hc.
Qed.

(** A run is asked for: queued, or announced by a notice. *)
Definition asked (s : sys W) : Prop :=
  key ∈ s_queue s \/ exists n, n ∈ s_pending s /\ key ∈ deliver sources n.
(** The cache lacks a change of something tracked. *)
Definition late (c : Store) (u : update) : Prop :=
  up_slot u ∈ tracked /\ ~ (table (up_kind u) c !! up_key u = None /\ up_object u = None).
Definition lagging (s : sys W) : Prop := Exists (late (s_cache s)) (s_backlog s).
(** Otherwise the operands are settled, or the run that is under way settles them. *)
Definition on_course (s : sys W) : Prop :=
  match s_running s with
  | None => settled (s_config s) (snapshot (s_cache s))
  | Some (req, p) => wp (cache_env (s_cache s)) p (fun _ out => run_ends req (s_cache s) out)
  end.
(** The last point holds if the informers miss nothing ([lossless]), the others
    in any case. *)
Record loop_invariant (s : sys W) : Prop := mkInvariant {
  inv_config : our_config (s_config s);
  inv_world : orderly (s_world s);
  inv_cache : all_sound (tables (s_cache s));
  inv_scoped : scoped (s_cache s);
  inv_backlog : Forall sound_update (s_backlog s);
  inv_mirrored : mirrored (s_cache s) (s_backlog s) (s_world s);
  inv_pending : Forall served_notice (s_pending s);
  inv_queue : set_Forall served_request (s_queue s);
  inv_running : match s_running s with None => True | Some (req, p) => served_request req /\ careful p end;
  inv_course : lossless -> asked s \/ lagging s \/ on_course s
}.

#[local] Instance late_dec c u : Decision (late c u).
Proof.
  apply and_dec; [apply list_elem_of_dec|]. apply not_dec, and_dec.
  - destruct (table _ c !! _); [right | left]; done.
  - destruct (up_object u); [right | left]; done.
Qed.

(** *** Updates of the backlog *)

Lemma covers_sound (v : views) w' l : orderly w' -> covers mc v (view w') l -> Forall sound_update l.
Proof.
  intros [_ Hs] [Hl _]. apply Forall_forall. intros u Hu. destruct (Hl u Hu) as [Hserved Hu'].
  split; [done|]. intros o Ho. apply Hs. by rewrite <- Hu'.
Qed.
Lemma covers_mirrored c b w w' l :
  mirrored c b w -> covers mc (view w) (view w') l -> mirrored c (b ++ l) w'.
Proof.
  intros Hm [Hl Hout] k k0 Hserved. rewrite replay_app.
  destruct (decide ((k, k0) ∈ up_slots l)) as [Hin|Hn].
  - apply (replay_in l _ (view w')); [|done]. intros u Hu. by apply Hl.
  - rewrite replay_out, Hout by done. by apply Hm.
Qed.
(** What is tracked is served. *)
Lemma served_tracked k k0 : (k, k0) ∈ tracked -> cache_serves mc k k0.
Proof.
  unfold System.tracked, operand_slots, singleton_key. rewrite !elem_of_cons, elem_of_nil.
  intros Ht. destruct_or!; simplify_eq; first [by apply served_cluster | by eapply served_scope].
Qed.
Lemma lagging_more cfg cfg' w w' c b l p p' q q' r r' :
  lagging (mkSys cfg w c b p q r) -> lagging (mkSys cfg' w' c (b ++ l) p' q' r').
Proof. unfold lagging. cbn. rewrite Exists_app. auto. Qed.

(** A cache that does not lag shows what is tracked as it is. *)
Lemma replay_still b c k k0 :
  (forall u, u ∈ b -> up_slot u = (k, k0) -> up_object u = None) ->
  table k c !! k0 = None -> table k (replay b c) !! k0 = None.
Proof.
  revert c; induction b as [|u b IH]; intros c Hb Hc; [done|]. cbn [replay foldl]. apply IH.
  { intros u' Hu'. apply Hb, list_elem_of_further, Hu'. }
  destruct (decide ((k, k0) = up_slot u)) as [Hs|Hs]; [|by rewrite apply_update_ne].
  pose proof (Hb u (list_elem_of_here _ _) (eq_sym Hs)) as Hu. unfold up_slot in Hs.
  injection Hs as -> ->. by rewrite apply_update_eq.
Qed.
Lemma not_lagging_agree c b w :
  ~ Exists (late c) b -> mirrored c b w -> agree ns name (snapshot c) w.
Proof.
  intros Hn Hm k k0 Ht. rewrite <- Hm by (by apply served_tracked). cbn [view fake_cluster snapshot fk_store].
  destruct (decide ((k, k0) ∈ up_slots b)) as [Hin|Hout]; [|by apply replay_out].
  assert (Hnone : forall u, u ∈ b -> up_slot u = (k, k0) -> table k c !! k0 = None /\ up_object u = None).
  { intros u Hu Hs. destruct (decide (late c u)) as [Hl|Hl].
    - exfalso. apply Hn, Exists_exists. by exists u.
    - unfold late in Hl. rewrite Hs in Hl. unfold up_slot in Hs. injection Hs as Hk Hk0. subst.
      destruct (table (up_kind u) c !! up_key u) as [o|], (up_object u) as [o'|];
        try done; exfalso; apply Hl; (split; [done|]); by intros [? ?]. }
  unfold up_slots in Hin. apply list_elem_of_In, in_map_iff in Hin as (u & Hs & Hu).
  apply list_elem_of_In in Hu. destruct (Hnone u Hu Hs) as [Hc _]. rewrite Hc.
  apply replay_still; [|done]. intros u' Hu' Hs'. by apply Hnone.
Qed.

Lemma on_course_agree cfg w w' c c' b b' p p' q q' r :
  our_config cfg -> all_sound (tables c) -> agree ns name (snapshot c) (snapshot c') ->
  on_course (mkSys cfg w c b p q r) -> on_course (mkSys cfg w' c' b' p' q' r).
Proof.
  intros Hc Hs Ha. unfold on_course. cbn. destruct r as [[req pr]|].
  - intros Hwp. eapply wp_mono; [|eapply wp_env; [|exact Hwp]].
    + intros tr out [Hout He]. split; [done|].
      destruct (out.2.2); [destruct He as [?|He]; [by left | right]|];
        by apply (agree_settled scheme mapper gvk ns name _ (snapshot c)).
    + intros cl r. by apply cache_env_agree.
  - intros Hst. by apply (agree_settled scheme mapper gvk ns name _ (snapshot c)).
Qed.

(** *** The steps *)

Lemma step_other cfg w w' c b l p q r :
  orderly w' -> covers mc (view w) (view w') l ->
  loop_invariant (mkSys cfg w c b p q r) -> loop_invariant (mkSys cfg w' c (b ++ l) p q r).
Proof.
  intros Hw' Hl []. cbn in *. split; cbn; try done.
  - apply Forall_app. split; [done | by apply (covers_sound (view w) w')].
  - by apply (covers_mirrored c b w).
  - intros Hl0. destruct (inv_course0 Hl0) as [?|[?|?]]; [by left | right; left | by do 2 right].
    by eapply (lagging_more cfg cfg w w' c b l).
Qed.

Lemma sound_apply c u : all_sound (tables c) -> sound_update u -> all_sound (tables (apply_update c u)).
Proof.
  intros Hc Hu k k0 o Ho. unfold tables in *. destruct (decide ((k, k0) = up_slot u)) as [Hs|Hs].
  - unfold up_slot in Hs. injection Hs as -> ->. rewrite apply_update_eq in Ho. by apply (proj2 Hu).
  - rewrite apply_update_ne in Ho by done. by apply Hc.
Qed.
(** A catch-up that is not announced changes nothing that is tracked. *)
Lemma catch_up_cases c u :
  all_sound (tables c) -> sound_update u ->
  (exists n, n ∈ notices_of c u /\ key ∈ deliver sources n) \/
  (agree ns name (snapshot c) (snapshot (apply_update c u)) /\
   forall u', late c u' -> u' <> u /\ late (apply_update c u) u').
Proof.
  intros Hc Hu. destruct (decide (up_slot u ∈ tracked)) as [Ht|Ht].
  - destruct (difference (up_kind u) (table (up_kind u) c !! up_key u) (up_object u)) as [n|] eqn:Hn.
    { left. exists n. unfold notices_of. rewrite Hn. split; [apply list_elem_of_here|].
      by apply (tracked_change (up_kind u) (up_key u) _ _ n (Hc _ _) (proj2 Hu)). }
    right. destruct (table (up_kind u) c !! up_key u) as [o|] eqn:Hcu,
      (up_object u) as [o'|] eqn:Hou; try done.
    assert (Hall : forall k k0, table k (apply_update c u) !! k0 = table k c !! k0).
    { intros k k0. destruct (decide ((k, k0) = up_slot u)) as [Hs|Hs]; [|by apply apply_update_ne].
      unfold up_slot in Hs. injection Hs as -> ->. by rewrite apply_update_eq, Hcu, Hou. }
    split; [intros k k0 _; apply Hall|]. intros u' [Ht' Hl].
    split; [intros ->; by apply Hl | split; [done|]]. by rewrite Hall.
  - right. assert (Hne : forall k k0, (k, k0) ∈ tracked -> (k, k0) <> up_slot u) by (intros k k0 Hk Heq; by rewrite Heq in Hk).
    split; [intros k k0 Hk; by apply apply_update_ne, Hne|]. intros u' [Ht' Hl].
    split; [intros ->; done | split; [done|]]. by rewrite apply_update_ne by (by apply Hne).
Qed.
Lemma step_catch_up cfg w c b1 u b2 p q r :
  up_slot u ∉ up_slots b1 ->
  loop_invariant (mkSys cfg w c (b1 ++ u :: b2) p q r) ->
  loop_invariant (mkSys cfg w (apply_update c u) (b1 ++ b2) (p ++ notices_of c u) q r).
Proof.
  intros Hfirst []. cbn in *.
  apply Forall_app in inv_backlog0 as [Hb1 Hb2]. apply Forall_cons in Hb2 as [Hu Hb2].
  split; cbn; try done.
  - by apply sound_apply.
  - by apply scoped_apply.
  - by apply Forall_app.
  - intros k k0 Hserved. rewrite (replay_first b1 u b2 c) by done. by apply inv_mirrored0.
  - apply Forall_app. split; [done | by apply served_notices].
  - intros Hl0. destruct (catch_up_cases c u inv_cache0 Hu) as [(n & Hn & Hd)|[Ha Hl]].
    { left. right. exists n. cbn. rewrite elem_of_app. auto. }
    destruct (inv_course0 Hl0) as [[Hq|(n & Hn & Hd)]|[Hlag|Hon]].
    + by left; left.
    + left. right. exists n. cbn in *. rewrite elem_of_app. auto.
    + right; left. unfold lagging in *. cbn in *. rewrite Exists_exists in Hlag |- *.
      destruct Hlag as (u' & Hu' & Hlate). destruct (Hl u' Hlate) as [Hne Hlate'].
      exists u'. split; [|done]. rewrite elem_of_app, elem_of_cons in *. tauto.
    + right; right. by eapply (on_course_agree cfg w w c).
Qed.

Lemma step_handle cfg w c b n p1 p2 q r :
  loop_invariant (mkSys cfg w c b (p1 ++ n :: p2) q r) ->
  loop_invariant (mkSys cfg w c b (p1 ++ p2) (list_to_set (deliver sources n) ∪ q) r).
Proof.
  intros []. cbn in *. apply Forall_app in inv_pending0 as [Hp1 [Hn0 Hp2]%Forall_cons].
  split; cbn; try done.
  { by apply Forall_app. }
  { apply set_Forall_union; [|done]. intros req Hreq%elem_of_list_to_set.
    by apply (proj1 (Forall_forall _ _) Hn0). }
  intros Hl0. destruct (inv_course0 Hl0) as [[Hq|(n' & Hn & Hd)]|[?|?]]; [| |by right; left | by right; right].
  - left. left. set_solver.
  - left. cbn in Hn. rewrite elem_of_app, elem_of_cons in Hn. destruct Hn as [Hn|[->|Hn]].
    + right. exists n'. cbn. rewrite elem_of_app. auto.
    + left. cbn [s_queue]. apply elem_of_union. left. by apply elem_of_list_to_set.
    + right. exists n'. cbn. rewrite elem_of_app. auto.
Qed.

Lemma step_take cfg w c b p q req :
  req ∈ q -> loop_invariant (mkSys cfg w c b p q None) ->
  loop_invariant (mkSys cfg w c b p (q ∖ {[req]}) (Some (req, Reconcile scheme cfg req))).
Proof.
  intros Hreq []. cbn in *. pose proof (inv_queue0 req Hreq) as Hserved. split; cbn; try done.
  { intros req' Hin. apply inv_queue0. set_solver. }
  { split; [done | by apply Reconcile_careful]. }
  intros Hl0. destruct (decide (req = key)) as [Hr|Hr].
  { right; right. apply Reconcile_ends; auto. }
  destruct (inv_course0 Hl0) as [[Hq|Hn]|[?|Hon]]; [| |by right; left|].
  - left; left. cbn in *. set_solver.
  - by left; right.
  - right; right. apply Reconcile_ends; auto.
Qed.

Lemma step_read cfg w c b p q req k k0 f :
  loop_invariant (mkSys cfg w c b p q (Some (req, Do (Get k k0) f))) ->
  loop_invariant (mkSys cfg w c b p q (Some (req, f (cached_get mc c k k0)))).
Proof.
  intros []. cbn in *. destruct inv_running0 as [Hreq Hcareful].
  assert (Hs : sound_answers (Get k k0) (cached_get mc c k k0)).
  { simpl. unfold cached_get. destruct (table k c !! k0) as [o|] eqn:Ho; [by apply inv_cache0|].
    by apply served_missing, (careful_call scheme mapper gvk ns name mc (Get k k0) f). }
  split; cbn; try done;
    [split; [done | exact (careful_next _ _ _ _ _ _ (Get k k0) f _ Hcareful Hs)]|].
  intros Hl0. destruct (inv_course0 Hl0) as [?|[?|Hon]]; [by left | by right; left | right; right].
  unfold on_course in *. cbn in *. by apply (Hon (cached_get mc c k k0)).
Qed.
Lemma step_call cfg w c b p q req cl f l :
  is_get cl = false -> covers mc (view w) (view (handle cl w).2) l ->
  loop_invariant (mkSys cfg w c b p q (Some (req, Do cl f))) ->
  loop_invariant (mkSys cfg (handle cl w).2 c (b ++ l) p q (Some (req, f (handle cl w).1))).
Proof.
  intros Hg Hl []. cbn in *. destruct inv_running0 as [Hreq Hcareful].
  assert (Hw' : orderly (handle cl w).2) by (by eapply orderly_call_keeps, (careful_call scheme mapper gvk ns name mc cl f)).
  pose proof (covers_mirrored c b w _ l inv_mirrored0 Hl) as Hm.
  split; cbn; try done.
  - apply Forall_app. split; [done | by apply (covers_sound (view w) (handle cl w).2)].
  - split; [done|]. apply (careful_next _ _ _ _ _ _ cl f _ Hcareful). by destruct cl.
  - intros Hl0. destruct (inv_course0 Hl0) as [?|[?|Hon]]; [by left | |].
    { right; left. by eapply (lagging_more cfg cfg w _ c b l). }
    destruct (decide (Exists (late c) (b ++ l))) as [Hlag|Hlag]; [by right; left | right; right].
    pose proof (not_lagging_agree c (b ++ l) _ Hlag Hm) as Ha'.
    assert (Ha : agree ns name (snapshot c) w).
    { apply (not_lagging_agree c b); [|done]. intros Hb. apply Hlag. rewrite Exists_app. by left. }
    unfold on_course in *. cbn in *. apply (Hon (handle cl w).1). destruct cl; try done; by exists w.
Qed.
Lemma step_end cfg w c b p q req cfg' res e :
  loop_invariant (mkSys cfg w c b p q (Some (req, Ret (cfg', (res, e))))) ->
  loop_invariant (mkSys cfg' w c b p (if is_set e then {[req]} ∪ q else q) None).
Proof.
  intros []. cbn in *. destruct inv_running0 as [Hreq Hcareful]. split; cbn; try done.
  { by destruct Hcareful. }
  { destruct e; [|done]. by apply set_Forall_union; [apply set_Forall_singleton|]. }
  intros Hl0. destruct (inv_course0 Hl0) as [[Hq|Hn]|[?|[_ He]]].
  - left; left. cbn in *. destruct e; simpl; set_solver.
  - by left; right.
  - by right; left.
  - simpl in He. destruct e as [err|]; [|by right; right]. destruct He as [->|He]; [left; left; simpl; set_solver | by right; right].
Qed.

Lemma loop_invariant_step s s' : steps s s' -> loop_invariant s -> loop_invariant s'.
Proof.
  intros [].
  - by apply step_other.
  - by apply step_catch_up.
  - apply step_handle.
  - by apply step_take.
  - apply step_read.
  - by apply step_call.
  - apply step_end.
Qed.
Lemma loop_invariant_start w s : orderly w -> sys_start mc cfg0 w s -> loop_invariant s.
Proof.
  intros Hw (l & -> & Hl). split; cbn; try done.
  - intros k k0 o Ho. unfold tables in Ho. by destruct k; simpl in Ho; rewrite lookup_empty in Ho.
  - intros k k0 [o Ho]. by destruct k; simpl in Ho; rewrite lookup_empty in Ho.
  - by apply (covers_sound (tables empty_store) w).
  - destruct Hl as [Hl Hout]. intros k k0 Hserved. destruct (decide ((k, k0) ∈ up_slots l)) as [Hin|Hn].
    + apply (replay_in l _ (view w)); [|done]. intros u Hu. by apply Hl.
    + rewrite replay_out by done. symmetry. by apply Hout.
  - intros _. right; right. intros vpa Hv. discriminate Hv.
Qed.
Lemma loop_invariant_reached w s s' :
  orderly w -> sys_start mc cfg0 w s -> rtc steps s s' -> loop_invariant s'.
Proof.
  intros Hw Hs Hr. pose proof (loop_invariant_start w s Hw Hs) as Hi. clear Hs.
  induction Hr as [|s1 s2 s3 Hstep _ IH]; [done|]. apply IH. by eapply loop_invariant_step.
Qed.

(** At rest the cache shows the world. *)
Lemma invariant_rests s : lossless -> loop_invariant s -> at_rest s -> settled (s_config s) (s_world s).
Proof.
  intros Hl0 [] (Hb & Hp & Hq & Hr). rewrite Hb in inv_mirrored0. destruct (inv_course0 Hl0) as [[Ha|(n & Hn & _)]|[Hl|Ha]].
  - rewrite Hq in Ha. set_solver.
  - rewrite Hp in Hn. set_solver.
  - unfold lagging in Hl. rewrite Hb in Hl. by apply Exists_nil in Hl.
  - unfold on_course in Ha. rewrite Hr in Ha.
    apply (agree_settled scheme mapper gvk ns name _ (snapshot (s_cache s))); try done.
    intros k k0 Ht. symmetry. by apply inv_mirrored0, served_tracked.
Qed.
End Invariant.
End Healing.

(** C4 The loop heals what it watches.  Other clients may change the cluster in any
    orderly way, at any time and also between two calls of a run; the caches that
    the reconciler reads may lag behind, and changes may be noticed late and in
    any order; and they may serve the operator's namespace only.  Whenever the loop
    is at rest (the caches are up to date, no notice is pending, no request queued,
    nothing running), and there is a custom resource, the three deployments, the
    service and the config map are as it, the settings that the operator was started
    with and the cluster's TLS profile ask. *)
Theorem loop_heals {W} `{ClusterLaws W} mc scheme mapper gvk cfg sources (w : W) s s' :
  in_scope mc mapper (cfg_Namespace cfg) ->
  GVKForObject (mkTypeMeta "" "") scheme = inr gvk ->
  SetupWithManager scheme mapper cfg = SetupDone sources ->
  ParseGroupVersion (GroupVersion_String gvk) = Some (gvk_Group gvk, gvk_Version gvk) ->
  mapper (gvk_Version gvk) = Some true ->
  orderly scheme mapper gvk (cfg_Namespace cfg) (cfg_Name cfg) w ->
  sys_start mc cfg w s ->
  rtc (sys_step mc scheme sources (orderly scheme mapper gvk (cfg_Namespace cfg) (cfg_Name cfg))) s s' ->
  at_rest s' -> same_settings cfg (s_config s') /\
    operands_settled (cfg_Namespace cfg) (cfg_Name cfg) (s_config s') (s_world s').
Proof.
  intros Hscope Hk Hs Hg Hm Hw Hstart Hr Hrest.
  split; [by apply (keeps_settings_reached _ _ _ _ cfg _ _ Hr), (keeps_settings_start mc cfg w)|].
  eapply (invariant_rests scheme mapper gvk _ _ mc Hscope cfg sources True (conj eq_refl eq_refl)
    Hk Hs Hg Hm); [done | |done].
  by apply (loop_invariant_reached scheme mapper gvk _ _ mc Hscope cfg sources True (conj eq_refl eq_refl)
    Hk Hs Hg Hm w s s').
Qed.

(** ** What is not watched *)

Section Unwatched.
Context {W : Type} `{ClusterLaws W}.
Context (mc : ManagerCache) (scheme : Scheme) (sources : list source).
#[local] Abbreviation loop := (sys_step (W:=W) mc scheme sources nobody).

(** The loop, and other clients who change network policies only. *)
Inductive policy_step : sys W -> sys W -> Prop :=
| policies_change s w' l :
    covers mc (view (s_world s)) (view w') l -> Forall (fun u => up_kind u = KNetworkPolicy) l ->
    policy_step s (world_moves s w' l)
| loop_goes_on s s' : loop s s' -> policy_step s s'.

(** Nothing runs or is queued, and the rest of the loop is about policies. *)
Record hushed (s : sys W) : Prop := mkHushed {
  hu_backlog : Forall (fun u => up_kind u = KNetworkPolicy) (s_backlog s);
  hu_pending : Forall (fun n => no_kind n = KNetworkPolicy) (s_pending s);
  hu_queue : s_queue s = ∅;
  hu_running : s_running s = None
}.
Lemma at_rest_hushed s : at_rest s -> hushed s.
Proof. intros (Hb & Hp & Hq & Hr). split; try done; [by rewrite Hb | by rewrite Hp]. Qed.

Hypothesis policies_silent : forall n, no_kind n = KNetworkPolicy -> deliver sources n = [].

Lemma notices_kind c u : Forall (fun n => no_kind n = up_kind u) (notices_of c u).
Proof.
  unfold notices_of. destruct (difference _ _ _) as [n|] eqn:Hn; [|done]. apply Forall_singleton.
  by destruct (table (up_kind u) c !! up_key u), (up_object u); simpl in Hn; simplify_eq.
Qed.
Lemma hushed_loop s s' :
  loop s s' -> hushed s -> hushed s' /\ s_world s' = s_world s /\ s_config s' = s_config s.
Proof.
  intros Hs [Hb Hp Hq Hr].
  destruct Hs as [|cfg w c b1 u b2 p q r Hu|cfg w c b n p1 p2 q r|cfg w c b p q req Hreq| | |];
    cbn in *; try done.
  - split; [|done]. apply Forall_app in Hb as [Hb1 [Hk Hb2]%Forall_cons].
    split; cbn; try done; apply Forall_app; split; try done. rewrite <- Hk. apply notices_kind.
  - split; [|done]. apply Forall_app in Hp as [Hp1 [Hk Hp2]%Forall_cons].
    split; cbn; try done; [by apply Forall_app|]. rewrite policies_silent by done. simpl.
    by rewrite union_empty_l_L.
  - subst q. by apply elem_of_empty in Hreq.
Qed.
Lemma hushed_step s s' : policy_step s s' -> hushed s -> hushed s' /\ s_config s' = s_config s.
Proof.
  intros [s1 w' l _ Hl|s1 s2 Hs] Hh; [|by destruct (hushed_loop s1 s2 Hs Hh) as (? & _ & ?)].
  destruct Hh. split; [|done]. split; try done. by apply Forall_app.
Qed.
Lemma hushed_reached s s' : rtc policy_step s s' -> hushed s -> hushed s' /\ s_config s' = s_config s.
Proof.
  intros Hr. induction Hr as [s|s1 s2 s3 Hs _ IH]; [done|]. intros Hh.
  destruct (hushed_step s1 s2 Hs Hh) as [Hh2 Hc]. destruct (IH Hh2). split; [done | congruence].
Qed.

(** Left alone, such a loop comes to rest. *)
Lemma hushed_caught_up b cfg (w : W) c p q r :
  exists c' p', rtc loop (mkSys cfg w c b p q r) (mkSys cfg w c' [] p' q r).
Proof.
  revert c p; induction b as [|u b IH]; intros c p; [by exists c, p; apply rtc_refl|].
  destruct (IH (apply_update c u) (p ++ notices_of c u)) as (c' & p' & Hr). exists c', p'.
  eapply rtc_l; [|exact Hr]. apply (catch_up mc scheme sources nobody cfg w c [] u b), not_elem_of_nil.
Qed.
Lemma hushed_handled p cfg (w : W) c :
  Forall (fun n => no_kind n = KNetworkPolicy) p ->
  rtc loop (mkSys cfg w c [] p ∅ None) (mkSys cfg w c [] [] ∅ None).
Proof.
  induction p as [|n p IH]; intros Hp; [apply rtc_refl|]. apply Forall_cons in Hp as [Hn Hp].
  eapply rtc_l; [apply (handle_notice mc scheme sources nobody cfg w c [] n [] p)|].
  rewrite policies_silent by done. simpl. rewrite union_empty_l_L. by apply IH.
Qed.
Lemma hushed_rests s : hushed s -> exists s', rtc loop s s' /\ at_rest s' /\ s_world s' = s_world s.
Proof.
  intros Hh. destruct s as [cfg w c b p q r]. destruct (hushed_caught_up b cfg w c p q r) as (c' & p' & Hr).
  assert (Hh' : hushed (mkSys cfg w c' [] p' q r)).
  { apply (rtc_subrel _ policy_step) in Hr; [|by intros; apply loop_goes_on].
    by apply (hushed_reached _ _ Hr). }
  destruct Hh' as [_ Hp Hq Hrun]. cbn in Hp, Hq, Hrun. subst. exists (mkSys cfg w c' [] [] ∅ None).
  split; [|done]. etrans; [exact Hr | by apply hushed_handled].
Qed.
End Unwatched.

