(* ===== verification/Settling.v ===== *)
(** * The loop comes to rest

    Once the other clients stop, and as long as the worker does not run ahead of
    its cache, the loop of System.v cannot go on for ever: the run under way ends,
    the next run for the custom resource establishes everything, and after that
    runs only read.  What is left of the loop is measured by the backlog, the
    pending notices and the queue, in this order. *)

From S2P Require Import Prelude Go GoFmt Objects Api Util Args Resources Controller Server Operands.
From S2P Require Import Convergence Protocol Liveness Startup Safety Watches System Healing.
From stdpp Require Import relations well_founded.

(** ** A world seen through a cache that is up to date *)

Section Cached.
Context {W : Type} `{ClusterLaws W}.
Context (mc : ManagerCache).

Record cached := mkCached { cached_world : W }.
(** An object that is not there is not found, as the cache says where it serves. *)
Definition absent (k : kind) (key : NamespacedName) : error :=
  if serves (mc_WatchNamespace mc) k key then mc_missing mc k key else StatusError "NotFound" 404 "".
Lemma absent_not_found k key : IsNotFound (absent k key) = true.
Proof. unfold absent. destruct (serves _ k key) eqn:Hs; [by apply served_missing | done]. Qed.
Definition viewed_get (w : W) (k : kind) (key : NamespacedName) : error + obj k :=
  match view w k !! key with Some o => inr o | None => inl (absent k key) end.
(** Reads do not reach the server. *)
#[local] Instance cached_handler : Handler cached := fun cl m =>
  match cl return resp cl * cached with
  | Get k key => (viewed_get (cached_world m) k key, m)
  | cl => let '(r, w) := handle cl (cached_world m) in (r, mkCached w)
  end.
#[local] Instance cached_cluster : Cluster cached := {|
  view m := view (cached_world m);
  recorded m := recorded (cached_world m);
  healthy m := healthy (cached_world m)
|}.

Lemma cached_handle cl (m : cached) :
  is_get cl = false ->
  handle cl m = ((handle cl (cached_world m)).1, mkCached (handle cl (cached_world m)).2).
Proof. destruct cl; try done; intros _; unfold handle at 1, cached_handler; by destruct (handle _ _). Qed.

Lemma cached_read k key (m : cached) : handle (Get k key) m = (viewed_get (cached_world m) k key, m).
Proof. done. Qed.

#[local] Instance cached_laws : ClusterLaws cached.
Proof.
  split.
  - intros [w]. apply (view_key w).
  - intros [w] k key Hw. unfold answers, handle, cached_handler, viewed_get. cbn.
    split_and!; try done. destruct (view w k !! key); [done|]. eexists. split; [done | apply absent_not_found].
  - intros [w] k o Hw. unfold answers. rewrite cached_handle by done. by apply (create_law w).
  - intros [w] k o Hw. unfold answers. rewrite cached_handle by done. by apply (update_law w).
  - intros [w] m o l Hw Hl. unfold answers. rewrite cached_handle by done. by apply (patch_law w).
  - intros [w] o st Hw Hv Hc. unfold answers. rewrite cached_handle by done.
    by apply (update_status_law w _ st).
  - intros [w] Hw. unfold answers. rewrite cached_handle by done. by apply (now_law w).
  - intros [w] e Hw. unfold answers. rewrite cached_handle by done. by apply (event_law w).
Qed.

(** A run that only reads, and ends without an error, leaves the world alone. *)
Definition only_looks (p : run_of_Reconcile) (m : cached) : Prop :=
  Forall (fun s => is_get (st_call s) = true) (trace p m) /\ (run p m).1.2.2 = None.
Lemma looks_unchanged (p : run_of_Reconcile) m : only_looks p m -> (run p m).2 = m.
Proof.
  intros [Hg _]. revert m Hg; induction p as [a|c k IH]; intros m; [done|]. cbn [trace run].
  destruct (decide (is_get c = true)) as [Hc|Hc].
  - destruct c; try done. rewrite cached_read. intros Hg. apply Forall_cons in Hg as [_ Hg]. by apply IH.
  - destruct (handle c m) as [r m']. intros [Hg _]%Forall_cons. done.
Qed.
Lemma looks_next k key f m :
  only_looks (Do (Get k key) f) m -> only_looks (f (viewed_get (cached_world m) k key)) m.
Proof. intros [Hg He]. split; [|exact He]. by apply Forall_cons in Hg as [_ Hg]. Qed.
Lemma looks_get c k m : only_looks (Do c k) m -> is_get c = true.
Proof.
  intros [Hg _]. cbn [trace] in Hg. destruct (handle c m) as [r m'].
  by apply Forall_cons in Hg as [Hc _].
Qed.

(** ** Runs of [Reconcile] *)

Context (scheme : Scheme) (mapper : RESTMapping) (gvk : GroupVersionKind) (ns name : string).
#[local] Abbreviation our_config := (our_config ns name).
#[local] Abbreviation orderly := (orderly (W:=W) scheme mapper gvk ns name).
#[local] Abbreviation key := (singleton_key ns name).

(** Everything the custom resource stands for is there, and known. *)
Definition complete (cfg : Config) (w : W) : Prop :=
  cluster_config cfg w = cfg /\
  forall vpa, view w KVerticalPodAutoscalerController !! key = Some vpa -> Forall (met w) (goals cfg vpa).

(** Without the custom resource a run looks and returns. *)
Lemma Reconcile_looks cfg req (w : W) :
  view w KVerticalPodAutoscalerController !! req = None ->
  only_looks (Reconcile scheme cfg req) (mkCached w) /\
  (run (Reconcile scheme cfg req) (mkCached w)).1.1 = cluster_config cfg w.
Proof.
  intros Hv. unfold only_looks, Reconcile, syncTLSProfile. cbn [bind ask trace run].
  unfold handle, cached_handler, viewed_get. cbn [cached_world].
  assert (Hcfg : synced_TLSProfile cfg (viewed_get w KAPIServer (mkNN "" APIServerName)) = cluster_config cfg w).
  { unfold cluster_config, viewed_get. by destruct (view w KAPIServer !! _). }
  unfold viewed_get in Hcfg. rewrite Hcfg. cbn [bind ask trace run]. cbn [obj] in *. rewrite Hv.
  cbv beta iota. rewrite absent_not_found. cbn [trace run fst snd]. split; [|done].
  split; [by repeat constructor | done].
Qed.
(** With everything there, a run looks and returns. *)
Lemma Reconcile_complete cfg req (w : W) :
  orderly w -> complete cfg w ->
  only_looks (Reconcile scheme cfg req) (mkCached w) /\
  (run (Reconcile scheme cfg req) (mkCached w)).1.1 = cfg.
Proof.
  intros [Hh Hs] [Hc Hm].
  destruct (view w KVerticalPodAutoscalerController !! req) as [vpa|] eqn:Hv.
  - destruct (Hs KVerticalPodAutoscalerController req vpa Hv) as (_ & _ & Hreq & _). subst req.
    assert (Hh' : healthy (mkCached w)) by exact Hh.
    destruct (Reconcile_rests (W:=cached) scheme key vpa cfg (mkCached w) Hh' Hv) as (Hr & _ & _ & _ & Ht).
    { change (cluster_config cfg (mkCached w)) with (cluster_config cfg w). rewrite Hc. by apply Hm. }
    split; [split; [exact Ht | by rewrite Hr]|]. rewrite Hr. exact Hc.
  - destruct (Reconcile_looks cfg req w Hv) as [? Hr]. split; [done|]. by rewrite Hr.
Qed.
(** A run for the custom resource completes everything. *)
Lemma Reconcile_completes cfg (w : W) vpa :
  our_config cfg -> orderly w -> view w KVerticalPodAutoscalerController !! key = Some vpa ->
  complete (run (Reconcile scheme cfg key) (mkCached w)).1.1
    (cached_world (run (Reconcile scheme cfg key) (mkCached w)).2).
Proof.
  intros [Hns Hn] [Hh Hs] Hv.
  destruct (Hs KVerticalPodAutoscalerController key vpa Hv) as (Hkey & _ & _ & Hk & Hx).
  assert (Hvns : om_Namespace (vpa_meta vpa) = "" \/ om_Namespace (vpa_meta vpa) = cfg_Namespace cfg).
  { right. rewrite Hns. exact (f_equal nn_Namespace Hkey). }
  assert (Hh' : healthy (mkCached w)) by exact Hh.
  destruct (Reconcile_establishes (W:=cached) scheme key vpa gvk Hk Hx cfg (mkCached w) Hh' Hv Hvns)
    as (Hr & _ & Hu & Hm).
  generalize dependent (run (Reconcile scheme cfg key) (mkCached w)). intros [out w2] Hr Hu Hm.
  cbn [fst snd] in *. subst out. cbn [fst].
  change (cluster_config cfg (mkCached w)) with (cluster_config cfg w) in *.
  assert (Hin : forall k k0, k ∈ [KVerticalPodAutoscalerController; KAPIServer] ->
    view (cached_world w2) k !! k0 = view w k !! k0).
  { intros k k0 Hk0. apply Hu, owned_slots_inputs. set_solver. }
  split; [apply cluster_config_idem, Hin; set_solver|]. intros vpa' Hv'.
  pose proof (eq_trans (eq_sym (Hin KVerticalPodAutoscalerController key (list_elem_of_here _ _))) Hv') as Heq.
  pose proof (eq_trans (eq_sym Hv) Heq) as Heq'. injection Heq' as <-. exact Hm.
Qed.
End Cached.
Arguments cached W : clear implicits.

(** ** The loop without other clients *)

Section Prompt.
Context {W : Type} `{ClusterLaws W}.
Context (mc : ManagerCache) (scheme : Scheme) (sources : list source).

(** The worker moves only while the cache is up to date. *)
Definition keeps_pace (s s' : sys W) : Prop := s_backlog s = [] \/ s_running s' = s_running s.
Definition prompt (s s' : sys W) : Prop :=
  sys_step mc scheme sources nobody s s' /\ keeps_pace s s'.
End Prompt.

(** A program is not its own continuation. *)
Definition continues {A} (q p : prog A) : Prop :=
  match p with Ret _ => False | Do c k => exists r, q = k r end.
Lemma continues_wf {A} : well_founded (continues (A:=A)).
Proof. intros p; induction p as [a|c k IH]; constructor; [done|]. intros q [r ->]. apply IH. Qed.
Lemma next_differs {A} c (k : resp c -> prog A) r : k r <> Do c k.
Proof.
  intros Hk. assert (Hc : continues (Do c k) (Do c k)) by (by exists r).
  clear Hk r. revert Hc. induction (continues_wf (Do c k)) as [p _ IH]. intros Hc. by apply (IH p).
Qed.

(** What is left to do, apart from the run under way. *)
Definition left_over {W} (s : sys W) : nat * nat * nat :=
  (length (s_backlog s), length (s_pending s), size (s_queue s)).
Definition less (x y : nat * nat * nat) : Prop :=
  (x.1.1 < y.1.1 \/ x.1.1 = y.1.1 /\ (x.1.2 < y.1.2 \/ x.1.2 = y.1.2 /\ x.2 < y.2))%nat.
Lemma less_wf : well_founded less.
Proof.
  intros [[a b] c]. revert b c. induction (lt_wf a) as [a _ IHa]. intros b.
  induction (lt_wf b) as [b _ IHb]. intros c. induction (lt_wf c) as [c _ IHc].
  constructor. intros [[a' b'] c'] Hl. unfold less in Hl. cbn in Hl.
  destruct Hl as [?|[-> [?|[-> ?]]]]; auto.
Qed.
Lemma less_trans x y z : less x y -> less y z -> less x z.
Proof. unfold less. lia. Qed.

Lemma size_taken (q : gset NamespacedName) req : req ∈ q -> (size (q ∖ {[req]}) < size q)%nat.
Proof.
  intros Hq. apply subset_size. split; [set_solver|]. intros Hs. specialize (Hs req Hq). set_solver.
Qed.

Section Settling.
Context {W : Type} `{ClusterLaws W}.
Context (scheme : Scheme) (mapper : RESTMapping) (gvk : GroupVersionKind) (ns name : string).
Context (mc : ManagerCache).
Hypothesis scope : in_scope mc mapper ns.
Context (cfg0 : Config) (sources : list source).
Hypothesis ours0 : our_config ns name cfg0.
Hypothesis kinds : GVKForObject (mkTypeMeta "" "") scheme = inr gvk.
Hypothesis setup : SetupWithManager scheme mapper cfg0 = SetupDone sources.
Hypothesis own_group : ParseGroupVersion (GroupVersion_String gvk) = Some (gvk_Group gvk, gvk_Version gvk).
Hypothesis namespaced : mapper (gvk_Version gvk) = Some true.
#[local] Abbreviation key := (singleton_key ns name).
#[local] Abbreviation inv := (loop_invariant scheme mapper gvk ns name mc sources True).
#[local] Abbreviation prompt := (prompt (W:=W) mc scheme sources).
#[local] Abbreviation complete := (complete (W:=W) ns name).
#[local] Existing Instance cached_handler.

Lemma prompt_invariant s s' : inv s -> prompt s s' -> inv s'.
Proof.
  intros Hi [Hs _].
  apply (loop_invariant_step scheme mapper gvk ns name mc scope cfg0 sources True ours0
    kinds setup own_group namespaced s s'); [|done].
  by destruct Hs; try constructor.
Qed.

(** The run under way, seen with the world as it is. *)
Definition seen (s : sys W) : cached W := mkCached (s_world s).

(** Caches, notices and the queue. *)
Definition tidied (s s' : sys W) : Prop :=
  s_config s' = s_config s /\ s_world s' = s_world s /\ s_running s' = s_running s /\
  less (left_over s') (left_over s).
(** One call of a run. *)
Definition advance (p : run_of_Reconcile) (m : cached W) : option (run_of_Reconcile * cached W) :=
  match p with
  | Ret _ => None
  | Do c k => let '(r, m') := handle (Handler:=cached_handler mc) c m in Some (k r, m')
  end.
Definition next_reads (p : run_of_Reconcile) : bool :=
  match p with Ret _ => false | Do c _ => is_get c end.
Lemma advance_run p m q m' :
  advance p m = Some (q, m') ->
  run (H:=cached_handler mc) p m = run (H:=cached_handler mc) q m'.
Proof. destruct p as [a|c k]; simpl; [done|]. destruct (handle c m) as [r m1]. by intros [= <- <-]. Qed.
Lemma advance_continues p m q m' : advance p m = Some (q, m') -> continues q p.
Proof. destruct p as [a|c k]; simpl; [done|]. destruct (handle c m) as [r m1]. intros [= <- <-]. by exists r. Qed.

(** The worker. *)
Inductive worked (s s' : sys W) : Prop :=
| took req :
    req ∈ s_queue s -> s_running s = None ->
    s_running s' = Some (req, Reconcile scheme (s_config s) req) ->
    s_config s' = s_config s -> s_world s' = s_world s -> less (left_over s') (left_over s) -> worked s s'
| moved req p q :
    s_running s = Some (req, p) -> advance p (seen s) = Some (q, seen s') ->
    s_running s' = Some (req, q) -> s_config s' = s_config s ->
    (next_reads p = true -> left_over s' = left_over s) -> worked s s'
| ended req cfg' res e :
    s_running s = Some (req, Ret (cfg', (res, e))) -> s_running s' = None ->
    s_config s' = cfg' -> s_world s' = s_world s ->
    (e = None -> left_over s' = left_over s) -> worked s s'.

Lemma prompt_cases s s' : inv s -> prompt s s' -> tidied s s' \/ worked s s'.
Proof.
  intros Hi [Hs Hp]. destruct Hs as [|cfg w c b1 u b2 p q r Hu|cfg w c b n p1 p2 q r
    |cfg w c b p q req Hq|cfg w c b p q req k key f|cfg w c b p q req cl f l Hg Hl
    |cfg w c b p q req cfg' res e]; unfold keeps_pace in Hp; cbn in *.
  - done.
  - left. split_and!; try done. left. cbn. rewrite !length_app. simpl. lia.
  - left. split_and!; try done. right. cbn. rewrite !length_app. simpl. lia.
  - right. apply (took _ _ req); try done. right. cbn. split; [done|]. right. split; [done|].
    by apply size_taken.
  - right. apply (moved _ _ req (Do (Get k key) f) (f (cached_get mc c k key))); try done. cbn.
    destruct Hp as [->|Hp]; [|by injection Hp as Hp%next_differs].
    destruct Hi. cbn in *. destruct inv_running as [_ Hcareful].
    pose proof (careful_call scheme mapper gvk ns name mc (Get k key) f Hcareful : cache_serves mc k key) as Hserved.
    pose proof (inv_mirrored k key Hserved) as Hm. cbn in Hm.
    unfold handle, cached_handler, seen, viewed_get, absent, cached_get. cbn.
    rewrite Hm. unfold cache_serves in Hserved. by rewrite Hserved.
  - right. apply (moved _ _ req (Do cl f) (f (handle cl w).1)); try done; cbn; [|by rewrite Hg].
    unfold seen. cbn. by rewrite cached_handle.
  - right. apply (ended _ _ req cfg' res e); try done. by intros ->.
Qed.

(** ** Runs end *)

Lemma sn_run (G : sys W -> Prop) :
  (forall s s', inv s -> G s -> is_Some (s_running s) -> prompt s s' -> G s') ->
  (forall s, inv s -> G s -> s_running s = None -> sn prompt s) ->
  forall s, inv s -> G s -> sn prompt s.
Proof.
  intros Hkeep Hidle.
  assert (Hrun : forall p req s, inv s -> G s -> s_running s = Some (req, p) -> sn prompt s).
  { intros p. induction (continues_wf p) as [p _ IH]. intros req s. remember (left_over s) as n eqn:Hn.
    revert s Hn. induction (less_wf n) as [n _ IHn]. intros s -> Hi HG Hr. constructor. intros s' Hp.
    pose proof (prompt_invariant _ _ Hi Hp) as Hi'.
    pose proof (Hkeep s s' Hi HG ltac:(by rewrite Hr; eexists) Hp) as HG'.
    destruct (prompt_cases s s' Hi Hp) as [(_ & _ & Hr' & Hl)|[req' _ Hr0|req' p' q Hr0 Hq Hr1|req' cfg' res e Hr0 Hr1]].
    - eapply (IHn _ Hl); [done | done | done | by rewrite Hr', Hr].
    - by rewrite Hr in Hr0.
    - rewrite Hr in Hr0. injection Hr0 as <- <-.
      by apply (IH q (advance_continues _ _ _ _ Hq) req).
    - by apply Hidle. }
  intros s Hi HG. destruct (s_running s) as [[req p]|] eqn:Hr; [by eapply Hrun | by apply Hidle].
Qed.

(** What the worker will leave. *)
Definition outcome (s : sys W) : Config * W :=
  match s_running s with
  | None => (s_config s, s_world s)
  | Some (_, p) =>
      let out := run (H:=cached_handler mc) p (seen s) in (out.1.1, cached_world out.2)
  end.
Definition looking (s : sys W) : Prop :=
  match s_running s with None => True | Some (_, p) => only_looks mc p (seen s) end.

Lemma prompt_outcome s s' :
  inv s -> is_Some (s_running s) -> prompt s s' -> outcome s' = outcome s.
Proof.
  intros Hi [x Hx] Hp. destruct (prompt_cases s s' Hi Hp) as
    [(Hc & Hw & Hr & _)|[req _ Hr0|req p q Hr0 Hq Hr1|req cfg' res e Hr0 Hr1 Hc Hw _]]; unfold outcome.
  - unfold seen. by rewrite Hr, Hc, Hw.
  - by rewrite Hr0 in Hx.
  - rewrite Hr0, Hr1. by rewrite (advance_run _ _ _ _ Hq).
  - by rewrite Hr0, Hr1, Hc, Hw.
Qed.
Lemma prompt_looking s s' :
  inv s -> is_Some (s_running s) -> looking s -> prompt s s' ->
  looking s' /\ (left_over s' = left_over s \/ less (left_over s') (left_over s)).
Proof.
  intros Hi [x Hx] Hl Hp. unfold looking in *. destruct (prompt_cases s s' Hi Hp) as
    [(Hc & Hw & Hr & ?)|[req _ Hr0|req p q Hr0 Hq Hr1 _ Hn|req cfg' res e Hr0 Hr1 _ _ Hn]].
  - unfold seen in *. rewrite Hr, Hw. auto.
  - by rewrite Hr0 in Hx.
  - rewrite Hr0 in Hl. rewrite Hr1. destruct p as [a|c k]; [done|].
    pose proof (looks_get mc c k _ Hl) as Hg. split; [|left; by apply Hn].
    destruct c; try done. cbn [advance] in Hq. rewrite cached_read in Hq. injection Hq as <- Hw.
    unfold seen. rewrite <- Hw. exact (looks_next mc _ _ k (seen s) Hl).
  - rewrite Hr0 in Hl. rewrite Hr1. split; [done|]. left. apply Hn. by destruct Hl.
Qed.

(** ** The loop ends *)

Lemma less_looking (s s' : sys W) n :
  left_over s' = left_over s \/ less (left_over s') (left_over s) -> less (left_over s) n ->
  less (left_over s') n.
Proof. intros [-> | Hl] Hn; [done | by eapply less_trans]. Qed.
(** A run that only looks ends, and then less is left than before it was taken. *)
Lemma sn_looking (n : nat * nat * nat) (I : Config * W -> Prop) :
  (forall s, inv s -> s_running s = None -> I (s_config s, s_world s) -> less (left_over s) n -> sn prompt s) ->
  forall s, inv s -> looking s -> I (outcome s) -> less (left_over s) n -> sn prompt s.
Proof.
  intros Hidle s Hi Hl HI Hn.
  apply (sn_run (fun s => looking s /\ I (outcome s) /\ less (left_over s) n)); [| |done|done].
  - intros s1 s2 Hi1 (Hl1 & HI1 & Hn1) Hr Hp. rewrite (prompt_outcome s1 s2) by done.
    destruct (prompt_looking s1 s2 Hi1 Hr Hl1 Hp) as [? ?].
    split; [done|]. split; [done|]. by eapply less_looking.
  - intros s1 Hi1 (_ & HI1 & Hn1) Hr. apply Hidle; [done | done | | done].
    unfold outcome in HI1. by rewrite Hr in HI1.
Qed.

(** The run just taken. *)
Lemma taken_outcome s req :
  s_running s = Some (req, Reconcile scheme (s_config s) req) ->
  outcome s =
  ((run (H:=cached_handler mc) (Reconcile scheme (s_config s) req) (seen s)).1.1,
   cached_world (run (H:=cached_handler mc) (Reconcile scheme (s_config s) req) (seen s)).2).
Proof. unfold outcome. by intros ->. Qed.

Lemma sn_complete s : inv s -> s_running s = None -> complete (s_config s) (s_world s) -> sn prompt s.
Proof.
  remember (left_over s) as n eqn:Hn. revert s Hn. induction (less_wf n) as [n _ IHn].
  intros s -> Hi Hr Hc. constructor. intros s' Hp. pose proof (prompt_invariant _ _ Hi Hp) as Hi'.
  destruct (prompt_cases s s' Hi Hp) as [(Hc' & Hw' & Hr' & Hl)|[req _ _ Hr1 Hc1 Hw1 Hl|req p q Hr0|req cfg' res e Hr0]].
  - apply (IHn _ Hl s' eq_refl Hi'); [by rewrite Hr' | by rewrite Hc', Hw'].
  - rewrite <- Hc1 in Hr1. destruct (Reconcile_complete mc scheme mapper gvk ns name
      (s_config s') req (s_world s')) as [Hlook Hout];
      [by destruct Hi' | by rewrite Hc1, Hw1|].
    apply (sn_looking (left_over s) (fun out => complete out.1 out.2)); [|done| | |done].
    + intros s1 Hi1 Hr2 HI Hl1. by apply (IHn _ Hl1 s1 eq_refl).
    + unfold looking. by rewrite Hr1.
    + rewrite (taken_outcome s' req Hr1). cbn [fst snd]. unfold seen.
      rewrite (looks_unchanged mc _ _ Hlook), Hout. cbn [cached_world]. by rewrite Hc1, Hw1.
  - by rewrite Hr in Hr0.
  - by rewrite Hr in Hr0.
Qed.

Lemma sn_idle s : inv s -> s_running s = None -> sn prompt s.
Proof.
  remember (left_over s) as n eqn:Hn. revert s Hn. induction (less_wf n) as [n _ IHn].
  intros s -> Hi Hr. constructor. intros s' Hp. pose proof (prompt_invariant _ _ Hi Hp) as Hi'.
  destruct (prompt_cases s s' Hi Hp) as [(Hc' & Hw' & Hr' & Hl)|[req _ _ Hr1 Hc1 Hw1 Hl|req p q Hr0|req cfg' res e Hr0]].
  - apply (IHn _ Hl s' eq_refl Hi'). by rewrite Hr'.
  - rewrite <- Hc1 in Hr1.
    destruct (view (s_world s') KVerticalPodAutoscalerController !! req) as [vpa|] eqn:Hv.
    + assert (Hreq : req = key).
      { destruct (inv_world _ _ _ _ _ _ _ _ _ Hi') as [_ Hs].
        by destruct (Hs KVerticalPodAutoscalerController req vpa Hv) as (_ & _ & ? & _). }
      subst req. apply (sn_run (fun s => complete (outcome s).1 (outcome s).2)); [| |done|].
      * intros s1 s2 Hi1 Ho Hr2 Hp2. by rewrite (prompt_outcome s1 s2).
      * intros s1 Hi1 Ho Hr2. unfold outcome in Ho. rewrite Hr2 in Ho. by apply sn_complete.
      * rewrite (taken_outcome s' key Hr1). cbn [fst snd]. unfold seen.
        apply (Reconcile_completes mc scheme mapper gvk ns name _ _ vpa);
          [by destruct Hi' | by destruct Hi' | done].
    + destruct (Reconcile_looks mc scheme (s_config s') req (s_world s') Hv) as [Hlook Hout].
      apply (sn_looking (left_over s) (fun _ => True)); [|done| |done|done].
      * intros s1 Hi1 Hr2 _ Hl1. by apply (IHn _ Hl1 s1 eq_refl).
      * unfold looking. by rewrite Hr1.
  - by rewrite Hr in Hr0.
  - by rewrite Hr in Hr0.
Qed.
Lemma sn_any s : inv s -> sn prompt s.
Proof.
  intros Hi. apply (sn_run (fun _ => True)); [|intros s1 Hi1 _; apply sn_idle; exact Hi1 | exact Hi | exact I].
  intros; exact I.
Qed.

(** ** Something can happen until the loop rests *)

Lemma covers_nothing (w w' : W) : unchanged_except [] w w' -> covers mc (view w) (view w') [].
Proof.
  intros Hu. split; [by intros ? ?%elem_of_nil|]. intros k k0 _ _. by apply Hu, not_elem_of_nil.
Qed.
Lemma covers_written (w w' : W) k k0 :
  unchanged_except [(k, k0)] w w' -> exists l, covers mc (view w) (view w') l.
Proof.
  intros Hu. destruct (decide (cache_serves mc k k0)) as [Hserved|Hserved].
  - exists [mkUpdate k k0 (view w' k !! k0)]. split.
    + by intros u ->%list_elem_of_singleton.
    + intros k' k0' _ Hn. by apply Hu.
  - exists []. split; [by intros ? ?%elem_of_nil|]. intros k' k0' Hs' _. apply Hu.
    rewrite list_elem_of_singleton. congruence.
Qed.
Lemma call_covered cl (w : W) :
  healthy w -> orderly_call mapper gvk ns name mc cl -> exists l, covers mc (view w) (view (handle cl w).2) l.
Proof.
  intros Hw Hc. destruct cl as [k k0|k o|k o|k o|k m o|e|]; simpl in Hc; try done.
  - destruct (get_law w k k0 Hw) as (_ & Hu & _). eexists. by apply covers_nothing.
  - destruct (create_law w k o Hw) as (_ & Hu & _). by eapply covers_written.
  - destruct (update_law w k o Hw) as (_ & Hu & _). by eapply covers_written.
  - destruct (event_law w e Hw) as (_ & Hu & _). eexists. by apply covers_nothing.
  - destruct (now_law w Hw) as (_ & Hu & _). eexists. by apply covers_nothing.
Qed.

Lemma prompt_progress s : inv s -> at_rest s \/ exists s', prompt s s'.
Proof.
  intros []. destruct s as [cfg w c b p q r]. cbn in *.
  destruct b as [|u b].
  2: { right. eexists. split; [apply (catch_up _ _ _ _ cfg w c [] u b), not_elem_of_nil | by right]. }
  destruct p as [|n p].
  2: { right. eexists. split; [apply (handle_notice _ _ _ _ cfg w c [] n [] p) | by left]. }
  destruct r as [[req [[cfg' [res e]]|cl k]]|].
  - right. eexists. split; [apply end_run | by left].
  - right. destruct (is_get cl) eqn:Hg.
    + destruct cl; try done. eexists. split; [apply read_cache | by left].
    + destruct (call_covered cl w) as [l Hl]; [apply inv_world | by eapply (careful_call scheme mapper gvk ns name mc cl k), inv_running |].
      eexists. split; [by eapply make_call | by left].
  - destruct (decide (q = ∅)) as [->|Hq]; [by left|]. right.
    apply set_choose_L in Hq as [req Hreq]. eexists. split; [by apply (take_request _ _ _ _ cfg w c [] [] q req) | by left].
Qed.
End Settling.

(** C5 The loop settles.  After any history (other clients changing the cluster,
    caches that lag and serve at least the operator's namespace, runs that were disturbed), if the other clients stop, and the
    worker does not run ahead of its cache, the loop cannot run for ever, in
    whatever order its parts move; and as long as it is not at rest something can
    move.  So it comes to rest, with the operands as they should be. *)
Theorem loop_settles {W} `{ClusterLaws W} mc scheme mapper gvk cfg sources (w : W) s s' :
  in_scope mc mapper (cfg_Namespace cfg) ->
  GVKForObject (mkTypeMeta "" "") scheme = inr gvk ->
  SetupWithManager scheme mapper cfg = SetupDone sources ->
  ParseGroupVersion (GroupVersion_String gvk) = Some (gvk_Group gvk, gvk_Version gvk) ->
  mapper (gvk_Version gvk) = Some true ->
  orderly scheme mapper gvk (cfg_Namespace cfg) (cfg_Name cfg) w ->
  sys_start mc cfg w s ->
  rtc (sys_step mc scheme sources (orderly scheme mapper gvk (cfg_Namespace cfg) (cfg_Name cfg))) s s' ->
  sn (prompt mc scheme sources) s' /\
  forall s2, rtc (prompt mc scheme sources) s' s2 ->
    (exists s3, prompt mc scheme sources s2 s3) \/
    at_rest s2 /\ same_settings cfg (s_config s2) /\
      operands_settled (cfg_Namespace cfg) (cfg_Name cfg) (s_config s2) (s_world s2).
Proof.
  intros Hscope Hk Hs Hg Hm Hw Hstart Hr.
  pose proof (keeps_settings_reached _ _ _ _ cfg _ _ Hr (keeps_settings_start mc cfg w _ Hstart)) as Hkeep.
  pose proof (loop_invariant_reached scheme mapper gvk _ _ mc Hscope cfg sources True (conj eq_refl eq_refl)
    Hk Hs Hg Hm w s s' Hw Hstart Hr) as Hi.
  split; [by apply (sn_any scheme mapper gvk _ _ mc Hscope cfg sources (conj eq_refl eq_refl) Hk Hs Hg Hm)|].
  intros s2 Hr2. assert (Hi2 : loop_invariant scheme mapper gvk (cfg_Namespace cfg) (cfg_Name cfg) mc sources True s2).
  { clear Hr Hstart Hkeep. induction Hr2 as [|s1 s2 s3 Hp _ IH]; [done|]. apply IH.
    by eapply (prompt_invariant scheme mapper gvk _ _ mc Hscope cfg sources (conj eq_refl eq_refl) Hk Hs Hg Hm). }
  destruct (prompt_progress scheme mapper gvk _ _ mc sources s2 Hi2) as [Hrest|?]; [right | by left].
  split; [done|]. split; [|by apply (invariant_rests scheme mapper gvk _ _ mc Hscope cfg sources True
    (conj eq_refl eq_refl) Hk Hs Hg Hm)].
  enough (keeps_settings cfg s2) as [? _] by done.
  clear Hr Hstart Hi Hi2. induction Hr2 as [|s1 s2 s3 [Hp _] _ IH]; [done|].
  apply IH; [|done]. by apply (keeps_settings_step mc scheme sources nobody cfg s1 s2).
Qed.
