(* ===== verification/Schedule.v ===== *)
(** * The loop on an example

    A schedule of the loop that computes, on the executable server: the operands
    are installed, the recommender's deployment is deleted, and comes back. *)

From S2P Require Import Prelude Go GoFmt Objects Api Util Args Resources Controller Server Operands.
From S2P Require Import Convergence Protocol Liveness Startup Safety Watches System Healing Settling.
From stdpp Require Import relations.

(** ** A manager's cache *)

Definition cache_error (WatchNamespace : string) (k : kind) (key : NamespacedName) : error :=
  if serves WatchNamespace k key then not_found
  else ErrorString ("unable to get: " +:+ nn_Namespace key +:+ "/" +:+ nn_Name key +:+
    " because of unknown namespace for the cache").
Lemma cache_error_law WatchNamespace k key :
  IsNotFound (cache_error WatchNamespace k key) = serves WatchNamespace k key.
Proof. unfold cache_error. by destruct (serves _ k key). Qed.
Definition cache_of (WatchNamespace : string) : ManagerCache :=
  mkManagerCache WatchNamespace (cache_error WatchNamespace) (cache_error_law WatchNamespace).

(** ** Updates of the executable server *)

Definition all_kinds : list kind :=
  [KVerticalPodAutoscalerController; KDeployment; KService; KConfigMap; KNetworkPolicy; KNamespace;
   KAPIServer; KClusterOperator; KInfrastructure].
Definition all_updates (w : fake) : list update :=
  flat_map (fun k => map (fun kv => mkUpdate k kv.1 (Some kv.2)) (map_to_list (table k (fk_store w)))) all_kinds.
Definition initial_updates (mc : ManagerCache) (w : fake) : list update :=
  filter (fun u => cache_serves mc (up_kind u) (up_key u)) (all_updates w).
Lemma all_updates_elem (w : fake) u :
  u ∈ all_updates w <-> exists o, up_object u = Some o /\ view w (up_kind u) !! up_key u = Some o.
Proof.
  unfold all_updates. rewrite list_elem_of_In, in_flat_map. split.
  - intros (k & _ & Hu). apply in_map_iff in Hu as ([key o] & <- & Ho). exists o. split; [done|].
    by apply list_elem_of_In, elem_of_map_to_list in Ho.
  - destruct u as [k key v]. cbn. intros (o & -> & Ho). exists k. split; [destruct k; simpl; tauto|].
    apply in_map_iff. exists (key, o). split; [done|]. by apply list_elem_of_In, elem_of_map_to_list.
Qed.
Lemma initial_updates_start mc cfg (w : fake) :
  sys_start mc cfg w (mkSys cfg w empty_store (initial_updates mc w) [] ∅ None).
Proof.
  exists (initial_updates mc w). split; [done|]. split.
  - intros u [Hserved (o & -> & Ho)%all_updates_elem]%list_elem_of_filter. by rewrite Ho.
  - intros k key Hserved Hn. transitivity (@None (obj k)).
    + destruct (view w k !! key) as [o|] eqn:Ho; [|done]. exfalso. apply Hn.
      apply (list_elem_of_fmap_2 up_slot _ (mkUpdate k key (Some o))), list_elem_of_filter.
      split; [done|]. apply all_updates_elem. by exists o.
    + unfold tables. by destruct k; simpl; rewrite lookup_empty.
Qed.

(** The update of a call: what became of the slot it writes, if the cache serves it. *)
Definition call_updates (mc : ManagerCache) (c : call) (w : fake) : list update :=
  match write_target c with
  | Some (k, key) =>
      if decide (cache_serves mc k key) then [mkUpdate k key (view (handle c w).2 k !! key)] else []
  | None => []
  end.
Lemma call_updates_cover mc c (w : fake) :
  healthy w -> covers mc (view w) (view (handle c w).2) (call_updates mc c w).
Proof.
  intros [Hf Hk]. unfold call_updates.
  assert (Hw : forall k key, write_target c <> Some (k, key) ->
    view (handle c w).2 k !! key = view w k !! key).
  { unfold handle, fake_handler. rewrite Hf. simpl. by apply fake_serve_keeps. }
  destruct (write_target c) as [[k key]|].
  - case_decide as Hserved.
    + split; [by intros u ->%list_elem_of_singleton|]. intros k' key' _ Hn. apply Hw.
      cbn in Hn. rewrite list_elem_of_singleton in Hn. unfold up_slot in Hn. cbn in Hn. congruence.
    + split; [by intros u ?%elem_of_nil|]. intros k' key' Hs' _. apply Hw. congruence.
  - split; [by intros u ?%elem_of_nil|]. intros k' key' _ _. by apply Hw.
Qed.

Lemma fake_handle_healthy c (w : fake) : healthy w -> healthy (handle c w).2.
Proof.
  intros [Hf Hk]. unfold handle, fake_handler. rewrite Hf. simpl.
  destruct (fake_serve_keeps c w Hk) as (? & Hf' & _). split; [by rewrite Hf' | done].
Qed.

(** One schedule of the loop: catch up, then handle the notices, then finish the
    run, then take a request. *)
Definition example_cache : ManagerCache := cache_of "openshift-vertical-pod-autoscaler".
Fixpoint drive (scheme : Scheme) (sources : list source) (fuel : nat) (s : sys fake) : sys fake :=
  match fuel with
  | O => s
  | S fuel =>
      let '(mkSys cfg w c b pending q r) := s in
      match b, pending, r with
      | u :: rest, _, _ =>
          drive scheme sources fuel (mkSys cfg w (apply_update c u) rest (pending ++ notices_of c u) q r)
      | [], n :: rest, _ =>
          drive scheme sources fuel (mkSys cfg w c [] rest (list_to_set (deliver sources n) ∪ q) r)
      | [], [], Some (req, Ret (cfg', (res, e))) =>
          drive scheme sources fuel (mkSys cfg' w c [] [] (if is_set e then {[req]} ∪ q else q) None)
      | [], [], Some (req, Do cl f) =>
          drive scheme sources fuel
            (match cl return (resp cl -> run_of_Reconcile) -> sys fake with
             | Get k key => fun f =>
                 mkSys cfg w c [] [] q (Some (req, f (cached_get example_cache c k key)))
             | cl => fun f =>
                 mkSys cfg (handle cl w).2 c (call_updates example_cache cl w) [] q (Some (req, f (handle cl w).1))
             end f)
      | [], [], None =>
          match elements q with
          | req :: _ =>
              drive scheme sources fuel
                (mkSys cfg w c [] [] (q ∖ {[req]}) (Some (req, Reconcile scheme cfg req)))
          | [] => s
          end
      end
  end.
#[local] Abbreviation steps := (sys_step example_cache).
Lemma drive_steps scheme sources permitted fuel (s : sys fake) :
  healthy (s_world s) -> rtc (steps scheme sources permitted) s (drive scheme sources fuel s).
Proof.
  revert s; induction fuel as [|fuel IH]; intros [cfg w c b pending q r] Hh; [apply rtc_refl|].
  cbn [s_world] in *. cbn [drive]. destruct b as [|u rest].
  2: { eapply rtc_l; [apply (catch_up _ _ _ _ cfg w c [] u rest), not_elem_of_nil | by apply IH]. }
  destruct pending as [|n rest].
  2: { eapply rtc_l; [apply (handle_notice _ _ _ _ cfg w c [] n [] rest) | by apply IH]. }
  destruct r as [[req [[cfg' [res e]]|cl f]]|].
  - eapply rtc_l; [apply end_run | by apply IH].
  - destruct (is_get cl) eqn:Hg.
    + destruct cl; try done. eapply rtc_l; [apply read_cache | by apply IH].
    + eapply rtc_l; [apply (make_call _ _ _ _ cfg w c [] [] q req cl f (call_updates example_cache cl w));
        [done | by apply call_updates_cover]|].
      destruct cl; try done; apply IH; cbn [s_world]; by apply fake_handle_healthy.
  - destruct (elements q) as [|req ?] eqn:Hq; [apply rtc_refl|].
    eapply rtc_l; [apply (take_request _ _ _ _ cfg w c [] [] q req) | by apply IH].
    apply elem_of_elements. rewrite Hq. apply list_elem_of_here.
Qed.

(** Another client deletes an object. *)
Definition remove_object (k : kind) (key : NamespacedName) (w : fake) : fake :=
  with_store (fun s => set_table k (delete key (table k s)) s) w.
Lemma view_remove k key (w : fake) k' key' :
  view (remove_object k key w) k' !! key' =
  if decide ((k', key') = (k, key)) then None else view w k' !! key'.
Proof.
  simpl. destruct (decide (k' = k)) as [->|Hk].
  - rewrite table_set_eq. case_decide as Heq; [injection Heq as ->; apply lookup_delete_eq|].
    apply lookup_delete_ne. congruence.
  - rewrite table_set_ne by done. case_decide; [congruence | done].
Qed.
Lemma remove_covers mc k key (w : fake) :
  cache_serves mc k key -> covers mc (view w) (view (remove_object k key w)) [mkUpdate k key None].
Proof.
  intros Hserved. split.
  - intros u ->%list_elem_of_singleton. cbn [up_kind up_key up_object]. by rewrite view_remove, decide_True.
  - intros k' key' _ Hn. rewrite view_remove, decide_False; [done|].
    cbn in Hn. by rewrite list_elem_of_singleton in Hn.
Qed.
Lemma remove_orderly scheme mapper gvk ns name k key (w : fake) :
  orderly scheme mapper gvk ns name w -> orderly scheme mapper gvk ns name (remove_object k key w).
Proof.
  intros [[Hf Hk] Hs].
  assert (Hle : forall k' key' o, view (remove_object k key w) k' !! key' = Some o -> view w k' !! key' = Some o).
  { intros k' key' o. rewrite view_remove. by case_decide. }
  split; [split; [done|]|].
  - intros k' key' o Ho. apply Hk. by apply Hle.
  - intros k' key' o Ho. apply Hs. by apply Hle.
Qed.

Definition example_mapper : RESTMapping := fun _ => Some true.
Definition example_own : GroupVersionKind :=
  mkGVK "autoscaling.openshift.io" "v1" "VerticalPodAutoscalerController".
Definition example_sources : list source :=
  match SetupWithManager example_scheme example_mapper example_cfg with
  | SetupDone sources => sources
  | _ => []
  end.
Definition example_start : sys fake :=
  mkSys example_cfg (example_world []) empty_store (initial_updates example_cache (example_world [])) [] ∅ None.
(** The loop comes to rest, the recommender's deployment is deleted, and the loop
    comes to rest again. *)
Definition example_settled : sys fake := drive example_scheme example_sources 400 example_start.
Definition recommender_slot : NamespacedName :=
  mkNN "openshift-vertical-pod-autoscaler" "vpa-recommender-default".
Definition remove_from (k : kind) (key : NamespacedName) (s : sys fake) : sys fake :=
  mkSys (s_config s) (remove_object k key (s_world s)) (s_cache s)
    (s_backlog s ++ [mkUpdate k key None]) (s_pending s) (s_queue s) (s_running s).
Definition example_deleted : sys fake := remove_from KDeployment recommender_slot example_settled.
Definition example_healed : sys fake := drive example_scheme example_sources 400 example_deleted.

Definition resting (s : sys fake) : bool :=
  (length (s_backlog s) =? 0)%nat && ((length (s_pending s) =? 0)%nat && (size (s_queue s) =? 0)%nat)
  && negb (is_set (s_running s)).
Lemma resting_at_rest s : resting s = true -> at_rest s.
Proof.
  unfold resting. intros H. reflect_bools. split; [by apply nil_length_inv, Nat.eqb_eq|].
  split; [by apply nil_length_inv, Nat.eqb_eq|].
  split; [|by destruct (s_running s)]. by apply leibniz_equiv, size_empty_inv, Nat.eqb_eq.
Qed.
Definition has_recommender (s : sys fake) : bool :=
  is_set (view (s_world s) KDeployment !! recommender_slot).

#[local] Abbreviation example_permitted :=
  (orderly example_scheme example_mapper example_own (cfg_Namespace example_cfg) (cfg_Name example_cfg)).
#[local] Abbreviation example_steps := (steps example_scheme example_sources example_permitted).

Lemma example_orderly : example_permitted (example_world []).
Proof.
  split; [split; [done | exact example_well_keyed]|]. intros k key o Ho.
  split; [by apply example_well_keyed|]. split.
  - intros Hs. exfalso. revert Ho. unfold operand_slots in Hs. rewrite !elem_of_cons, elem_of_nil in Hs.
    destruct_or!; simplify_eq; vm_compute; intros [=].
  - destruct k; try done. revert Ho. simpl. unfold put. simpl. rewrite lookup_insert_Some.
    intros [[<- <-]|[_ Hv]]; [split_and!; reflexivity|]. rewrite lookup_empty in Hv. discriminate Hv.
Qed.
Lemma example_settled_steps permitted :
  rtc (steps example_scheme example_sources permitted) example_start example_settled.
Proof. apply drive_steps. split; [done | exact example_well_keyed]. Qed.
Lemma example_in_scope : in_scope example_cache example_mapper (cfg_Namespace example_cfg).
Proof. right. split; [reflexivity|]. intros version [=]. Qed.
Lemma reached_orderly s : rtc example_steps example_start s -> example_permitted (s_world s).
Proof.
  intros Hr. apply (inv_world _ _ _ _ _ _ _ _ _
    (loop_invariant_reached example_scheme example_mapper example_own _ _ example_cache example_in_scope example_cfg
      example_sources True (conj eq_refl eq_refl) eq_refl eq_refl eq_refl eq_refl (example_world [])
      example_start s example_orderly (initial_updates_start _ _ _) Hr)).
Qed.
Lemma removal_step k key (s : sys fake) :
  cache_serves example_cache k key -> example_permitted (s_world s) -> example_steps s (remove_from k key s).
Proof.
  intros Hserved Hw. destruct s as [cfg w c b p q r]. cbn [s_world] in Hw.
  apply (other_client _ _ _ _ cfg w (remove_object k key w) c b [mkUpdate k key None]);
    [by apply remove_orderly | by apply remove_covers].
Qed.
Lemma example_deleted_steps : rtc example_steps example_start example_deleted.
Proof.
  eapply rtc_r; [apply example_settled_steps|]. apply removal_step; [reflexivity|]. apply reached_orderly, example_settled_steps.
Qed.
Lemma example_healed_steps : rtc example_steps example_start example_healed.
Proof.
  etrans; [exact example_deleted_steps|]. apply drive_steps.
  exact (proj1 (reached_orderly _ example_deleted_steps)).
Qed.
Lemma example_rests : at_rest example_healed.
Proof. apply resting_at_rest. vm_compute. reflexivity. Qed.

Lemma loop_heals_witness :
  has_recommender example_settled = true /\ has_recommender example_deleted = false /\
  has_recommender example_healed = true /\
  operands_settled (cfg_Namespace example_cfg) (cfg_Name example_cfg)
    (s_config example_healed) (s_world example_healed).
Proof.
  split; [vm_compute; reflexivity|]. split; [vm_compute; reflexivity|].
  split; [vm_compute; reflexivity|].
  exact (proj2 (loop_heals example_cache example_scheme example_mapper example_own example_cfg example_sources
    (example_world []) example_start example_healed example_in_scope
    eq_refl eq_refl eq_refl eq_refl example_orderly
    (initial_updates_start _ _ _) example_healed_steps example_rests)).
Defined.

(** From the moment the deployment is gone the loop can only come to rest again. *)
Lemma loop_settles_witness :
  has_recommender example_deleted = false /\
  sn (prompt example_cache example_scheme example_sources) example_deleted.
Proof.
  split; [vm_compute; reflexivity|].
  exact (proj1 (loop_settles example_cache example_scheme example_mapper example_own example_cfg
    example_sources (example_world []) example_start example_deleted example_in_scope
    eq_refl eq_refl eq_refl eq_refl example_orderly (initial_updates_start _ _ _) example_deleted_steps)).
Defined.

(** A policy is deleted, and the loop rests without it. *)
Definition deny_slot : NamespacedName :=
  mkNN "openshift-vertical-pod-autoscaler" "vpa-default-deny".
Definition has_policy (w : fake) : bool := is_set (view w KNetworkPolicy !! deny_slot).
Lemma remove_gone k key (w : fake) : view (remove_object k key w) k !! key = None.
Proof. rewrite view_remove. by rewrite decide_True. Qed.
Lemma example_settled_rests : at_rest example_settled.
Proof. apply resting_at_rest. vm_compute. reflexivity. Qed.
Definition example_unpoliced : sys fake := remove_from KNetworkPolicy deny_slot example_settled.

(** Changes that wake the reconciler, and one that does not. *)
Definition example_owned_meta (name : string) : ObjectMeta :=
  SetOwnerReferences [controller_ref example_vpa example_own]
    (named_meta name "openshift-vertical-pod-autoscaler").
Definition example_configmap_gone (m : ObjectMeta) : notice :=
  mkNotice KConfigMap (Deleted (mkConfigMap (mkTypeMeta "" "") m no_others)).
(** An owner that is no controller, though it is the custom resource. *)
Definition example_bystander : ObjectMeta :=
  SetOwnerReferences [mkOwnerReference "autoscaling.openshift.io/v1" "VerticalPodAutoscalerController"
      (om_Name (vpa_meta example_vpa)) (om_UID (vpa_meta example_vpa)) None None]
    (named_meta "x" "openshift-vertical-pod-autoscaler").
Lemma changes_enqueue_witness :
  mkNN "openshift-vertical-pod-autoscaler" "default" ∈
    deliver example_sources (example_configmap_gone (example_owned_meta "x")) /\
  (forall req, req ∉ deliver example_sources (example_configmap_gone example_bystander)) /\
  deliver example_sources (mkNotice KAPIServer (Added example_apiserver)) =
    [mkNN "openshift-vertical-pod-autoscaler" "default"].
Proof.
  destruct (changes_enqueue example_scheme example_mapper example_cfg example_sources example_own
    eq_refl eq_refl) as (Ho & _ & Ha & _).
  assert (Hk : KConfigMap ∈ owned_kinds) by (do 2 apply list_elem_of_further; apply list_elem_of_here).
  split; [|split; [|apply Ha]].
  - apply (Ho (example_configmap_gone (example_owned_meta "x")) _ Hk).
    exists (example_owned_meta "x"). split; [reflexivity|].
    exists (controller_ref example_vpa example_own), "v1", true. split_and!; reflexivity.
  - intros req Hreq. apply (Ho (example_configmap_gone example_bystander) req Hk) in Hreq as (m & Hm & r & v & b & Hr & _).
    simpl in Hm. subst m. discriminate Hr.
Defined.
