(* ===== verification/Resync.v ===== *)
(** * Informers that miss changes

    A watch that is broken off is started again with a list of the objects; the
    informer then misses what happened in between, except for the outcome.  If an
    object was created and deleted it misses even that, and the loop of System.v may
    rest with the operands not settled, as an example shows.  What helps is that
    informers report everything in their caches again from time to time (every ten
    hours, [defaultSyncPeriod] of controller-runtime's cache): after such a resync
    the loop heals again, whatever was missed before it. *)

From S2P Require Import Prelude Go GoFmt Objects Api Util Args Resources Controller Server Operands.
From S2P Require Import Convergence Protocol Liveness Startup Safety Watches System Healing Schedule.
From stdpp Require Import relations.

Section Lossy.
Context {W : Type} `{ClusterLaws W}.
Context (mc : ManagerCache) (scheme : Scheme) (sources : list source).
Context (permitted : W -> Prop).

(** The informer of a slot reports its object as it is. *)
Definition sync_notice (k : kind) (o : obj k) : notice := mkNotice k (Modified o o).
(** A resync reports every object of the cache whose slot has no change queued
    (a change that is queued will be reported anyway). *)
Definition resynced (c : Store) (b : list update) (l : list notice) : Prop :=
  (forall k key o, table k c !! key = Some o -> (k, key) ∉ up_slots b -> sync_notice k o ∈ l) /\
  Forall (fun n => exists k key o, n = sync_notice k o /\ table k c !! key = Some o) l.

Inductive lossy_step : sys W -> sys W -> Prop :=
| as_before s s' : sys_step mc scheme sources permitted s s' -> lossy_step s s'
| relist cfg w c b1 u b2 pending q r :        (* a later change hides [u] *)
    up_slot u ∈ up_slots b2 ->
    lossy_step (mkSys cfg w c (b1 ++ u :: b2) pending q r) (mkSys cfg w c (b1 ++ b2) pending q r)
| resync cfg w c b pending l q r :
    resynced c b l ->
    lossy_step (mkSys cfg w c b pending q r) (mkSys cfg w c b (pending ++ l) q r).

(** A replay does not depend on a change that a later one hides. *)
Lemma replay_hidden b1 u b2 c k key :
  up_slot u ∈ up_slots b2 ->
  table k (replay (b1 ++ b2) c) !! key = table k (replay (b1 ++ u :: b2) c) !! key.
Proof.
  intros Hu. rewrite !replay_app. cbn [replay foldl]. fold (replay b2 (apply_update (replay b1 c) u)).
  set (c1 := replay b1 c). clearbody c1.
  destruct (decide ((k, key) = up_slot u)) as [Hs|Hs];
    [|by apply replay_agree; rewrite apply_update_ne].
  rewrite <- Hs in Hu. clear Hs. induction b2 as [|u' b2 IH] using rev_ind; [by apply elem_of_nil in Hu|].
  rewrite !replay_app. cbn [replay foldl]. destruct (decide ((k, key) = up_slot u')) as [Hs|Hs].
  - unfold up_slot in Hs. injection Hs as -> ->. by rewrite !apply_update_eq.
  - rewrite !apply_update_ne by done. apply IH. unfold up_slots in *. rewrite map_app, elem_of_app in Hu.
    destruct Hu as [?|Hu]; [done|]. cbn [map] in Hu. by rewrite list_elem_of_singleton in Hu.
Qed.
Lemma keeps_settings_lossy cfg s s' : rtc lossy_step s s' -> keeps_settings cfg s -> keeps_settings cfg s'.
Proof.
  intros Hr. induction Hr as [|s1 s2 s3 Hs _ IH]; [done|]. intros Hk. apply IH.
  destruct Hs as [s s' Hs| |]; [by eapply keeps_settings_step | done | done].
Qed.
End Lossy.

Section Resync.
Context {W : Type} `{ClusterLaws W}.
Context (scheme : Scheme) (mapper : RESTMapping) (gvk : GroupVersionKind) (ns name : string).
Context (mc : ManagerCache).
Hypothesis scope : in_scope mc mapper ns.
Context (cfg0 : Config) (sources : list source).
Hypothesis ours0 : our_config ns name cfg0.
Hypothesis kinds : GVKForObject (mkTypeMeta "" "") scheme = inr gvk.
Hypothesis setup : SetupWithManager scheme mapper cfg0 = SetupDone sources.
Hypothesis own_group : ParseGroupVersion (GroupVersion_String gvk) = Some (gvk_Group gvk, gvk_Version gvk).
Hypothesis namespaced : mapper (gvk_Version gvk) = Some true.
#[local] Abbreviation orderly := (orderly (W:=W) scheme mapper gvk ns name).
#[local] Abbreviation inv := (loop_invariant (W:=W) scheme mapper gvk ns name mc sources).
#[local] Abbreviation lossy := (lossy_step (W:=W) mc scheme sources orderly).
#[local] Abbreviation key := (singleton_key ns name).

(** What a resync reports is served. *)
Lemma resynced_served c b l :
  all_sound scheme mapper gvk ns name (tables c) -> scoped mc c -> resynced c b l ->
  Forall (served_notice mc sources) l.
Proof.
  intros Hc Hs [_ Hl]. eapply Forall_impl; [exact Hl|]. intros n (k & k0 & o & -> & Ho).
  apply (served_change scheme mapper gvk ns name mc scope cfg0 sources ours0 kinds setup k k0).
  - apply Hs. by exists o.
  - destruct (Hc k k0 o Ho) as [Hkey _]. simpl. by intros m [->| ->].
Qed.
(** What the invariant says apart from the course survives losses. *)
Lemma lossy_invariant s s' : lossy s s' -> inv False s -> inv False s'.
Proof.
  intros [s1 s2 Hs|cfg w c b1 u b2 p q r Hu|cfg w c b p l q r Hl] Hi.
  - by apply (loop_invariant_step scheme mapper gvk ns name mc scope cfg0 sources False ours0
      kinds setup own_group namespaced s1 s2).
  - destruct Hi. cbn in *. apply Forall_app in inv_backlog as [Hb1 Hb2]. apply Forall_cons in Hb2 as [_ Hb2].
    split; cbn; try done; [by apply Forall_app|].
    intros k k0 Hserved. rewrite <- inv_mirrored by done. by apply replay_hidden.
  - destruct Hi. split; try done. cbn. apply Forall_app. split; [done|]. by eapply resynced_served.
Qed.

Lemma lossy_reached w s s' : orderly w -> sys_start mc cfg0 w s -> rtc lossy s s' -> inv False s'.
Proof.
  intros Hw Hs Hr. pose proof (loop_invariant_start scheme mapper gvk ns name mc cfg0 sources False ours0 w s Hw Hs) as Hi.
  clear Hs. induction Hr as [|s1 s2 s3 Hstep _ IH]; [done|]. apply IH. by eapply lossy_invariant.
Qed.

(** Without a custom resource in the cache there is nothing to settle. *)
Lemma nothing_to_settle cfg c :
  table KVerticalPodAutoscalerController c !! key = None -> operands_settled ns name cfg (snapshot c).
Proof. intros Hn vpa Hv. pose proof (eq_trans (eq_sym Hn) Hv) as Hbad. discriminate Hbad. Qed.
(** A resync puts the loop on course. *)
Lemma resync_course cfg w c b p l q r :
  resynced c b l -> inv False (mkSys cfg w c b p q r) -> inv True (mkSys cfg w c b (p ++ l) q r).
Proof.
  intros Hall []. cbn in *. pose proof (resynced_served c b l inv_cache inv_scoped Hall) as Hserved.
  destruct Hall as [Hl _]. split; cbn; try done; [by apply Forall_app|]. intros _.
  destruct (table KVerticalPodAutoscalerController c !! key) as [vpa|] eqn:Hv.
  - destruct (decide ((KVerticalPodAutoscalerController, key) ∈ up_slots b)) as [Hin|Hout].
    + right; left. apply list_elem_of_fmap in Hin as (u & Hu & Hub). apply Exists_exists. exists u.
      split; [done|]. unfold late. rewrite <- Hu. split; [apply list_elem_of_here|].
      unfold up_slot in Hu. injection Hu as Hk Hkey. destruct u as [k k0 o]. cbn [up_kind up_key up_object] in *. subst.
      intros [Hn _]. pose proof (eq_trans (eq_sym Hn) Hv) as Hbad. discriminate Hbad.
    + left. right. exists (sync_notice KVerticalPodAutoscalerController vpa). cbn.
      split; [rewrite elem_of_app; right; by apply (Hl _ key)|].
      apply (tracked_change scheme mapper gvk ns name mc scope cfg0 sources ours0 kinds setup
        KVerticalPodAutoscalerController key (Some vpa) (Some vpa)); try done.
      * intros o [= <-]. by apply inv_cache.
      * intros o [= <-]. by apply inv_cache.
      * apply list_elem_of_here.
  - right; right. unfold on_course. cbn. destruct r as [[req pr]|]; [|by apply nothing_to_settle].
    eapply wp_mono; [|eapply wp_env; [|exact (proj2 inv_running)]].
    + intros tr out [_ Hout]. split; [done|].
      destruct (out.2.2); [right|]; by apply nothing_to_settle.
    + intros cl r0. apply cache_env_sound.
Qed.
End Resync.

(** C6 A resync heals what was missed.  The cache serves at least the operator's
    namespace.  The informers may miss any change that is
    followed by another of the same object, any number of times; from a resync on,
    as long as they miss nothing more, whenever the loop is at rest the operands are
    as the custom resource, the operator's settings and the cluster's TLS profile
    ask. *)
Theorem resync_heals {W} `{ClusterLaws W} mc scheme mapper gvk cfg sources (w : W) s cfg1 w1 c b p l q r s' :
  in_scope mc mapper (cfg_Namespace cfg) ->
  GVKForObject (mkTypeMeta "" "") scheme = inr gvk ->
  SetupWithManager scheme mapper cfg = SetupDone sources ->
  ParseGroupVersion (GroupVersion_String gvk) = Some (gvk_Group gvk, gvk_Version gvk) ->
  mapper (gvk_Version gvk) = Some true ->
  let permitted := orderly scheme mapper gvk (cfg_Namespace cfg) (cfg_Name cfg) in
  permitted w -> sys_start mc cfg w s ->
  rtc (lossy_step mc scheme sources permitted) s (mkSys cfg1 w1 c b p q r) ->
  resynced c b l ->
  rtc (sys_step mc scheme sources permitted) (mkSys cfg1 w1 c b (p ++ l) q r) s' ->
  at_rest s' -> same_settings cfg (s_config s') /\
    operands_settled (cfg_Namespace cfg) (cfg_Name cfg) (s_config s') (s_world s').
Proof.
  intros Hscope Hk Hs Hg Hm permitted Hw Hstart Hlossy Hl Hr Hrest. split.
  { apply (keeps_settings_reached _ _ _ _ cfg _ _ Hr).
    by apply (keeps_settings_lossy _ _ _ _ cfg _ _ Hlossy), (keeps_settings_start mc cfg w). }
  set (ns := cfg_Namespace cfg). set (name := cfg_Name cfg).
  assert (Hours : our_config ns name cfg) by done.
  pose proof (lossy_reached scheme mapper gvk ns name mc Hscope cfg sources Hours Hk Hs Hg Hm w s _
    Hw Hstart Hlossy) as Hi.
  apply (resync_course scheme mapper gvk ns name mc Hscope cfg sources Hours Hk Hs) with (l := l) in Hi; [|done].
  eapply (invariant_rests scheme mapper gvk ns name mc Hscope cfg sources True Hours Hk Hs Hg Hm); [done | |done].
  clear Hlossy Hl. induction Hr as [|s1 s2 s3 Hstep _ IH]; [done|]. apply IH; [done|].
  by eapply (loop_invariant_step scheme mapper gvk ns name mc Hscope cfg sources True Hours Hk Hs Hg Hm).
Qed.

(** *** An example *)

(** From rest, the config map is deleted; while the run that creates it again has
    not noticed that it is there, it is deleted once more, and the watch is broken
    off.  The loop rests without a config map, until the next resync. *)
Definition ca_slot : NamespacedName := mkNN "openshift-vertical-pod-autoscaler" CACertConfigMapName.
Definition has_configmap (s : sys fake) : bool := is_set (view (s_world s) KConfigMap !! ca_slot).
Definition example_recreated (n : nat) : sys fake :=
  drive example_scheme example_sources n (remove_from KConfigMap ca_slot example_settled).
Definition forget_first (s : sys fake) : sys fake :=
  mkSys (s_config s) (s_world s) (s_cache s) (tail (s_backlog s)) (s_pending s) (s_queue s) (s_running s).
Definition example_lost : sys fake :=
  drive example_scheme example_sources 400
    (forget_first (remove_from KConfigMap ca_slot (example_recreated 15))).
Definition cached_notices (c : Store) : list notice :=
  flat_map (fun k => map (fun kv => sync_notice k kv.2) (map_to_list (table k c))) all_kinds.
Definition after_resync (s : sys fake) : sys fake :=
  mkSys (s_config s) (s_world s) (s_cache s) (s_backlog s) (s_pending s ++ cached_notices (s_cache s))
    (s_queue s) (s_running s).
Definition example_found : sys fake := drive example_scheme example_sources 400 (after_resync example_lost).

Lemma cached_notices_resynced c : resynced c [] (cached_notices c).
Proof.
  split.
  - intros k key o Ho _. unfold cached_notices. apply list_elem_of_In, in_flat_map. exists k.
    split; [destruct k; simpl; tauto|]. apply in_map_iff. exists (key, o). split; [done|].
    by apply list_elem_of_In, elem_of_map_to_list.
  - apply Forall_forall. intros n Hn. apply list_elem_of_In, in_flat_map in Hn as (k & _ & Hn).
    apply in_map_iff in Hn as ([key o] & <- & Ho). apply list_elem_of_In, elem_of_map_to_list in Ho.
    by exists k, key, o.
Qed.

#[local] Abbreviation permitted :=
  (orderly example_scheme example_mapper example_own (cfg_Namespace example_cfg) (cfg_Name example_cfg)).
#[local] Abbreviation lossy := (lossy_step example_cache example_scheme example_sources permitted).

Lemma lossy_steps (s s' : sys fake) :
  rtc (sys_step example_cache example_scheme example_sources permitted) s s' -> rtc lossy s s'.
Proof. intros Hr. eapply rtc_subrel; [|exact Hr]. intros ? ?. apply as_before. Qed.
Lemma lossy_orderly s : rtc lossy example_start s -> permitted (s_world s).
Proof.
  intros Hr. apply (inv_world _ _ _ _ _ _ _ _ _ (lossy_reached example_scheme example_mapper example_own _ _
    example_cache example_in_scope example_cfg example_sources (conj eq_refl eq_refl)
    eq_refl eq_refl eq_refl eq_refl (example_world []) example_start s example_orderly
    (initial_updates_start _ _ _) Hr)).
Qed.
Lemma lossy_drive n s : rtc lossy example_start s ->
  rtc lossy example_start (drive example_scheme example_sources n s).
Proof. intros Hr. etrans; [exact Hr|]. apply lossy_steps, drive_steps. exact (proj1 (lossy_orderly s Hr)). Qed.
Lemma lossy_removal k key s :
  cache_serves example_cache k key -> rtc lossy example_start s -> rtc lossy example_start (remove_from k key s).
Proof. intros Hserved Hr. eapply rtc_r; [exact Hr|]. by apply as_before, removal_step, lossy_orderly. Qed.
Lemma lossy_forget k key u (s : sys fake) :
  s_backlog s = [u] -> up_slot u = (k, key) -> rtc lossy example_start (remove_from k key s) ->
  rtc lossy example_start (forget_first (remove_from k key s)).
Proof.
  intros Hb Hu Hr. eapply rtc_r; [exact Hr|]. destruct s as [cfg w c b p q r]. cbn in Hb. subst b.
  apply (relist _ _ _ _ cfg (remove_object k key w) c [] u [mkUpdate k key None]).
  rewrite Hu. apply list_elem_of_here.
Qed.

(** The run after the recreation, with the deletion queued behind it. *)
Lemma example_recreated_backlog :
  exists u, s_backlog (example_recreated 15) = [u] /\ up_slot u = (KConfigMap, ca_slot).
Proof.
  assert (Hb : match s_backlog (example_recreated 15) with
               | [u] => bool_decide (up_slot u = (KConfigMap, ca_slot))
               | _ => false
               end = true) by (vm_compute; reflexivity).
  destruct (s_backlog (example_recreated 15)) as [|u []]; try done. exists u. by reflect_bools.
Qed.
Lemma example_lost_steps : rtc lossy example_start example_lost.
Proof.
  apply lossy_drive. destruct example_recreated_backlog as (u & Hb & Hu). apply (lossy_forget _ _ u); [done..|].
  apply lossy_removal; [reflexivity|].
  apply lossy_drive, lossy_removal; [reflexivity|]. apply lossy_steps, example_settled_steps.
Qed.
Lemma example_lost_rests : at_rest example_lost.
Proof. apply resting_at_rest. vm_compute. reflexivity. Qed.
Lemma example_found_rests : at_rest example_found.
Proof. apply resting_at_rest. vm_compute. reflexivity. Qed.

Lemma resync_heals_witness :
  (at_rest example_lost /\ has_configmap example_lost = false) /\ has_configmap example_found = true /\
  operands_settled (cfg_Namespace example_cfg) (cfg_Name example_cfg)
    (s_config example_found) (s_world example_found).
Proof.
  split; [split; [exact example_lost_rests | vm_compute; reflexivity]|]. split; [vm_compute; reflexivity|].
  pose proof example_lost_steps as Hr. pose proof example_lost_rests as (Hb & _).
  refine (proj2 (resync_heals example_cache example_scheme example_mapper example_own example_cfg example_sources
    (example_world []) example_start (s_config example_lost) (s_world example_lost) (s_cache example_lost)
    (s_backlog example_lost) (s_pending example_lost) (cached_notices (s_cache example_lost))
    (s_queue example_lost) (s_running example_lost) example_found example_in_scope
    eq_refl eq_refl eq_refl eq_refl example_orderly (initial_updates_start _ _ _) _ _ _ example_found_rests)).
  - destruct example_lost. exact Hr.
  - rewrite Hb. apply cached_notices_resynced.
  - apply drive_steps. exact (proj1 (lossy_orderly _ Hr)).
Defined.
