(* ===== verification/ResourceMerge.v ===== *)
(** * Merging a ClusterOperator

    internal/lib/resourcemerge/resourcemerge.go, and the condition helpers of the
    cluster version operator's lib/resourcemerge that internal/util uses.  The
    functions set [*modified] and write through pointers into [existing]: here
    they take both and return both.  A pointer into a slice of conditions is its
    index. *)

From S2P Require Import Prelude Go GoFmt Objects Api.

(** ** Conditions *)

Definition OperatorAvailable : string := "Available".
Definition OperatorProgressing : string := "Progressing".
Definition OperatorDegraded : string := "Degraded".
Definition ConditionTrue : string := "True".
Definition ConditionFalse : string := "False".

(** The first condition of the type: a pointer, as an index into the slice. *)
Fixpoint FindOperatorStatusCondition (conditions : list Condition) (conditionType : string) :
    option nat :=
  match conditions with
  | [] => None
  | c :: rest =>
      if bool_decide (cond_Type c = conditionType) then Some O
      else S <$> FindOperatorStatusCondition rest conditionType
  end.
(** Reading through the pointer. *)
Definition find_condition (conditions : list Condition) (conditionType : string) : option Condition :=
  FindOperatorStatusCondition conditions conditionType ≫= fun i => conditions !! i.

Definition set_Status (s : string) (c : Condition) : Condition :=
  mkCondition (cond_Type c) s (cond_LastTransitionTime c) (cond_Reason c) (cond_Message c).
Definition set_LastTransitionTime (t : Time) (c : Condition) : Condition :=
  mkCondition (cond_Type c) (cond_Status c) t (cond_Reason c) (cond_Message c).
Definition set_Reason (r : string) (c : Condition) : Condition :=
  mkCondition (cond_Type c) (cond_Status c) (cond_LastTransitionTime c) r (cond_Message c).
Definition set_Message (m : string) (c : Condition) : Condition :=
  mkCondition (cond_Type c) (cond_Status c) (cond_LastTransitionTime c) (cond_Reason c) m.

(** [cvorm.SetOperatorStatusCondition]; its callers pass a pointer that is not nil. *)
Definition SetOperatorStatusCondition (conditions : list Condition) (newCondition : Condition) :
    prog (list Condition) :=
  match FindOperatorStatusCondition conditions (cond_Type newCondition) with
  | None =>
      now <- ask Now ;;
      Ret (conditions ++ [set_LastTransitionTime now newCondition])
  | Some i =>
      let finish (conditions : list Condition) :=
        alter (fun c => set_Message (cond_Message newCondition)
                          (set_Reason (cond_Reason newCondition) c)) i conditions in
      if bool_decide (cond_Status <$> conditions !! i <> Some (cond_Status newCondition)) then
        now <- ask Now ;;
        Ret (finish (alter (fun c => set_LastTransitionTime now
                                       (set_Status (cond_Status newCondition) c)) i conditions))
      else Ret (finish conditions)
  end.

(** [util.ResetProgressingTime]: [prog] may point into the slice. *)
Definition ResetProgressingTime (conds : list Condition) : prog (list Condition) :=
  let p := FindOperatorStatusCondition conds OperatorProgressing in
  now <- ask Now ;;
  match p with
  | None =>
      SetOperatorStatusCondition conds (mkCondition OperatorProgressing ConditionFalse now "" "")
  | Some i =>
      let conds := alter (set_LastTransitionTime now) i conds in
      match conds !! i with
      | Some prog => SetOperatorStatusCondition conds prog
      | None => Ret conds                (* not reached: [i] is an index of [conds] *)
      end
  end.

(** ** Metadata *)

Definition setStringIfSet (modified : bool) (existing required : string) : bool * string :=
  if bool_decide (required = "") then (modified, existing)
  else if negb (bool_decide (required = existing)) then (true, required)
  else (modified, existing).

(** The loop body of [mergeMap]. *)
Definition merge_entry (st : bool * gmap string string) (kv : string * string) :
    bool * gmap string string :=
  let '(modified, existing) := st in
  if negb (bool_decide (existing !! kv.1 = Some kv.2)) then (true, <[kv.1 := kv.2]> existing)
  else (modified, existing).
Definition mergeMap (modified : bool) (existing required : gomap string) : bool * gomap string :=
  match existing, required with
  | nilmap, nilmap => (modified, existing)
  | _, _ =>
      let '(modified, m) := foldl merge_entry (modified, gm_map existing)
                              (map_to_list (gm_map required)) in
      (modified, mkmap m)
  end.

(** The inner loop of [mergeOwnerRefs]: the first reference with the UID. *)
Fixpoint merge_owner (modified : bool) (existing : list OwnerReference) (required : OwnerReference) :
    bool * bool * list OwnerReference :=
  match existing with
  | [] => (false, modified, [])
  | e :: rest =>
      if bool_decide (or_UID required = or_UID e) then
        if negb (sem_eqb e required) then (true, true, required :: rest) else (true, modified, e :: rest)
      else
        let '(found, modified, rest) := merge_owner modified rest required in
        (found, modified, e :: rest)
  end.
Fixpoint mergeOwnerRefs (modified : bool) (existing required : list OwnerReference) :
    bool * list OwnerReference :=
  match required with
  | [] => (modified, existing)
  | r :: rest =>
      let '(found, modified, existing) := merge_owner modified existing r in
      if negb found then mergeOwnerRefs true (existing ++ [r]) rest
      else mergeOwnerRefs modified existing rest
  end.

Definition EnsureObjectMeta (modified : bool) (existing required : ObjectMeta) : bool * ObjectMeta :=
  let '(modified, namespace) := setStringIfSet modified (om_Namespace existing) (om_Namespace required) in
  let '(modified, name) := setStringIfSet modified (om_Name existing) (om_Name required) in
  let '(modified, labels) := mergeMap modified (om_Labels existing) (om_Labels required) in
  let '(modified, annotations) :=
    mergeMap modified (om_Annotations existing) (om_Annotations required) in
  let '(modified, owners) :=
    mergeOwnerRefs modified (om_OwnerReferences existing) (om_OwnerReferences required) in
  (modified,
   mkObjectMeta name namespace (om_UID existing) (om_ResourceVersion existing) (om_Generation existing)
     labels annotations owners (om_others existing)).

(** ** Status *)

(** [if !equality.Semantic.DeepEqual(existing, required) { ... }]. *)
Definition ensure {A} `{Semantic A} (modified : bool) (existing required : A) : bool * A :=
  if negb (sem_eqb existing required) then (true, required) else (modified, existing).

Definition ensureClusterOperatorStatus (modified : bool) (existing required : ClusterOperatorStatus) :
    bool * ClusterOperatorStatus :=
  let '(modified, conditions) := ensure modified (cos_Conditions existing) (cos_Conditions required) in
  let '(modified, versions) := ensure modified (cos_Versions existing) (cos_Versions required) in
  let '(modified, raw) :=
    ensure modified (re_Raw (cos_Extension existing)) (re_Raw (cos_Extension required)) in
  let '(modified, object) :=
    ensure modified (re_Object (cos_Extension existing)) (re_Object (cos_Extension required)) in
  let '(modified, related) :=
    ensure modified (cos_RelatedObjects existing) (cos_RelatedObjects required) in
  (modified, mkCOStatus conditions versions related (mkRawExtension raw object)).

Definition EnsureClusterOperatorStatus (modified : bool) (existing required : ClusterOperator) :
    bool * ClusterOperator :=
  let '(modified, meta) := EnsureObjectMeta modified (cop_meta existing) (cop_meta required) in
  let '(modified, status) :=
    ensureClusterOperatorStatus modified (cop_Status existing) (cop_Status required) in
  (modified, mkClusterOperator meta status).

(** ** Laws *)

Lemma FindOperatorStatusCondition_lookup conds ty i :
  FindOperatorStatusCondition conds ty = Some i ->
  exists c, conds !! i = Some c /\ cond_Type c = ty.
Proof.
  revert i; induction conds as [|c conds IH]; simpl; intros i; [done|].
  case_bool_decide; [intros [= <-]; by exists c|].
  intros (j & Hj & ->)%fmap_Some. destruct (IH j Hj) as (c' & ? & ?). by exists c'.
Qed.
(** The first condition of a type. *)
Lemma find_condition_cons c conds ty :
  find_condition (c :: conds) ty =
  if bool_decide (cond_Type c = ty) then Some c else find_condition conds ty.
Proof.
  unfold find_condition. cbn [FindOperatorStatusCondition]. case_bool_decide; [done|].
  by destruct (FindOperatorStatusCondition conds ty).
Qed.

Lemma ensure_spec {A} `{SemanticLaws A} m (e r : A) :
  (ensure m e r).2 ≃ r /\ (ensure m e r).1 = m || negb (sem_eqb e r).
Proof.
  unfold ensure. destruct (sem_eqb e r) eqn:He; simpl.
  - split; [exact He | by rewrite orb_false_r].
  - split; [reflexivity | by rewrite orb_true_r].
Qed.
Lemma ensure_same {A} `{SemanticLaws A} m (e r : A) : e ≃ r -> ensure m e r = (m, e).
Proof. unfold ensure. intros He. by rewrite He. Qed.

(** *** Maps *)

Lemma merge_entries l :
  NoDup l.*1 -> forall m existing,
  foldl merge_entry (m, existing) l =
  (m || existsb (fun kv => negb (bool_decide (existing !! kv.1 = Some kv.2))) l,
   list_to_map l ∪ existing).
Proof.
  induction l as [|[k v] l IH]; intros Hd m existing; simpl.
  - by rewrite orb_false_r, map_empty_union.
  - apply NoDup_cons in Hd as [Hk Hd].
    assert (Hl : list_to_map (M:=gmap string string) l !! k = None) by (by apply not_elem_of_list_to_map).
    case_bool_decide as Hkv; simpl; rewrite (IH Hd).
    + f_equal. rewrite <- insert_union_l, insert_union_r by done. by rewrite insert_id.
    + rewrite orb_true_r. f_equal. by rewrite <- insert_union_l, insert_union_r by done.
Qed.

(** The required entries, over the existing ones; modified when one was not there. *)
Lemma mergeMap_spec m e r :
  gm_map (mergeMap m e r).2 = gm_map r ∪ gm_map e /\
  ((mergeMap m e r).1 = m || negb (bool_decide (gm_map r ⊆ gm_map e))).
Proof.
  assert (Hf : foldl merge_entry (m, gm_map e) (map_to_list (gm_map r)) =
    (m || negb (bool_decide (gm_map r ⊆ gm_map e)), gm_map r ∪ gm_map e)).
  { rewrite merge_entries by apply NoDup_fst_map_to_list.
    rewrite list_to_map_to_list. f_equal. f_equal.
    destruct (existsb _ _) eqn:Hx; symmetry.
    - apply existsb_exists in Hx as ([k v] & Hkv%list_elem_of_In%elem_of_map_to_list & Hne).
      apply negb_true_iff, bool_decide_eq_false. apply negb_true_iff, bool_decide_eq_false in Hne.
      intros Hs. apply Hne. by apply (lookup_weaken _ _ _ _ Hkv Hs).
    - apply negb_false_iff, bool_decide_eq_true, map_subseteq_spec. intros k v Hkv.
      destruct (decide (gm_map e !! k = Some v)) as [|Hn]; [done|]. exfalso. apply diff_true_false.
      rewrite <- Hx. symmetry. apply existsb_exists. exists (k, v).
      rewrite <- list_elem_of_In, elem_of_map_to_list. split; [done|].
      by apply negb_true_iff, bool_decide_eq_false. }
  unfold mergeMap. destruct e as [|e], r as [|r]; simpl in *; rewrite ?Hf; try done.
  rewrite bool_decide_true, orb_false_r by done. split; [by rewrite map_empty_union | done].
Qed.
Lemma mergeMap_same m e r : gm_map r ⊆ gm_map e -> (e = nilmap -> r = nilmap) -> mergeMap m e r = (m, e).
Proof.
  intros Hs Hn. pose proof (mergeMap_spec m e r) as [H1 H2]. rewrite bool_decide_true in H2 by done.
  rewrite orb_false_r in H2. rewrite map_subseteq_union in H1 by done.
  destruct (mergeMap m e r) as [b x] eqn:Hm. simpl in *. subst b. f_equal.
  destruct e as [|e].
  - rewrite Hn in Hm by done. simpl in Hm. congruence.
  - unfold mergeMap in Hm. destruct (foldl _ _ _) in Hm. destruct x; simplify_eq/=; done.
Qed.

(** *** Owner references *)

(** The reference that a UID finds. *)
Definition owner_with (uid : string) (l : list OwnerReference) : option OwnerReference :=
  snd <$> list_find (fun o => or_UID o = uid) l.
Lemma owner_with_cons uid o l :
  owner_with uid (o :: l) = if bool_decide (or_UID o = uid) then Some o else owner_with uid l.
Proof.
  unfold owner_with. simpl. case_bool_decide as Ho.
  - by rewrite decide_True.
  - rewrite decide_False by done. by destruct (list_find _ l) as [[]|].
Qed.

Lemma merge_owner_spec m e r :
  let '(found, m', e') := merge_owner m e r in
  (found = false -> m' = m /\ e' = e /\ owner_with (or_UID r) e = None) /\
  (found = true -> owner_with (or_UID r) e' = Some r /\
    (m' = m \/ m' = true) /\ (owner_with (or_UID r) e = Some r -> m' = m /\ e' = e)) /\
  (forall uid, uid <> or_UID r -> owner_with uid e' = owner_with uid e).
Proof.
  induction e as [|o e IH]; simpl; [done|].
  case_bool_decide as Hu; [destruct (sem_eqb o r) eqn:Ho; simpl|].
  - apply (sem_exact o r) in Ho as ->. rewrite owner_with_cons, bool_decide_true by done.
    split; [done|]. split; [tauto | done].
  - split; [done|]. split.
    + intros _. rewrite owner_with_cons, bool_decide_true by done.
      split; [done|]. split; [tauto|].
      rewrite owner_with_cons, bool_decide_true by done. intros [= ->].
      pose proof (sem_refl r : sem_eqb r r = true). congruence.
    + intros uid Hne. rewrite !owner_with_cons. rewrite !bool_decide_false by congruence. done.
  - destruct (merge_owner m e r) as [[found m'] e']. destruct IH as (H1 & H2 & H3).
    assert (Hc : forall uid l, owner_with uid (o :: l) =
      if bool_decide (or_UID o = uid) then Some o else owner_with uid l)
      by (intros; apply owner_with_cons).
    split; [|split].
    + intros Hf. destruct (H1 Hf) as (-> & -> & Hn). rewrite Hc, bool_decide_false by congruence. done.
    + intros Hf. destruct (H2 Hf) as (Ho & Hm & Hs).
      rewrite !Hc, !bool_decide_false by congruence. split; [done|]. split; [done|].
      intros Hs'. by destruct (Hs Hs') as [-> ->].
    + intros uid Hne. rewrite !Hc, H3 by done. done.
Qed.

Lemma merge_owner_flag m e r :
  merge_owner m e r =
  let '(found, b, e') := merge_owner false e r in (found, m || b, e').
Proof.
  induction e as [|o e IH]; simpl; [by rewrite orb_false_r|].
  case_bool_decide; [destruct (sem_eqb o r); simpl; by rewrite ?orb_false_r, ?orb_true_r|].
  rewrite IH. by destruct (merge_owner false e r) as [[]].
Qed.
Lemma mergeOwnerRefs_flag m e r :
  mergeOwnerRefs m e r = (m || (mergeOwnerRefs false e r).1, (mergeOwnerRefs false e r).2).
Proof.
  revert m e; induction r as [|r rest IH]; intros m e; simpl; [by rewrite orb_false_r|].
  rewrite (merge_owner_flag m), (merge_owner_flag false).
  destruct (merge_owner false e r) as [[[] b] e']; simpl.
  - rewrite (IH (m || b)), (IH b). simpl. by rewrite orb_assoc.
  - rewrite (IH true). simpl. by rewrite orb_true_r.
Qed.

Lemma owner_with_app uid l o :
  owner_with uid (l ++ [o]) =
  match owner_with uid l with Some x => Some x | None => if bool_decide (or_UID o = uid) then Some o else None end.
Proof.
  induction l as [|x l IH]; simpl.
  - by rewrite owner_with_cons.
  - rewrite !owner_with_cons, IH. by destruct (bool_decide (or_UID x = uid)).
Qed.

(** The required references, each found by its UID; the others as they were. *)
Lemma mergeOwnerRefs_spec m e r :
  NoDup (or_UID <$> r) ->
  Forall (fun o => owner_with (or_UID o) (mergeOwnerRefs m e r).2 = Some o) r /\
  (forall uid, uid ∉ or_UID <$> r -> owner_with uid (mergeOwnerRefs m e r).2 = owner_with uid e).
Proof.
  revert m e; induction r as [|r rest IH]; intros m e; simpl; [done|].
  intros [Hr Hd]%NoDup_cons. pose proof (merge_owner_spec m e r) as Hm.
  destruct (merge_owner m e r) as [[found m'] e']. destruct Hm as (H1 & H2 & H3).
  assert (Hw : forall m'' e'', owner_with (or_UID r) e'' = Some r ->
    (forall uid, uid <> or_UID r -> owner_with uid e'' = owner_with uid e) ->
    Forall (fun o => owner_with (or_UID o) (mergeOwnerRefs m'' e'' rest).2 = Some o) (r :: rest) /\
    (forall uid, uid ∉ or_UID r :: (or_UID <$> rest) ->
      owner_with uid (mergeOwnerRefs m'' e'' rest).2 = owner_with uid e)).
  { intros m'' e'' Ho Hoth. destruct (IH m'' e'' Hd) as [Ha Hb]. split.
    - constructor; [by rewrite Hb | done].
    - intros uid [Hn1 Hn2]%not_elem_of_cons. by rewrite Hb, Hoth. }
  destruct found; simpl.
  - destruct (H2 eq_refl) as (Ho & _ & _). by apply Hw.
  - destruct (H1 eq_refl) as (_ & -> & Hn). apply Hw.
    + by rewrite owner_with_app, Hn, bool_decide_true.
    + intros uid Hne. rewrite owner_with_app, bool_decide_false by congruence.
      by destruct (owner_with uid e).
Qed.
Lemma mergeOwnerRefs_same m e r :
  Forall (fun o => owner_with (or_UID o) e = Some o) r -> mergeOwnerRefs m e r = (m, e).
Proof.
  intros Hr. induction Hr as [|r rest Ho _ IH]; simpl; [done|].
  pose proof (merge_owner_spec m e r) as Hm.
  destruct (merge_owner m e r) as [[[] m'] e']; destruct Hm as (H1 & H2 & _); simpl.
  - destruct (H2 eq_refl) as (_ & _ & Hs). destruct (Hs Ho) as [-> ->]. exact IH.
  - destruct (H1 eq_refl) as (_ & _ & Hn). congruence.
Qed.

(** *** Merging an object *)

(** A merge sets the flag by a test that does not depend on it, and without the
    flag returns what was there, up to [R]. *)
Definition merges {A} (R : A -> A -> Prop) (f : bool -> bool * A) (existing : A) : Prop :=
  exists b v, (forall m, f m = (m || b, v)) /\ (b = false -> R v existing).

Lemma setStringIfSet_merges e r : merges eq (fun m => setStringIfSet m e r) e.
Proof.
  unfold setStringIfSet.
  destruct (bool_decide (r = "")); [exists false, e; split; [intros m; by rewrite orb_false_r | done]|].
  destruct (bool_decide (r = e)); simpl.
  - exists false, e. split; [intros m; by rewrite orb_false_r | done].
  - exists true, r. split; [intros m; by rewrite orb_true_r | done].
Qed.
Lemma mergeMap_merges e r : merges sem_eq (fun m => mergeMap m e r) e.
Proof.
  exists (negb (bool_decide (gm_map r ⊆ gm_map e))), (mergeMap false e r).2. split.
  - intros m. rewrite <- (proj2 (mergeMap_spec m e r)).
    rewrite (surjective_pairing (mergeMap m e r)) at 1. f_equal.
    unfold mergeMap. destruct e, r; simpl; try done;
      rewrite !merge_entries by apply NoDup_fst_map_to_list; done.
  - intros Hs%negb_false_iff%bool_decide_eq_true. apply sem_map_pointwise.
    rewrite (proj1 (mergeMap_spec _ _ _)), map_subseteq_union by done. intros k. reflexivity.
Qed.
Lemma merge_owner_unmodified e r found e' : merge_owner false e r = (found, false, e') -> e' = e.
Proof.
  revert e'; induction e as [|o e IH]; simpl; intros e'; [by intros [= _ <-]|].
  case_bool_decide; [destruct (sem_eqb o r); simpl; [by intros [= _ <-] | done]|].
  destruct (merge_owner false e r) as [[f b] e1]. intros [= -> -> <-]. by rewrite (IH e1 eq_refl).
Qed.
Lemma mergeOwnerRefs_merges e r : merges eq (fun m => mergeOwnerRefs m e r) e.
Proof.
  exists (mergeOwnerRefs false e r).1, (mergeOwnerRefs false e r).2.
  split; [intros m; apply mergeOwnerRefs_flag|].
  revert e; induction r as [|r rest IH]; intros e; simpl; [done|].
  destruct (merge_owner false e r) as [[[] b] e'] eqn:Hm; simpl; rewrite mergeOwnerRefs_flag; simpl; [|done].
  intros [-> Hf]%orb_false_iff. rewrite (IH e' Hf). by eapply merge_owner_unmodified.
Qed.
Lemma ensure_merges {A} `{SemanticLaws A} (e r : A) : merges eq (fun m => ensure m e r) e.
Proof.
  unfold ensure. destruct (sem_eqb e r); simpl.
  - exists false, e. split; [intros m; by rewrite orb_false_r | done].
  - exists true, r. split; [intros m; by rewrite orb_true_r | done].
Qed.

(** The parts of a status that are compared and written, up to the comparison. *)
Definition status_eq (s s' : ClusterOperatorStatus) : Prop :=
  cos_Conditions s ≃ cos_Conditions s' /\ cos_Versions s ≃ cos_Versions s' /\
  re_Raw (cos_Extension s) ≃ re_Raw (cos_Extension s') /\
  re_Object (cos_Extension s) ≃ re_Object (cos_Extension s') /\
  cos_RelatedObjects s ≃ cos_RelatedObjects s'.

Lemma sem_ObjectMeta_fields (m m' : ObjectMeta) :
  m ≃ m' <->
  ((((((((om_Name m ≃ om_Name m' /\ om_Namespace m ≃ om_Namespace m') /\ om_UID m ≃ om_UID m') /\
  om_ResourceVersion m ≃ om_ResourceVersion m') /\ om_Generation m ≃ om_Generation m') /\
  om_Labels m ≃ om_Labels m') /\ om_Annotations m ≃ om_Annotations m') /\
  om_OwnerReferences m ≃ om_OwnerReferences m') /\ om_others m ≃ om_others m').
Proof.
  change ((om_Name m, om_Namespace m, om_UID m, om_ResourceVersion m,
    om_Generation m, om_Labels m, om_Annotations m, om_OwnerReferences m, om_others m) ≃
    (om_Name m', om_Namespace m', om_UID m', om_ResourceVersion m',
    om_Generation m', om_Labels m', om_Annotations m', om_OwnerReferences m', om_others m') <->
  ((((((((om_Name m ≃ om_Name m' /\ om_Namespace m ≃ om_Namespace m') /\ om_UID m ≃ om_UID m') /\
  om_ResourceVersion m ≃ om_ResourceVersion m') /\ om_Generation m ≃ om_Generation m') /\
  om_Labels m ≃ om_Labels m') /\ om_Annotations m ≃ om_Annotations m') /\
  om_OwnerReferences m ≃ om_OwnerReferences m') /\ om_others m ≃ om_others m')).
  by rewrite !sem_struct_fields.
Qed.
Lemma EnsureObjectMeta_merges e r : merges sem_eq (fun m => EnsureObjectMeta m e r) e.
Proof.
  unfold EnsureObjectMeta.
  destruct (setStringIfSet_merges (om_Namespace e) (om_Namespace r)) as (b1 & v1 & H1 & E1).
  destruct (setStringIfSet_merges (om_Name e) (om_Name r)) as (b2 & v2 & H2 & E2).
  destruct (mergeMap_merges (om_Labels e) (om_Labels r)) as (b3 & v3 & H3 & E3).
  destruct (mergeMap_merges (om_Annotations e) (om_Annotations r)) as (b4 & v4 & H4 & E4).
  destruct (mergeOwnerRefs_merges (om_OwnerReferences e) (om_OwnerReferences r)) as (b5 & v5 & H5 & E5).
  eexists (b1 || b2 || b3 || b4 || b5), _. split.
  - intros m. rewrite H1, H2, H3, H4, H5, !orb_assoc. reflexivity.
  - intros Hb. repeat match goal with
      | H : _ || _ = false |- _ => apply orb_false_iff in H as [? ?]
      end; subst.
    rewrite (E1 eq_refl), (E2 eq_refl), (E5 eq_refl). apply sem_ObjectMeta_fields; simpl.
    split_and!; first [exact (E3 eq_refl) | exact (E4 eq_refl) | apply sem_refl].
Qed.

Lemma ensureClusterOperatorStatus_merges e r :
  merges eq (fun m => ensureClusterOperatorStatus m e r) e.
Proof.
  unfold ensureClusterOperatorStatus.
  destruct (ensure_merges (cos_Conditions e) (cos_Conditions r)) as (b1 & v1 & H1 & E1).
  destruct (ensure_merges (cos_Versions e) (cos_Versions r)) as (b2 & v2 & H2 & E2).
  destruct (ensure_merges (re_Raw (cos_Extension e)) (re_Raw (cos_Extension r))) as (b3 & v3 & H3 & E3).
  destruct (ensure_merges (re_Object (cos_Extension e)) (re_Object (cos_Extension r)))
    as (b4 & v4 & H4 & E4).
  destruct (ensure_merges (cos_RelatedObjects e) (cos_RelatedObjects r)) as (b5 & v5 & H5 & E5).
  eexists (b1 || b2 || b3 || b4 || b5), _. split.
  - intros m. rewrite H1, H2, H3, H4, H5, !orb_assoc. reflexivity.
  - intros Hb. repeat match goal with
      | H : _ || _ = false |- _ => apply orb_false_iff in H as [? ?]
      end; subst.
    rewrite (E1 eq_refl), (E2 eq_refl), (E3 eq_refl), (E4 eq_refl), (E5 eq_refl). by destruct e as [? ? ? []].
Qed.
Lemma ensureClusterOperatorStatus_status m e r : status_eq (ensureClusterOperatorStatus m e r).2 r.
Proof.
  unfold ensureClusterOperatorStatus.
  repeat match goal with
  | |- context [ensure ?m ?x ?y] =>
      let He := fresh "He" in
      pose proof (proj1 (ensure_spec m x y)) as He; destruct (ensure m x y)
  end. split_and!; simpl; assumption.
Qed.
Lemma ensureClusterOperatorStatus_same m e r :
  status_eq e r -> ensureClusterOperatorStatus m e r = (m, e).
Proof.
  intros (? & ? & ? & ? & ?). unfold ensureClusterOperatorStatus.
  rewrite !ensure_same by done. by destruct e as [? ? ? []].
Qed.

Lemma setStringIfSet_idem m m' e r :
  setStringIfSet m' (setStringIfSet m e r).2 r = (m', (setStringIfSet m e r).2).
Proof.
  unfold setStringIfSet. destruct (bool_decide (r = "")); [done|].
  destruct (bool_decide (r = e)) eqn:He; simpl; [by rewrite He | by rewrite bool_decide_true].
Qed.
Lemma mergeMap_idem m m' e r : mergeMap m' (mergeMap m e r).2 r = (m', (mergeMap m e r).2).
Proof.
  apply mergeMap_same.
  - rewrite (proj1 (mergeMap_spec _ _ _)). apply map_union_subseteq_l.
  - destruct e, r; simpl; try done; by destruct (foldl _ _ _).
Qed.
Lemma EnsureObjectMeta_meta e r :
  NoDup (or_UID <$> om_OwnerReferences r) ->
  let '(_, v) := EnsureObjectMeta false e r in
  gm_map (om_Labels v) = gm_map (om_Labels r) ∪ gm_map (om_Labels e) /\
  gm_map (om_Annotations v) = gm_map (om_Annotations r) ∪ gm_map (om_Annotations e) /\
  Forall (fun o => owner_with (or_UID o) (om_OwnerReferences v) = Some o) (om_OwnerReferences r) /\
  EnsureObjectMeta false v r = (false, v).
Proof.
  intros Hd. unfold EnsureObjectMeta.
  destruct (setStringIfSet false (om_Namespace e) (om_Namespace r)) as [m1 v1] eqn:H1.
  destruct (setStringIfSet m1 (om_Name e) (om_Name r)) as [m2 v2] eqn:H2.
  destruct (mergeMap m2 (om_Labels e) (om_Labels r)) as [m3 v3] eqn:H3.
  destruct (mergeMap m3 (om_Annotations e) (om_Annotations r)) as [m4 v4] eqn:H4.
  destruct (mergeOwnerRefs m4 (om_OwnerReferences e) (om_OwnerReferences r)) as [m5 v5] eqn:H5.
  apply (f_equal snd) in H1, H2, H3, H4, H5. simpl in *. subst.
  split; [apply mergeMap_spec|]. split; [apply mergeMap_spec|].
  destruct (mergeOwnerRefs_spec m4 (om_OwnerReferences e) (om_OwnerReferences r) Hd) as [Ho _].
  split; [exact Ho|].
  rewrite !setStringIfSet_idem, !mergeMap_idem. by rewrite mergeOwnerRefs_same.
Qed.

(** C16 [EnsureClusterOperatorStatus] brings the object to what is required, says
    so exactly when it had to, and has nothing to do a second time: afterwards
    the status is the required one, the labels and annotations have the required
    entries over the existing ones, every required owner is found by its UID; the
    flag stays down only if the object was left as it was; and merging again
    changes nothing. *)
Theorem EnsureClusterOperatorStatus_ensures existing required :
  NoDup (or_UID <$> om_OwnerReferences (cop_meta required)) ->
  let '(modified, co) := EnsureClusterOperatorStatus false existing required in
  status_eq (cop_Status co) (cop_Status required) /\
  gm_map (om_Labels (cop_meta co)) =
    gm_map (om_Labels (cop_meta required)) ∪ gm_map (om_Labels (cop_meta existing)) /\
  gm_map (om_Annotations (cop_meta co)) =
    gm_map (om_Annotations (cop_meta required)) ∪ gm_map (om_Annotations (cop_meta existing)) /\
  Forall (fun o => owner_with (or_UID o) (om_OwnerReferences (cop_meta co)) = Some o)
    (om_OwnerReferences (cop_meta required)) /\
  (modified = false -> cop_meta co ≃ cop_meta existing /\ cop_Status co = cop_Status existing) /\
  EnsureClusterOperatorStatus false co required = (false, co).
Proof.
  intros Hd. unfold EnsureClusterOperatorStatus at 1.
  destruct (EnsureObjectMeta_merges (cop_meta existing) (cop_meta required)) as (b & v & Hv & Ev).
  destruct (ensureClusterOperatorStatus_merges (cop_Status existing) (cop_Status required))
    as (b' & s & Hs & Es).
  pose proof (ensureClusterOperatorStatus_status b (cop_Status existing) (cop_Status required)) as Hst.
  pose proof (EnsureObjectMeta_meta (cop_meta existing) (cop_meta required) Hd) as Hmeta.
  rewrite Hv in Hmeta |- *. rewrite Hs in Hst |- *. simpl in *.
  destruct Hmeta as (Hl & Ha & Ho & Hidem).
  split; [done|]. split; [done|]. split; [done|]. split; [done|]. split.
  - intros [-> ->]%orb_false_iff. auto.
  - unfold EnsureClusterOperatorStatus. simpl. rewrite Hidem.
    by rewrite ensureClusterOperatorStatus_same.
Qed.

(** A ClusterOperator that gets a version, an annotation and an owner. *)
Definition example_co : ClusterOperator :=
  mkClusterOperator (SetAnnotations (gm_of [("a", "1")]) (named_meta "vertical-pod-autoscaler" ""))
    (mkCOStatus [mkCondition OperatorAvailable ConditionTrue 5 "" ""] nilslice []
       (mkRawExtension [] None)).
Definition example_required_co : ClusterOperator :=
  mkClusterOperator
    (SetOwnerReferences [mkOwnerReference "config.openshift.io/v1" "ClusterVersion" "version" "u1" None None]
       (SetAnnotations (gm_of [("b", "2")]) (named_meta "vertical-pod-autoscaler" "")))
    (mkCOStatus [mkCondition OperatorAvailable ConditionTrue 5 "" ""]
       (mkslice [mkOperandVersion "operator" "4.21.0"]) [] (mkRawExtension [] None)).

Lemma EnsureClusterOperatorStatus_ensures_witness :
  let '(modified, co) := EnsureClusterOperatorStatus false example_co example_required_co in
  modified = true /\ status_eq (cop_Status co) (cop_Status example_required_co) /\
  EnsureClusterOperatorStatus false co example_required_co = (false, co).
Proof.
  pose proof (EnsureClusterOperatorStatus_ensures example_co example_required_co) as H.
  destruct (EnsureClusterOperatorStatus false example_co example_required_co) as [m co] eqn:He.
  destruct H as (Hs & _ & _ & _ & _ & Hi); [apply NoDup_singleton|].
  split; [|split; [exact Hs | exact Hi]].
  apply (f_equal fst) in He. vm_compute in He. congruence.
Defined.
