(* ===== verification/Status.v ===== *)
(** * The status reporter

    internal/operator/status.go: the ClusterOperator through which the operator
    reports its state to the cluster version operator, and the loop that does.
    [Start] is [wait.PollUntilContextCancel]: the model is given, for each wait
    of the loop, whether the context was cancelled. *)

From S2P Require Import Prelude Go GoFmt Objects Api Util Args Resources Controller ResourceMerge.

Definition OperatorName : string := "vertical-pod-autoscaler".
Definition ReasonEmpty : string := "".
Definition ReasonMissingDependency : string := "MissingDependency".
Definition ReasonSyncing : string := "SyncingResources".
Definition ReasonCheckAutoscaler : string := "UnableToCheckAutoscalers".

Record StatusReporterConfig := mkStatusReporterConfig {
  src_VerticalPodAutoscalerName : string;
  src_VerticalPodAutoscalerNamespace : string;
  src_ReleaseVersion : string;
  src_RelatedObjects : list RelatedObject
}.

(** The clients of a reporter are the API (Api.v). *)
Record StatusReporter := mkStatusReporter { sr_config : StatusReporterConfig }.
(** [clientErr] is the error of [osconfig.NewForConfig]. *)
Definition NewStatusReporter (clientErr : option error) (cfg : StatusReporterConfig) : error + StatusReporter :=
  let reporter := mkStatusReporter cfg in
  match clientErr with Some err => inl err | None => inr reporter end.

Definition SetReleaseVersion (version : string) (c : StatusReporterConfig) : StatusReporterConfig :=
  mkStatusReporterConfig (src_VerticalPodAutoscalerName c) (src_VerticalPodAutoscalerNamespace c)
    version (src_RelatedObjects c).
Definition SetRelatedObjects (objs : list RelatedObject) (c : StatusReporterConfig) :
    StatusReporterConfig :=
  mkStatusReporterConfig (src_VerticalPodAutoscalerName c) (src_VerticalPodAutoscalerNamespace c)
    (src_ReleaseVersion c) objs.
Definition AddRelatedObjects (objs : list RelatedObject) (c : StatusReporterConfig) :
    StatusReporterConfig :=
  SetRelatedObjects (src_RelatedObjects c ++ objs) c.

(** ** Applying a status *)

Definition operator_key : NamespacedName := mkNN "" OperatorName.

Definition GetClusterOperator : prog (error + ClusterOperator) :=
  ask (Get KClusterOperator operator_key).

Definition GetOrCreateClusterOperator : prog (error + ClusterOperator) :=
  let clusterOperator := mkClusterOperator (named_meta OperatorName "") zero_COStatus in
  existing <- GetClusterOperator ;;
  match existing with
  | inl err => if IsNotFound err then ask (Create KClusterOperator clusterOperator) else Ret (inl err)
  | inr co => Ret (inr co)
  end.

(** The body of the loop over [status.Conditions]. *)
Definition stamp_condition (previous : list Condition) (timestamp : Time) (cond : Condition) : Condition :=
  let c := find_condition previous (cond_Type cond) in
  (* If found, and status doesn't match, update. *)
  let cond := match c with
              | Some p => if negb (bool_decide (cond_Status p = cond_Status cond))
                          then set_LastTransitionTime timestamp cond else cond
              | None => cond
              end in
  (* If found, and status matches, copy previous. *)
  let cond := match c with
              | Some p => if bool_decide (cond_Status p = cond_Status cond)
                          then set_LastTransitionTime (cond_LastTransitionTime p) cond else cond
              | None => cond
              end in
  (* If it's still nil, update it. *)
  if Time_IsZero (cond_LastTransitionTime cond) then set_LastTransitionTime timestamp cond else cond.
Fixpoint stamp_conditions (previous conditions : list Condition) : prog (list Condition) :=
  match conditions with
  | [] => Ret []
  | cond :: rest =>
      timestamp <- ask Now ;;
      rest <- stamp_conditions previous rest ;;
      Ret (stamp_condition previous timestamp cond :: rest)
  end.

Definition set_Conditions (l : list Condition) (s : ClusterOperatorStatus) : ClusterOperatorStatus :=
  mkCOStatus l (cos_Versions s) (cos_RelatedObjects s) (cos_Extension s).
Definition set_Versions (v : goslice OperandVersion) (s : ClusterOperatorStatus) : ClusterOperatorStatus :=
  mkCOStatus (cos_Conditions s) v (cos_RelatedObjects s) (cos_Extension s).
Definition set_CORelatedObjects (r : list RelatedObject) (s : ClusterOperatorStatus) :
    ClusterOperatorStatus :=
  mkCOStatus (cos_Conditions s) (cos_Versions s) r (cos_Extension s).

Definition ApplyStatus (config : StatusReporterConfig) (status : ClusterOperatorStatus) :
    prog (option error) :=
  got <- GetOrCreateClusterOperator ;;
  match got with
  | inl err => Ret (Some err)
  | inr co =>
      (* Set the currently configured related objects. *)
      let status := set_CORelatedObjects (src_RelatedObjects config) status in
      (* If no versions were set explicitly, continue reporting previous versions. *)
      let status := if gs_isnil (cos_Versions status)
                    then set_Versions (cos_Versions (cop_Status co)) status else status in
      (* Update LastTransitionTime for all conditions if necessary. *)
      conditions <- stamp_conditions (cos_Conditions (cop_Status co)) (cos_Conditions status) ;;
      (* If any versions have changed, reset the transition time of Progressing. *)
      conditions <- (if negb (sem_eqb (cos_Versions status) (cos_Versions (cop_Status co)))
                     then ResetProgressingTime conditions else Ret conditions) ;;
      (* Copy the current ClusterOperator and overwrite the status. *)
      let requiredCO := mkClusterOperator (cop_meta co) (set_Conditions conditions status) in
      let '(modified, co) := EnsureClusterOperatorStatus false co requiredCO in
      if modified then
        u <- ask (UpdateStatus KClusterOperator co) ;;
        Ret (match u with inl err => Some err | inr _ => None end)
      else Ret None
  end.

(** ** The reported states *)

Definition report (available progressing degraded : Condition) (versions : goslice OperandVersion) :
    ClusterOperatorStatus :=
  mkCOStatus [available; progressing; degraded] versions [] (mkRawExtension [] None).
(** A condition with the zero transition time. *)
Definition condition (ty status reason message : string) : Condition :=
  mkCondition ty status zero_Time reason message.

Definition available (config : StatusReporterConfig) (reason message : string) : prog (option error) :=
  ApplyStatus config
    (report (condition OperatorAvailable ConditionTrue reason message)
       (condition OperatorProgressing ConditionFalse "" "")
       (condition OperatorDegraded ConditionFalse "" "")
       (mkslice [mkOperandVersion "operator" (src_ReleaseVersion config)])).
Definition degraded (config : StatusReporterConfig) (reason message : string) : prog (option error) :=
  ApplyStatus config
    (report (condition OperatorAvailable ConditionTrue "" "")
       (condition OperatorProgressing ConditionFalse "" "")
       (condition OperatorDegraded ConditionTrue reason message) nilslice).
Definition progressing (config : StatusReporterConfig) (reason message : string) : prog (option error) :=
  ApplyStatus config
    (report (condition OperatorAvailable ConditionTrue "" "")
       (condition OperatorProgressing ConditionTrue reason message)
       (condition OperatorDegraded ConditionFalse "" "") nilslice).

(** ** Checking the operand *)

Definition recommender_key (config : StatusReporterConfig) : NamespacedName :=
  mkNN (src_VerticalPodAutoscalerNamespace config)
    ("vpa-recommender-" +:+ src_VerticalPodAutoscalerName config).

Definition CheckVPARecommender (config : StatusReporterConfig) : prog (bool * option error) :=
  v <- ask (Get KVerticalPodAutoscalerController
              (mkNN (src_VerticalPodAutoscalerNamespace config) (src_VerticalPodAutoscalerName config))) ;;
  match v with
  | inl err => if IsNotFound err then Ret (true, None) else Ret (false, Some err)
  | inr _ =>
      d <- ask (Get KDeployment (recommender_key config)) ;;
      match d with
      | inl err => if IsNotFound err then Ret (false, None) else Ret (false, Some err)
      | inr deployment =>
          if negb (ReleaseVersionMatches (dep_meta deployment) (src_ReleaseVersion config))
          then Ret (false, None)
          else if negb (DeploymentUpdated deployment) then Ret (false, None)
          else Ret (true, None)
      end
  end.

Definition ReportStatus (config : StatusReporterConfig) : prog (bool * option error) :=
  c <- CheckVPARecommender config ;;
  match c with
  | (_, Some err) =>
      let msg := "error checking VPA controllers status: " +:+ Error err in
      e <- degraded config ReasonCheckAutoscaler msg ;;
      Ret (match e with Some err => (false, Some err) | None => (false, None) end)
  | (false, None) =>
      let msg := "updating to " +:+ src_ReleaseVersion config in
      e <- progressing config ReasonSyncing msg ;;
      Ret (match e with
           | Some err => (false, Some (ErrorString ("failed to set progressing status: " +:+ Error err)))
           | None => (false, None)
           end)
  | (true, None) =>
      let msg := "at version " +:+ src_ReleaseVersion config in
      e <- available config ReasonEmpty msg ;;
      Ret (match e with
           | Some err => (false, Some (ErrorString ("failed to set available status: " +:+ Error err)))
           | None => (true, None)
           end)
  end.

(** ** The loop *)

Definition context_canceled : error := ErrorString "context canceled".

(** [loopConditionUntilContext] with [immediate]: [waits] tells for each wait
    whether the context is cancelled when it ends; [None] means that the loop
    goes on after them. *)
Fixpoint poll_loop (condition : prog (bool * option error)) (waits : list bool) :
    prog (option (option error)) :=
  match waits with
  | [] => Ret None
  | cancelled :: waits =>
      if (cancelled : bool) then Ret (Some (Some context_canceled))
      else
        r <- condition ;;
        match r with
        | (_, Some err) => Ret (Some (Some err))
        | (true, None) => Ret (Some None)
        | (false, None) => poll_loop condition waits
        end
  end.
Definition Start (config : StatusReporterConfig) (waits : list bool) : prog (option (option error)) :=
  r <- ReportStatus config ;;
  match r with
  | (_, Some err) => Ret (Some (Some err))
  | (true, None) => Ret (Some None)
  | (false, None) => poll_loop (ReportStatus config) waits
  end.

(** ** Transition times *)

Definition now_steps (nows : list Time) : list step := map (fun t : Time => mkStep Now t) nows.

(** A condition as it is written: what was to be reported, with the transition
    time of the condition it replaces when the status did not change (a zero time
    is not one), and otherwise the time of a clock reading of this run.  The
    Progressing condition takes a new time with every change of versions. *)
Definition transition (previous : list Condition) (changed : bool) (nows : list Time)
    (cond cond' : Condition) : Prop :=
  cond_Type cond' = cond_Type cond /\ cond_Status cond' = cond_Status cond /\
  cond_Reason cond' = cond_Reason cond /\ cond_Message cond' = cond_Message cond /\
  let fresh := cond_LastTransitionTime cond' ∈ nows in
  if changed && bool_decide (cond_Type cond = OperatorProgressing) then fresh
  else match find_condition previous (cond_Type cond) with
       | Some p =>
           if bool_decide (cond_Status p = cond_Status cond) &&
              negb (Time_IsZero (cond_LastTransitionTime p))
           then cond_LastTransitionTime cond' = cond_LastTransitionTime p else fresh
       | None => fresh
       end.

Lemma stamp_condition_transition previous t nows cond :
  cond_LastTransitionTime cond = zero_Time -> t ∈ nows ->
  transition previous false nows cond (stamp_condition previous t cond).
Proof.
  intros Hz Ht. unfold transition, stamp_condition, Time_IsZero.
  destruct (find_condition previous (cond_Type cond)) as [p|]; cbn -[Z.eqb].
  - repeat (case_bool_decide; cbn -[Z.eqb] in *; try congruence).
    + destruct (cond_LastTransitionTime p =? zero_Time) eqn:Hp; cbn -[Z.eqb]; split_and!; done.
    + destruct (t =? zero_Time); cbn -[Z.eqb]; split_and!; done.
  - rewrite Hz. cbn -[Z.eqb]. split_and!; done.
Qed.

Lemma stamp_conditions_exec previous conditions tr out :
  exec (stamp_conditions previous conditions) tr out ->
  exists nows, tr = now_steps nows /\ length nows = length conditions /\
  out = zip_with (stamp_condition previous) nows conditions.
Proof.
  revert tr out; induction conditions as [|cond rest IH]; intros tr out; simpl.
  - destruct tr; [|done]. intros <-. by exists [].
  - destruct tr as [|s tr]; [done|]. intros (t & -> & Hx).
    apply exec_bind in Hx as (tr1 & tr2 & out' & -> & H1 & H2).
    destruct (IH _ _ H1) as (nows & -> & Hl & ->). destruct tr2; simpl in H2; [|done]. subst out.
    exists (t :: nows). simpl. split; [by rewrite app_nil_r|]. split; [by f_equal | done].
Qed.

Lemma FindOperatorStatusCondition_alter f conds ty i :
  (forall c, cond_Type (f c) = cond_Type c) ->
  FindOperatorStatusCondition (alter f i conds) ty = FindOperatorStatusCondition conds ty.
Proof.
  intros Hf. revert i; induction conds as [|c conds IH]; intros [|i]; [done..| |].
  - change (alter f 0%nat (c :: conds)) with (f c :: conds). cbn [FindOperatorStatusCondition].
    by rewrite Hf.
  - change (alter f (S i) (c :: conds)) with (c :: alter f i conds).
    cbn [FindOperatorStatusCondition]. by rewrite IH.
Qed.

(** Resetting the Progressing condition changes its time only. *)
Lemma ResetProgressingTime_found conds i :
  FindOperatorStatusCondition conds OperatorProgressing = Some i ->
  forall tr out, exec (ResetProgressingTime conds) tr out ->
  exists now, tr = now_steps [now] /\ out = alter (set_LastTransitionTime now) i conds.
Proof.
  intros Hi tr out. unfold ResetProgressingTime. simpl.
  destruct tr as [|s tr]; [done|]. intros (now & -> & Hx). exists now. revert Hx. rewrite Hi.
  destruct (FindOperatorStatusCondition_lookup _ _ _ Hi) as (c & Hc & Hty).
  rewrite list_lookup_alter_eq, Hc. simpl. unfold SetOperatorStatusCondition. simpl. rewrite Hty.
  assert (Hf : FindOperatorStatusCondition (alter (set_LastTransitionTime now) i conds)
    OperatorProgressing = Some i).
  { by rewrite FindOperatorStatusCondition_alter. }
  rewrite Hf, list_lookup_alter_eq, Hc. simpl. rewrite bool_decide_false by tauto.
  destruct tr; simpl; [|done]. intros <-. split; [done|].
  apply list_eq. intros j. destruct (decide (i = j)) as [->|Hne].
  - rewrite !list_lookup_alter_eq, Hc. by destruct c.
  - by rewrite !list_lookup_alter_ne.
Qed.

Lemma stamped_transitions previous nows conditions :
  length nows = length conditions ->
  Forall (fun c => cond_LastTransitionTime c = zero_Time) conditions ->
  Forall2 (transition previous false nows) conditions (zip_with (stamp_condition previous) nows conditions).
Proof.
  intros Hl Hz. apply Forall2_same_length_lookup. split.
  - rewrite length_zip_with. lia.
  - intros i x y Hx (t & c & -> & Ht & Hc)%lookup_zip_with_Some. simplify_eq.
    apply stamp_condition_transition; [by eapply (Forall_lookup_1 _ _ _ _ Hz) | by eapply list_elem_of_lookup_2].
Qed.

Lemma transition_type previous changed nows c c' :
  transition previous changed nows c c' -> cond_Type c' = cond_Type c.
Proof. by intros []. Qed.
Lemma transition_weaken previous nows nows' c c' :
  transition previous false nows c c' -> nows ⊆ nows' -> transition previous false nows' c c'.
Proof.
  intros (H1 & H2 & H3 & H4 & H5) Hs. split_and!; auto. simpl in *.
  destruct (find_condition previous _) as [p|]; [|auto].
  destruct (bool_decide _ && _); auto.
Qed.
(** The time of a condition that is not Progressing does not depend on the versions. *)
Lemma transition_other previous changed nows c c' :
  cond_Type c <> OperatorProgressing ->
  transition previous false nows c c' -> transition previous changed nows c c'.
Proof.
  intros Hne (H1 & H2 & H3 & H4 & H5). split_and!; auto. simpl in *.
  rewrite (bool_decide_false (cond_Type c = _)), andb_false_r by done. done.
Qed.

Lemma FindOperatorStatusCondition_exists conds ty :
  ty ∈ cond_Type <$> conds -> exists i, FindOperatorStatusCondition conds ty = Some i.
Proof.
  induction conds as [|c conds IH]; simpl; [by intros ?%not_elem_of_nil|].
  case_bool_decide as Hc; [by eexists|]. intros [->|Hi]%elem_of_cons; [done|].
  destruct (IH Hi) as [i ->]. by eexists.
Qed.

(** Resetting the Progressing condition after the stamping. *)
Lemma reset_transitions previous nows now conditions stamped i :
  NoDup (cond_Type <$> conditions) ->
  Forall2 (transition previous false nows) conditions stamped ->
  FindOperatorStatusCondition stamped OperatorProgressing = Some i ->
  Forall2 (transition previous true (nows ++ [now])) conditions
    (alter (set_LastTransitionTime now) i stamped).
Proof.
  intros Hd Hf Hi. apply Forall2_same_length_lookup in Hf as [Hl Hf].
  apply Forall2_same_length_lookup. split; [by rewrite length_alter|].
  destruct (FindOperatorStatusCondition_lookup _ _ _ Hi) as (p & Hp & Hpt).
  intros j x y Hx Hy. destruct (decide (i = j)) as [->|Hne].
  - rewrite list_lookup_alter_eq, Hp in Hy. injection Hy as <-.
    specialize (Hf _ _ _ Hx Hp). pose proof (transition_type _ _ _ _ _ Hf) as Hty.
    destruct Hf as (H1 & H2 & H3 & H4 & _). split_and!; auto. simpl.
    rewrite bool_decide_true by congruence. set_solver.
  - rewrite list_lookup_alter_ne in Hy by done. apply transition_other.
    + intros Hxt. apply Hne. rewrite NoDup_alt in Hd.
      assert (Hlt : is_Some (conditions !! i)).
      { apply lookup_lt_is_Some. rewrite Hl. by eapply lookup_lt_Some. }
      destruct Hlt as [x' Hx']. pose proof (transition_type _ _ _ _ _ (Hf _ _ _ Hx' Hp)) as Hty.
      eapply (Hd i j OperatorProgressing); rewrite list_lookup_fmap.
      * rewrite Hx'. simpl. f_equal. congruence.
      * rewrite Hx. simpl. by f_equal.
    + eapply transition_weaken; [by eapply Hf | set_solver].
Qed.

(** ** What [ApplyStatus] does *)

(** The object was read, or created when there was none. *)
Inductive fetched : list step -> error + ClusterOperator -> Prop :=
| fetched_read r :
    match r with inl err => IsNotFound err = false | inr _ => True end ->
    fetched [mkStep (Get KClusterOperator operator_key) r] r
| fetched_created nf r :
    IsNotFound nf = true ->
    fetched [mkStep (Get KClusterOperator operator_key) (inl nf);
             mkStep (Create KClusterOperator (mkClusterOperator (named_meta OperatorName "") zero_COStatus)) r] r.

Lemma GetOrCreateClusterOperator_exec tr r : exec GetOrCreateClusterOperator tr r -> fetched tr r.
Proof.
  unfold GetOrCreateClusterOperator, GetClusterOperator. cbn [bind ask].
  destruct tr as [|s tr]; [done|]. intros (g & -> & Hx). destruct g as [err|co].
  - destruct (IsNotFound err) eqn:He.
    + destruct tr as [|s tr]; [done|]. destruct Hx as (r' & -> & Hx).
      destruct tr; [|done]. simpl in Hx. subst r'. by constructor.
    + destruct tr; [|done]. simpl in Hx. subst r. by constructor.
  - destruct tr; [|done]. simpl in Hx. subst r. by constructor.
Qed.

(** The versions to report: those given, or those reported so far. *)
Definition reported_versions (status : ClusterOperatorStatus) (co : ClusterOperator) :
    goslice OperandVersion :=
  if gs_isnil (cos_Versions status) then cos_Versions (cop_Status co) else cos_Versions status.

(** The calls after the object was fetched: the clock, and one write if the
    merge of the stamped status changed the object. *)
Definition status_applied (config : StatusReporterConfig) (status : ClusterOperatorStatus)
    (co : ClusterOperator) (tr : list step) (e : option error) : Prop :=
  exists nows conditions,
  let versions := reported_versions status co in
  let changed := negb (sem_eqb versions (cos_Versions (cop_Status co))) in
  let required := mkCOStatus conditions versions (src_RelatedObjects config) (cos_Extension status) in
  let '(modified, co') := EnsureClusterOperatorStatus false co (mkClusterOperator (cop_meta co) required) in
  Forall2 (transition (cos_Conditions (cop_Status co)) changed nows) (cos_Conditions status) conditions /\
  if modified then
    exists u, tr = now_steps nows ++ [mkStep (UpdateStatus KClusterOperator co') u] /\ e = err_of u
  else tr = now_steps nows /\ e = None.

(** The conditions of the three reports. *)
Definition reportable (status : ClusterOperatorStatus) : Prop :=
  NoDup (cond_Type <$> cos_Conditions status) /\
  OperatorProgressing ∈ cond_Type <$> cos_Conditions status /\
  Forall (fun c => cond_LastTransitionTime c = zero_Time) (cos_Conditions status).

Lemma report_reportable (s1 s2 s3 r1 r2 r3 m1 m2 m3 : string) versions :
  reportable (report (condition OperatorAvailable s1 r1 m1) (condition OperatorProgressing s2 r2 m2)
                (condition OperatorDegraded s3 r3 m3) versions).
Proof.
  unfold reportable. simpl. split_and!; [|set_solver | by repeat constructor].
  repeat (apply NoDup_cons; split; [set_solver|]). apply NoDup_nil_2.
Qed.

(** The stamped conditions, with the Progressing time reset if asked. *)
Lemma conditions_exec previous (changed : bool) conditions tr tr' stamped out :
  NoDup (cond_Type <$> conditions) -> OperatorProgressing ∈ cond_Type <$> conditions ->
  Forall (fun c => cond_LastTransitionTime c = zero_Time) conditions ->
  exec (stamp_conditions previous conditions) tr stamped ->
  exec (if changed then ResetProgressingTime stamped else Ret stamped) tr' out ->
  exists nows, tr ++ tr' = now_steps nows /\ Forall2 (transition previous changed nows) conditions out.
Proof.
  intros Hd Hp Hz Hs Hr.
  destruct (stamp_conditions_exec _ _ _ _ Hs) as (nows & -> & Hl & Hst).
  pose proof (stamped_transitions previous nows conditions Hl Hz) as Hf. rewrite <- Hst in Hf.
  destruct changed.
  - assert (Hty : cond_Type <$> stamped = cond_Type <$> conditions).
    { apply list_eq_Forall2, Forall2_fmap, Forall2_flip.
      eapply Forall2_impl; [exact Hf|]. intros c c' Hc. by eapply transition_type. }
    rewrite <- Hty in Hp. destruct (FindOperatorStatusCondition_exists _ _ Hp) as [i Hi].
    destruct (ResetProgressingTime_found _ _ Hi _ _ Hr) as (now & -> & ->).
    exists (nows ++ [now]). unfold now_steps. rewrite map_app. split; [done|].
    by apply reset_transitions.
  - destruct tr'; [|done]. simpl in Hr. subst out. exists nows. by rewrite app_nil_r.
Qed.

Lemma ApplyStatus_exec config status tr e :
  reportable status -> exec (ApplyStatus config status) tr e ->
  exists pre rest got, tr = pre ++ rest /\ fetched pre got /\
  match got with
  | inl err => rest = [] /\ e = Some err
  | inr co => status_applied config status co rest e
  end.
Proof.
  intros (Hd & Hp & Hz) Hx. unfold ApplyStatus in Hx.
  apply exec_bind in Hx as (pre & rest & got & -> & Hget%GetOrCreateClusterOperator_exec & Hx).
  exists pre, rest, got. split; [done|]. split; [done|].
  destruct got as [err|co]; [by destruct rest; simpl in Hx|].
  assert (Hv : cos_Versions (if gs_isnil (cos_Versions (set_CORelatedObjects (src_RelatedObjects config) status))
    then set_Versions (cos_Versions (cop_Status co)) (set_CORelatedObjects (src_RelatedObjects config) status)
    else set_CORelatedObjects (src_RelatedObjects config) status) = reported_versions status co).
  { unfold reported_versions. simpl. by destruct (gs_isnil _). }
  set (status' := if gs_isnil _ then _ else _) in *.
  assert (Hstatus : forall l, set_Conditions l status' =
    mkCOStatus l (reported_versions status co) (src_RelatedObjects config) (cos_Extension status)).
  { intros l. unfold set_Conditions. rewrite Hv. subst status'. by destruct (gs_isnil _). }
  assert (Hc : cos_Conditions status' = cos_Conditions status).
  { subst status'. by destruct (gs_isnil _). }
  cbv zeta in Hx. fold status' in Hx.
  apply exec_bind in Hx as (tr1 & rest1 & stamped & -> & H1 & Hx). rewrite Hc in H1.
  apply exec_bind in Hx as (tr2 & tr3 & conditions & -> & H2 & Hx). rewrite Hv in H2.
  destruct (conditions_exec _ _ _ _ _ _ _ Hd Hp Hz H1 H2) as (nows & Hnows & Hf).
  exists nows, conditions. rewrite Hstatus in Hx. cbv zeta.
  destruct (EnsureClusterOperatorStatus false co _) as [modified co'] eqn:He.
  split; [exact Hf|]. rewrite app_assoc, Hnows. destruct modified.
  - destruct tr3 as [|s tr3]; [done|]. destruct Hx as (u & -> & Hx).
    destruct tr3; [|done]. simpl in Hx. subst e. exists u. split; [done|]. by destruct u.
  - destruct tr3; [|done]. simpl in Hx. subst e. by rewrite app_nil_r.
Qed.
