(* ===== verification/Reporting.v ===== *)
(** * What the status reporter promises

    The theorems about internal/operator/status.go: when transition times change,
    when nothing is written, when the operator calls itself available, how the
    loop ends, and that one report on a working cluster says what is the case. *)

From S2P Require Import Prelude Go GoFmt Objects Api Util Args Resources Controller Server Operands.
From S2P Require Import Convergence Protocol ResourceMerge Status.

(** ** What is written *)

(** The object a status update carries. *)
Definition status_written (s : step) : option ClusterOperator :=
  match st_call s with
  | UpdateStatus k o =>
      match k return obj k -> option ClusterOperator with
      | KClusterOperator => fun o => Some o
      | _ => fun _ => None
      end o
  | _ => None
  end.

Lemma fetched_unwritten pre got s : fetched pre got -> s ∈ pre -> status_written s = None.
Proof.
  destruct 1; rewrite ?elem_of_cons, ?elem_of_nil; intros Hs; by destruct_or!; subst.
Qed.
Lemma now_steps_unwritten nows s : s ∈ now_steps nows -> status_written s = None.
Proof. unfold now_steps. intros (t & -> & _)%list_elem_of_fmap. done. Qed.

Lemma ApplyStatus_written config status tr e s o :
  reportable status -> exec (ApplyStatus config status) tr e ->
  s ∈ tr -> status_written s = Some o ->
  exists pre co nows,
  fetched pre (inr co) /\ tr = pre ++ now_steps nows ++ [s] /\ step_error s = e /\
  Forall2 (transition (cos_Conditions (cop_Status co))
             (negb (sem_eqb (reported_versions status co) (cos_Versions (cop_Status co)))) nows)
    (cos_Conditions status) (cos_Conditions (cop_Status o)) /\
  cos_Versions (cop_Status o) ≃ reported_versions status co /\
  cos_RelatedObjects (cop_Status o) ≃ src_RelatedObjects config.
Proof.
  intros Hr Hx Hs Ho. destruct (ApplyStatus_exec _ _ _ _ Hr Hx) as (pre & rest & got & -> & Hf & Hrest).
  apply elem_of_app in Hs as [Hs|Hs]; [by rewrite (fetched_unwritten _ _ _ Hf Hs) in Ho|].
  destruct got as [err|co]; [destruct Hrest as [-> _]; by apply not_elem_of_nil in Hs|].
  destruct Hrest as (nows & conditions & Hrest). cbv zeta in Hrest.
  set (required := mkCOStatus conditions _ _ _) in Hrest.
  pose proof (ensureClusterOperatorStatus_status false (cop_Status co) required) as _.
  destruct (EnsureClusterOperatorStatus false co (mkClusterOperator (cop_meta co) required))
    as [modified co'] eqn:He. destruct Hrest as [Ht Hrest].
  assert (Hst : status_eq (cop_Status co') required).
  { unfold EnsureClusterOperatorStatus in He. destruct (EnsureObjectMeta _ _ _) as [m meta].
    pose proof (ensureClusterOperatorStatus_status m (cop_Status co) required) as Hst.
    simpl in He. destruct (ensureClusterOperatorStatus m _ _). injection He as _ <-. exact Hst. }
  destruct modified.
  - destruct Hrest as (u & -> & ->). apply elem_of_app in Hs as [Hs|Hs].
    { by rewrite (now_steps_unwritten _ _ Hs) in Ho. }
    apply list_elem_of_singleton in Hs as ->. simpl in Ho. injection Ho as <-.
    destruct Hst as (Hc & Hv & _ & _ & Hrel).
    exists pre, co, nows. split; [done|]. split; [done|]. split; [done|].
    apply (sem_exact (A:=list Condition)) in Hc. simpl in Hc, Hv, Hrel. rewrite Hc. done.
  - destruct Hrest as [-> _]. by rewrite (now_steps_unwritten _ _ Hs) in Ho.
Qed.

(** C17 The conditions that [ApplyStatus] writes, in every execution: each is the
    condition to report, with the transition time of the one it replaces if the
    status is the same, and a time read from the clock in this run otherwise; a
    change of versions renews the time of Progressing.  The versions are the given
    ones or, without any, those reported before; the write is the last call, and
    its error is returned. *)
Theorem ApplyStatus_transition_times config status tr e s o :
  reportable status -> exec (ApplyStatus config status) tr e ->
  s ∈ tr -> status_written s = Some o ->
  exists pre co nows,
  fetched pre (inr co) /\ tr = pre ++ now_steps nows ++ [s] /\ step_error s = e /\
  Forall2 (transition (cos_Conditions (cop_Status co))
             (negb (sem_eqb (reported_versions status co) (cos_Versions (cop_Status co)))) nows)
    (cos_Conditions status) (cos_Conditions (cop_Status o)) /\
  cos_Versions (cop_Status o) ≃ reported_versions status co /\
  cos_RelatedObjects (cop_Status o) ≃ src_RelatedObjects config.
Proof. apply ApplyStatus_written. Qed.

(** An error is the answer to the last call. *)
Lemma fetched_error pre err : fetched pre (inl err) -> exists tr s, pre = tr ++ [s] /\ step_error s = Some err.
Proof.
  inversion 1; subst; [by eexists [], _ | by eexists [_], _].
Qed.
Lemma ApplyStatus_error config status tr err :
  reportable status -> exec (ApplyStatus config status) tr (Some err) ->
  exists tr' s, tr = tr' ++ [s] /\ step_error s = Some err.
Proof.
  intros Hr Hx. destruct (ApplyStatus_exec _ _ _ _ Hr Hx) as (pre & rest & got & -> & Hf & Hrest).
  destruct got as [err'|co].
  - destruct Hrest as [-> [= ->]]. rewrite app_nil_r. by apply fetched_error.
  - destruct Hrest as (nows & conditions & Hrest). cbv zeta in Hrest.
    destruct (EnsureClusterOperatorStatus false co _) as [[] co'];
      [|by destruct Hrest as (_ & _ & ?)].
    destruct Hrest as (_ & u & -> & He). eexists (pre ++ now_steps nows), _.
    rewrite <- app_assoc. split; [done|]. symmetry. exact He.
Qed.

(** *** Nothing to write *)

(** A condition that is reported already. *)
Definition already (cond previous : Condition) : Prop :=
  cond_Type previous = cond_Type cond /\ cond_Status previous = cond_Status cond /\
  cond_Reason previous = cond_Reason cond /\ cond_Message previous = cond_Message cond /\
  cond_LastTransitionTime previous <> zero_Time.

Lemma find_condition_NoDup conds i c :
  NoDup (cond_Type <$> conds) -> conds !! i = Some c -> find_condition conds (cond_Type c) = Some c.
Proof.
  revert i; induction conds as [|x conds IH]; intros i Hd Hi; [done|].
  rewrite find_condition_cons. apply NoDup_cons in Hd as [Hx Hd]. destruct i as [|i]; simpl in Hi.
  - injection Hi as ->. by rewrite bool_decide_true.
  - rewrite bool_decide_false; [by eapply IH|]. intros Heq. apply Hx. rewrite Heq.
    apply list_elem_of_fmap. exists c. split; [done|]. by eapply list_elem_of_lookup_2.
Qed.

Lemma already_stays status previous nows out :
  NoDup (cond_Type <$> status) -> Forall2 already status previous ->
  Forall2 (transition previous false nows) status out -> out = previous.
Proof.
  intros Hd Ha Ht.
  assert (Hty : cond_Type <$> previous = cond_Type <$> status).
  { apply list_eq_Forall2, Forall2_fmap, Forall2_flip. eapply Forall2_impl; [exact Ha|].
    by intros c c' []. }
  apply Forall2_same_length_lookup in Ha as [Hl Ha]. apply Forall2_same_length_lookup in Ht as [Hl' Ht].
  apply list_eq. intros i. destruct (status !! i) as [c|] eqn:Hc.
  - destruct (lookup_lt_is_Some_2 previous i) as [p Hp];
      [rewrite <- Hl; by eapply lookup_lt_Some|].
    destruct (lookup_lt_is_Some_2 out i) as [c' Hc'];
      [rewrite <- Hl'; by eapply lookup_lt_Some|].
    rewrite Hp, Hc'. f_equal. specialize (Ha _ _ _ Hc Hp). specialize (Ht _ _ _ Hc Hc').
    destruct Ha as (A1 & A2 & A3 & A4 & A5). destruct Ht as (T1 & T2 & T3 & T4 & T5). simpl in T5.
    rewrite <- Hty in Hd. rewrite <- A1, (find_condition_NoDup _ _ _ Hd Hp) in T5.
    rewrite bool_decide_true in T5 by done. unfold Time_IsZero in T5.
    rewrite (proj2 (Z.eqb_neq _ _)) in T5 by done. simpl in T5.
    destruct c', p; simpl in *; congruence.
  - assert (Hn : (length status <= i)%nat) by (by apply lookup_ge_None).
    rewrite (lookup_ge_None_2 out), (lookup_ge_None_2 previous) by lia. done.
Qed.

(** Merging metadata into themselves. *)
Lemma setStringIfSet_self m e : setStringIfSet m e e = (m, e).
Proof. unfold setStringIfSet. by repeat case_bool_decide. Qed.
Lemma owners_self l :
  NoDup (or_UID <$> l) -> Forall (fun o => owner_with (or_UID o) l = Some o) l.
Proof.
  induction l as [|o l IH]; simpl; [done|]. intros [Ho Hd]%NoDup_cons. constructor.
  - by rewrite owner_with_cons, bool_decide_true.
  - eapply Forall_impl; [apply Forall_and; split; [exact (IH Hd) | apply Forall_forall; intros x Hx; exact Hx]|].
    intros x [Hx Hi]. simpl in Hx, Hi. rewrite owner_with_cons, bool_decide_false; [done|].
    intros Heq. apply Ho. rewrite Heq. apply list_elem_of_fmap. by exists x.
Qed.
Lemma EnsureObjectMeta_self m meta :
  NoDup (or_UID <$> om_OwnerReferences meta) -> EnsureObjectMeta m meta meta = (m, meta).
Proof.
  intros Hd. unfold EnsureObjectMeta.
  rewrite !setStringIfSet_self, !mergeMap_same, mergeOwnerRefs_same by (done || by apply owners_self).
  by destruct meta.
Qed.

(** The answer to a read of a ClusterOperator. *)
Definition co_read (s : step) : option (error + ClusterOperator) :=
  match st_call s as c return resp c -> option (error + ClusterOperator) with
  | Get k _ =>
      match k return error + obj k -> option (error + ClusterOperator) with
      | KClusterOperator => fun r => Some r
      | _ => fun _ => None
      end
  | _ => fun _ => None
  end (st_resp s).

(** The ClusterOperator says already what is to be reported. *)
Definition settled (config : StatusReporterConfig) (status : ClusterOperatorStatus)
    (co : ClusterOperator) : Prop :=
  Forall2 already (cos_Conditions status) (cos_Conditions (cop_Status co)) /\
  reported_versions status co ≃ cos_Versions (cop_Status co) /\
  src_RelatedObjects config ≃ cos_RelatedObjects (cop_Status co) /\
  cos_Extension (cop_Status co) = cos_Extension status /\
  NoDup (or_UID <$> om_OwnerReferences (cop_meta co)).

Lemma ApplyStatus_quiet config status tr e co rest :
  reportable status -> settled config status co ->
  exec (ApplyStatus config status) tr e ->
  tr = mkStep (Get KClusterOperator operator_key) (inr co) :: rest ->
  e = None /\ Forall (fun s => is_write (st_call s) = false) tr.
Proof.
  intros Hr (Hc & Hv & Hrel & Hext & Hd) Hx ->.
  destruct (ApplyStatus_exec _ _ _ _ Hr Hx) as (pre & rest' & got & Htr & Hf & Happ).
  destruct Hf as [r _|nf r _];
    [|apply (f_equal (fun l => head l ≫= co_read)) in Htr; simpl in Htr; discriminate].
  pose proof (f_equal head Htr) as Hg. apply (f_equal tail) in Htr. simpl in Hg, Htr. subst rest'.
  apply (f_equal (fun s => s ≫= co_read)) in Hg. simpl in Hg. injection Hg as <-.
  destruct Happ as (nows & conditions & Happ). cbv zeta in Happ.
  rewrite (proj2 (negb_false_iff _) Hv) in Happ.
  unfold EnsureClusterOperatorStatus in Happ. cbn [cop_meta cop_Status] in Happ.
  rewrite EnsureObjectMeta_self in Happ by done.
  destruct (ensureClusterOperatorStatus false _ _) as [modified st] eqn:He.
  destruct Happ as [Ht Happ].
  assert (conditions = cos_Conditions (cop_Status co)) as ->.
  { by eapply already_stays; [apply Hr | |]. }
  rewrite ensureClusterOperatorStatus_same in He.
  - injection He as <- <-. destruct Happ as [-> ->]. split; [done|].
    constructor; [done|]. apply Forall_forall. unfold now_steps.
    by intros s (t & -> & _)%list_elem_of_fmap.
  - unfold status_eq. simpl. rewrite Hext. split_and!; try apply sem_refl; by symmetry.
Qed.

(** ** On a cluster that answers *)

Definition now_read (s : step) : option Time :=
  match st_call s as c return resp c -> option Time with
  | Now => fun t => Some t
  | _ => fun _ => None
  end (st_resp s).

(** Two statuses that are compared equal lead to the same report. *)
Lemma status_eq_exact s s' :
  status_eq s s' ->
  cos_Conditions s = cos_Conditions s' /\ cos_RelatedObjects s = cos_RelatedObjects s' /\
  cos_Extension s = cos_Extension s'.
Proof.
  intros (Hc & _ & Hr & Ho & Hrel).
  apply (sem_exact (A:=list Condition)) in Hc. apply (sem_exact (A:=list Z)) in Hr.
  apply (sem_exact (A:=option string)) in Ho. apply (sem_exact (A:=list RelatedObject)) in Hrel.
  split_and!; [done..|]. destruct (cos_Extension s), (cos_Extension s'). simpl in *. congruence.
Qed.

(** A transition written with times that are not zero is reported already. *)
Lemma transitions_already previous changed nows status out :
  Forall (fun t => t <> zero_Time) nows ->
  Forall2 (transition previous changed nows) status out -> Forall2 already status out.
Proof.
  intros Hn Hf. eapply Forall2_impl; [exact Hf|]. intros c c' (H1 & H2 & H3 & H4 & H5).
  assert (Hfresh : forall t, t ∈ nows -> t <> zero_Time) by (by apply Forall_forall).
  unfold already. split_and!; try done. simpl in H5.
  destruct (changed && _); [by apply Hfresh|].
  destruct (find_condition previous _) as [p|]; [|by apply Hfresh].
  destruct (bool_decide _ && _) eqn:Hb; [|by apply Hfresh].
  reflect_bools. rewrite H5. by apply Z.eqb_neq.
Qed.

Section Cluster.
Context {W : Type} `{ClusterLaws W}.

Lemma run_clock {A} (p : prog A) w nows :
  healthy w -> trace p w = now_steps nows ->
  healthy (run p w).2 /\ unchanged_except [] w (run p w).2 /\ Forall (fun t => t <> zero_Time) nows.
Proof.
  revert w nows; induction p as [a|c k IH]; intros w nows Hw; simpl.
  - destruct nows; [|done]. intros _. split; [done|]. split; [apply unchanged_except_refl | done].
  - destruct (handle c w) as [r w1] eqn:Hh. destruct nows as [|t nows]; [done|].
    intros Heq. pose proof (f_equal (head (A:=step)) Heq) as Hc. apply (f_equal (tail (A:=step))) in Heq.
    simpl in Hc, Heq. pose proof (f_equal (fmap st_call) Hc) as Hnow. simpl in Hnow.
    injection Hnow as ->. apply (f_equal (fun s => s ≫= now_read)) in Hc. simpl in Hc.
    injection Hc as <-. pose proof (now_law w Hw) as Hl. unfold answers in Hl. rewrite Hh in Hl.
    destruct Hl as (Hw1 & Hu1 & _ & Ht). destruct (IH r w1 nows Hw1 Heq) as (? & Hu & ?).
    split; [done|]. split; [by eapply (unchanged_except_trans [] [])|]. by constructor.
Qed.

(** The owners of the ClusterOperator, if there is one, are different. *)
Definition owners_distinct (w : W) : Prop :=
  match view w KClusterOperator !! operator_key with
  | Some co => NoDup (or_UID <$> om_OwnerReferences (cop_meta co))
  | None => True
  end.

Lemma run_GetOrCreateClusterOperator w :
  healthy w -> owners_distinct w ->
  exists co w1, run GetOrCreateClusterOperator w = (inr co, w1) /\ healthy w1 /\
  unchanged_except [(KClusterOperator, operator_key)] w w1 /\
  view w1 KClusterOperator !! operator_key = Some co /\
  NoDup (or_UID <$> om_OwnerReferences (cop_meta co)).
Proof.
  intros Hw Hd.
  destruct (run_get w KClusterOperator operator_key (fun existing => match existing with
    | inl err => if IsNotFound err
        then ask (Create KClusterOperator (mkClusterOperator (named_meta OperatorName "") zero_COStatus))
        else Ret (inl err)
    | inr co => Ret (inr co) end) Hw) as (r & w1 & Hrun & _ & Hw1 & Hu1 & _ & Hr).
  match type of Hrun with _ = ?rhs => change (run GetOrCreateClusterOperator w = rhs) in Hrun end.
  rewrite Hrun. clear Hrun.
  assert (Hv1 : view w1 KClusterOperator !! operator_key = view w KClusterOperator !! operator_key)
    by (apply Hu1, not_elem_of_nil).
  unfold owners_distinct in Hd. cbn [obj] in *.
  destruct (view w KClusterOperator !! operator_key) as [co|] eqn:Hco; cbn [obj] in *; rewrite Hco in *.
  - subst r. exists co, w1. cbn [run]. split; [done|]. split; [done|].
    split; [by eapply unchanged_except_weaken; [apply list_subseteq_nil|]|]. done.
  - destruct Hr as (e & -> & He). cbv beta iota. rewrite He.
    set (o := mkClusterOperator (named_meta OperatorName "") zero_COStatus).
    pose proof (create_law w1 KClusterOperator o Hw1) as Hl. unfold answers in Hl.
    unfold ask. cbn [run]. destruct (handle _ w1) as [r2 w2]. cbn [fst snd] in Hl.
    destruct Hl as (Hw2 & Hu2 & _ & Hv2).
    change (obj_key (k:=KClusterOperator) o) with operator_key in *.
    cbn [obj] in *. rewrite Hv1 in Hv2.
    destruct Hv2 as (o' & -> & Hv2 & Ha & _).
    exists o', w2. split; [done|]. split; [done|].
    split; [by eapply (unchanged_except_trans [])|]. split; [done|].
    destruct Ha as (_ & _ & Ho). cbn [obj_meta] in Ho. rewrite Ho. apply NoDup_nil_2.
Qed.

(** Merging a status into the object that was read, and writing it if it
    changed, leaves an object with that status. *)
Lemma run_write_status co status w :
  healthy w -> view w KClusterOperator !! operator_key = Some co ->
  NoDup (or_UID <$> om_OwnerReferences (cop_meta co)) ->
  let p := (let '(modified, co) :=
              EnsureClusterOperatorStatus false co (mkClusterOperator (cop_meta co) status) in
            if modified then
              u <- ask (UpdateStatus KClusterOperator co) ;;
              Ret (match u with inl err => Some err | inr _ => None end)
            else Ret None) : prog (option error) in
  (run p w).1 = None /\ healthy (run p w).2 /\
  unchanged_except [(KClusterOperator, operator_key)] w (run p w).2 /\
  exists co', view (run p w).2 KClusterOperator !! operator_key = Some co' /\
    status_eq (cop_Status co') status /\ NoDup (or_UID <$> om_OwnerReferences (cop_meta co')).
Proof.
  intros Hw Hco Hd p. subst p. unfold EnsureClusterOperatorStatus. cbn [cop_meta cop_Status].
  rewrite EnsureObjectMeta_self by done.
  pose proof (ensureClusterOperatorStatus_status false (cop_Status co) status) as Hst.
  destruct (ensureClusterOperatorStatus_merges (cop_Status co) status) as (b & v & Hm & Hv).
  rewrite Hm in Hst |- *. simpl in Hst. cbv beta iota. destruct b; cbn [orb].
  - pose proof (view_key w KClusterOperator _ co Hw Hco : meta_key (cop_meta co) = operator_key) as Hkey.
    pose proof (update_status_law w (mkClusterOperator (cop_meta co) v) co Hw) as Hl.
    change (obj_key (k:=KClusterOperator) (mkClusterOperator (cop_meta co) v))
      with (meta_key (cop_meta co)) in Hl. rewrite Hkey in Hl.
    specialize (Hl Hco (or_intror eq_refl)). unfold answers in Hl. cbn [ask bind run].
    destruct (handle _ w) as [u w']. cbn [fst snd run] in *.
    destruct Hl as (Hw' & Hu & _ & o' & -> & Hv' & (_ & _ & Ho) & Hs).
    split; [done|]. split; [done|]. split; [done|]. exists o'. rewrite Hs, Ho. done.
  - rewrite Hv in Hst by done. cbn [run]. split; [done|]. split; [done|].
    split; [apply unchanged_except_refl|]. by exists co.
Qed.

Lemma run_ApplyStatus config status w :
  reportable status -> healthy w -> owners_distinct w ->
  let out := run (ApplyStatus config status) w in
  out.1 = None /\ healthy out.2 /\
  unchanged_except [(KClusterOperator, operator_key)] w out.2 /\
  exists co, view out.2 KClusterOperator !! operator_key = Some co /\ settled config status co.
Proof.
  intros (Hnd & Hp & Hz) Hw Hd. cbv zeta. unfold ApplyStatus. rewrite run_bind.
  destruct (run_GetOrCreateClusterOperator w Hw Hd) as (co & w1 & -> & Hw1 & Hu1 & Hco & Hown).
  cbn [fst snd]. cbv beta iota zeta.
  assert (Hstatus : (if gs_isnil (cos_Versions (set_CORelatedObjects (src_RelatedObjects config) status))
    then set_Versions (cos_Versions (cop_Status co)) (set_CORelatedObjects (src_RelatedObjects config) status)
    else set_CORelatedObjects (src_RelatedObjects config) status) =
    mkCOStatus (cos_Conditions status) (reported_versions status co) (src_RelatedObjects config)
      (cos_Extension status)).
  { unfold reported_versions. simpl. by destruct (gs_isnil _). }
  rewrite Hstatus. clear Hstatus. cbn [cos_Conditions cos_Versions]. rewrite !run_bind.
  set (stamp := stamp_conditions _ _). set (changed := negb _).
  set (reset := fun l => if changed then ResetProgressingTime l else Ret l).
  change (if changed then ResetProgressingTime (run stamp w1).1 else Ret (run stamp w1).1)
    with (reset (run stamp w1).1).
  destruct (conditions_exec _ changed _ _ _ _ _ Hnd Hp Hz (run_exec stamp w1)
    (run_exec (reset (run stamp w1).1) (run stamp w1).2)) as (nows & Hnows & Ht).
  rewrite <- trace_bind in Hnows. pose proof (run_clock (bind stamp reset) w1 nows Hw1 Hnows) as Hc.
  rewrite run_bind in Hc. destruct (run (reset _) _) as [conditions w2].
  cbn [fst snd] in *. destruct Hc as (Hw2 & Hu2 & Hnz).
  pose proof (eq_trans (Hu2 KClusterOperator operator_key (not_elem_of_nil _)) Hco) as Hco2.
  clear Hco. rename Hco2 into Hco.
  unfold set_Conditions. cbn [cos_Conditions cos_Versions cos_RelatedObjects cos_Extension].
  destruct (run_write_status co (mkCOStatus conditions (reported_versions status co)
    (src_RelatedObjects config) (cos_Extension status)) w2 Hw2 Hco Hown)
    as (-> & Hw3 & Hu3 & co' & Hco' & Hs & Hd').
  split; [done|]. split; [done|]. split.
  { eapply unchanged_except_weaken; [|exact (unchanged_except_trans _ _ _ _ _ Hu1
      (unchanged_except_trans _ _ _ _ _ Hu2 Hu3))]. set_solver. }
  exists co'. split; [done|]. destruct (status_eq_exact _ _ Hs) as (Hc1 & Hc2 & Hc3). simpl in Hc1, Hc2, Hc3.
  destruct Hs as (_ & Hv & _). simpl in Hv.
  split; [rewrite Hc1; by eapply transitions_already|]. split; [|by rewrite Hc2, Hc3].
  unfold reported_versions in *. destruct (gs_isnil (cos_Versions status)); [done|]. by symmetry.
Qed.
End Cluster.

(** *** An example report *)

Definition example_reporter : StatusReporterConfig :=
  mkStatusReporterConfig "default" "openshift-vertical-pod-autoscaler" "4.21.0" [].
Definition example_status : ClusterOperatorStatus :=
  report (condition OperatorAvailable ConditionTrue "" "at version 4.21.0")
    (condition OperatorProgressing ConditionFalse "" "") (condition OperatorDegraded ConditionFalse "" "")
    (mkslice [mkOperandVersion "operator" "4.21.0"]).
(** The operator was available at the version before. *)
Definition example_reported : ClusterOperator :=
  mkClusterOperator (named_meta OperatorName "")
    (report (mkCondition OperatorAvailable ConditionTrue 7 "" "at version 4.20.0")
       (mkCondition OperatorProgressing ConditionFalse 7 "" "")
       (mkCondition OperatorDegraded ConditionTrue 7 ReasonCheckAutoscaler "x")
       (mkslice [mkOperandVersion "operator" "4.20.0"])).
Definition example_reporting (co : ClusterOperator) : fake :=
  mkFake (put (k:=KClusterOperator) co empty_store) 10 100%nat [] [].
Definition example_steps : list step :=
  trace (ApplyStatus example_reporter example_status) (example_reporting example_reported).

(** Available stays, Progressing and Degraded get new times. *)
Lemma ApplyStatus_transition_times_witness :
  (exists co, cos_Versions (cop_Status co) ≃ mkslice [mkOperandVersion "operator" "4.21.0"] /\
     status_written <$> example_steps !! 5%nat = Some (Some co)) /\
  (fun co => cond_LastTransitionTime <$> cos_Conditions (cop_Status co)) <$>
    (example_steps !! 5%nat ≫= status_written) = Some [7; 104; 103].
Proof.
  assert (Hw : is_set (example_steps !! 5%nat ≫= status_written) = true) by (vm_compute; reflexivity).
  split; [|vm_compute; reflexivity].
  destruct (example_steps !! 5%nat ≫= status_written) as [o|] eqn:Ho; [|discriminate].
  apply bind_Some in Ho as (s & Hs & Ho). exists o. rewrite Hs. split; [|cbn [fmap option_fmap option_map]; by rewrite Ho].
  destruct (ApplyStatus_transition_times example_reporter example_status example_steps
    (run (ApplyStatus example_reporter example_status) (example_reporting example_reported)).1 s o)
    as (pre & co & nows & _ & _ & _ & _ & Hv & _).
  - apply report_reportable.
  - apply run_exec.
  - exact (list_elem_of_lookup_2 _ _ _ Hs).
  - exact Ho.
  - exact Hv.
Defined.
