(* ===== verification/Polling.v ===== *)
(** * The status loop

    What one report finds and says, for every execution, and how the loop of
    internal/operator/status.go ends; on a cluster that answers, a report says
    what is the case and is not repeated. *)

From S2P Require Import Prelude Go GoFmt Objects Api Util Args Resources Controller Server Operands.
From S2P Require Import Convergence Protocol ResourceMerge Status Reporting.

(** ** What a report finds *)

Inductive verdict := Healthy | Updating | Unreadable (err : error).

Definition vpa_key (config : StatusReporterConfig) : NamespacedName :=
  mkNN (src_VerticalPodAutoscalerNamespace config) (src_VerticalPodAutoscalerName config).

(** The deployment is the release's and has been rolled out. *)
Definition rolled_out (config : StatusReporterConfig) (d : Deployment) : Prop :=
  gm_lookup ReleaseVersionAnnotation (om_Annotations (dep_meta d)) = Some (src_ReleaseVersion config) /\
  om_Generation (dep_meta d) <= dst_ObservedGeneration (dep_Status d) /\
  dst_UpdatedReplicas (dep_Status d) = dst_Replicas (dep_Status d) /\
  dst_AvailableReplicas (dep_Status d) <> 0.

(** A check, with what it finds. *)
Inductive checked (config : StatusReporterConfig) : list step -> verdict -> Prop :=
| checked_unread err :
    checked config [mkStep (Get KVerticalPodAutoscalerController (vpa_key config)) (inl err)]
      (if IsNotFound err then Healthy else Unreadable err)
| checked_missing vpa err :
    checked config [mkStep (Get KVerticalPodAutoscalerController (vpa_key config)) (inr vpa);
                    mkStep (Get KDeployment (recommender_key config)) (inl err)]
      (if IsNotFound err then Updating else Unreadable err)
| checked_current vpa d :
    rolled_out config d ->
    checked config [mkStep (Get KVerticalPodAutoscalerController (vpa_key config)) (inr vpa);
                    mkStep (Get KDeployment (recommender_key config)) (inr d)] Healthy
| checked_outdated vpa d :
    ~ rolled_out config d ->
    checked config [mkStep (Get KVerticalPodAutoscalerController (vpa_key config)) (inr vpa);
                    mkStep (Get KDeployment (recommender_key config)) (inr d)] Updating.

(** The status reported for a verdict. *)
Definition verdict_status (config : StatusReporterConfig) (v : verdict) : ClusterOperatorStatus :=
  match v with
  | Healthy =>
      report (condition OperatorAvailable ConditionTrue "" ("at version " +:+ src_ReleaseVersion config))
        (condition OperatorProgressing ConditionFalse "" "")
        (condition OperatorDegraded ConditionFalse "" "")
        (mkslice [mkOperandVersion "operator" (src_ReleaseVersion config)])
  | Updating =>
      report (condition OperatorAvailable ConditionTrue "" "")
        (condition OperatorProgressing ConditionTrue "SyncingResources"
           ("updating to " +:+ src_ReleaseVersion config))
        (condition OperatorDegraded ConditionFalse "" "") nilslice
  | Unreadable err =>
      report (condition OperatorAvailable ConditionTrue "" "")
        (condition OperatorProgressing ConditionFalse "" "")
        (condition OperatorDegraded ConditionTrue "UnableToCheckAutoscalers"
           ("error checking VPA controllers status: " +:+ Error err)) nilslice
  end.
(** How an error of the status write is passed on. *)
Definition verdict_error (v : verdict) (err : error) : error :=
  match v with
  | Healthy => ErrorString ("failed to set available status: " +:+ Error err)
  | Updating => ErrorString ("failed to set progressing status: " +:+ Error err)
  | Unreadable _ => err
  end.

Lemma DeploymentUpdated_spec d :
  DeploymentUpdated d = true <->
  om_Generation (dep_meta d) <= dst_ObservedGeneration (dep_Status d) /\
  dst_UpdatedReplicas (dep_Status d) = dst_Replicas (dep_Status d) /\
  dst_AvailableReplicas (dep_Status d) <> 0.
Proof.
  unfold DeploymentUpdated.
  destruct (_ <? _) eqn:H1; [split; [done | intros (? & _); lia]|].
  destruct (_ =? dst_Replicas _) eqn:H2; simpl; [|split; [done | intros (_ & ? & _); lia]].
  destruct (_ =? 0) eqn:H3; simpl; [split; [done | intros (_ & _ & ?); lia]|].
  split; [intros _|done]. lia.
Qed.
Lemma rolled_out_spec config d :
  ReleaseVersionMatches (dep_meta d) (src_ReleaseVersion config) && DeploymentUpdated d = true <->
  rolled_out config d.
Proof. by rewrite andb_true_iff, ReleaseVersionMatches_spec, DeploymentUpdated_spec. Qed.

Definition verdict_answer (v : verdict) : bool * option error :=
  match v with
  | Healthy => (true, None)
  | Updating => (false, None)
  | Unreadable err => (false, Some err)
  end.
Lemma CheckVPARecommender_exec config tr a :
  exec (CheckVPARecommender config) tr a -> exists v, checked config tr v /\ a = verdict_answer v.
Proof.
  unfold CheckVPARecommender. cbn [bind ask].
  destruct tr as [|s tr]; [done|]. intros (r & -> & Hx). destruct r as [err|vpa].
  - eexists. destruct tr as [|s' tr]; [|by destruct (IsNotFound err)].
    split; [by constructor|]. by destruct (IsNotFound err); simpl in Hx; subst a.
  - destruct tr as [|s tr]; [done|]. destruct Hx as (r & -> & Hx). destruct r as [err|d].
    + eexists. destruct tr as [|s' tr]; [|by destruct (IsNotFound err)].
      split; [by constructor|]. by destruct (IsNotFound err); simpl in Hx; subst a.
    + pose proof (rolled_out_spec config d) as Hd.
      destruct (ReleaseVersionMatches _ _), (DeploymentUpdated d); simpl in Hd, Hx;
        (destruct tr; [|done]); simpl in Hx; subst a;
        [exists Healthy; split; [constructor; by apply Hd | done] | exists Updating..];
        (split; [constructor; intros Hn%Hd; discriminate | done]).
Qed.

(** The report for a verdict, in the words of the code. *)
Definition report_verdict (config : StatusReporterConfig) (v : verdict) : prog (bool * option error) :=
  e <- ApplyStatus config (verdict_status config v) ;;
  Ret (match e with
       | Some err => (false, Some (verdict_error v err))
       | None => (match v with Healthy => true | _ => false end, None)
       end).
Lemma verdict_reportable config v : reportable (verdict_status config v).
Proof. destruct v; apply report_reportable. Qed.

Lemma ReportStatus_exec config tr a :
  exec (ReportStatus config) tr a ->
  exists check rest v, tr = check ++ rest /\ checked config check v /\
    exec (report_verdict config v) rest a.
Proof.
  unfold ReportStatus. intros (check & rest & c & -> & (v & Hv & ->)%CheckVPARecommender_exec & Hx)%exec_bind.
  exists check, rest, v. split; [done|]. split; [done|]. by destruct v.
Qed.

(** *** Truthfulness *)

(** A condition without its time. *)
Definition untimed : Condition -> Condition := set_LastTransitionTime zero_Time.

Lemma transitions_untimed previous changed nows conds out :
  Forall (fun c => cond_LastTransitionTime c = zero_Time) conds ->
  Forall2 (transition previous changed nows) conds out -> untimed <$> out = conds.
Proof.
  intros Hz Hf. induction Hf as [|c c' conds out Hc _ IH]; [done|].
  apply Forall_cons in Hz as [Hz Hzs]. rewrite fmap_cons, (IH Hzs). f_equal.
  destruct Hc as (? & ? & ? & ? & _). destruct c, c'; unfold untimed, set_LastTransitionTime; simpl in *.
  congruence.
Qed.

Lemma checked_unwritten config tr v s : checked config tr v -> s ∈ tr -> status_written s = None.
Proof.
  destruct 1; rewrite ?elem_of_cons, ?elem_of_nil; intros Hs; by destruct_or!; subst.
Qed.

(** The answer of a report. *)
Lemma report_verdict_exec config v tr done e :
  exec (report_verdict config v) tr (done, e) ->
  exists e', exec (ApplyStatus config (verdict_status config v)) tr e' /\
  (done = true <-> v = Healthy /\ e = None) /\ (e = None -> e' = None) /\
  (forall err, e = Some err ->
     exists s err', s ∈ tr /\ step_error s = Some err' /\ err = verdict_error v err').
Proof.
  intros (tr1 & tr2 & e' & -> & Ha & Hx)%exec_bind. destruct tr2; [|done]. rewrite app_nil_r.
  simpl in Hx. exists e'. split; [done|].
  destruct e' as [err'|]; simplify_eq/=.
  - split; [split; [done | by intros [_ ?]]|]. split; [done|]. intros err [= <-].
    destruct (ApplyStatus_error _ _ _ _ (verdict_reportable config v) Ha) as (tr' & s & -> & Hs).
    exists s, err'. split; [|done]. apply elem_of_app. right. apply list_elem_of_here.
  - split; [destruct v; split; try done; by intros [? _] | done].
Qed.

(** C12 A report is truthful, whatever the API server answers.  It reads the
    custom resource and the recommender deployment; it says Degraded exactly when
    one of them could not be read, Progressing exactly when the recommender is
    missing, of another version or not rolled out, and the new version with
    neither otherwise.  It is done only in the last case, when the status was
    written; a check that failed does not stop the polling, a write that failed
    does. *)
Theorem ReportStatus_truthful config tr done e :
  exec (ReportStatus config) tr (done, e) ->
  exists check rest v, tr = check ++ rest /\ checked config check v /\
  (done = true <-> v = Healthy /\ e = None) /\
  (forall err, e = Some err ->
     exists s err', s ∈ rest /\ step_error s = Some err' /\ err = verdict_error v err') /\
  (forall s o, s ∈ tr -> status_written s = Some o ->
     untimed <$> cos_Conditions (cop_Status o) = cos_Conditions (verdict_status config v) /\
     (v = Healthy ->
      cos_Versions (cop_Status o) ≃ mkslice [mkOperandVersion "operator" (src_ReleaseVersion config)])).
Proof.
  intros (check & rest & v & -> & Hv & Hx)%ReportStatus_exec. exists check, rest, v.
  split; [done|]. split; [done|].
  destruct (report_verdict_exec _ _ _ _ _ Hx) as (e' & Ha & Hd & _ & He).
  pose proof (verdict_reportable config v) as Hr. split; [exact Hd|]. split; [exact He|].
  intros s o [Hs|Hs]%elem_of_app Ho; [by rewrite (checked_unwritten _ _ _ _ Hv Hs) in Ho|].
  destruct (ApplyStatus_written _ _ _ _ _ _ Hr Ha Hs Ho) as (pre & co & nows & _ & _ & _ & Ht & Hvs & _).
  split; [eapply transitions_untimed; [apply Hr | exact Ht]|]. by intros ->.
Qed.

(** ** How the loop ends *)

(** The rounds of a loop: reports that were made and were not the last. *)
Definition going_on (config : StatusReporterConfig) (rounds : list (list step)) : Prop :=
  Forall (fun round => exec (ReportStatus config) round (false, None)) rounds.

(** What happened after the rounds, and the result. *)
Definition loop_end (config : StatusReporterConfig) (waits : list bool) (n : nat) (last : list step)
    (r : option (option error)) : Prop :=
  match r with
  | None => last = [] /\ n = length waits
  | Some None => exec (ReportStatus config) last (true, None)
  | Some (Some err) =>
      (exists b, exec (ReportStatus config) last (b, Some err)) \/
      last = [] /\ err = context_canceled /\ waits !! n = Some true
  end.

Lemma poll_loop_exec config waits tr r :
  exec (poll_loop (ReportStatus config) waits) tr r ->
  exists rounds last, tr = concat rounds ++ last /\ going_on config rounds /\
  Forall (eq false) (take (length rounds) waits) /\ loop_end config waits (length rounds) last r.
Proof.
  revert tr r; induction waits as [|cancelled waits IH]; intros tr r; cbn [poll_loop].
  - destruct tr; [|done]. intros <-. exists [], []. split; [done|]. split; [constructor|]. by split; [constructor|].
  - destruct cancelled.
    + destruct tr; [|done]. intros <-. exists [], []. simpl. split; [done|]. split; [constructor|]. split; [constructor|].
      by right.
    + intros (round & rest & a & -> & Hround & Hx)%exec_bind.
      destruct a as [done_ [err|]]; [| destruct done_].
      * destruct rest; [|by destruct done_]. exists [], round. rewrite app_nil_r.
        assert (r = Some (Some err)) as -> by (by destruct done_).
        split; [done|]. split; [constructor|]. split; [constructor|]. left. by exists done_.
      * destruct rest; [|done]. simpl in Hx. subst r. exists [], round. rewrite app_nil_r.
        split; [done|]. split; [constructor|]. by split; [constructor|].
      * destruct (IH _ _ Hx) as (rounds & last & -> & Hg & Hw & Hl).
        exists (round :: rounds), last. simpl. rewrite app_assoc. split; [done|].
        split; [by constructor|]. split; [by constructor|].
        destruct r as [[err|]|]; simpl in *; [done..|]. destruct Hl as [-> ->]. done.
Qed.

Lemma healthy_report config tr :
  exec (ReportStatus config) tr (true, None) ->
  exists check rest, tr = check ++ rest /\ checked config check Healthy /\
    exec (ApplyStatus config (verdict_status config Healthy)) rest None.
Proof.
  intros (check & rest & v & -> & Hv & Hx)%ReportStatus_exec.
  destruct (report_verdict_exec _ _ _ _ _ Hx) as (e' & Ha & Hd & He & _).
  destruct (proj1 Hd eq_refl) as [-> _]. rewrite (He eq_refl) in Ha. by exists check, rest.
Qed.
Lemma failed_report config tr b err :
  exec (ReportStatus config) tr (b, Some err) ->
  exists check rest v s err', tr = check ++ rest /\ checked config check v /\
    s ∈ rest /\ step_error s = Some err' /\ err = verdict_error v err'.
Proof.
  intros (check & rest & v & -> & Hv & Hx)%ReportStatus_exec.
  destruct (report_verdict_exec _ _ _ _ _ Hx) as (e' & _ & _ & _ & He).
  destruct (He err eq_refl) as (s & err' & ? & ? & ?). by exists check, rest, v, s, err'.
Qed.

(** C23 How the loop ends: it reports at once and after every wait, and goes on
    only after reports that wrote their status and did not find the operator
    available.  It returns without an error only when a check found the custom
    resource gone or its recommender rolled out, and the Available status was
    applied; it returns an error only when a status could not be written or the
    context was cancelled. *)
Theorem Start_ends config waits tr r :
  exec (Start config waits) tr r ->
  exists rounds last, tr = concat rounds ++ last /\ going_on config rounds /\
  Forall (eq false) (take (pred (length rounds)) waits) /\
  match r with
  | None => last = [] /\ length rounds = S (length waits)
  | Some None => exists check rest, last = check ++ rest /\ checked config check Healthy /\
      exec (ApplyStatus config (verdict_status config Healthy)) rest None
  | Some (Some err) =>
      (exists check rest v s err', last = check ++ rest /\ checked config check v /\
         s ∈ rest /\ step_error s = Some err' /\ err = verdict_error v err') \/
      last = [] /\ err = context_canceled /\ waits !! pred (length rounds) = Some true
  end.
Proof.
  intros (first & rest & [done_ e] & -> & Hf & Hx)%exec_bind.
  destruct e as [err|]; [|destruct done_].
  - destruct rest; [|by destruct done_]. rewrite app_nil_r.
    assert (r = Some (Some err)) as -> by (by destruct done_).
    exists [], first. split; [done|]. split; [constructor|]. split; [constructor|].
    left. exact (failed_report _ _ _ _ Hf).
  - destruct rest; [|done]. rewrite app_nil_r. simpl in Hx. subst r.
    exists [], first. split; [done|]. split; [constructor|]. split; [constructor|].
    by apply healthy_report.
  - destruct (poll_loop_exec _ _ _ _ Hx) as (rounds & last & -> & Hg & Hw & Hl).
    exists (first :: rounds), last. split; [simpl; by rewrite app_assoc|].
    split; [by constructor|]. split; [done|]. destruct r as [[err|]|]; simpl in Hl |- *.
    + destruct Hl as [[b Hl]|Hl]; [left; exact (failed_report _ _ _ _ Hl) | by right].
    + by apply healthy_report.
    + destruct Hl as [-> ->]. done.
Qed.

(** ** On a cluster that answers *)

Section Cluster.
Context {W : Type} `{ClusterLaws W}.

(** What is the case in a world. *)
Definition current_verdict (config : StatusReporterConfig) (w : W) : verdict :=
  match view w KVerticalPodAutoscalerController !! vpa_key config with
  | None => Healthy
  | Some _ =>
      match view w KDeployment !! recommender_key config with
      | None => Updating
      | Some d =>
          if ReleaseVersionMatches (dep_meta d) (src_ReleaseVersion config) && DeploymentUpdated d
          then Healthy else Updating
      end
  end.

Lemma run_CheckVPARecommender config w :
  healthy w ->
  exists w1, run (CheckVPARecommender config) w = (verdict_answer (current_verdict config w), w1) /\
  healthy w1 /\ unchanged_except [] w w1 /\
  Forall (fun s => is_write (st_call s) = false) (trace (CheckVPARecommender config) w).
Proof.
  intros Hw. remember (current_verdict config w) as v eqn:Hc. unfold current_verdict in Hc.
  unfold CheckVPARecommender. fold (vpa_key config).
  serve_get Hw Hg. destruct Hg as (r & w1 & -> & -> & Hw1 & Hu1 & _ & Hr).
  pose proof (Hu1 KDeployment (recommender_key config) (not_elem_of_nil _)) as Hd. cbn [obj] in *.
  destruct (view w KVerticalPodAutoscalerController !! vpa_key config) as [vpa|] eqn:Hv;
    cbn [obj] in *; rewrite Hv in Hr, Hc.
  - subst r. cbv beta iota. serve_get Hw1 Hg. destruct Hg as (r & w2 & -> & -> & Hw2 & Hu2 & _ & Hr). cbn [obj] in *.
    rewrite Hd in Hr. pose proof (unchanged_except_trans [] [] _ _ _ Hu1 Hu2) as Hu.
    destruct (view w KDeployment !! recommender_key config) as [d|] eqn:Hv2;
      cbn [obj] in *; rewrite Hv2 in Hr, Hc.
    + subst r. exists w2.
      destruct (ReleaseVersionMatches _ _); [destruct (DeploymentUpdated d)|]; cbn [andb negb run trace] in *;
        subst v; (split; [done|]; split; [done|]; split; [done|]; by repeat constructor).
    + destruct Hr as (e & -> & He). exists w2. cbv beta iota. rewrite He, Hc. cbn [run trace].
      split; [done|]. split; [done|]. split; [done|]. by repeat constructor.
  - destruct Hr as (e & -> & He). exists w1. cbv beta iota. rewrite He, Hc. cbn [run trace].
    split; [done|]. split; [done|]. split; [done|]. by repeat constructor.
Qed.
Lemma current_verdict_readable config w err : current_verdict config w <> Unreadable err.
Proof. unfold current_verdict. by repeat case_match. Qed.


(** The object that the operator reports through. *)
Definition says (config : StatusReporterConfig) (v : verdict) (w : W) : Prop :=
  exists co, view w KClusterOperator !! operator_key = Some co /\
    settled config (verdict_status config v) co.

Lemma ReportStatus_parts config :
  exists report, ReportStatus config = bind (CheckVPARecommender config) report /\
  forall v, report (verdict_answer v) = report_verdict config v.
Proof. eexists. split; [reflexivity|]. by intros []. Qed.

(** One report: the check only reads, the write touches the ClusterOperator only. *)
Lemma run_ReportStatus config w :
  healthy w -> owners_distinct w ->
  let v := current_verdict config w in
  let out := run (ReportStatus config) w in
  out.1 = verdict_answer v /\ healthy out.2 /\
  unchanged_except [(KClusterOperator, operator_key)] w out.2 /\ says config v out.2.
Proof.
  intros Hw Hd. cbv zeta. destruct (ReportStatus_parts config) as (report & -> & Hrep).
  destruct (run_CheckVPARecommender config w Hw) as (w1 & Hrun & Hw1 & Hu1 & _).
  rewrite run_bind, Hrun. cbn [fst snd]. rewrite Hrep. unfold report_verdict. rewrite run_bind.
  assert (Hd1 : owners_distinct w1).
  { pose proof (Hu1 KClusterOperator operator_key (not_elem_of_nil _)) as Hk.
    unfold owners_distinct in *. cbn [obj] in *. by rewrite Hk. }
  destruct (run_ApplyStatus config (verdict_status config (current_verdict config w)) w1
    (verdict_reportable _ _) Hw1 Hd1) as (-> & Hw2 & Hu2 & Hco).
  cbn [run fst snd]. pose proof (current_verdict_readable config w) as Hr.
  split; [by destruct (current_verdict config w) as [| |err]; [..|destruct (Hr err)]|].
  split; [done|]. split; [exact (unchanged_except_trans [] _ _ _ _ Hu1 Hu2) | done].
Qed.

Lemma trace_get {A} w k key (f : _ -> prog A) o :
  healthy w -> view w k !! key = Some o ->
  exists rest, trace (Do (Get k key) f) w = mkStep (Get k key) (inr o) :: rest.
Proof.
  intros Hw Ho. destruct (run_get w k key f Hw) as (r & w1 & _ & Ht & _ & _ & _ & Hr).
  rewrite Ho in Hr. subst r. eexists. exact Ht.
Qed.

(** When the object says what is the case, nothing is written. *)
Lemma trace_ReportStatus config w :
  healthy w -> says config (current_verdict config w) w ->
  Forall (fun s => is_write (st_call s) = false) (trace (ReportStatus config) w).
Proof.
  intros Hw (co & Hco & Hs). destruct (ReportStatus_parts config) as (report & -> & Hrep).
  destruct (run_CheckVPARecommender config w Hw) as (w1 & Hrun & Hw1 & Hu1 & Ht).
  rewrite trace_bind, Hrun. cbn [fst snd]. rewrite Hrep. apply Forall_app. split; [exact Ht|].
  unfold report_verdict. rewrite trace_bind. cbn [trace]. rewrite app_nil_r.
  set (p := ApplyStatus config _).
  assert (exists rest, trace p w1 = mkStep (Get KClusterOperator operator_key) (inr co) :: rest)
    as [rest Hrest].
  { assert (exists f, p = Do (Get KClusterOperator operator_key) f) as [f ->] by (eexists; reflexivity).
    apply trace_get; [done|].
    exact (eq_trans (Hu1 KClusterOperator operator_key (not_elem_of_nil _)) Hco). }
  exact (proj2 (ApplyStatus_quiet config _ _ _ co rest (verdict_reportable _ _) Hs (run_exec p w1) Hrest)).
Qed.
End Cluster.

(** C31 On a cluster nobody interferes with, one report says what is the case,
    touches the ClusterOperator only, and is not repeated: a further report finds
    the same and writes nothing.  If the operand is rolled out, or there is no
    custom resource, the loop ends at once and without an error. *)
Theorem ReportStatus_settles {W} `{ClusterLaws W} config (w : W) :
  healthy w -> owners_distinct w ->
  let v := current_verdict config w in
  let first := run (ReportStatus config) w in
  first.1 = verdict_answer v /\ says config v first.2 /\
  unchanged_except [(KClusterOperator, operator_key)] w first.2 /\
  (run (ReportStatus config) first.2).1 = first.1 /\
  Forall (fun s => is_write (st_call s) = false) (trace (ReportStatus config) first.2) /\
  (v = Healthy -> forall waits, (run (Start config waits) w).1 = Some None).
Proof.
  intros Hw Hd v first.
  destruct (run_ReportStatus config w Hw Hd) as (Ha & Hw1 & Hu & Hs).
  fold v first in Ha, Hw1, Hu, Hs.
  assert (Hv : current_verdict config first.2 = v).
  { unfold v, current_verdict.
    by rewrite (Hu KVerticalPodAutoscalerController), (Hu KDeployment) by set_solver. }
  assert (Hd1 : owners_distinct first.2).
  { destruct Hs as (co & Hco & _ & _ & _ & _ & Hn). unfold owners_distinct.
    cbn [obj] in *. by rewrite Hco. }
  destruct (run_ReportStatus config first.2 Hw1 Hd1) as (Ha1 & _ & _ & _). rewrite Hv in Ha1.
  split; [done|]. split; [done|]. split; [done|]. split; [by rewrite Ha, Ha1|].
  split; [apply trace_ReportStatus; [done | by rewrite Hv]|].
  intros Hh waits. unfold Start. rewrite run_bind. fold first. rewrite Ha, Hh. done.
Qed.

(** *** Examples *)

(** The recommender of the example, rolled out with one replica. *)
Definition example_recommender (available : Z) : Deployment :=
  let d := AutoscalerDeployment example_cfg example_vpa recommenderParams in
  mkDeployment (dep_type d) (dep_meta d) (dep_Spec d) (mkDeploymentStatus 1 1 1 available no_others).
Definition example_status_world (available : Z) : fake :=
  mkFake (put (k:=KDeployment) (example_recommender available) example_store) 10 100%nat [] [].

(** Rolled out: done, and the status says so. *)
Lemma ReportStatus_truthful_witness :
  let tr := trace (ReportStatus example_reporter) (example_status_world 1) in
  (run (ReportStatus example_reporter) (example_status_world 1)).1 = (true, None) /\
  exists check rest, tr = check ++ rest /\ checked example_reporter check Healthy.
Proof.
  assert (Hr : (run (ReportStatus example_reporter) (example_status_world 1)).1 = (true, None))
    by (vm_compute; reflexivity).
  split; [exact Hr|].
  destruct (ReportStatus_truthful example_reporter _ true None
    (eq_ind _ (exec (ReportStatus example_reporter) (trace _ (example_status_world 1)))
       (run_exec _ _) _ Hr)) as (check & rest & v & Htr & Hv & Hd & _).
  destruct (proj1 Hd eq_refl) as [-> _]. exists check, rest. split; [exact Htr | exact Hv].
Defined.

(** Cancelled while the recommender has no available replica. *)
Lemma Start_ends_witness :
  (run (Start example_reporter [false; true]) (example_status_world 0)).1 = Some (Some context_canceled) /\
  exists rounds last,
  trace (Start example_reporter [false; true]) (example_status_world 0) = concat rounds ++ last /\
  going_on example_reporter rounds.
Proof.
  split; [vm_compute; reflexivity|].
  destruct (Start_ends example_reporter [false; true] _ _
    (run_exec (Start example_reporter [false; true]) (example_status_world 0)))
    as (rounds & last & Htr & Hg & _).
  exists rounds, last. split; [exact Htr | exact Hg].
Defined.

Lemma ReportStatus_settles_witness :
  let w := example_status_world 1 in
  let first := run (ReportStatus example_reporter) w in
  says example_reporter Healthy first.2 /\
  Forall (fun s => is_write (st_call s) = false) (trace (ReportStatus example_reporter) first.2) /\
  (run (Start example_reporter []) w).1 = Some None.
Proof.
  destruct (ReportStatus_settles example_reporter (example_status_world 1)) as (_ & Hs & _ & _ & Ht & He).
  - split; [reflexivity|]. apply well_keyed_put, example_well_keyed.
  - exact I.
  - split; [exact Hs|]. split; [exact Ht|]. apply He. vm_compute. reflexivity.
Defined.
