(* ===== verification/OperatorConfig.v ===== *)
(** * The configuration of the operator

    internal/operator/config.go and infrastructure.go: the environment variables
    the operator is configured with, and the topology of the control plane.  The
    environment is a map ([os.LookupEnv] is its lookup). *)

From S2P Require Import Prelude Go GoFmt Objects Api.

(** ** config.go *)

Definition DefaultWatchNamespace : string := "openshift-vertical-pod-autoscaler".
Definition DefaultVerticalPodAutoscalerNamespace : string := "openshift-vertical-pod-autoscaler".
Definition DefaultVerticalPodAutoscalerName : string := "default".
Definition DefaultVerticalPodAutoscalerImage : string :=
  "quay.io/openshift/origin-vertical-pod-autoscaler:latest".
Definition DefaultVerticalPodAutoscalerVerbosity : Z := 1.

(** [operator.Config]. *)
Record OperatorConfig := mkOperatorConfig {
  oc_ReleaseVersion : string;
  oc_WatchNamespace : string;
  oc_VerticalPodAutoscalerNamespace : string;
  oc_VerticalPodAutoscalerName : string;
  oc_VerticalPodAutoscalerImage : string;
  oc_VerticalPodAutoscalerVerbosity : Z;
  oc_VerticalPodAutoscalerExtraArgs : string
}.

Definition NewConfig : OperatorConfig :=
  mkOperatorConfig "" DefaultWatchNamespace DefaultVerticalPodAutoscalerNamespace
    DefaultVerticalPodAutoscalerName DefaultVerticalPodAutoscalerImage
    DefaultVerticalPodAutoscalerVerbosity "".

(** [if v, ok := os.LookupEnv(name); ok { field = v }]. *)
Definition override (env : gmap string string) (name value : string) : string :=
  match env !! name with Some v => v | None => value end.
Definition override_verbosity (env : gmap string string) (value : Z) : Z :=
  match env !! "VERTICAL_POD_AUTOSCALER_VERBOSITY" with
  | Some caVerbosity =>
      match Atoi caVerbosity with
      | Some v => v
      | None => DefaultVerticalPodAutoscalerVerbosity
      end
  | None => value
  end.
Definition ConfigFromEnvironment (env : gmap string string) : OperatorConfig :=
  let config := NewConfig in
  mkOperatorConfig
    (override env "RELEASE_VERSION" (oc_ReleaseVersion config))
    (override env "WATCH_NAMESPACE" (oc_WatchNamespace config))
    (override env "VERTICAL_POD_AUTOSCALER_NAMESPACE" (oc_VerticalPodAutoscalerNamespace config))
    (override env "VERTICAL_POD_AUTOSCALER_NAME" (oc_VerticalPodAutoscalerName config))
    (override env "VPA_OPERAND_IMAGE" (oc_VerticalPodAutoscalerImage config))
    (override_verbosity env (oc_VerticalPodAutoscalerVerbosity config))
    (override env "VERTICAL_POD_AUTOSCALER_EXTRA_ARGS" (oc_VerticalPodAutoscalerExtraArgs config)).

(** ** infrastructure.go *)

Definition InfrastructureName : string := "cluster".
Definition ExternalTopologyMode : string := "External".

(** [clientErr] is the error of [osconfig.NewForConfig]. *)
Definition GetControlPlaneTopology (clientErr : option error) : prog (error + string) :=
  match clientErr with
  | Some err => Ret (inl (WrapError "failed to create config client" err))
  | None =>
      infra <- ask (Get KInfrastructure (mkNN "" InfrastructureName)) ;;
      Ret (match infra with
           | inl err => inl (WrapError "failed to get Infrastructure resource" err)
           | inr infra => inr (infra_ControlPlaneTopology infra)
           end)
  end.
Definition IsExternalControlPlane (clientErr : option error) : prog bool :=
  topology <- GetControlPlaneTopology clientErr ;;
  Ret (match topology with
       | inl _ => false
       | inr topology => bool_decide (topology = ExternalTopologyMode)
       end).

(** ** What the operator is configured with *)

(** The variables the operator reads. *)
Definition variables : list string :=
  ["RELEASE_VERSION"; "WATCH_NAMESPACE"; "VERTICAL_POD_AUTOSCALER_NAMESPACE";
   "VERTICAL_POD_AUTOSCALER_NAME"; "VPA_OPERAND_IMAGE"; "VERTICAL_POD_AUTOSCALER_VERBOSITY";
   "VERTICAL_POD_AUTOSCALER_EXTRA_ARGS"].
(** The environment that asks for a configuration. *)
Definition environment_of (c : OperatorConfig) : gmap string string :=
  list_to_map (zip variables
    [oc_ReleaseVersion c; oc_WatchNamespace c; oc_VerticalPodAutoscalerNamespace c;
     oc_VerticalPodAutoscalerName c; oc_VerticalPodAutoscalerImage c;
     Itoa (oc_VerticalPodAutoscalerVerbosity c); oc_VerticalPodAutoscalerExtraArgs c]).

Lemma Atoi_in_range s v : Atoi s = Some v -> in_range 64 v.
Proof.
  assert (Hs : forall neg rest, (n ← parse_digits rest;
    let v := if (neg : bool) then - n else n in
    if bool_decide (- 2 ^ 63 <= v < 2 ^ 63) then Some v else None) = Some v -> in_range 64 v).
  { intros neg rest (n & _ & Hn)%bind_Some. cbv zeta in Hn.
    case_bool_decide as Hr; [|done]. injection Hn as <-. exact Hr. }
  unfold Atoi. destruct s as [|a rest]; [apply (Hs false)|].
  destruct a as [[] [] [] [] [] [] [] []]; first [apply (Hs true) | apply (Hs false)].
Qed.

(** C37 Every configuration can be asked for, and is read back: an environment
    that sets the seven variables to a configuration (its verbosity an [int])
    gives this configuration, whatever else is set; each variable that is not
    set leaves the default of its field, and a verbosity that is not an integer
    counts as the default. *)
Theorem ConfigFromEnvironment_reads_back c other env :
  in_range 64 (oc_VerticalPodAutoscalerVerbosity c) ->
  ConfigFromEnvironment (environment_of c ∪ other) = c /\
  (Forall (fun v => env !! v = None) variables -> ConfigFromEnvironment env = NewConfig) /\
  (forall s, Atoi s = None ->
     ConfigFromEnvironment (<["VERTICAL_POD_AUTOSCALER_VERBOSITY" := s]> env) =
     ConfigFromEnvironment (delete "VERTICAL_POD_AUTOSCALER_VERBOSITY" env)) /\
  in_range 64 (oc_VerticalPodAutoscalerVerbosity (ConfigFromEnvironment env)).
Proof.
  intros Hc. split; [|split; [|split]].
  - assert (He : forall k v, environment_of c !! k = Some v -> (environment_of c ∪ other) !! k = Some v)
      by (intros k v; apply lookup_union_Some_l).
    unfold ConfigFromEnvironment, override, override_verbosity.
    rewrite (He "RELEASE_VERSION" (oc_ReleaseVersion c) eq_refl), (He "WATCH_NAMESPACE" (oc_WatchNamespace c) eq_refl),
      (He "VERTICAL_POD_AUTOSCALER_NAMESPACE" (oc_VerticalPodAutoscalerNamespace c) eq_refl), (He "VERTICAL_POD_AUTOSCALER_NAME" (oc_VerticalPodAutoscalerName c) eq_refl),
      (He "VPA_OPERAND_IMAGE" (oc_VerticalPodAutoscalerImage c) eq_refl), (He "VERTICAL_POD_AUTOSCALER_VERBOSITY" (Itoa (oc_VerticalPodAutoscalerVerbosity c)) eq_refl),
      (He "VERTICAL_POD_AUTOSCALER_EXTRA_ARGS" (oc_VerticalPodAutoscalerExtraArgs c) eq_refl), Atoi_Itoa by done.
    by destruct c.
  - intros He. unfold ConfigFromEnvironment, override, override_verbosity.
    unfold variables in He. rewrite !Forall_cons in He. destruct He as (-> & -> & -> & -> & -> & -> & -> & _). done.
  - intros s Hs. unfold ConfigFromEnvironment, override, override_verbosity.
    rewrite lookup_insert_eq, lookup_delete_eq, Hs. by rewrite !lookup_insert_ne, !lookup_delete_ne by done.
  - simpl. unfold override_verbosity. destruct (env !! _) as [s|]; [|by vm_compute].
    destruct (Atoi s) as [v|] eqn:Hv; [by eapply Atoi_in_range | by vm_compute].
Qed.


(** A quieter operator of another namespace. *)
Definition example_operator_config : OperatorConfig :=
  mkOperatorConfig "4.21.0" "vpa" "vpa" "default" "quay.io/openshift/vpa:v1" 4 "".
Lemma ConfigFromEnvironment_reads_back_witness :
  ConfigFromEnvironment (environment_of example_operator_config ∪ {["HOME" := "/"]}) =
    example_operator_config /\
  ConfigFromEnvironment {["VERTICAL_POD_AUTOSCALER_VERBOSITY" := "loud"]} = NewConfig.
Proof.
  destruct (ConfigFromEnvironment_reads_back example_operator_config {["HOME" := "/"]} ∅)
    as (H1 & H2 & H3 & _).
  - unfold in_range. simpl. lia.
  - split; [exact H1|]. transitivity (ConfigFromEnvironment (delete "VERTICAL_POD_AUTOSCALER_VERBOSITY" ∅)).
    + exact (H3 "loud" eq_refl).
    + rewrite delete_empty. apply H2. repeat constructor.
Defined.

(** The answer to a read of the Infrastructure object. *)
Definition infra_read (s : step) : option Infrastructure :=
  match st_call s as c return resp c -> option Infrastructure with
  | Get KInfrastructure _ => fun r => match r with inr o => Some o | inl _ => None end
  | _ => fun _ => None
  end (st_resp s).

Lemma IsExternalControlPlane_exec clientErr tr external :
  exec (IsExternalControlPlane clientErr) tr external ->
  (external = true <-> exists infra,
     tr = [mkStep (Get KInfrastructure (mkNN "" "cluster")) (inr infra)] /\
     infra_ControlPlaneTopology infra = "External") /\
  (length tr <= 1)%nat /\ Forall (fun s => is_write (st_call s) = false) tr.
Proof.
  unfold IsExternalControlPlane, GetControlPlaneTopology.
  destruct clientErr as [err|]; cbn [bind ask exec].
  - destruct tr; [|done]. intros <-. split; [|by split; [simpl; lia|]].
    split; [done | by intros (? & ? & _)].
  - destruct tr as [|s tr]; [done|]. intros (r & -> & Hx). destruct tr; [|done]. simpl in Hx.
    split; [|by split; [simpl; lia | repeat constructor]]. subst external.
    destruct r as [err|infra]; [split; [done|]|].
    + intros (infra & Hi & _). apply (f_equal (fun l => length (omap infra_read l))) in Hi. done.
    + rewrite bool_decide_eq_true. split; [intros Ht; by exists infra|].
      intros (infra' & Hi & Ht). apply (f_equal (omap infra_read)) in Hi. simpl in Hi.
      injection Hi as ->. exact Ht.
Qed.

(** The operator schedules for an external control plane only when the
    Infrastructure object says so: if the object or its client cannot be had, or
    it has any other topology, the answer is no; the object is read once, and
    nothing is written. *)
Lemma IsExternalControlPlane_safe clientErr tr external :
  exec (IsExternalControlPlane clientErr) tr external ->
  (external = true <-> exists infra,
     tr = [mkStep (Get KInfrastructure (mkNN "" "cluster")) (inr infra)] /\
     infra_ControlPlaneTopology infra = "External") /\
  (length tr <= 1)%nat /\ Forall (fun s => is_write (st_call s) = false) tr.
Proof. apply IsExternalControlPlane_exec. Qed.

Lemma IsExternalControlPlane_safe_witness :
  let infra := mkInfrastructure (named_meta "cluster" "") "External" no_others in
  exists infra',
    [mkStep (Get KInfrastructure (mkNN "" "cluster")) (inr infra)] =
    [mkStep (Get KInfrastructure (mkNN "" "cluster")) (inr infra')] /\
    infra_ControlPlaneTopology infra' = "External".
Proof.
  cbv zeta. set (infra := mkInfrastructure _ _ _).
  refine (proj1 (proj1 (IsExternalControlPlane_safe None
    [mkStep (Get KInfrastructure (mkNN "" "cluster")) (inr infra)] true _)) eq_refl).
  exists (inr infra). split; reflexivity.
Defined.
