(* ===== verification/Metrics.v ===== *)
(** * The TLS settings of the metrics server

    The functions through which cmd/main.go gives the metrics server the TLS
    profile of the cluster: the version and cipher tables of library-go and
    [NewTLSConfigFromProfile] of controller-runtime-common; and the watcher that
    restarts the operator when the profile changes.  A panic is [None]. *)

From S2P Require Import Prelude Go GoFmt Objects Api Util Args Resources Controller Server Operands.

(** ** Tables (library-go/pkg/crypto) *)

Definition versions : gmap string Z := list_to_map [
  ("VersionTLS10", 0x0301); ("VersionTLS11", 0x0302);
  ("VersionTLS12", 0x0303); ("VersionTLS13", 0x0304)].
Definition DefaultTLSVersion : Z := 0x0303.
Definition TLSVersion (versionName : string) : error + Z :=
  if (String.length versionName =? 0)%nat then inr DefaultTLSVersion
  else match versions !! versionName with
       | Some version => inr version
       | None => inl (ErrorString ("unknown tls version " +:+ versionName))
       end.
Definition TLSVersionOrDie (versionName : string) : option Z :=
  match TLSVersion versionName with inr version => Some version | inl _ => None end.

(** The cipher suites of Go's crypto/tls, by their IANA numbers. *)
Definition ciphersList : list (string * Z) := [
  ("TLS_RSA_WITH_RC4_128_SHA", 0x0005);
  ("TLS_RSA_WITH_3DES_EDE_CBC_SHA", 0x000a);
  ("TLS_RSA_WITH_AES_128_CBC_SHA", 0x002f);
  ("TLS_RSA_WITH_AES_256_CBC_SHA", 0x0035);
  ("TLS_RSA_WITH_AES_128_CBC_SHA256", 0x003c);
  ("TLS_RSA_WITH_AES_128_GCM_SHA256", 0x009c);
  ("TLS_RSA_WITH_AES_256_GCM_SHA384", 0x009d);
  ("TLS_ECDHE_ECDSA_WITH_RC4_128_SHA", 0xc007);
  ("TLS_ECDHE_ECDSA_WITH_AES_128_CBC_SHA", 0xc009);
  ("TLS_ECDHE_ECDSA_WITH_AES_256_CBC_SHA", 0xc00a);
  ("TLS_ECDHE_RSA_WITH_RC4_128_SHA", 0xc011);
  ("TLS_ECDHE_RSA_WITH_3DES_EDE_CBC_SHA", 0xc012);
  ("TLS_ECDHE_RSA_WITH_AES_128_CBC_SHA", 0xc013);
  ("TLS_ECDHE_RSA_WITH_AES_256_CBC_SHA", 0xc014);
  ("TLS_ECDHE_ECDSA_WITH_AES_128_CBC_SHA256", 0xc023);
  ("TLS_ECDHE_RSA_WITH_AES_128_CBC_SHA256", 0xc027);
  ("TLS_ECDHE_RSA_WITH_AES_128_GCM_SHA256", 0xc02f);
  ("TLS_ECDHE_ECDSA_WITH_AES_128_GCM_SHA256", 0xc02b);
  ("TLS_ECDHE_RSA_WITH_AES_256_GCM_SHA384", 0xc030);
  ("TLS_ECDHE_ECDSA_WITH_AES_256_GCM_SHA384", 0xc02c);
  ("TLS_ECDHE_RSA_WITH_CHACHA20_POLY1305", 0xcca8);
  ("TLS_ECDHE_ECDSA_WITH_CHACHA20_POLY1305", 0xcca9);
  ("TLS_ECDHE_RSA_WITH_CHACHA20_POLY1305_SHA256", 0xcca8);
  ("TLS_ECDHE_ECDSA_WITH_CHACHA20_POLY1305_SHA256", 0xcca9);
  ("TLS_AES_128_GCM_SHA256", 0x1301);
  ("TLS_AES_256_GCM_SHA384", 0x1302);
  ("TLS_CHACHA20_POLY1305_SHA256", 0x1303)].
Definition ciphers : gmap string Z := list_to_map ciphersList.
Definition CipherSuite (cipherName : string) : error + Z :=
  match ciphers !! cipherName with
  | Some cipher => inr cipher
  | None => inl (ErrorString ("unknown cipher name " +:+ cipherName))
  end.
Arguments ciphers : simpl never.

(** ** NewTLSConfigFromProfile (controller-runtime-common/pkg/tls) *)

(** The fields of [tls.Config] that the operator sets. *)
Record tls_config := mkTLSConfig {
  tc_MinVersion : Z;
  tc_CipherSuites : goslice Z;
  tc_NextProtos : goslice string
}.

Definition cipherCode (cipher : string) : Z :=
  match CipherSuite cipher with
  | inr code => code
  | inl _ =>
      match OpenSSLToIANACipherSuites [cipher] with
      | [ianaCipher] =>
          match CipherSuite ianaCipher with
          | inr code => code
          | inl _ => 0
          end
      | _ => 0
      end
  end.

Arguments cipherCode : simpl never.

(** The loop of [cipherCodes]. *)
Fixpoint cipher_loop (l : list string) (codes : goslice Z) (unsupported : goslice string) :
    goslice Z * goslice string :=
  match l with
  | [] => (codes, unsupported)
  | cipher :: l =>
      let code := cipherCode cipher in
      if code =? 0 then cipher_loop l codes (gs_append unsupported cipher)
      else cipher_loop l (gs_append codes code) unsupported
  end.
Definition cipherCodes (l : list string) : goslice Z * goslice string :=
  cipher_loop l nilslice nilslice.

Definition NewTLSConfigFromProfile (profile : TLSProfileSpec) :
    option ((tls_config -> tls_config) * goslice string) :=
  minVersion ← TLSVersionOrDie (tls_MinTLSVersion profile);
  let '(cipherSuites, unsupportedCiphers) := cipherCodes (gs_list (tls_Ciphers profile)) in
  Some (fun tlsConf =>
          mkTLSConfig minVersion
            (if negb (minVersion =? 0x0304) then cipherSuites else tc_CipherSuites tlsConf)
            (tc_NextProtos tlsConf),
        unsupportedCiphers).

(** ** The two consumers of a profile agree *)

(** Appending the elements of a list one by one. *)
Definition gs_extend {A} (s : goslice A) (new : list A) : goslice A :=
  match new with [] => s | _ => mkslice (gs_list s ++ new) end.
Lemma gs_extend_append {A} (s : goslice A) x new : gs_extend (gs_append s x) new = gs_extend s (x :: new).
Proof. destruct new; simpl; [done|]. by rewrite <- app_assoc. Qed.

#[local] Opaque cipherCode.
Lemma cipher_loop_spec l codes unsupported :
  cipher_loop l codes unsupported =
  (gs_extend codes (List.filter (fun z => negb (z =? 0)) (map cipherCode l)),
   gs_extend unsupported (List.filter (fun c => cipherCode c =? 0) l)).
Proof.
  revert codes unsupported; induction l as [|c l IH]; intros codes unsupported;
    cbn [cipher_loop List.filter map]; [done|].
  destruct (cipherCode c =? 0); cbn [negb]; by rewrite IH, gs_extend_append.
Qed.
Lemma cipherCodes_spec l :
  gs_list (cipherCodes l).1 = List.filter (fun z => negb (z =? 0)) (map cipherCode l) /\
  gs_list (cipherCodes l).2 = List.filter (fun c => cipherCode c =? 0) l.
Proof.
  unfold cipherCodes. rewrite cipher_loop_spec. cbn [fst snd].
  split; unfold gs_extend; by destruct (List.filter _ _).
Qed.
#[local] Transparent cipherCode.

(** Every IANA name of the OpenSSL table is a cipher suite of Go with a number. *)
Lemma table_supported c iana :
  openSSLToIANACiphersMap !! c = Some iana -> exists code, ciphers !! iana = Some code /\ code <> 0.
Proof.
  intros Hc. apply elem_of_list_to_map_2 in Hc.
  assert (Hall : forallb (fun kv => match ciphers !! kv.2 with Some z => negb (z =? 0) | None => false end)
    openSSLToIANACiphersList = true) by (vm_compute; reflexivity).
  rewrite forallb_forall in Hall. specialize (Hall (c, iana) (proj1 (list_elem_of_In _ _) Hc)).
  cbn [snd] in Hall.
  destruct (ciphers !! iana) as [z|]; [|done]. exists z. split; [done|]. lia.
Qed.
(** A name that both tables know means the same cipher in both. *)
Lemma tables_consistent c iana :
  openSSLToIANACiphersMap !! c = Some iana -> ciphers !! c = None \/ ciphers !! c = ciphers !! iana.
Proof.
  intros Hc. apply elem_of_list_to_map_2 in Hc.
  assert (Hall : forallb (fun kv => bool_decide (ciphers !! kv.1 = None) ||
    bool_decide (ciphers !! kv.1 = ciphers !! kv.2)) openSSLToIANACiphersList = true)
    by (vm_compute; reflexivity).
  rewrite forallb_forall in Hall. specialize (Hall (c, iana) (proj1 (list_elem_of_In _ _) Hc)).
  cbn [fst snd] in Hall. apply orb_true_iff in Hall as [Hd|Hd]; apply bool_decide_eq_true in Hd; auto.
Qed.

#[local] Opaque ciphers openSSLToIANACiphersMap.

(** The code of a cipher, for a name that is not an IANA name only. *)
Lemma cipherCode_openssl c :
  (ciphers !! c <> None -> openSSLToIANACiphersMap !! c <> None) ->
  cipherCode c = match openSSLToIANACiphersMap !! c ≫= fun iana => ciphers !! iana with
                 | Some code => code | None => 0 end.
Proof.
  intros Hc. unfold cipherCode, CipherSuite. cbn [OpenSSLToIANACipherSuites].
  destruct (openSSLToIANACiphersMap !! c) as [iana|] eqn:Ho; cbn [mbind option_bind].
  - destruct (table_supported _ _ Ho) as (code & Hcode & _). rewrite Hcode.
    destruct (tables_consistent _ _ Ho) as [Hn|Hn]; rewrite Hn, ?Hcode; done.
  - destruct (ciphers !! c) as [z|]; [destruct Hc; done | done].
Qed.

(** A cipher that the table does not know, or knows with its number. *)
Lemma known_cipher c :
  (openSSLToIANACiphersMap !! c = None /\ (openSSLToIANACiphersMap !! c ≫= fun iana => ciphers !! iana) = None) \/
  exists iana code, openSSLToIANACiphersMap !! c = Some iana /\ ciphers !! iana = Some code /\ code <> 0.
Proof.
  destruct (openSSLToIANACiphersMap !! c) as [iana|] eqn:Ho; [right | left; split; reflexivity].
  destruct (table_supported _ _ Ho) as (code & Hcode & Hz).
  exists iana, code. exact (conj eq_refl (conj Hcode Hz)).
Qed.

(** The names of a profile that mean the same to both servers: a name that is an
    IANA name only is accepted by the metrics server, and dropped by the webhook
    when there is an OpenSSL name beside it. *)
Definition openssl_names (l : list string) : Prop :=
  Forall (fun c => ciphers !! c <> None -> openSSLToIANACiphersMap !! c <> None) l.
Lemma cipherCodes_agree l :
  openssl_names l ->
  gs_list (cipherCodes l).1 = omap (fun iana => ciphers !! iana) (TLSCiphersToArgs l) /\
  gs_list (cipherCodes l).2 =
    List.filter (fun c => bool_decide (openSSLToIANACiphersMap !! c = None)) l.
Proof.
  intros Hl. destruct (cipherCodes_spec l) as [-> ->]. rewrite TLSCiphersToArgs_spec. cbv zeta.
  assert (Hcodes : List.filter (fun z => negb (z =? 0)) (map cipherCode l) =
    omap (fun iana => ciphers !! iana) (omap (fun c => openSSLToIANACiphersMap !! c) l)).
  { induction Hl as [|c l Hc _ IH]; [done|]. cbn [map List.filter omap list_omap].
    rewrite (cipherCode_openssl c Hc).
    destruct (known_cipher c) as [[Hn ->]|(iana & code & Hn & Hi & Hz)].
    - rewrite Hn. exact IH.
    - rewrite Hn. cbn [mbind option_bind omap list_omap]. rewrite Hi.
      rewrite (proj2 (Z.eqb_neq _ _) Hz). cbn [negb]. f_equal. exact IH. }
  split.
  - rewrite Hcodes. destruct (omap _ l) as [|x known] eqn:Hk; [|done].
    rewrite bool_decide_true by done. clear Hcodes. induction Hl as [|c l Hc _ IH]; [done|].
    cbn [omap list_omap] in *. destruct (openSSLToIANACiphersMap !! c) eqn:Ho; [discriminate|].
    destruct (ciphers !! c) eqn:Hcc; [destruct Hc; done|]. exact (IH Hk).
  - clear Hcodes. induction Hl as [|c l Hc _ IH]; [done|]. cbn [List.filter].
    rewrite (cipherCode_openssl c Hc), IH.
    destruct (known_cipher c) as [[Hn ->]|(iana & code & Hn & Hi & Hz)].
    + rewrite bool_decide_true by done. reflexivity.
    + rewrite Hn. cbn [mbind option_bind]. rewrite Hi, (proj2 (Z.eqb_neq _ _) Hz).
      rewrite bool_decide_false by done. reflexivity.
Qed.

(** The versions as the profile, Go and the webhook's command line name them. *)
Definition version_names : list (string * Z * string) :=
  [("VersionTLS10", 0x0301, "tls1_0"); ("VersionTLS11", 0x0302, "tls1_1");
   ("VersionTLS12", 0x0303, "tls1_2"); ("VersionTLS13", 0x0304, "tls1_3")].
#[local] Transparent ciphers openSSLToIANACiphersMap.
Lemma versions_named v :
  match versions !! v with
  | Some z => (v, z, TLSVersionToArg v) ∈ version_names
  | None => v ∉ map (fun n => n.1.1) version_names
  end.
Proof.
  destruct (versions !! v) as [z|] eqn:Hv.
  - apply elem_of_list_to_map_2 in Hv. rewrite !elem_of_cons, elem_of_nil in Hv.
    destruct Hv as [[= -> ->]|[[= -> ->]|[[= -> ->]|[[= -> ->]|[]]]]];
      apply list_elem_of_In; simpl; tauto.
  - apply not_elem_of_list_to_map_2 in Hv. exact Hv.
Qed.
#[local] Opaque ciphers openSSLToIANACiphersMap.

(** C32 One profile, two servers.  From a profile whose ciphers are OpenSSL names
    the metrics server gets the minimum version that the webhook is given on its
    command line (TLS 1.2 where the profile has none, and the webhook gets no flag).
    Below TLS 1.3 it gets exactly the cipher suites that the webhook is given, in
    the same order; for TLS 1.3, whose suites Go does not let choose, its suites
    stay as they were.  The ciphers reported as unsupported are exactly those that
    have no equivalent in Go; and only a version without a name is refused, by a
    panic. *)
Theorem metrics_ciphers_agree (profile : TLSProfileSpec) :
  openssl_names (gs_list (tls_Ciphers profile)) ->
  let names := TLSCiphersToArgs (gs_list (tls_Ciphers profile)) in
  let v := tls_MinTLSVersion profile in
  (forall vpa cfg, cfg_TLSProfileSpec cfg = Some profile ->
     flag_values MinTLSVersionArg (AdmissionPluginArgs vpa cfg) =
       (if bool_decide (v = "") then [] else [MinTLSVersionArg +:+ "=" +:+ TLSVersionToArg v]) /\
     flag_values TLSCiphersArg (AdmissionPluginArgs vpa cfg) =
       (if bool_decide (gs_list (tls_Ciphers profile) = []) then []
        else [TLSCiphersArg +:+ "=" +:+ Join names ","])) /\
  match NewTLSConfigFromProfile profile with
  | None => v <> "" /\ v ∉ map (fun n => n.1.1) version_names
  | Some (tlsConfig, unsupported) =>
      gs_list unsupported =
        List.filter (fun c => bool_decide (openSSLToIANACiphersMap !! c = None)) (gs_list (tls_Ciphers profile)) /\
      forall conf,
      let conf' := tlsConfig conf in
      (if bool_decide (v = "") then tc_MinVersion conf' = 0x0303
       else (v, tc_MinVersion conf', TLSVersionToArg v) ∈ version_names) /\
      (if bool_decide (tc_MinVersion conf' = 0x0304) then tc_CipherSuites conf' = tc_CipherSuites conf
       else gs_list (tc_CipherSuites conf') = omap (fun iana => ciphers !! iana) names) /\
      tc_NextProtos conf' = tc_NextProtos conf
  end.
Proof.
  intros Hl. destruct (cipherCodes_agree _ Hl) as [Hcodes Hunsupported]. cbv zeta. split.
  { intros vpa cfg Hp. destruct (admission_tls_flags cfg vpa) as [Hv Hc]. rewrite Hp in Hv, Hc.
    split; [exact Hv|]. rewrite Hc, TLSCiphersToArgs_spec. reflexivity. }
  unfold NewTLSConfigFromProfile, TLSVersionOrDie, TLSVersion.
  destruct (cipherCodes (gs_list (tls_Ciphers profile))) as [suites unsupported]. cbn [fst snd] in *.
  assert (Hsuites : forall z conf, let conf' := mkTLSConfig z
      (if negb (z =? 0x0304) then suites else tc_CipherSuites conf) (tc_NextProtos conf) in
    if bool_decide (tc_MinVersion conf' = 0x0304) then tc_CipherSuites conf' = tc_CipherSuites conf
    else gs_list (tc_CipherSuites conf') = omap (fun iana => ciphers !! iana)
           (TLSCiphersToArgs (gs_list (tls_Ciphers profile)))).
  { intros z conf. cbn [tc_MinVersion tc_CipherSuites]. case_bool_decide as Hz; [by rewrite Hz|].
    by rewrite (proj2 (Z.eqb_neq _ _) Hz). }
  destruct (decide (tls_MinTLSVersion profile = "")) as [Hv|Hv].
  - rewrite Hv. cbn [String.length Nat.eqb mbind option_bind]. split; [done|]. intros conf.
    rewrite bool_decide_true by done. split; [done|]. split; [apply Hsuites | done].
  - assert (Hlen : (String.length (tls_MinTLSVersion profile) =? 0)%nat = false)
      by (by destruct (tls_MinTLSVersion profile)).
    rewrite Hlen. pose proof (versions_named (tls_MinTLSVersion profile)) as Hnames.
    destruct (versions !! tls_MinTLSVersion profile) as [z|]; cbn [mbind option_bind]; [|done].
    split; [done|]. intros conf. rewrite bool_decide_false by done.
    split; [exact Hnames|]. split; [apply Hsuites | done].
Qed.

(** The Old profile, three of whose ciphers have no equivalent in Go, and the
    Modern one, which asks for TLS 1.3. *)
Definition openssl_namesb (l : list string) : bool :=
  forallb (fun c => bool_decide (ciphers !! c = None) ||
    negb (bool_decide (openSSLToIANACiphersMap !! c = None))) l.
Lemma openssl_namesb_spec l : openssl_namesb l = true -> openssl_names l.
Proof.
  unfold openssl_namesb. rewrite forallb_forall. intros Hb. apply Forall_forall. intros c Hc Hn Ho.
  specialize (Hb c (proj1 (list_elem_of_In _ _) Hc)).
  rewrite bool_decide_false in Hb by exact Hn. rewrite bool_decide_true in Hb by exact Ho.
  discriminate Hb.
Qed.
Definition no_tls : tls_config := mkTLSConfig 0 nilslice nilslice.
Lemma metrics_ciphers_agree_witness :
  (exists f unsupported, NewTLSConfigFromProfile oldProfile = Some (f, unsupported) /\
     gs_list (tc_CipherSuites (f no_tls)) =
       omap (fun iana => ciphers !! iana) (TLSCiphersToArgs (gs_list (tls_Ciphers oldProfile))) /\
     gs_list unsupported = ["ECDHE-ECDSA-AES256-SHA384"; "ECDHE-RSA-AES256-SHA384"; "AES256-SHA256"]) /\
  (exists f unsupported, NewTLSConfigFromProfile modernProfile = Some (f, unsupported) /\
     ("VersionTLS13", tc_MinVersion (f no_tls), "tls1_3") ∈ version_names /\
     tc_CipherSuites (f no_tls) = nilslice).
Proof.
  split.
  - pose proof (metrics_ciphers_agree oldProfile
      (openssl_namesb_spec (gs_list (tls_Ciphers oldProfile)) ltac:(vm_compute; reflexivity))) as Ha. cbv zeta in Ha.
    destruct Ha as [_ Ha].
    assert (Hv : (fun fu => tc_MinVersion (fu.1 no_tls)) <$> NewTLSConfigFromProfile oldProfile = Some 0x0301)
      by (vm_compute; reflexivity).
    destruct (NewTLSConfigFromProfile oldProfile) as [[f unsupported]|]; [|discriminate Hv]. injection Hv as Hv.
    destruct Ha as [Hu Ha]. destruct (Ha no_tls) as (_ & Hs & _). cbn [fst] in Hv. rewrite Hv in Hs.
    exists f, unsupported. split; [reflexivity|]. split; [exact Hs|]. rewrite Hu. vm_compute. reflexivity.
  - pose proof (metrics_ciphers_agree modernProfile
      (openssl_namesb_spec (gs_list (tls_Ciphers modernProfile)) ltac:(vm_compute; reflexivity))) as Ha. cbv zeta in Ha.
    destruct Ha as [_ Ha].
    assert (Hv : (fun fu => tc_MinVersion (fu.1 no_tls)) <$> NewTLSConfigFromProfile modernProfile = Some 0x0304)
      by (vm_compute; reflexivity).
    destruct (NewTLSConfigFromProfile modernProfile) as [[f unsupported]|]; [|discriminate Hv]. injection Hv as Hv.
    destruct Ha as [_ Ha]. destruct (Ha no_tls) as (Hn & Hs & _). cbn [fst] in Hv. rewrite Hv in Hs, Hn.
    exists f, unsupported. split; [reflexivity|]. split; [rewrite Hv; exact Hn | exact Hs].
Defined.
