(* ===== verification/Main.v ===== *)
(** * Start-up and restarts

    cmd/main.go: how the operator is put together from its flags, its environment
    and the cluster, and the watcher (controller-runtime-common/pkg/tls) that ends
    it when the TLS profile of the cluster changes.  Creating clients, the manager
    and its parts is code of other projects: [stages] gives the error of each such
    step, if any.  A callback returns whether it cancels the context. *)

From S2P Require Import Prelude Go GoFmt Objects Api Util Args Resources Controller.
From S2P Require Import Server OperatorConfig Metrics.

(** ** The watcher *)

Record SecurityProfileWatcher := mkWatcher {
  spw_InitialTLSProfileSpec : TLSProfileSpec;
  spw_InitialTLSAdherencePolicy : string;
  spw_OnProfileChange : option (TLSProfileSpec -> TLSProfileSpec -> bool);
  spw_OnAdherencePolicyChange : option (string -> string -> bool)
}.
Definition set_profile (p : TLSProfileSpec) (r : SecurityProfileWatcher) : SecurityProfileWatcher :=
  mkWatcher p (spw_InitialTLSAdherencePolicy r) (spw_OnProfileChange r) (spw_OnAdherencePolicyChange r).
Definition set_policy (a : string) (r : SecurityProfileWatcher) : SecurityProfileWatcher :=
  mkWatcher (spw_InitialTLSProfileSpec r) a (spw_OnProfileChange r) (spw_OnAdherencePolicyChange r).
Definition call_back {A} (f : option (A -> A -> bool)) (old new : A) : bool :=
  match f with Some f => f old new | None => false end.

(** [SecurityProfileWatcher.Reconcile]: the watcher, whether a callback has
    cancelled, and what is returned. *)
Definition watcher_Reconcile (r : SecurityProfileWatcher) (req : NamespacedName) :
    prog (SecurityProfileWatcher * bool * (Result * option error)) :=
  g <- ask (Get KAPIServer req) ;;
  Ret (match g with
       | inl err =>
           if IsNotFound err then (r, false, (zero_Result, None))
           else (r, false, (zero_Result,
                  Some (WrapError ("failed to get APIServer " +:+ NamespacedName_String req) err)))
       | inr apiServer =>
           match GetTLSProfileSpec (as_TLSSecurityProfile apiServer) with
           | inl err =>
               (r, false, (zero_Result,
                  Some (WrapError ("failed to get TLS profile from APIServer " +:+ NamespacedName_String req) err)))
           | inr current =>
               let '(r, cancelled) :=
                 if negb (bool_decide (spw_InitialTLSProfileSpec r = current))
                 then (set_profile current r,
                       call_back (spw_OnProfileChange r) (spw_InitialTLSProfileSpec r) current)
                 else (r, false) in
               let adherence := as_TLSAdherence apiServer in
               let '(r, cancelled) :=
                 if negb (bool_decide (spw_InitialTLSAdherencePolicy r = adherence))
                 then (set_policy adherence r,
                       cancelled || call_back (spw_OnAdherencePolicyChange r)
                                      (spw_InitialTLSAdherencePolicy r) adherence)
                 else (r, cancelled) in
               (r, cancelled, (zero_Result, None))
           end
       end).

(** ** main *)

Record Flags := mkFlags {
  fl_metricsAddr : string;
  fl_probeAddr : string;
  fl_enableLeaderElection : bool;
  fl_secureMetrics : bool;
  fl_enableHTTP2 : bool
}.
(** The defaults of the flags. *)
Definition default_flags : Flags := mkFlags "0" ":8081" false true false.

(** [metricsserver.Options]; the filter is set or not. *)
Record MetricsOptions := mkMetricsOptions {
  mo_BindAddress : string;
  mo_SecureServing : bool;
  mo_TLSOpts : list (tls_config -> tls_config);
  mo_CertDir : string;
  mo_CertName : string;
  mo_KeyName : string;
  mo_FilterProvider : bool
}.

(** What the operator runs with. *)
Record Setup := mkSetup {
  su_Metrics : MetricsOptions;
  su_ProbeAddr : string;
  su_LeaderElection : bool;
  su_WatchNamespace : string;
  su_Config : Config;
  su_Watcher : option SecurityProfileWatcher
}.

(** The steps that code of other projects takes. *)
Inductive stage :=
| RestConfig | BootstrapClient | NewManager | InfrastructureClient | ControllerSetup
| WatcherSetup | HealthzCheck | ReadyzCheck | ManagerStart.

(** [os.Exit(1)] after an error, a panic, or the end of [main]. *)
Inductive outcome := Exited (err : error) | Panicked | Ended (su : Setup).

(** [if err != nil { os.Exit(1) }]. *)
Definition must (e : option error) (rest : prog outcome) : prog outcome :=
  match e with Some err => Ret (Exited err) | None => rest end.

Definition disableHTTP2 (c : tls_config) : tls_config :=
  mkTLSConfig (tc_MinVersion c) (tc_CipherSuites c) (mkslice ["http/1.1"]).

(** The callbacks of the watcher. *)
Definition metrics_watcher (shouldHonorClusterTLSProfile : bool) (tlsProfile : TLSProfileSpec)
    (adherence : string) : SecurityProfileWatcher :=
  mkWatcher tlsProfile adherence
    (Some (fun _ _ => shouldHonorClusterTLSProfile))
    (Some (fun oldPolicy newPolicy =>
       negb (Bool.eqb (ShouldHonorClusterTLSProfile oldPolicy) (ShouldHonorClusterTLSProfile newPolicy)))).

(** The rest of [main], after the manager was created. *)
Definition run_manager (stages : stage -> option error) (secureMetrics : bool)
    (setup : bool -> option SecurityProfileWatcher -> Setup) (watcher : SecurityProfileWatcher) :
    prog outcome :=
  must (stages RestConfig)
    (isExternalControlPlane <- IsExternalControlPlane (stages InfrastructureClient) ;;
     must (stages ControllerSetup)
       (let su := setup isExternalControlPlane (if secureMetrics then Some watcher else None) in
        must (if secureMetrics then stages WatcherSetup else None)
          (must (stages HealthzCheck)
             (must (stages ReadyzCheck)
                (must (stages ManagerStart) (Ret (Ended su))))))).

Definition main (stages : stage -> option error) (flags : Flags) (env : gmap string string) :
    prog outcome :=
  let tlsOpts := if negb (fl_enableHTTP2 flags) then [disableHTTP2] else [] in
  must (stages RestConfig) (must (stages BootstrapClient)
    (g <- ask (Get KAPIServer (mkNN "" APIServerName)) ;;
     match g with
     | inl err => Ret (Exited err)
     | inr apiServerConfig =>
         let honor := ShouldHonorClusterTLSProfile (as_TLSAdherence apiServerConfig) in
         match GetTLSProfileSpec (as_TLSSecurityProfile apiServerConfig) with
         | inl err => Ret (Exited err)
         | inr tlsProfile =>
             let withProfile :=
               if fl_secureMetrics flags && honor then
                 '(tlsConfigFn, _) ← NewTLSConfigFromProfile tlsProfile;
                 Some (tlsOpts ++ [tlsConfigFn])
               else Some tlsOpts in
             match withProfile with
             | None => Ret Panicked
             | Some tlsOpts =>
                 let s := fl_secureMetrics flags in
                 let metricsServerOptions :=
                   mkMetricsOptions (fl_metricsAddr flags) s tlsOpts
                     (if s then "/etc/metrics-tls-certs" else "") (if s then "tls.crt" else "")
                     (if s then "tls.key" else "") s in
                 let config := ConfigFromEnvironment env in
                 let reconciler isExternalControlPlane :=
                   mkConfig (oc_ReleaseVersion config) (oc_VerticalPodAutoscalerName config)
                     (oc_VerticalPodAutoscalerNamespace config) (oc_VerticalPodAutoscalerImage config)
                     (oc_VerticalPodAutoscalerVerbosity config)
                     (oc_VerticalPodAutoscalerExtraArgs config)
                     (if negb honor then None else Some tlsProfile) isExternalControlPlane in
                 must (stages NewManager)
                   (run_manager stages s
                      (fun external watcher =>
                         mkSetup metricsServerOptions (fl_probeAddr flags) (fl_enableLeaderElection flags)
                           (oc_WatchNamespace config) (reconciler external) watcher)
                      (metrics_watcher honor tlsProfile (as_TLSAdherence apiServerConfig)))
             end
         end
     end)).

(** The TLS configuration of the metrics server: its own, changed by each option. *)
Definition metrics_tls (o : MetricsOptions) : tls_config :=
  fold_left (fun cfg op => op cfg) (mo_TLSOpts o) (mkTLSConfig 0 nilslice (mkslice ["h2"])).

(** ** What the operator runs with *)

(** The profile in force: the one of the cluster, if it is to be honored. *)
Definition effective (adherence : string) (p : TLSProfileSpec) : option TLSProfileSpec :=
  if ShouldHonorClusterTLSProfile adherence then Some p else None.

(** The TLS configuration the flags and the profile in force ask for. *)
Definition intended_tls (flags : Flags) (profile : option TLSProfileSpec) (cfg : tls_config) : Prop :=
  tc_NextProtos cfg = mkslice [if fl_enableHTTP2 flags then "h2" else "http/1.1"] /\
  match (if fl_secureMetrics flags then profile else None) with
  | None => tc_MinVersion cfg = 0 /\ tc_CipherSuites cfg = nilslice
  | Some p =>
      TLSVersion (tls_MinTLSVersion p) = inr (tc_MinVersion cfg) /\
      tc_CipherSuites cfg = if tc_MinVersion cfg =? 0x0304 then nilslice
                            else (cipherCodes (gs_list (tls_Ciphers p))).1
  end.

Lemma must_exec e rest tr out :
  exec (must e rest) tr out -> (exists err, out = Exited err /\ tr = []) \/ e = None /\ exec rest tr out.
Proof.
  destruct e as [err|]; simpl; [|by right]. destruct tr; [|done]. intros <-. left. by exists err.
Qed.

Lemma run_manager_exec stages s setup watcher tr out :
  exec (run_manager stages s setup watcher) tr out ->
  (exists err, out = Exited err) \/
  exists external, exec (IsExternalControlPlane (stages InfrastructureClient)) tr external /\
    out = Ended (setup external (if s then Some watcher else None)).
Proof.
  unfold run_manager. intros [(err & -> & _)|[_ Hx]]%must_exec; [left; by exists err|].
  apply exec_bind in Hx as (tr1 & tr2 & external & -> & He & Hx).
  repeat (apply must_exec in Hx as [(err & -> & _)|[_ Hx]]; [left; by exists err|]).
  destruct tr2; [|done]. rewrite app_nil_r. right. by exists external.
Qed.

Lemma metrics_tls_intended flags (tlsProfile : TLSProfileSpec) (honor : bool) opts rest :
  (if fl_secureMetrics flags && honor then
     '(tlsConfigFn, _) ← NewTLSConfigFromProfile tlsProfile;
     Some ((if negb (fl_enableHTTP2 flags) then [disableHTTP2] else []) ++ [tlsConfigFn])
   else Some (if negb (fl_enableHTTP2 flags) then [disableHTTP2] else [])) = Some opts ->
  mo_TLSOpts rest = opts ->
  intended_tls flags (if honor then Some tlsProfile else None) (metrics_tls rest).
Proof.
  unfold metrics_tls, intended_tls. intros Ho ->.
  destruct (fl_secureMetrics flags && honor) eqn:Hs.
  - apply andb_true_iff in Hs as [-> ->].
    apply bind_Some in Ho as ([fn unsupported] & Hn & [= <-]). unfold NewTLSConfigFromProfile in Hn.
    apply bind_Some in Hn as (v & Hv & Hn). unfold TLSVersionOrDie in Hv.
    destruct (cipherCodes _) as [suites un]. injection Hn as <- <-.
    destruct (TLSVersion _) as [err|v'] eqn:Hver; [done|]. injection Hv as ->.
    destruct (fl_enableHTTP2 flags); simpl; (split; [done|]); (split; [done|]);
      by destruct (v =? 772).
  - injection Ho as <-. assert (Hn : (if fl_secureMetrics flags then (if honor then Some tlsProfile else None)
      else None) = None) by (by destruct (fl_secureMetrics flags), honor).
    rewrite Hn. by destruct (fl_enableHTTP2 flags).
Qed.

(** How an execution of [main] gets to run the manager. *)
Definition metrics_options (flags : Flags) (tlsOpts : list (tls_config -> tls_config)) : MetricsOptions :=
  let s := fl_secureMetrics flags in
  mkMetricsOptions (fl_metricsAddr flags) s tlsOpts (if s then "/etc/metrics-tls-certs" else "")
    (if s then "tls.crt" else "") (if s then "tls.key" else "") s.
Lemma main_ended stages flags env tr su :
  exec (main stages flags env) tr (Ended su) ->
  exists a p external rest opts,
  tr = mkStep (Get KAPIServer (mkNN "" "cluster")) (inr a) :: rest /\
  GetTLSProfileSpec (as_TLSSecurityProfile a) = inr p /\
  exec (IsExternalControlPlane (stages InfrastructureClient)) rest external /\
  let oc := ConfigFromEnvironment env in
  let honor := ShouldHonorClusterTLSProfile (as_TLSAdherence a) in
  intended_tls flags (if honor then Some p else None) (metrics_tls (metrics_options flags opts)) /\
  su = mkSetup (metrics_options flags opts) (fl_probeAddr flags) (fl_enableLeaderElection flags)
    (oc_WatchNamespace oc)
    (mkConfig (oc_ReleaseVersion oc) (oc_VerticalPodAutoscalerName oc)
      (oc_VerticalPodAutoscalerNamespace oc) (oc_VerticalPodAutoscalerImage oc)
      (oc_VerticalPodAutoscalerVerbosity oc) (oc_VerticalPodAutoscalerExtraArgs oc)
      (if negb honor then None else Some p) external)
    (if fl_secureMetrics flags then Some (metrics_watcher honor p (as_TLSAdherence a)) else None).
Proof.
  unfold main. cbv zeta.
  intros [(err & ? & _)|[_ [(err & ? & _)|[_ Hx]]%must_exec]]%must_exec; [done..|].
  destruct tr as [|s tr]; [done|]. destruct Hx as (g & -> & Hx). cbn [bind ask] in Hx.
  destruct g as [err|a]; [by destruct tr|].
  destruct (GetTLSProfileSpec _) as [err|p] eqn:Hp; [by destruct tr|].
  match type of Hx with context [match ?o with Some _ => _ | None => _ end] => destruct o as [opts|] eqn:Ho end;
    [|by destruct tr].
  apply must_exec in Hx as [(err & ? & _)|[_ Hx]]; [done|].
  apply run_manager_exec in Hx as [(err & ?)|(external & He & Hsu)]; [done|]. injection Hsu as ->.
  exists a, p, external, tr, opts. split_and!; try done. by eapply metrics_tls_intended.
Qed.

(** C15 When the operator gets to run, it runs with what it was given.  In every
    execution of [main] that ends with the manager's: the reconciler has the
    environment's configuration, the cluster's TLS profile exactly when the
    cluster asks for it (so that the first [Reconcile] changes nothing), and the
    topology; the manager watches the given namespace; the metrics server speaks
    HTTP/2 only if enabled, has the profile's version and ciphers exactly when it
    is secure and the profile in force, and a certificate and authorization
    exactly when it is secure, as is the watch for changes of the profile. *)
Theorem main_runs_as_configured stages flags env tr su :
  exec (main stages flags env) tr (Ended su) ->
  exists a p external rest,
  tr = mkStep (Get KAPIServer (mkNN "" "cluster")) (inr a) :: rest /\
  GetTLSProfileSpec (as_TLSSecurityProfile a) = inr p /\
  exec (IsExternalControlPlane (stages InfrastructureClient)) rest external /\
  let oc := ConfigFromEnvironment env in
  let profile := effective (as_TLSAdherence a) p in
  su_Config su = mkConfig (oc_ReleaseVersion oc) (oc_VerticalPodAutoscalerName oc)
    (oc_VerticalPodAutoscalerNamespace oc) (oc_VerticalPodAutoscalerImage oc)
    (oc_VerticalPodAutoscalerVerbosity oc) (oc_VerticalPodAutoscalerExtraArgs oc) profile external /\
  synced_TLSProfile (su_Config su) (inr a) = su_Config su /\
  su_WatchNamespace su = oc_WatchNamespace oc /\
  intended_tls flags profile (metrics_tls (su_Metrics su)) /\
  mo_SecureServing (su_Metrics su) = fl_secureMetrics flags /\
  mo_FilterProvider (su_Metrics su) = fl_secureMetrics flags /\
  (mo_CertDir (su_Metrics su) = "/etc/metrics-tls-certs" <-> fl_secureMetrics flags = true) /\
  su_Watcher su = if fl_secureMetrics flags
    then Some (metrics_watcher (ShouldHonorClusterTLSProfile (as_TLSAdherence a)) p (as_TLSAdherence a))
    else None.
Proof.
  intros (a & p & external & rest & opts & -> & Hp & He & Htls & ->)%main_ended.
  exists a, p, external, rest. split; [done|]. split; [done|]. split; [exact He|]. unfold effective.
  split; [simpl; by destruct (ShouldHonorClusterTLSProfile _)|]. split.
  { unfold synced_TLSProfile. simpl. destruct (ShouldHonorClusterTLSProfile _); [by rewrite Hp | done]. }
  split; [done|]. split; [exact Htls|]. split; [done|]. split; [done|].
  split; [simpl; by destruct (fl_secureMetrics flags) | done].
Qed.

(** The answer to a read of an APIServer object. *)
Definition apiserver_answer (s : step) : option (error + APIServer) :=
  match st_call s as c return resp c -> option (error + APIServer) with
  | Get k _ =>
      match k return error + obj k -> option (error + APIServer) with
      | KAPIServer => fun r => Some r
      | _ => fun _ => None
      end
  | _ => fun _ => None
  end (st_resp s).
(** The APIServer object that a step read. *)
Definition apiserver_read (s : step) : option APIServer :=
  match st_call s as c return resp c -> option APIServer with
  | Get KAPIServer _ => fun r => match r with inr o => Some o | inl _ => None end
  | _ => fun _ => None
  end (st_resp s).

(** A cluster with the Modern profile, strictly, and no Infrastructure object. *)
Definition example_modern : APIServer :=
  mkAPIServer (named_meta "cluster" "") (Some (mkTLSSecurityProfile "Modern" None no_others))
    TLSAdherencePolicyStrictAllComponents no_others.
Definition example_cluster : fake := mkFake (put (k:=KAPIServer) example_modern empty_store) 1 0%nat [] [].
Definition example_start : prog outcome :=
  main (fun _ => None) default_flags {["RELEASE_VERSION" := "4.21.0"]}.

Lemma main_runs_as_configured_witness :
  exists su, (run example_start example_cluster).1 = Ended su /\
  tc_MinVersion (metrics_tls (su_Metrics su)) = 0x0304 /\
  cfg_TLSProfileSpec (su_Config su) = Some modernProfile.
Proof.
  assert (He : match (run example_start example_cluster).1 with Ended _ => true | _ => false end = true)
    by (vm_compute; reflexivity).
  assert (Hread : head (trace example_start example_cluster) ≫= apiserver_read = Some example_modern)
    by (vm_compute; reflexivity).
  pose proof (run_exec example_start example_cluster) as Hx.
  destruct (run example_start example_cluster).1 as [| |su]; [discriminate He..|].
  exists su. split; [reflexivity|].
  destruct (main_runs_as_configured _ _ _ _ _ Hx)
    as (a & p & external & rest & Htr & Hp & _ & Hcfg & _ & _ & [_ Htls] & _).
  rewrite Htr in Hread. injection Hread as ->. injection Hp as <-.
  split; [destruct Htls as [Hv _]; injection Hv as <-; reflexivity|].
  rewrite Hcfg. reflexivity.
Defined.

(** The error of the first read. *)
Definition apiserver_error (s : step) : option error :=
  match st_call s as c return resp c -> option error with
  | Get KAPIServer _ => fun r => match r with inr _ => None | inl err => Some err end
  | _ => fun _ => None
  end (st_resp s).

Lemma must_quiet e rest tr out :
  exec (must e rest) tr out -> (forall tr, exec rest tr out -> Forall (fun s => is_write (st_call s) = false) tr) ->
  Forall (fun s => is_write (st_call s) = false) tr.
Proof. intros [(err & _ & ->)|[_ Hx]]%must_exec Hr; [constructor | by apply Hr]. Qed.
Lemma run_manager_quiet stages s setup watcher tr out :
  exec (run_manager stages s setup watcher) tr out -> Forall (fun s => is_write (st_call s) = false) tr.
Proof.
  intros Hx. eapply must_quiet; [exact Hx|]. clear tr Hx.
  intros tr (tr1 & tr2 & external & -> & He & Hx)%exec_bind.
  apply Forall_app. split; [by apply (IsExternalControlPlane_exec _ _ _ He)|].
  repeat (eapply must_quiet; [exact Hx|]; clear tr2 Hx; intros tr2 Hx).
  by destruct tr2.
Qed.

(** C33 When the operator cannot start it fails early and does no harm: no
    execution of [main] writes anything; if the APIServer cannot be read it exits
    with the error and makes no further call, and likewise if the profile is
    Custom without a profile; it panics only for a profile that is in force for a
    secure metrics server and has a TLS version that is not known. *)
Theorem main_fails_safe stages flags env tr out :
  exec (main stages flags env) tr out ->
  Forall (fun s => is_write (st_call s) = false) tr /\
  (forall err, head tr ≫= apiserver_error = Some err -> out = Exited err /\ length tr = 1%nat) /\
  (forall a err, head tr ≫= apiserver_read = Some a ->
     GetTLSProfileSpec (as_TLSSecurityProfile a) = inl err -> out = Exited err /\ length tr = 1%nat) /\
  (out = Panicked -> exists a p,
     tr = [mkStep (Get KAPIServer (mkNN "" "cluster")) (inr a)] /\
     GetTLSProfileSpec (as_TLSSecurityProfile a) = inr p /\
     fl_secureMetrics flags = true /\ ShouldHonorClusterTLSProfile (as_TLSAdherence a) = true /\
     TLSVersionOrDie (tls_MinTLSVersion p) = None).
Proof.
  unfold main. cbv zeta.
  intros [(err & -> & ->)|[_ [(err & -> & ->)|[_ Hx]]%must_exec]]%must_exec;
    [split; [constructor|]; split_and!; done..|].
  destruct tr as [|s tr]; [done|]. destruct Hx as (g & -> & Hx). cbn [bind ask] in Hx.
  rewrite Forall_cons. destruct g as [err|a].
  { destruct tr; [|done]. simpl in Hx. subst out. split; [done|].
    split; [by intros err' [= ->]|]. split; [done|]. done. }
  destruct (GetTLSProfileSpec _) as [err|p] eqn:Hp.
  { destruct tr; [|done]. simpl in Hx. subst out. split; [done|]. split; [done|].
    split; [|done]. intros a' err' [= <-] He. rewrite Hp in He. by injection He as ->. }
  assert (Hread : forall a' err', Some a = Some a' ->
    GetTLSProfileSpec (as_TLSSecurityProfile a') = inl err' -> out = Exited err' /\ S (length tr) = 1%nat)
    by (intros a' err' [= <-] He; congruence).
  match type of Hx with context [match ?o with Some _ => _ | None => _ end] => destruct o as [opts|] eqn:Ho end.
  - split; [split; [done|]; exact (must_quiet _ _ _ _ Hx (fun tr => run_manager_quiet _ _ _ _ tr out))|].
    split; [done|]. split; [exact Hread|]. intros ->.
    apply must_exec in Hx as [(err & ? & _)|[_ Hx]]; [done|].
    by apply run_manager_exec in Hx as [(err & ?)|(external & _ & ?)].
  - destruct tr; [|done]. simpl in Hx. subst out. split; [done|]. split; [done|]. split; [exact Hread|].
    intros _. exists a, p. split; [done|]. split; [done|].
    destruct (fl_secureMetrics flags); [|done]. destruct (ShouldHonorClusterTLSProfile _); [|done].
    split; [done|]. split; [done|]. cbn [andb] in Ho. unfold NewTLSConfigFromProfile in Ho.
    destruct (TLSVersionOrDie _); [|done]. simpl in Ho. by destruct (cipherCodes _).
Qed.

(** The APIServer cannot be read. *)
Lemma main_fails_safe_witness :
  let err := StatusError "Forbidden" 403 "forbidden" in
  (run example_start (with_faults [Some err] example_cluster)).1 = Exited err.
Proof.
  intros err.
  refine (proj1 (proj1 (proj2 (main_fails_safe _ _ _ _ _
    (run_exec example_start (with_faults [Some err] example_cluster)))) err _)).
  vm_compute. reflexivity.
Defined.

(** ** When the operator restarts *)

(** The reconciliations of the watcher, one after the other; whether any has
    cancelled the context. *)
Fixpoint watch (req : NamespacedName) (n : nat) (r : SecurityProfileWatcher) :
    prog (SecurityProfileWatcher * bool) :=
  match n with
  | O => Ret (r, false)
  | S n =>
      out <- watcher_Reconcile r req ;;
      let '(r, cancelled, _) := out in
      out <- watch req n r ;;
      let '(r, cancelled') := out in
      Ret (r, cancelled || cancelled')
  end.

(** The APIServer object was read with another profile in force. *)
Definition changed (profile : option TLSProfileSpec) (s : step) : Prop :=
  exists a p, apiserver_read s = Some a /\
    GetTLSProfileSpec (as_TLSSecurityProfile a) = inr p /\
    effective (as_TLSAdherence a) p <> profile.

(** A watcher with the callbacks of [main], which has seen a profile and a policy. *)
Definition watching (honor : bool) (p : TLSProfileSpec) (adherence : string) (r : SecurityProfileWatcher) : Prop :=
  r = mkWatcher p adherence
        (spw_OnProfileChange (metrics_watcher honor p adherence))
        (spw_OnAdherencePolicyChange (metrics_watcher honor p adherence)).

(** Reading the APIServer object: the watcher has then seen what was read. *)
Lemma watcher_sees honor p adherence r req a current :
  watching honor p adherence r -> ShouldHonorClusterTLSProfile adherence = honor ->
  GetTLSProfileSpec (as_TLSSecurityProfile a) = inr current ->
  forall tr out, exec (watcher_Reconcile r req) (mkStep (Get KAPIServer req) (inr a) :: tr) out ->
  tr = [] /\ watching honor current (as_TLSAdherence a) out.1.1 /\
  out.1.2 = negb (bool_decide (effective (as_TLSAdherence a) current = effective adherence p)).
Proof.
  intros -> Hh Hp tr out (g & Hg & Hx). cbn [bind ask] in *.
  apply (f_equal apiserver_answer) in Hg. cbn in Hg. injection Hg as <-.
  destruct tr; [|done]. cbn [exec] in Hx. subst out. rewrite Hp. split; [done|].
  unfold watching, effective. cbn [spw_InitialTLSProfileSpec spw_InitialTLSAdherencePolicy].
  destruct (bool_decide (p = current)) eqn:H1; cbn [negb spw_InitialTLSAdherencePolicy set_profile];
    destruct (bool_decide (adherence = as_TLSAdherence a)) eqn:H2; reflect_bools; subst; simpl;
    (split; [done|]); symmetry;
    destruct (ShouldHonorClusterTLSProfile (as_TLSAdherence a)) eqn:Ha; simpl;
    try (destruct (ShouldHonorClusterTLSProfile adherence) eqn:Ha'; simpl); try reflexivity;
    rewrite ?negb_true_iff, ?negb_false_iff, ?bool_decide_eq_true, ?bool_decide_eq_false; congruence.
Qed.
(** Otherwise nothing happens. *)
Lemma watcher_ignores r req g :
  match g with inr a => exists err, GetTLSProfileSpec (as_TLSSecurityProfile a) = inl err | inl _ => True end ->
  forall tr out, exec (watcher_Reconcile r req) (mkStep (Get KAPIServer req) g :: tr) out ->
  tr = [] /\ out.1 = (r, false).
Proof.
  intros Hg tr out (g' & Heq & Hx). cbn [bind ask] in *.
  apply (f_equal apiserver_answer) in Heq. cbn in Heq. injection Heq as <-.
  destruct tr; [|done]. cbn [exec] in Hx. subst out. split; [done|].
  destruct g as [err|a]; [by destruct (IsNotFound err)|]. by destruct Hg as [err ->].
Qed.

Lemma watch_length req n r tr out : exec (watch req n r) tr out -> length tr = n.
Proof.
  revert r tr out; induction n as [|n IH]; intros r tr out; [by destruct tr|].
  cbn [watch]. intros (tr1 & tr2 & [[r1 c1] res] & -> & H1 & Hx)%exec_bind.
  apply exec_bind in Hx as (tr3 & tr4 & [r2 c2] & -> & H2 & Hx).
  destruct tr4; [|done]. rewrite app_nil_r, length_app, (IH _ _ _ H2).
  destruct tr1 as [|s tr1]; [done|]. destruct H1 as (g & _ & H1). by destruct tr1.
Qed.

(** One reconciliation cancels exactly when another profile is in force, and
    otherwise the watcher stands for the same profile. *)
Lemma watcher_Reconcile_exec honor p adherence r req tr r' cancelled res :
  watching honor p adherence r -> ShouldHonorClusterTLSProfile adherence = honor ->
  exec (watcher_Reconcile r req) tr (r', cancelled, res) ->
  exists s, tr = [s] /\ (cancelled = true <-> changed (effective adherence p) s) /\
  (cancelled = false -> exists p' adherence', watching honor p' adherence' r' /\
     ShouldHonorClusterTLSProfile adherence' = honor /\ effective adherence' p' = effective adherence p).
Proof.
  intros Hw Hh Hx. destruct tr as [|s tr]; [done|].
  assert (exists g, s = mkStep (Get KAPIServer req) g) as [g ->] by (destruct Hx as (g & -> & _); by exists g).
  assert (Hquiet : match g with
    | inr a => exists err, GetTLSProfileSpec (as_TLSSecurityProfile a) = inl err
    | inl _ => True end -> ~ changed (effective adherence p) (mkStep (Get KAPIServer req) g)).
  { intros Hg (a & p' & Ha & Hp & _). destruct g as [err|a']; [discriminate|]. injection Ha as ->.
    destruct Hg as [err He]. congruence. }
  assert (Hignored : match g with
    | inr a => exists err, GetTLSProfileSpec (as_TLSSecurityProfile a) = inl err
    | inl _ => True end -> exists s, mkStep (Get KAPIServer req) g :: tr = [s] /\
      (cancelled = true <-> changed (effective adherence p) s) /\
      (cancelled = false -> exists p' adherence', watching honor p' adherence' r' /\
        ShouldHonorClusterTLSProfile adherence' = honor /\ effective adherence' p' = effective adherence p)).
  { intros Hg. destruct (watcher_ignores r req g Hg _ _ Hx) as [-> [= -> ->]].
    eexists. split; [done|]. split; [split; [done | intros Hc; by destruct (Hquiet Hg)]|].
    intros _. by exists p, adherence. }
  destruct g as [err|a]; [by apply Hignored|].
  destruct (GetTLSProfileSpec (as_TLSSecurityProfile a)) as [err|current] eqn:Hp;
    [by apply Hignored; exists err|]. clear Hignored Hquiet.
  destruct (watcher_sees _ _ _ _ _ _ _ Hw Hh Hp _ _ Hx) as (-> & Hr & Hc). simpl in Hr, Hc.
  eexists. split; [done|]. subst cancelled. split.
  - rewrite negb_true_iff, bool_decide_eq_false. split; [by exists a, current|].
    intros (a' & p' & Ha & Hp' & Hn). simpl in Ha. injection Ha as <-. congruence.
  - rewrite negb_false_iff, bool_decide_eq_true. intros He. exists current, (as_TLSAdherence a).
    split; [done|]. split; [|done]. unfold effective in He. rewrite Hh in He.
    by destruct (ShouldHonorClusterTLSProfile (as_TLSAdherence a)), honor.
Qed.

Lemma watch_exec honor p adherence r req n tr r' cancelled :
  watching honor p adherence r -> ShouldHonorClusterTLSProfile adherence = honor ->
  exec (watch req n r) tr (r', cancelled) ->
  length tr = n /\ (cancelled = true <-> Exists (changed (effective adherence p)) tr).
Proof.
  revert p adherence r tr r' cancelled. induction n as [|n IH]; intros p adherence r tr r' cancelled Hw Hh.
  - destruct tr; [|done]. intros [= _ <-]. by rewrite Exists_nil.
  - cbn [watch]. intros (tr1 & tr2 & [[r1 c1] res] & -> & H1 & Hx)%exec_bind.
    destruct (watcher_Reconcile_exec _ _ _ _ _ _ _ _ _ Hw Hh H1) as (s & -> & Hc & Hnext).
    apply exec_bind in Hx as (tr3 & tr4 & [r2 c2] & -> & H2 & Hx).
    destruct tr4; [|done]. injection Hx as <- <-. rewrite app_nil_r. cbn [app length].
    rewrite Exists_cons, <- Hc. destruct c1; cbn [orb].
    + split; [f_equal; by eapply watch_length | tauto].
    + destruct (Hnext eq_refl) as (p' & a' & Hw' & Hh' & He).
      destruct (IH _ _ _ _ _ _ Hw' Hh' H2) as [-> ->]. rewrite He. split; [done|].
      split; [by right | by intros [?|?]].
Qed.

(** C22 The operator restarts exactly when it has to: with a secure metrics
    server, after any number of events of the APIServer and whatever the reads of
    it answer, the context has been cancelled if and only if some read found
    another TLS profile in force than the one the metrics server was started
    with.  Until then the metrics server has the right configuration; a read that
    fails, and a Custom profile without a profile, change nothing. *)
Theorem watcher_restarts_when_needed p adherence req n tr r cancelled :
  exec (watch req n (metrics_watcher (ShouldHonorClusterTLSProfile adherence) p adherence)) tr
    (r, cancelled) ->
  length tr = n /\ (cancelled = true <-> Exists (changed (effective adherence p)) tr).
Proof. by apply (watch_exec (ShouldHonorClusterTLSProfile adherence)). Qed.

(** The cluster goes from no opinion to a strict Modern profile. *)
Definition example_watch : prog (SecurityProfileWatcher * bool) :=
  watch (mkNN "" "cluster") 2
    (metrics_watcher (ShouldHonorClusterTLSProfile "") intermediateProfile "").
Lemma watcher_restarts_when_needed_witness :
  (run example_watch example_cluster).1.2 = true /\
  Exists (changed None) (trace example_watch example_cluster).
Proof.
  assert (Hc : (run example_watch example_cluster).1.2 = true) by (vm_compute; reflexivity).
  split; [exact Hc|].
  pose proof (run_exec example_watch example_cluster) as Hx.
  rewrite (surjective_pairing (run example_watch example_cluster).1), Hc in Hx.
  exact (proj1 (proj2 (watcher_restarts_when_needed intermediateProfile "" _ _ _ _ _ Hx)) eq_refl).
Defined.
