(* ===== verification/CommandLine.v ===== *)
(** * The command line

    The flags of cmd/main.go, with those that controller-runtime adds to them
    (BindFlags of its pkg/log/zap, and kubeconfig of pkg/client/config), and how
    package flag parses the arguments with [flag.ExitOnError].  Arguments are ASCII. *)

From S2P Require Import Prelude Go GoFmt Objects Api Util Args Resources Controller Regexp Validation.
From S2P Require Import Server OperatorConfig Metrics Main.

(** ** Flags and their values *)

(** The options of the logger: [None] for one that no flag has set; a level is
    zap's number for it. *)
Record zap_options := mkZapOptions {
  zo_Development : bool;
  zo_Encoder : option string;
  zo_Level : option Z;
  zo_StacktraceLevel : option Z;
  zo_TimeEncoding : option string
}.
(** The variables that the flags set. *)
Record variables := mkVariables {
  v_flags : Flags;
  v_zap : zap_options;
  v_kubeconfig : string
}.
Definition defaults : variables :=
  mkVariables default_flags (mkZapOptions true None None None None) "".

(** [strconv.ParseBool]. *)
Definition ParseBool (str : string) : option bool :=
  if bool_decide (str ∈ ["1"; "t"; "T"; "true"; "TRUE"; "True"]) then Some true
  else if bool_decide (str ∈ ["0"; "f"; "F"; "false"; "FALSE"; "False"]) then Some false
  else None.

(** A flag: [f_Set] is [None] when it refuses the value. *)
Record formal := mkFormal {
  f_Name : string;
  f_IsBoolFlag : bool;
  f_Set : string -> variables -> option variables
}.
Definition StringVar (name : string) (set : string -> variables -> variables) : formal :=
  mkFormal name false (fun s v => Some (set s v)).
Definition BoolVar (name : string) (set : bool -> variables -> variables) : formal :=
  mkFormal name true (fun s v => b ← ParseBool s; Some (set b v)).

Definition set_flags (f : Flags -> Flags) (v : variables) : variables :=
  mkVariables (f (v_flags v)) (v_zap v) (v_kubeconfig v).
Definition set_zap (f : zap_options -> zap_options) (v : variables) : variables :=
  mkVariables (v_flags v) (f (v_zap v)) (v_kubeconfig v).

(** The flags of main. *)
Definition main_flags : list formal :=
  [StringVar "metrics-bind-address" (fun s => set_flags (fun f =>
     mkFlags s (fl_probeAddr f) (fl_enableLeaderElection f) (fl_secureMetrics f) (fl_enableHTTP2 f)));
   StringVar "health-probe-bind-address" (fun s => set_flags (fun f =>
     mkFlags (fl_metricsAddr f) s (fl_enableLeaderElection f) (fl_secureMetrics f) (fl_enableHTTP2 f)));
   BoolVar "leader-elect" (fun b => set_flags (fun f =>
     mkFlags (fl_metricsAddr f) (fl_probeAddr f) b (fl_secureMetrics f) (fl_enableHTTP2 f)));
   BoolVar "metrics-secure" (fun b => set_flags (fun f =>
     mkFlags (fl_metricsAddr f) (fl_probeAddr f) (fl_enableLeaderElection f) b (fl_enableHTTP2 f)));
   BoolVar "enable-http2" (fun b => set_flags (fun f =>
     mkFlags (fl_metricsAddr f) (fl_probeAddr f) (fl_enableLeaderElection f) (fl_secureMetrics f) b))].

(** [encoderFlag.Set]. *)
Definition encoderFlag_Set (flagValue : string) (o : zap_options) : option zap_options :=
  let val := ToLower flagValue in
  if bool_decide (val ∈ ["json"; "console"])
  then Some (mkZapOptions (zo_Development o) (Some val) (zo_Level o) (zo_StacktraceLevel o) (zo_TimeEncoding o))
  else None.
Definition levelStrings (s : string) : option Z :=
  if bool_decide (s = "debug") then Some (-1)
  else if bool_decide (s = "info") then Some 0
  else if bool_decide (s = "error") then Some 2
  else if bool_decide (s = "panic") then Some 4 else None.
(** [levelFlag.Set]: a positive number is a negative level, as an [int8]. *)
Definition levelFlag_Set (flagValue : string) (o : zap_options) : option zap_options :=
  let set level :=
    Some (mkZapOptions (zo_Development o) (zo_Encoder o) (Some level) (zo_StacktraceLevel o) (zo_TimeEncoding o)) in
  match levelStrings (ToLower flagValue) with
  | Some level => set level
  | None =>
      match Atoi flagValue with
      | Some logLevel => if 0 <? logLevel then set (wrap 8 (wrap 64 (-1 * logLevel))) else None
      | None => None
      end
  end.
Definition stackLevelStrings (s : string) : option Z :=
  if bool_decide (s = "info") then Some 0
  else if bool_decide (s = "error") then Some 2
  else if bool_decide (s = "panic") then Some 4 else None.
Definition stackTraceFlag_Set (flagValue : string) (o : zap_options) : option zap_options :=
  match stackLevelStrings (ToLower flagValue) with
  | Some level =>
      Some (mkZapOptions (zo_Development o) (zo_Encoder o) (zo_Level o) (Some level) (zo_TimeEncoding o))
  | None => None
  end.
Definition timeEncodingFlag_Set (flagValue : string) (o : zap_options) : option zap_options :=
  let val := ToLower flagValue in
  if bool_decide (val ∈ ["rfc3339nano"; "rfc3339"; "iso8601"; "millis"; "nanos"; "epoch"])
  then Some (mkZapOptions (zo_Development o) (zo_Encoder o) (zo_Level o) (zo_StacktraceLevel o) (Some val))
  else None.
(** [fs.Var], for a flag of the logger. *)
Definition zap_Var (name : string) (set : string -> zap_options -> option zap_options) : formal :=
  mkFormal name false (fun s v => z ← set s (v_zap v); Some (set_zap (fun _ => z) v)).
Definition BindFlags : list formal :=
  [BoolVar "zap-devel" (fun b => set_zap (fun o =>
     mkZapOptions b (zo_Encoder o) (zo_Level o) (zo_StacktraceLevel o) (zo_TimeEncoding o)));
   zap_Var "zap-encoder" encoderFlag_Set;
   zap_Var "zap-log-level" levelFlag_Set;
   zap_Var "zap-stacktrace-level" stackTraceFlag_Set;
   zap_Var "zap-time-encoding" timeEncodingFlag_Set].
Definition RegisterFlags : formal :=
  StringVar "kubeconfig" (fun s v => mkVariables (v_flags v) (v_zap v) s).
(** [flag.CommandLine], when it parses. *)
Definition formals : list formal := RegisterFlags :: main_flags ++ BindFlags.

(** ** Parsing *)

(** Why parsing fails; asking for help is one reason. *)
Inductive flag_error :=
| BadSyntax (s : string)
| NotDefined (name : string)
| ErrHelp
| NeedsArgument (name : string)
| InvalidValue (value name : string).
(** What is left of the arguments, or the exit code. *)
Inductive parsed := Parsed (v : variables) (args : list string) | ExitCode (code : Z) (err : flag_error).
Definition failed (err : flag_error) : parsed :=
  ExitCode (match err with ErrHelp => 0 | _ => 2 end) err.

(** The text of a flag after its dashes; [None] for what is not a flag. *)
Definition after_dashes (s : string) : option string :=
  match s with
  | String c1 (String c2 r) =>
      if Ascii.eqb c1 "-" then Some (if Ascii.eqb c2 "-" then r else String c2 r) else None
  | _ => None
  end.
Definition bad_name (name : string) : bool :=
  match name with EmptyString => true | String c _ => Ascii.eqb c "-" || Ascii.eqb c "=" end.
(** The name, and the value after the first [=]. *)
Fixpoint cut (s : string) : string * option string :=
  match s with
  | EmptyString => (EmptyString, None)
  | String c r => if Ascii.eqb c "=" then (EmptyString, Some r)
                  else let '(name, value) := cut r in (String c name, value)
  end.
Definition formal_of (name : string) : option formal :=
  List.find (fun f => bool_decide (f_Name f = name)) formals.
Definition set_formal (again : variables -> list string -> parsed) (f : formal) (value : string)
    (v : variables) (args : list string) : parsed :=
  match f_Set f value v with
  | Some v => again v args
  | None => failed (InvalidValue value (f_Name f))
  end.
(** [parseOne]; [again] is the rest of the loop of [Parse]. *)
Definition parseOne (again : variables -> list string -> parsed) (v : variables) (args : list string) :
    parsed :=
  match args with
  | [] => Parsed v []
  | s :: rest =>
      match after_dashes s with
      | None => Parsed v args
      | Some name =>
          if bool_decide (s = "--") then Parsed v rest
          else if bad_name name then failed (BadSyntax s)
          else
            let '(name, value) := cut name in
            match formal_of name with
            | None => failed (if bool_decide (name ∈ ["help"; "h"]) then ErrHelp else NotDefined name)
            | Some f =>
                if f_IsBoolFlag f then set_formal again f (default "true" value) v rest
                else match value with
                     | Some value => set_formal again f value v rest
                     | None =>
                         match rest with
                         | value :: rest => set_formal again f value v rest
                         | [] => failed (NeedsArgument name)
                         end
                     end
            end
      end
  end.
Fixpoint Parse (v : variables) (args : list string) {struct args} : parsed := parseOne Parse v args.
Lemma Parse_unfold v args : Parse v args = parseOne Parse v args.
Proof. by destruct args. Qed.

(** The operator, from its arguments on; what is left of them is not looked at. *)
Inductive ran := NotStarted (code : Z) (err : flag_error) | Ran (o : outcome).
Definition operator (stages : stage -> option error) (args : list string) (env : gmap string string) :
    prog ran :=
  match Parse defaults args with
  | Parsed v _ => o <- main stages (v_flags v) env ;; Ret (Ran o)
  | ExitCode code err => Ret (NotStarted code err)
  end.

(** ** What the flags mean *)

(** What a flag takes, and what its variable may hold. *)
Inductive flag_type := AText | ASwitch | AnEncoder | ALevel | AStackLevel | ATimeEncoding.
Inductive setting := Text (s : string) | Switch (b : bool) | Level (z : Z) | Unset.
Record flag_row := mkRow { row_name : string; row_type : flag_type; row_default : setting }.
(** The flags of the operator, with their defaults. *)
Definition flag_table : list flag_row :=
  [mkRow "kubeconfig" AText (Text "");
   mkRow "metrics-bind-address" AText (Text "0");
   mkRow "health-probe-bind-address" AText (Text ":8081");
   mkRow "leader-elect" ASwitch (Switch false);
   mkRow "metrics-secure" ASwitch (Switch true);
   mkRow "enable-http2" ASwitch (Switch false);
   mkRow "zap-devel" ASwitch (Switch true);
   mkRow "zap-encoder" AnEncoder Unset;
   mkRow "zap-log-level" ALevel Unset;
   mkRow "zap-stacktrace-level" AStackLevel Unset;
   mkRow "zap-time-encoding" ATimeEncoding Unset].
(** The variables, in the order of the table. *)
Definition text_or_unset (o : option string) : setting := match o with Some s => Text s | None => Unset end.
Definition level_or_unset (o : option Z) : setting := match o with Some z => Level z | None => Unset end.
Definition values (v : variables) : list setting :=
  [Text (v_kubeconfig v);
   Text (fl_metricsAddr (v_flags v)); Text (fl_probeAddr (v_flags v));
   Switch (fl_enableLeaderElection (v_flags v)); Switch (fl_secureMetrics (v_flags v));
   Switch (fl_enableHTTP2 (v_flags v));
   Switch (zo_Development (v_zap v)); text_or_unset (zo_Encoder (v_zap v));
   level_or_unset (zo_Level (v_zap v)); level_or_unset (zo_StacktraceLevel (v_zap v));
   text_or_unset (zo_TimeEncoding (v_zap v))].

(** What a word stands for, by a list of words. *)
Definition word_of {A} (words : list (string * A)) (t : string) : option A :=
  snd <$> List.find (fun w => bool_decide (w.1 = t)) words.
Definition switch_words : list (string * bool) :=
  [("1", true); ("t", true); ("T", true); ("true", true); ("TRUE", true); ("True", true);
   ("0", false); ("f", false); ("F", false); ("false", false); ("FALSE", false); ("False", false)].
(** The words for levels are read in any case, and so are the encodings; any positive
    number is a level of verbosity, which the logger keeps in eight bits. *)
Definition meaning (ty : flag_type) (t : string) : option setting :=
  match ty with
  | AText => Some (Text t)
  | ASwitch => Switch <$> word_of switch_words t
  | AnEncoder => Text <$> word_of [("json", "json"); ("console", "console")] (ToLower t)
  | ALevel =>
      match word_of [("debug", -1); ("info", 0); ("error", 2); ("panic", 4)] (ToLower t) with
      | Some z => Some (Level z)
      | None => n ← Atoi t; if bool_decide (0 < n) then Some (Level (wrap 8 (- n))) else None
      end
  | AStackLevel => Level <$> word_of [("info", 0); ("error", 2); ("panic", 4)] (ToLower t)
  | ATimeEncoding =>
      Text <$> word_of [("rfc3339nano", "rfc3339nano"); ("rfc3339", "rfc3339"); ("iso8601", "iso8601");
                        ("millis", "millis"); ("nanos", "nanos"); ("epoch", "epoch")] (ToLower t)
  end.

(** A flag and its text, as words of a command line. *)
Definition is_switch (ty : flag_type) : bool := match ty with ASwitch => true | _ => false end.
Inductive spelled_one (row : flag_row) : string -> list string -> Prop :=
| joined d t : d ∈ ["-"; "--"] -> spelled_one row t [d +:+ row_name row +:+ "=" +:+ t]
| separate d t :
    d ∈ ["-"; "--"] -> is_switch (row_type row) = false -> spelled_one row t [d +:+ row_name row; t]
| alone d : d ∈ ["-"; "--"] -> is_switch (row_type row) = true -> spelled_one row "true" [d +:+ row_name row].
(** Words that give flags texts that mean something. *)
Inductive spelled : list (string * string) -> list string -> Prop :=
| spelled_nil : spelled [] []
| spelled_cons row t words l rest :
    row ∈ flag_table -> spelled_one row t words -> is_Some (meaning (row_type row) t) -> spelled l rest ->
    spelled ((row_name row, t) :: l) (words ++ rest).
(** Where flags end, and what is left then. *)
Inductive ends : list string -> list string -> Prop :=
| at_end : ends [] []
| at_word w l : after_dashes w = None -> ends (w :: l) (w :: l)
| at_dashes l : ends ("--" :: l) l.
(** The last text given to a flag counts, and the default if there is none. *)
Definition set_row (row : flag_row) (x : setting) (given : string * string) : setting :=
  if bool_decide (given.1 = row_name row) then default x (meaning (row_type row) given.2) else x.
Definition final (l : list (string * string)) (row : flag_row) : setting :=
  fold_left (set_row row) l (row_default row).

(** ** The flags are as the table says *)

(** A flag implements a row: its text is taken when it means something, and then
    it sets the row's variable to that and no other. *)
Definition implements (f : formal) (row : flag_row) : Prop :=
  f_Name f = row_name row /\ f_IsBoolFlag f = is_switch (row_type row) /\
  forall t v, match f_Set f t v with
              | Some v' => is_Some (meaning (row_type row) t) /\
                  values v' = zip_with (fun r x => set_row r x (row_name row, t)) flag_table (values v)
              | None => meaning (row_type row) t = None
              end.

Lemma word_of_None {A} (words : list (string * A)) t : t ∉ map fst words -> word_of words t = None.
Proof.
  intros Ht. unfold word_of. destruct (List.find _ words) as [w|] eqn:Hf; [|done]. destruct Ht.
  apply List.find_some in Hf as [Hin Hw%bool_decide_eq_true]. subst t.
  by apply list_elem_of_fmap_2, list_elem_of_In.
Qed.
(** Case analysis on a word of a list. *)
Ltac word_cases t words :=
  let l := eval lazy in (map fst words) in
  destruct (decide (t ∈ l)) as [Hin|Hout];
  [ rewrite !elem_of_cons, elem_of_nil in Hin;
    repeat destruct Hin as [Hin|Hin]; [..|destruct Hin]
  | pose proof (word_of_None words t Hout) as Hword;
    rewrite !not_elem_of_cons in Hout; destruct_and? Hout ].

Lemma ParseBool_words t : ParseBool t = word_of switch_words t.
Proof.
  word_cases t switch_words; [by subst t..|]. rewrite Hword. unfold ParseBool.
  by rewrite !bool_decide_false by (rewrite !elem_of_cons, elem_of_nil; tauto).
Qed.
Lemma wrap_levels n : wrap 8 (wrap 64 (-1 * n)) = wrap 8 (- n).
Proof.
  unfold wrap. set (a := -1 * n + 2 ^ (64 - 1)).
  assert (Ha : a mod 2 ^ 64 = a - 2 ^ 64 * (a / 2 ^ 64)) by (rewrite Z.mod_eq by lia; done).
  rewrite Ha. unfold a. f_equal.
  replace (-1 * n + 2 ^ (64 - 1) - 2 ^ 64 * ((-1 * n + 2 ^ (64 - 1)) / 2 ^ 64) - 2 ^ (64 - 1) + 2 ^ (8 - 1))
    with (- n + 2 ^ (8 - 1) + (- (2 ^ 56 * ((-1 * n + 2 ^ (64 - 1)) / 2 ^ 64))) * 2 ^ 8).
  - by rewrite Z.mod_add by lia.
  - change (2 ^ 64) with (2 ^ 56 * 2 ^ 8). lia.
Qed.
Lemma encoderFlag_meaning t o :
  match encoderFlag_Set t o with
  | Some o' => exists w, meaning AnEncoder t = Some (Text w) /\
      o' = mkZapOptions (zo_Development o) (Some w) (zo_Level o) (zo_StacktraceLevel o) (zo_TimeEncoding o)
  | None => meaning AnEncoder t = None
  end.
Proof.
  unfold encoderFlag_Set, meaning.
  word_cases (ToLower t) [("json", "json"); ("console", "console")]; [by rewrite Hin; cbn; eexists..|].
  rewrite bool_decide_false by (rewrite !elem_of_cons, elem_of_nil; tauto). by rewrite Hword.
Qed.
Lemma timeEncodingFlag_meaning t o :
  match timeEncodingFlag_Set t o with
  | Some o' => exists w, meaning ATimeEncoding t = Some (Text w) /\
      o' = mkZapOptions (zo_Development o) (zo_Encoder o) (zo_Level o) (zo_StacktraceLevel o) (Some w)
  | None => meaning ATimeEncoding t = None
  end.
Proof.
  unfold timeEncodingFlag_Set, meaning.
  word_cases (ToLower t) [("rfc3339nano", "rfc3339nano"); ("rfc3339", "rfc3339"); ("iso8601", "iso8601");
                          ("millis", "millis"); ("nanos", "nanos"); ("epoch", "epoch")];
    [by rewrite Hin; cbn; eexists..|].
  rewrite bool_decide_false by (rewrite !elem_of_cons, elem_of_nil; tauto). by rewrite Hword.
Qed.
Lemma levelFlag_meaning t o :
  match levelFlag_Set t o with
  | Some o' => exists z, meaning ALevel t = Some (Level z) /\
      o' = mkZapOptions (zo_Development o) (zo_Encoder o) (Some z) (zo_StacktraceLevel o) (zo_TimeEncoding o)
  | None => meaning ALevel t = None
  end.
Proof.
  unfold levelFlag_Set, meaning, levelStrings.
  word_cases (ToLower t) [("debug", -1); ("info", 0); ("error", 2); ("panic", 4)]; [by rewrite Hin; cbn; eexists..|].
  rewrite !bool_decide_false by done. rewrite Hword. destruct (Atoi t) as [n|]; cbn [mbind option_bind]; [|done].
  destruct (0 <? n) eqn:Hn; [rewrite bool_decide_true by lia | by rewrite bool_decide_false by lia].
  eexists. by rewrite wrap_levels.
Qed.
Lemma stackTraceFlag_meaning t o :
  match stackTraceFlag_Set t o with
  | Some o' => exists z, meaning AStackLevel t = Some (Level z) /\
      o' = mkZapOptions (zo_Development o) (zo_Encoder o) (zo_Level o) (Some z) (zo_TimeEncoding o)
  | None => meaning AStackLevel t = None
  end.
Proof.
  unfold stackTraceFlag_Set, meaning, stackLevelStrings.
  word_cases (ToLower t) [("info", 0); ("error", 2); ("panic", 4)]; [by rewrite Hin; cbn; eexists..|].
  rewrite !bool_decide_false by done. by rewrite Hword.
Qed.

Lemma switch_meaning t : meaning ASwitch t = Switch <$> ParseBool t.
Proof. by rewrite ParseBool_words. Qed.
Lemma text_meaning t : meaning AText t = Some (Text t).
Proof. done. Qed.
#[local] Opaque meaning.
(** The variables after one flag, row by row. *)
Ltac row_by_row Hm := unfold values; cbn -[meaning]; unfold set_row; cbn -[meaning]; rewrite ?Hm; reflexivity.
Lemma StringVar_implements name set row :
  row_name row = name -> row_type row = AText ->
  (forall t v, values (set t v) = zip_with (fun r x => set_row r x (name, t)) flag_table (values v)) ->
  implements (StringVar name set) row.
Proof. intros <- Ht Hv. split; [done|]. rewrite Ht. split; [done|]. intros t v. split; [by rewrite text_meaning; eexists | apply Hv]. Qed.
Lemma BoolVar_implements name set row :
  row_name row = name -> row_type row = ASwitch ->
  (forall b t v, meaning ASwitch t = Some (Switch b) ->
     values (set b v) = zip_with (fun r x => set_row r x (name, t)) flag_table (values v)) ->
  implements (BoolVar name set) row.
Proof.
  intros <- Ht Hv. split; [done|]. rewrite Ht. split; [done|]. intros t v. cbn [f_Set BoolVar].
  pose proof (switch_meaning t) as Hm.
  destruct (ParseBool t) as [b|]; cbn in Hm |- *; [|done]. rewrite Hm. split; [by eexists | by apply Hv].
Qed.
Lemma zap_Var_implements name set row :
  row_name row = name -> is_switch (row_type row) = false ->
  (forall t v, match set t (v_zap v) with
               | Some o => is_Some (meaning (row_type row) t) /\
                   values (set_zap (fun _ => o) v) = zip_with (fun r x => set_row r x (name, t)) flag_table (values v)
               | None => meaning (row_type row) t = None
               end) ->
  implements (zap_Var name set) row.
Proof.
  intros <- Ht Hs. split; [done|]. split; [done|]. intros t v. cbn [f_Set zap_Var].
  specialize (Hs t v). by destruct (set t (v_zap v)).
Qed.
Ltac zap_row set spec :=
  apply zap_Var_implements; [reflexivity..|]; intros t v; pose proof (spec t (v_zap v)) as Ho;
  destruct (set t (v_zap v)) as [o|]; [|exact Ho];
  destruct Ho as (w & Hm & ->); split; [cbn [row_type]; by rewrite Hm; eexists | row_by_row Hm].
Lemma formals_implement : Forall2 implements formals flag_table.
Proof.
  unfold formals, main_flags, BindFlags, RegisterFlags, flag_table. cbn [app].
  repeat apply Forall2_cons_2; [..|apply Forall2_nil_2].
  all: try (apply StringVar_implements; [reflexivity..|]; intros t v; row_by_row (text_meaning t)).
  all: try (apply BoolVar_implements; [reflexivity..|]; intros b t v Hm; row_by_row Hm).
  - zap_row encoderFlag_Set encoderFlag_meaning.
  - zap_row levelFlag_Set levelFlag_meaning.
  - zap_row stackTraceFlag_Set stackTraceFlag_meaning.
  - zap_row timeEncodingFlag_Set timeEncodingFlag_meaning.
Qed.
#[local] Transparent meaning.
Lemma formal_row f : f ∈ formals -> exists row, row ∈ flag_table /\ implements f row.
Proof.
  intros [i Hf]%list_elem_of_lookup. destruct (Forall2_lookup_l _ _ _ _ _ formals_implement Hf) as (row & Hr & Hi).
  exists row. split; [by eapply list_elem_of_lookup_2 | done].
Qed.
Lemma row_formal row : row ∈ flag_table -> exists f, f ∈ formals /\ implements f row.
Proof.
  intros [i Hr]%list_elem_of_lookup. destruct (Forall2_lookup_r _ _ _ _ _ formals_implement Hr) as (f & Hf & Hi).
  exists f. split; [by eapply list_elem_of_lookup_2 | done].
Qed.

(** The variables are known by their values. *)
Lemma values_inj v v' : values v = values v' -> v = v'.
Proof.
  destruct v as [[] [? e l k t] ?], v' as [[] [? e' l' k' t'] ?]. unfold values. cbn.
  intros H. injection H as -> -> -> -> -> -> -> He Hl Hk Ht.
  destruct e, e', l, l', k, k', t, t'; simpl in He, Hl, Hk, Ht; by simplify_eq.
Qed.
(** The settings one after the other, row by row. *)
Definition set_values (vals : list setting) (given : string * string) : list setting :=
  zip_with (fun row x => set_row row x given) flag_table vals.
Lemma set_values_rows l (d : flag_row -> setting) :
  fold_left set_values l (map d flag_table) = map (fun row => fold_left (set_row row) l (d row)) flag_table.
Proof.
  revert d; induction l as [|given l IH]; intros d; [done|]. cbn [fold_left].
  rewrite <- (IH (fun row => set_row row (d row) given)). reflexivity.
Qed.
Lemma final_values l : fold_left set_values l (values defaults) = map (final l) flag_table.
Proof. exact (set_values_rows l row_default). Qed.

(** ** Parsing is reading what is spelled *)

Lemma cut_spec s : let '(name, value) := cut s in
  s = match value with Some value => name +:+ "=" +:+ value | None => name end.
Proof.
  induction s as [|c s IH]; cbn [cut]; [done|].
  destruct (Ascii.eqb_spec c "=") as [->|_]; [done|]. destruct (cut s) as [name [value|]]; by rewrite IH at 1.
Qed.
Lemma after_dashes_spec s name :
  after_dashes s = Some name -> bad_name name = false -> exists d, d ∈ ["-"; "--"] /\ s = d +:+ name.
Proof.
  destruct s as [|c1 [|c2 r]]; [done..|]. cbn [after_dashes].
  destruct (Ascii.eqb_spec c1 "-") as [->|_]; [|done]. destruct (Ascii.eqb_spec c2 "-") as [->|_];
    intros [= <-] _; [exists "--" | exists "-"]; split; (done || set_solver).
Qed.
Lemma formal_of_spec name f : formal_of name = Some f -> f ∈ formals /\ f_Name f = name.
Proof. intros [? ?%bool_decide_eq_true]%List.find_some. by rewrite list_elem_of_In. Qed.

(** The names of the flags are distinct, and none is mistaken for something else. *)
Lemma formals_named f d rest :
  f ∈ formals -> d ∈ ["-"; "--"] -> (rest = "" \/ exists value, rest = "=" +:+ value) ->
  after_dashes (d +:+ f_Name f +:+ rest) = Some (f_Name f +:+ rest) /\
  (d +:+ f_Name f +:+ rest) <> "--" /\ bad_name (f_Name f +:+ rest) = false /\
  cut (f_Name f +:+ rest) =
    (f_Name f, match rest with EmptyString => None | String _ value => Some value end) /\
  formal_of (f_Name f) = Some f.
Proof.
  intros Hf Hd Hr. unfold formals, main_flags, BindFlags in Hf. cbn [app] in Hf.
  rewrite !elem_of_cons, elem_of_nil in Hf. rewrite !elem_of_cons, elem_of_nil in Hd.
  destruct_or! Hf; try done; subst f; destruct_or! Hd; try done; subst d;
    destruct Hr as [->|[value ->]]; done.
Qed.

(** A flag as spelled is set, and parsing goes on behind it. *)
Lemma Parse_spelled f row t words v rest :
  f ∈ formals -> implements f row -> spelled_one row t words ->
  Parse v (words ++ rest) = set_formal Parse f t v rest.
Proof.
  intros Hf (Hname & Hbool & _) Hw. rewrite Parse_unfold.
  destruct Hw as [d t Hd|d t Hd Hb|d Hd Hb]; rewrite <- Hname.
  - destruct (formals_named f d ("=" +:+ t) Hf Hd ltac:(eauto)) as (Ha & Hn & Hbad & Hc & Ho).
    cbn [app parseOne]. rewrite Ha, bool_decide_false, Hbad, Hc by done. cbn iota. rewrite Ho.
    by destruct (f_IsBoolFlag f).
  - destruct (formals_named f d "" Hf Hd ltac:(eauto)) as (Ha & Hn & Hbad & Hc & Ho).
    rewrite append_nil_r in Ha, Hn, Hbad, Hc.
    cbn [app parseOne]. rewrite Ha, bool_decide_false, Hbad, Hc by done. cbn iota. by rewrite Ho, Hbool, Hb.
  - destruct (formals_named f d "" Hf Hd ltac:(eauto)) as (Ha & Hn & Hbad & Hc & Ho).
    rewrite append_nil_r in Ha, Hn, Hbad, Hc.
    cbn [app parseOne]. rewrite Ha, bool_decide_false, Hbad, Hc by done. cbn iota. by rewrite Ho, Hbool, Hb.
Qed.

(** A step of parsing stops, fails, or has read one flag. *)
Inductive step_of (again : variables -> list string -> parsed) (v : variables) :
    list string -> parsed -> Prop :=
| step_ends args rest : ends args rest -> step_of again v args (Parsed v rest)
| step_fails args err : step_of again v args (failed err)
| step_flag row t words v1 rest :
    row ∈ flag_table -> spelled_one row t words -> is_Some (meaning (row_type row) t) ->
    values v1 = set_values (values v) (row_name row, t) ->
    step_of again v (words ++ rest) (again v1 rest).

Lemma set_formal_step again f row t words v rest :
  row ∈ flag_table -> implements f row -> spelled_one row t words ->
  step_of again v (words ++ rest) (set_formal again f t v rest).
Proof.
  intros Hr (_ & _ & Hset) Hw. unfold set_formal. specialize (Hset t v).
  destruct (f_Set f t v) as [v1|]; [|constructor]. destruct Hset as [Hm Hv]. by eapply step_flag.
Qed.
Lemma parseOne_step again v args : step_of again v args (parseOne again v args).
Proof.
  destruct args as [|s rest]; [repeat constructor|]. cbn [parseOne].
  destruct (after_dashes s) as [text|] eqn:Ha; [|by repeat constructor].
  case_bool_decide as Hs; [subst s; repeat constructor|].
  destruct (bad_name text) eqn:Hb; [constructor|].
  destruct (after_dashes_spec _ _ Ha Hb) as (d & Hd & ->).
  pose proof (cut_spec text) as Hc. destruct (cut text) as [name value].
  destruct (formal_of name) as [f|] eqn:Hf; [|constructor].
  destruct (formal_of_spec _ _ Hf) as [Hin <-]. destruct (formal_row f Hin) as (row & Hr & Himp).
  pose proof Himp as (Hname & Hswitch & _). rewrite Hname in Hc.
  destruct (f_IsBoolFlag f) eqn:Hbool, value as [value|]; subst text; cbn [default from_option id].
  - by apply (set_formal_step _ _ row _ [_]), joined.
  - by apply (set_formal_step _ _ row _ [_]), alone.
  - by apply (set_formal_step _ _ row _ [_]), joined.
  - destruct rest as [|value rest]; [constructor|].
    by apply (set_formal_step _ _ row _ [_; _]), separate.
Qed.
Lemma spelled_one_nonempty row t words : spelled_one row t words -> words <> [].
Proof. by inversion 1. Qed.

(** Parsing reads what is spelled, from left to right. *)
Lemma Parse_reads v args v' rest :
  Parse v args = Parsed v' rest ->
  exists l words tail, args = words ++ tail /\ spelled l words /\ ends tail rest /\
    values v' = fold_left set_values l (values v).
Proof.
  induction (well_founded_ltof _ (@length string) args) as [args _ IH] in v |- *.
  rewrite Parse_unfold.
  destruct (parseOne_step Parse v args) as [args rest0 He|args err|row t words v1 rest0 Hr Hw Hm Hv].
  - intros [= <- <-]. exists [], [], args. by repeat constructor.
  - done.
  - intros (l & words' & tail & -> & Hl & He & Hv')%IH.
    + exists ((row_name row, t) :: l), (words ++ words'), tail. rewrite app_assoc.
      split; [done|]. split; [by eapply spelled_cons|]. split; [done|]. cbn [fold_left]. by rewrite <- Hv.
    + unfold ltof. rewrite length_app. apply spelled_one_nonempty in Hw. destruct words; [done|simpl; lia].
Qed.
Lemma Parse_reads_all l words v rest :
  spelled l words -> exists v1, values v1 = fold_left set_values l (values v) /\
    Parse v (words ++ rest) = Parse v1 rest.
Proof.
  intros Hl. revert v. induction Hl as [|row t words l words' Hr Hw Hm _ IH]; intros v; [by exists v|].
  destruct (row_formal row Hr) as (f & Hf & Himp). rewrite <- app_assoc.
  rewrite (Parse_spelled f row t words v) by done. unfold set_formal.
  destruct Himp as (_ & _ & Hset). specialize (Hset t v). destruct (f_Set f t v) as [v1|].
  - destruct Hset as [_ Hv]. destruct (IH v1) as (v2 & Hv2 & ->). exists v2. split; [|done].
    cbn [fold_left]. rewrite Hv2. by f_equal.
  - rewrite Hset in Hm. by destruct Hm.
Qed.
Lemma Parse_ends v args rest : ends args rest -> Parse v args = Parsed v rest.
Proof. destruct 1 as [|w l Hw|]; [done| |done]. rewrite Parse_unfold. cbn [parseOne]. by rewrite Hw. Qed.
Lemma Parse_exits v args code err :
  Parse v args = ExitCode code err -> code = match err with ErrHelp => 0 | _ => 2 end.
Proof.
  induction (well_founded_ltof _ (@length string) args) as [args _ IH] in v |- *.
  rewrite Parse_unfold.
  destruct (parseOne_step Parse v args) as [args rest0 He|args err0|row t words v1 rest0 Hr Hw Hm Hv];
    [done | by intros [= <- <-]|].
  apply IH. unfold ltof. rewrite length_app. apply spelled_one_nonempty in Hw. destruct words; [done|simpl; lia].
Qed.


(** A flag twice, a level in another case, and what is behind the two dashes. *)
Definition example_args : list string :=
  ["--leader-elect=T"; "-metrics-bind-address"; ":8080"; "--zap-log-level"; "DEBUG";
   "--metrics-bind-address=:8443"; "--metrics-secure=0"; "--"; "--enable-http2"].
Ltac spell_next row t how :=
  refine (spelled_cons row t _ _ _ _ (how _) _ _);
  [apply list_elem_of_In; simpl; tauto | apply list_elem_of_In; simpl; tauto | by eexists|].

(** The command line that the operator is shipped with. *)
Example shipped :
  Parse defaults ["--metrics-bind-address=:8443"; "--metrics-secure"; "--leader-elect";
                  "--health-probe-bind-address=:8081"] =
  Parsed (set_flags (fun _ => mkFlags ":8443" ":8081" true true false) defaults) [].
Proof. reflexivity. Qed.
(** A boolean does not take the next word: it ends the flags, and the rest is ignored. *)
Example word_after_boolean :
  Parse defaults ["--metrics-secure"; "false"; "--leader-elect"] = Parsed defaults ["false"; "--leader-elect"].
Proof. reflexivity. Qed.
(** Verbosities beyond 128 wrap around to levels at which nothing is logged. *)
Example level_wraps :
  map (fun s => levelFlag_Set s (v_zap defaults) ≫= zo_Level) ["1"; "128"; "129"; "-1"; "debug"] =
  [Some (-1); Some (-128); Some 127; None; Some (-1)].
Proof. reflexivity. Qed.
