(* ===== verification/Installation.v ===== *)
(** * From the command line to the operands

    The parts put together: main.go's [init] and [main] with their flags and
    environment, [SetupWithManager] with the goroutine that it starts, and the loop
    of informers, queue and worker.  The goroutine waits for the caches, reads from
    them like the worker does, and runs beside the loop, call by call; other clients,
    among them other instances of the operator, change the cluster meanwhile. *)

From S2P Require Import Prelude Go GoFmt Objects Api Util Args Resources Controller Registry Server Operands.
From S2P Require Import Convergence Protocol Liveness Startup Safety Watches System Healing Settling Schedule.
From S2P Require Import OperatorConfig Metrics Main CommandLine.
From stdpp Require Import relations well_founded.

(** ** The goroutine beside the loop *)

Section Machine.
Context {W : Type} `{ClusterLaws W}.
Context (mc : ManagerCache) (scheme : Scheme) (sources : list source).

(** The goroutine waits for the caches, or is in [ensureVPAController]. *)
Inductive boot := Waiting | Booting (p : prog (option error)).
Record machine := mkMachine { m_boot : boot; m_loop : sys W }.

(** [others] is what other clients do, [pace] restricts the loop.  The wait ends no
    sooner than the cache has the operator's namespace. *)
Inductive machine_step (others : W -> W -> Prop) (pace : sys W -> sys W -> Prop) : machine -> machine -> Prop :=
| others_move g s w' l :
    others (s_world s) w' -> covers mc (view (s_world s)) (view w') l ->
    machine_step others pace (mkMachine g s) (mkMachine g (world_moves s w' l))
| loop_moves g s s' :
    sys_step mc scheme sources nobody s s' -> pace s s' ->
    machine_step others pace (mkMachine g s) (mkMachine g s')
| boot_begins s :
    is_Some (table KNamespace (s_cache s) !! namespace_key (s_config s)) ->
    machine_step others pace (mkMachine Waiting s) (mkMachine (Booting (ensureVPAController (s_config s))) s)
| boot_reads k key f s :
    machine_step others pace (mkMachine (Booting (Do (Get k key) f)) s)
      (mkMachine (Booting (f (cached_get mc (s_cache s) k key))) s)
| boot_calls cl f s l :
    is_get cl = false -> covers mc (view (s_world s)) (view (handle cl (s_world s)).2) l ->
    machine_step others pace (mkMachine (Booting (Do cl f)) s)
      (mkMachine (Booting (f (handle cl (s_world s)).1)) (world_moves s (handle cl (s_world s)).2 l)).

(** Without other clients, and with a worker that does not run ahead of its cache. *)
Definition alone : machine -> machine -> Prop := machine_step (fun _ _ => False) keeps_pace.
End Machine.
Arguments machine W : clear implicits.

(** *** The calls of the goroutine *)

(** Reads of what the cache serves, and the writes of [ensureVPAController]. *)
Definition boot_call (mc : ManagerCache) (cfg : Config) (c : call) : Prop :=
  (exists k key, c = Get k key /\ cache_serves mc k key) \/
  c = Create KVerticalPodAutoscalerController (DefaultVPAController cfg) \/
  exists ns, obj_key (k:=KNamespace) ns = namespace_key cfg /\ c = Patch KNamespace (annotated_namespace ns) ns.

(** Calls that are known to be of some kind. *)
Ltac calls_made := solve [repeat (constructor; [assumption|]); constructor].
Lemma ensureVPAController_calls mc scheme mapper gvk ns name cfg :
  in_scope mc mapper (cfg_Namespace cfg) ->
  makes_only scheme mapper gvk ns name (boot_call mc cfg) (ensureVPAController cfg).
Proof.
  intros Hscope.
  assert (Hget : forall k key, cache_serves mc k key -> boot_call mc cfg (Get k key)) by (intros k key ?; left; by exists k, key).
  assert (Hns : boot_call mc cfg (Get KNamespace (namespace_key cfg))) by (by apply Hget, served_cluster).
  assert (Hcr : boot_call mc cfg (Get KVerticalPodAutoscalerController (mkNN (cfg_Namespace cfg) (cfg_Name cfg))))
    by (by eapply Hget, served_scope).
  assert (Hcreate : boot_call mc cfg (Create KVerticalPodAutoscalerController (DefaultVPAController cfg)))
    by (right; by left).
  unfold makes_only, ensureVPAController. cbn [wp bind ask]. intros [err|n] Hn; [calls_made|].
  assert (Hpatch : boot_call mc cfg (Patch KNamespace (annotated_namespace n) n))
    by (right; right; exists n; split; [apply Hn | done]).
  destruct (gm_lookup _ _); [calls_made|]. cbn [wp bind ask]. intros [err|vpa] _.
  - destruct (IsNotFound err); cbn [wp bind ask]; [|calls_made].
    intros [err'|o] _; [destruct (negb (IsAlreadyExists err')); cbn [wp bind ask]; [calls_made|]|];
      cbn [wp bind ask]; intros r _; calls_made.
  - intros r _. calls_made.
Qed.

(** Only the operator's names matter to the goroutine. *)
Lemma ensureVPAController_names cfg cfg' :
  our_config (cfg_Namespace cfg) (cfg_Name cfg) cfg' -> ensureVPAController cfg' = ensureVPAController cfg.
Proof.
  intros [Hns Hn]. unfold ensureVPAController, DefaultVPAController. by rewrite Hns, Hn.
Qed.

(** The inputs are no operands. *)
Lemma input_not_operand ns name k key X : bool_decide (k ∈ owned_kinds) = false ->
  (k, key) ∈ operand_slots ns name -> X.
Proof. intros Hk%bool_decide_eq_false [Ho _]%operand_slots_owned. by destruct Hk. Qed.

(** ** The invariant *)

Section Installation.
Context {W : Type} `{ClusterLaws W}.
Context (scheme : Scheme) (mapper : RESTMapping) (gvk : GroupVersionKind).
Context (mc : ManagerCache).
Context (cfg0 : Config) (sources : list source).
Hypothesis kinds : forall t, GVKForObject t scheme = inr gvk.
Hypothesis setup : SetupWithManager scheme mapper cfg0 = SetupDone sources.
Hypothesis own_group : ParseGroupVersion (GroupVersion_String gvk) = Some (gvk_Group gvk, gvk_Version gvk).
Hypothesis namespaced : mapper (gvk_Version gvk) = Some true.
#[local] Abbreviation ns := (cfg_Namespace cfg0).
#[local] Abbreviation name := (cfg_Name cfg0).
Hypothesis scope : in_scope mc mapper ns.
#[local] Abbreviation orderly := (orderly (W:=W) scheme mapper gvk ns name).
#[local] Abbreviation sound := (sound scheme mapper gvk ns name).
#[local] Abbreviation loop_ok := (loop_invariant (W:=W) scheme mapper gvk ns name mc sources True).
#[local] Abbreviation starting := (starting (W:=W) cfg0).
#[local] Abbreviation marked := (marked (W:=W) cfg0).
#[local] Abbreviation resource := (custom_resource (W:=W) cfg0).
#[local] Abbreviation considerate := (considerate (W:=W) cfg0).
#[local] Abbreviation ns_key := (namespace_key cfg0).
#[local] Abbreviation boots := (makes_only scheme mapper gvk ns name (boot_call mc cfg0)).
#[local] Abbreviation robust :=
  (robust (W:=W) considerate (startup cfg0) (boot_answers cfg0) (settled cfg0)).

(** What an old copy of an object tells about the world of now. *)
Definition truthful (w : W) (k : kind) (key : NamespacedName) : obj k -> Prop :=
  match k return obj k -> Prop with
  | KNamespace => fun n => key = ns_key ->
      is_Some (gm_lookup DefaultVPAControllerAnnotation (om_Annotations (ns_meta n))) -> marked w
  | KVerticalPodAutoscalerController => fun _ => key = default_key cfg0 -> is_Some (resource w)
  | _ => fun _ => True
  end.
Definition truthful_slot (w : W) (k : kind) (key : NamespacedName) (v : option (obj k)) : Prop :=
  (forall o, v = Some o -> truthful w k key o) /\
  match k return option (obj k) -> Prop with
  | KNamespace => fun v => key = ns_key -> is_Some v
  | _ => fun _ => True
  end v.
(** The cache and its backlog. *)
Record informed (w : W) (c : Store) (b : list update) : Prop := mkInformed {
  inf_cache : forall k key o, table k c !! key = Some o -> truthful w k key o;
  inf_backlog : Forall (fun u => truthful_slot w (up_kind u) (up_key u) (up_object u)) b
}.

Definition boot_course (s : sys W) (g : boot) : Prop :=
  match g with
  | Waiting => True
  | Booting p => is_Some (table KNamespace (s_cache s) !! ns_key) /\ boots p /\ robust p (s_world s)
  end.
Record machine_invariant (m : machine W) : Prop := mkMachineInvariant {
  mi_loop : loop_ok (m_loop m);
  mi_settings : keeps_settings cfg0 (m_loop m);
  mi_starting : starting (s_world (m_loop m));
  mi_informed : informed (s_world (m_loop m)) (s_cache (m_loop m)) (s_backlog (m_loop m));
  mi_boot : boot_course (m_loop m) (m_boot m)
}.

Lemma truthful_later w w' k key o : considerate w w' -> truthful w k key o -> truthful w' k key o.
Proof. intros (_ & Hm & Hr). destruct k; simpl; auto. Qed.
Lemma truthful_slot_later w w' k key v :
  considerate w w' -> truthful_slot w k key v -> truthful_slot w' k key v.
Proof. intros Hc [Hv ?]. split; [|done]. intros o Ho. by eapply truthful_later; [|apply Hv]. Qed.
Lemma truthful_view w k key : starting w -> truthful_slot w k key (view w k !! key).
Proof.
  intros (_ & Hns & _). split.
  - intros o Ho. destruct k; try done; simpl; intros ->.
    + by exists o.
    + intros [v Hm]. exists v. unfold annotation. cbn [obj] in *. rewrite Ho. exact Hm.
  - destruct k; try done. by intros ->.
Qed.

Lemma informed_world w w' c b l :
  considerate w w' -> starting w' -> covers mc (view w) (view w') l -> informed w c b -> informed w' c (b ++ l).
Proof.
  intros Hc Hs [Hl _] []. split.
  - intros k key o Ho. by eapply truthful_later; [|apply inf_cache0].
  - apply Forall_app. split.
    + eapply Forall_impl; [exact inf_backlog0|]. intros u. by apply truthful_slot_later.
    + apply Forall_forall. intros u Hu. rewrite (proj2 (Hl u Hu)). by apply truthful_view.
Qed.
Lemma informed_catch_up w c b1 u b2 :
  informed w c (b1 ++ u :: b2) -> informed w (apply_update c u) (b1 ++ b2).
Proof.
  intros [Hc [Hb1 [Hu Hb2]%Forall_cons]%Forall_app]. split; [|by apply Forall_app].
  intros k key o. destruct (decide ((k, key) = up_slot u)) as [Hs|Hs].
  - unfold up_slot in Hs. injection Hs as -> ->. rewrite apply_update_eq. apply Hu.
  - rewrite apply_update_ne by done. apply Hc.
Qed.
Lemma namespace_stays w c b1 u b2 :
  informed w c (b1 ++ u :: b2) -> is_Some (table KNamespace c !! ns_key) ->
  is_Some (table KNamespace (apply_update c u) !! ns_key).
Proof.
  intros [_ [_ [[_ Hu] _]%Forall_cons]%Forall_app] Hns.
  destruct (decide ((KNamespace, ns_key) = up_slot u)) as [Hs|Hs].
  - destruct u as [k key v]. unfold up_slot in Hs. cbn in Hs, Hu. injection Hs as <- <-.
    pose proof (apply_update_eq c (mkUpdate KNamespace ns_key v)) as Heq. cbn [up_kind up_key up_object] in Heq.
    rewrite Heq. by apply Hu.
  - by rewrite apply_update_ne.
Qed.

(** *** Calls *)

(** The worker leaves the inputs of the goroutine alone. *)
Lemma operand_call_frame c (w : W) k key :
  healthy w -> orderly_call mapper gvk ns name mc c -> k ∉ operand_kinds ->
  view (handle c w).2 k !! key = view w k !! key.
Proof.
  intros Hh Hc Hk.
  assert (Hne : forall k' key', k' ∈ operand_kinds -> (k, key) ∉ [(k', key')])
    by (intros k' key' Hk' Hin%list_elem_of_singleton; injection Hin as <- <-; exact (Hk Hk')).
  destruct c as [k' key'|k' o|k' o|k' o|k' m o|e|]; simpl in Hc; try done.
  - destruct (get_law w k' key' Hh) as (_ & Hu & _). apply Hu, not_elem_of_nil.
  - destruct (create_law w k' o Hh) as (_ & Hu & _). apply Hu, Hne, Hc.
  - destruct (update_law w k' o Hh) as (_ & Hu & _). apply Hu, Hne, Hc.
  - destruct (event_law w e Hh) as (_ & Hu & _). apply Hu, not_elem_of_nil.
  - destruct (now_law w Hh) as (_ & Hu & _). apply Hu, not_elem_of_nil.
Qed.
Lemma operand_call_startup c (w : W) :
  orderly w -> starting w -> orderly_call mapper gvk ns name mc c -> startup cfg0 w (handle c w).2.
Proof.
  intros Hw Hs Hc. pose proof (proj1 Hs) as Hh.
  assert (Hout : forall k, k ∈ [KNamespace; KVerticalPodAutoscalerController] -> k ∉ operand_kinds)
    by (unfold operand_kinds, owned_kinds; set_solver).
  apply startup_frame; [| | |done].
  - intros _. apply (orderly_call_keeps scheme mapper gvk ns name mc c w Hw Hc).
  - intros _. apply operand_call_frame; [done|done|]. apply Hout. set_solver.
  - intros _ o Ho. rewrite <- Ho. apply (operand_call_frame c w KVerticalPodAutoscalerController); [done|done|].
    apply Hout. set_solver.
Qed.

Lemma boot_call_get k key : boot_call mc cfg0 (Get k key) -> cache_serves mc k key.
Proof. by intros [(? & ? & [= -> ->] & Hserved)|[?|(? & _ & ?)]]. Qed.
(** The goroutine changes at most a custom resource or a namespace. *)
Lemma boot_call_slot c (w : W) :
  starting w -> boot_call mc cfg0 c ->
  exists k key, k ∈ [KNamespace; KVerticalPodAutoscalerController] /\
    unchanged_except [(k, key)] w (handle c w).2.
Proof.
  intros (Hh & [live Hlive] & _).
  assert (Hquiet : forall w', unchanged_except [] w w' -> exists k key,
    k ∈ [KNamespace; KVerticalPodAutoscalerController] /\ unchanged_except [(k, key)] w w').
  { intros w' Hu. exists KNamespace, ns_key. split; [set_solver|].
    eapply unchanged_except_weaken; [apply list_subseteq_nil | exact Hu]. }
  intros [(k0 & k & -> & _)|[->|(n & Hkey & ->)]].
  - apply Hquiet. by apply get_law.
  - destruct (create_law w KVerticalPodAutoscalerController (DefaultVPAController cfg0) Hh) as (_ & Hu & _).
    do 2 eexists. split; [|exact Hu]. set_solver.
  - assert (Hk : obj_key (k:=KNamespace) (annotated_namespace n) = ns_key) by exact Hkey.
    pose proof (patch_law w (annotated_namespace n) n live Hh) as Hp. unfold answers in Hp. rewrite Hk in Hp.
    destruct (Hp Hlive) as (_ & Hu & _). do 2 eexists. split; [|exact Hu]. set_solver.
Qed.
Lemma boot_call_covered c (w : W) :
  starting w -> boot_call mc cfg0 c -> exists l, covers mc (view w) (view (handle c w).2) l.
Proof. intros Hs Hc. destruct (boot_call_slot c w Hs Hc) as (k & key & _ & Hu). by eapply covers_written. Qed.
Lemma boot_call_orderly c (w : W) : orderly w -> starting w -> boot_call mc cfg0 c -> orderly (handle c w).2.
Proof.
  intros Hw Hs Hc. pose proof Hw as [Hh Hsound].
  destruct Hc as [(k0 & k & -> & Hserved)|[->|(n & Hkey & ->)]];
    [by apply (orderly_call_keeps scheme mapper gvk ns name mc)| |].
  - destruct (create_law w KVerticalPodAutoscalerController (DefaultVPAController cfg0) Hh) as (Hh' & Hu & _ & Hv).
    split; [done|]. intros k key o Ho.
    destruct (decide ((k, key) = (KVerticalPodAutoscalerController, default_key cfg0))) as [[= -> ->]|Hne].
    + revert Hv. case_match eqn:Hv0; intros Hv.
      * apply (Hsound KVerticalPodAutoscalerController). exact (eq_trans Hv0 (eq_trans (eq_sym (proj1 Hv)) Ho)).
      * destruct Hv as (o' & _ & Hv & _ & Hspec). cbn [obj] in *.
        assert (o = o') as -> by exact (inj Some _ _ (eq_trans (eq_sym Ho) Hv)).
        split; [exact (view_key _ KVerticalPodAutoscalerController _ _ Hh' Hv)|].
        split; [by apply input_not_operand|].
        split_and!; [done | apply kinds|]. cbn in Hspec |- *. by rewrite Hspec.
    + apply Hsound. rewrite <- Ho. symmetry. apply Hu. by rewrite list_elem_of_singleton.
  - destruct Hs as (_ & [live Hlive] & _).
    assert (Hk : obj_key (k:=KNamespace) (annotated_namespace n) = ns_key) by exact Hkey.
    pose proof (patch_law w (annotated_namespace n) n live Hh) as Hp. unfold answers in Hp. rewrite Hk in Hp.
    destruct (Hp Hlive) as (Hh' & Hu & _). split; [done|]. intros k key o Ho.
    destruct (decide ((k, key) = (KNamespace, ns_key))) as [[= -> ->]|Hne].
    + split; [by apply (view_key (handle (Patch KNamespace (annotated_namespace n) n) w).2)|]. split; [|done].
      by apply input_not_operand.
    + apply Hsound. rewrite <- Ho. symmetry. apply Hu. by rewrite list_elem_of_singleton.
Qed.

(** *** Steps *)

Lemma world_ok s w' l :
  loop_ok s -> informed (s_world s) (s_cache s) (s_backlog s) -> starting (s_world s) ->
  orderly w' -> considerate (s_world s) w' -> covers mc (view (s_world s)) (view w') l ->
  loop_ok (world_moves s w' l) /\ starting w' /\ informed w' (s_cache s) (s_backlog s ++ l).
Proof.
  intros Hl Hi Hs Hw Hc Hcov. assert (Hs' : starting w') by (by apply Hc).
  split; [|split; [done|by eapply informed_world]].
  destruct s as [cfg w c b p q r]. cbn in *.
  by apply (step_other scheme mapper gvk ns name mc sources True cfg w w' c b l p q r).
Qed.

Lemma loop_moves_ok g s s' :
  sys_step mc scheme sources nobody s s' ->
  machine_invariant (mkMachine g s) -> machine_invariant (mkMachine g s').
Proof.
  intros Hstep [Hl Hk Hs Hi Hb]. cbn in Hl, Hk, Hs, Hi, Hb.
  pose proof (keeps_settings_step _ _ _ _ cfg0 _ _ Hstep Hk) as Hk'.
  assert (Hl' : loop_ok s').
  { apply (loop_invariant_step scheme mapper gvk ns name mc scope cfg0 sources True
      (conj eq_refl eq_refl) (kinds _) setup own_group namespaced s s'); [|done].
    by destruct Hstep; try constructor. }
  assert (Hsame : forall w c b, s_world s' = w -> s_cache s' = c -> s_backlog s' = b ->
    starting w -> informed w c b -> boot_course s' g -> machine_invariant (mkMachine g s'))
    by (intros w c b <- <- <- ???; by split).
  destruct Hstep as [|cfg w c b1 u b2 p q r Hu| | | |cfg w c b p q req cl f l Hg Hcov|]; cbn in *.
  - done.
  - eapply Hsame; try done; [by apply informed_catch_up|].
    destruct g as [|pr]; [done|]. destruct Hb as (Hns & ? & ?). split_and!; try done. cbn.
    by eapply namespace_stays.
  - by eapply Hsame.
  - by eapply Hsame.
  - by eapply Hsame.
  - pose proof (operand_call_startup cl w (inv_world _ _ _ _ _ _ _ _ _ Hl) Hs
      (careful_call _ _ _ _ _ _ _ _ (proj2 (inv_running _ _ _ _ _ _ _ _ _ Hl)))) as HR.
    pose proof (startup_considerate _ _ _ HR) as Hc. assert (Hs' : starting (handle cl w).2) by (by apply HR).
    eapply Hsame; try done; [by eapply informed_world|].
    destruct g as [|pr]; [done|]. destruct Hb as (? & ? & Hr). split_and!; try done.
    by apply (robust_later considerate (startup cfg0) (boot_answers cfg0) (settled cfg0) pr w).
  - by eapply Hsame.
Qed.

(** What the cache answers is honest. *)
Lemma cached_honest s k key :
  loop_ok s -> informed (s_world s) (s_cache s) (s_backlog s) ->
  is_Some (table KNamespace (s_cache s) !! ns_key) ->
  honest cfg0 (s_world s) k key (cached_get mc (s_cache s) k key).
Proof.
  intros Hl [Hi _] [n Hn]. unfold cached_get.
  destruct k; try exact I; intros ->.
  - destruct (table KVerticalPodAutoscalerController (s_cache s) !! default_key cfg0) as [o|] eqn:Ho;
      [exact (Hi KVerticalPodAutoscalerController _ o Ho eq_refl)|].
    by eapply served_missing, served_scope.
  - cbn [obj] in *. rewrite Hn. exists n. split; [done|].
    split; [exact (proj1 (inv_cache _ _ _ _ _ _ _ _ _ Hl KNamespace ns_key n Hn))|].
    exact (Hi KNamespace ns_key n Hn eq_refl).
Qed.

Definition disturbed : machine W -> machine W -> Prop :=
  machine_step mc scheme sources (fun w w' => orderly w' /\ considerate w w') (fun _ _ => True).

Lemma machine_invariant_step m m' : disturbed m m' -> machine_invariant m -> machine_invariant m'.
Proof.
  intros Hstep [Hl Hk Hs Hi Hb].
  destruct Hstep as [g s w' l [Hw Hc] Hcov|g s s' Hstep _|s Hns|k key f s|cl f s l Hg Hcov]; cbn in Hl, Hk, Hs, Hi, Hb.
  - destruct (world_ok s w' l Hl Hi Hs Hw Hc Hcov) as (? & ? & ?). split; try done. cbn.
    destruct g as [|p]; [done|]. destruct Hb as (? & ? & Hr). split_and!; try done.
    by apply (robust_later considerate (startup cfg0) (boot_answers cfg0) (settled cfg0) p (s_world s)).
  - by apply (loop_moves_ok g s s').
  - pose proof (inv_config _ _ _ _ _ _ _ _ _ Hl) as Hcfg.
    rewrite (ensureVPAController_names cfg0) by done. split; try done. cbn.
    assert (Hkey : namespace_key (s_config s) = ns_key) by (unfold namespace_key; by destruct Hcfg as [-> _]).
    rewrite Hkey in Hns. split; [done|].
    split; [by apply ensureVPAController_calls | by apply ensureVPAController_robust].
  - destruct Hb as (Hns & Hc & Hr). split; try done. cbn. split; [done|]. split.
    + apply (makes_next _ _ _ _ _ (boot_call mc cfg0) (Get k key) f); [done|].
      unfold cached_get. simpl. destruct (table k _ !! key) as [o|] eqn:Ho; [|by apply served_missing, boot_call_get, (makes_call scheme mapper gvk ns name _ (Get k key) f)].
      by apply (inv_cache _ _ _ _ _ _ _ _ _ Hl).
    + apply (Hr (s_world s) _ (s_world s)); [reflexivity|].
      split; [by apply cached_honest | reflexivity].
  - destruct Hb as (Hns & Hc & Hr).
    destruct (Hr (s_world s) (handle cl (s_world s)).1 (handle cl (s_world s)).2) as [HR Hr'];
      [reflexivity | by apply live_answers|].
    pose proof (boot_call_orderly cl (s_world s) (inv_world _ _ _ _ _ _ _ _ _ Hl) Hs
      (makes_call _ _ _ _ _ _ _ _ Hc)) as Hw.
    destruct (world_ok s _ l Hl Hi Hs Hw (startup_considerate _ _ _ HR) Hcov) as (? & ? & ?).
    split; try done. cbn. split; [done|]. split; [|done].
    apply (makes_next _ _ _ _ _ (boot_call mc cfg0) cl f); [done|]. by destruct cl.
Qed.
Lemma machine_invariant_start w s :
  orderly w -> starting w -> sys_start mc cfg0 w s -> machine_invariant (mkMachine Waiting s).
Proof.
  intros Hw Hs Hstart.
  pose proof (loop_invariant_start scheme mapper gvk ns name mc cfg0 sources True
    (conj eq_refl eq_refl) w s Hw Hstart) as Hl.
  pose proof (keeps_settings_start mc cfg0 w s Hstart) as Hk.
  destruct Hstart as (l & -> & Hcov & _). split; try done. cbn. split.
  - intros k key o. by destruct k; simpl; rewrite lookup_empty.
  - apply Forall_forall. intros u Hu. rewrite (proj2 (Hcov u Hu)). by apply truthful_view.
Qed.
Lemma machine_invariant_reached m m' : rtc disturbed m m' -> machine_invariant m -> machine_invariant m'.
Proof. intros Hr. induction Hr as [|m1 m2 m3 Hs _ IH]; [done|]. intros Hm. by eapply IH, machine_invariant_step. Qed.

(** ** Undisturbed, it comes to an end *)

#[local] Abbreviation alone := (alone (W:=W) mc scheme sources).
Lemma alone_disturbed m m' : alone m m' -> disturbed m m'.
Proof. intros []; by econstructor. Qed.

Definition boot_next (g' g : boot) : Prop :=
  match g, g' with
  | Waiting, Booting _ => True
  | Booting p, Booting q => continues q p
  | _, Waiting => False
  end.
Lemma boot_next_wf : well_founded boot_next.
Proof.
  assert (Hb : forall p, Acc boot_next (Booting p)).
  { intros p. induction (continues_wf p) as [p _ IH]. constructor. intros [|q] Hq; [done | by apply IH]. }
  intros [|p]; [|apply Hb]. constructor. intros [|q]; [done | intros _; apply Hb].
Qed.

Lemma sn_machine g s : machine_invariant (mkMachine g s) -> sn alone (mkMachine g s).
Proof.
  revert s. induction (boot_next_wf g) as [g _ IHg]. intros s Hi.
  assert (Hsn : sn (prompt mc scheme sources) s)
    by (apply (sn_any scheme mapper gvk ns name mc scope cfg0 sources
      (conj eq_refl eq_refl) (kinds _) setup own_group namespaced), Hi).
  induction Hsn as [s _ IHs]. constructor. intros m' Hstep. unfold flip in Hstep.
  pose proof (machine_invariant_step _ _ (alone_disturbed _ _ Hstep) Hi) as Hi'.
  inversion Hstep as [g' s0 w' l []|g' s0 s' Hs Hpace|s0 Hns|k key f s0|cl f s0 l Hg Hcov]; subst.
  - apply IHs; [by split | done].
  - by apply IHg.
  - apply IHg; [by eexists | done].
  - apply IHg; [by eexists | done].
Qed.

(** Done: the goroutine has ended well, the loop rests. *)
Definition installed (m : machine W) : Prop :=
  m_boot m = Booting (Ret None) /\ at_rest (m_loop m) /\ marked (s_world (m_loop m)) /\
  same_settings cfg0 (s_config (m_loop m)) /\
  exists vpa, resource (s_world (m_loop m)) = Some vpa /\
    Forall (met (s_world (m_loop m)))
      (watched_goals (cluster_config (s_config (m_loop m)) (s_world (m_loop m))) vpa).

Lemma boot_progress g s :
  machine_invariant (mkMachine g s) -> at_rest s ->
  (exists e, g = Booting (Ret e)) \/ exists m', alone (mkMachine g s) m'.
Proof.
  intros [Hl _ Hs Hi Hb] (Hbacklog & _). cbn in Hl, Hs, Hi, Hb. destruct g as [|[e|cl f]]; [right| by left; exists e |right].
  - eexists. apply boot_begins. pose proof (inv_mirrored _ _ _ _ _ _ _ _ _ Hl KNamespace ns_key) as Hm.
    rewrite Hbacklog in Hm. cbn in Hm. assert (Hkey : namespace_key (s_config s) = ns_key)
      by (unfold namespace_key; by destruct (inv_config _ _ _ _ _ _ _ _ _ Hl) as [-> _]).
    rewrite Hkey. cbn. rewrite Hm by (by apply served_cluster). apply Hs.
  - destruct (is_get cl) eqn:Hg; [destruct cl; try done; eexists; apply boot_reads|].
    destruct Hb as (_ & Hc & _).
    destruct (boot_call_covered cl (s_world s) Hs (makes_call _ _ _ _ _ _ _ _ Hc)) as [l Hcov].
    eexists. by eapply boot_calls.
Qed.
Lemma machine_progress m : machine_invariant m -> (exists m', alone m m') \/ installed m.
Proof.
  destruct m as [g s]. intros Hi.
  destruct (prompt_progress scheme mapper gvk ns name mc sources s (mi_loop _ Hi)) as [Hrest|[s' [Hs Hp]]];
    [|left; eexists; by apply loop_moves].
  destruct (boot_progress g s Hi Hrest) as [[e ->]|?]; [right | by left].
  pose proof (invariant_rests scheme mapper gvk ns name mc scope cfg0 sources True
    (conj eq_refl eq_refl) (kinds _) setup own_group namespaced s I (mi_loop _ Hi) Hrest) as Hset.
  destruct (mi_boot _ Hi) as (_ & _ & Hr). cbn in Hr.
  destruct (Hr (s_world s) ltac:(reflexivity)) as (-> & Hm & [vpa Hv]).
  split; [done|]. split; [done|]. split; [done|]. split; [apply (mi_settings _ Hi)|].
  exists vpa. split; [done|]. by apply Hset.
Qed.

(** An instance of the operator keeps to what the others may do. *)
Lemma instance_considerate m m' :
  machine_step mc scheme sources (fun _ _ => False) (fun _ _ => True) m m' -> machine_invariant m ->
  orderly (s_world (m_loop m')) /\ considerate (s_world (m_loop m)) (s_world (m_loop m')).
Proof.
  intros Hstep Hi. assert (Hi' : machine_invariant m').
  { apply (machine_invariant_step m); [|done]. by destruct Hstep; econstructor. }
  split; [exact (inv_world _ _ _ _ _ _ _ _ _ (mi_loop _ Hi'))|]. clear Hi'. destruct Hi as [Hl _ Hs _ Hb].
  destruct Hstep as [g s w' l []|g s s' Hs' _|s Hns|k k0 f s|cl f s l Hg Hcov]; try reflexivity; cbn in Hl, Hs, Hb |- *.
  - destruct Hs' as [| | | | |cfg' w c b p q req cl f l Hg Hcov|]; try reflexivity; try done. cbn in Hl, Hs |- *.
    apply startup_considerate, operand_call_startup; [exact (inv_world _ _ _ _ _ _ _ _ _ Hl) | done|].
    exact (careful_call _ _ _ _ _ _ _ _ (proj2 (inv_running _ _ _ _ _ _ _ _ _ Hl))).
  - destruct Hb as (_ & _ & Hr). apply startup_considerate.
    destruct (Hr (s_world s) (handle cl (s_world s)).1 (handle cl (s_world s)).2) as [HR _];
      [reflexivity | by apply live_answers | exact HR].
Qed.

(** Neither the loop nor the goroutine writes a ClusterOperator. *)
Lemma operator_reports_nothing pace (m m' : machine W) key :
  machine_invariant m -> machine_step mc scheme sources (fun _ _ => False) pace m m' ->
  view (s_world (m_loop m')) KClusterOperator !! key = view (s_world (m_loop m)) KClusterOperator !! key.
Proof.
  intros [Hl _ Hs _ Hb] Hstep.
  destruct Hstep as [g s w' l []|g s s' Hs' _|s Hns|k k0 f s|cl f s l Hg Hcov]; try done; cbn in Hl, Hs, Hb |- *.
  - destruct Hs' as [| | | | |cfg' w c b p q req cl f l Hg Hcov|]; try done. cbn in Hl, Hs |- *.
    apply (operand_call_frame cl w KClusterOperator); [apply Hs | |].
    + exact (careful_call _ _ _ _ _ _ _ _ (proj2 (inv_running _ _ _ _ _ _ _ _ _ Hl))).
    + exact (bool_decide_eq_false_1 (KClusterOperator ∈ operand_kinds) eq_refl).
  - destruct Hb as (_ & Hc & _).
    destruct (boot_call_slot cl (s_world s) Hs (makes_call _ _ _ _ _ _ _ _ Hc)) as (k & k0 & Hk & Hu).
    refine (Hu KClusterOperator key _). intros Hin%list_elem_of_singleton. injection Hin as <- _. revert Hk.
    exact (bool_decide_eq_false_1 (KClusterOperator ∈ [KNamespace; KVerticalPodAutoscalerController]) eq_refl).
Qed.
End Installation.

(** ** A namespace that is not served *)

(** Neither the worker nor the goroutine is about to write. *)
Definition writes_nothing {W} (m : machine W) : Prop :=
  (forall req c f, s_running (m_loop m) = Some (req, Do c f) -> is_write c = false) /\
  (forall c f, m_boot m = Booting (Do c f) -> is_write c = false).

Section Unserved.
Context {W : Type} `{ClusterLaws W}.
Context (mc : ManagerCache) (scheme : Scheme) (sources : list source) (cfg0 : Config).
#[local] Abbreviation ns := (cfg_Namespace cfg0).
Hypothesis some_namespace : mc_WatchNamespace mc <> "".
Hypothesis another : mc_WatchNamespace mc <> ns.
#[local] Abbreviation step := (machine_step (W:=W) mc scheme sources (fun _ _ => True) (fun _ _ => True)).

Lemma unserved k name : cluster_scoped k = false -> serves (mc_WatchNamespace mc) k (mkNN ns name) = false.
Proof.
  intros Hk. unfold serves. cbn [nn_Namespace]. by rewrite Hk, !bool_decide_eq_false_2 by congruence.
Qed.

(** What a program can be told that reads from such a cache. *)
Definition blind : env := fun c =>
  match c return resp c -> Prop with
  | Get k key => fun r =>
      match r with
      | inr _ => cache_serves mc k key
      | inl err => IsNotFound err = serves (mc_WatchNamespace mc) k key
      end
  | _ => fun _ => True
  end.
Definition reads_only {A} (p : prog A) (Q : A -> Prop) : Prop :=
  wp blind p (fun tr a => Forall (fun s => is_write (st_call s) = false) tr /\ Q a).
Lemma blind_exists c : exists r, blind c r.
Proof.
  destruct c as [k key| | | | | |]; try (by exists (inl (ErrorString ""))); [|by exists tt | by exists 0%Z].
  exists (inl (mc_missing mc k key)). apply mc_missing_law.
Qed.
Lemma reads_call {A} c (f : resp c -> prog A) Q : reads_only (Do c f) Q -> is_write c = false.
Proof.
  intros Hp. destruct (blind_exists c) as [r Hr].
  apply (wp_possible blind (f r)); [apply blind_exists|].
  eapply wp_mono; [|exact (Hp r Hr)]. intros tr a [Htr _]. by apply Forall_cons in Htr as [? _].
Qed.
Lemma reads_next {A} c (f : resp c -> prog A) Q r : reads_only (Do c f) Q -> blind c r -> reads_only (f r) Q.
Proof.
  intros Hp Hr. eapply wp_mono; [|exact (Hp r Hr)]. intros tr a [Htr ?]. by apply Forall_cons in Htr as [_ ?].
Qed.

Lemma reads_fail {A} (p : prog A) (f : A -> prog (option error)) (Q : A -> Prop) :
  reads_only p Q -> (forall a, Q a -> exists err, f a = Ret (Some err)) -> reads_only (bind p f) is_Some.
Proof.
  intros Hp Hf. apply wp_bind. eapply wp_mono; [|exact Hp]. intros tr a [Htr Ha].
  destruct (Hf a Ha) as [err ->]. cbn [wp]. by rewrite app_nil_r.
Qed.
(** The first object that a run looks for cannot be read, which ends the run. *)
Lemma reconcile_blind cfg vpa vpaRef :
  cfg_Namespace cfg = ns -> reads_only (reconcile_all scheme cfg vpa vpaRef) is_Some.
Proof.
  intros Hns.
  assert (Hfirst : reads_only (reconcile_operand scheme cfg vpa vpaRef recommenderParams) is_Some).
  { unfold reads_only, reconcile_operand. cbn [wp bind ask]. unfold blind.
    assert (Hkey : serves (mc_WatchNamespace mc) KDeployment (NameMethod recommenderParams cfg vpa) = false)
      by (cbn [NameMethod recommenderParams]; unfold RecommenderName; rewrite Hns; by apply unserved).
    intros [err|o] Hr; [|unfold cache_serves in Hr; congruence].
    rewrite Hkey in Hr. rewrite Hr. cbn [negb fail_with record_event wp bind ask].
    intros r _. split; [by repeat constructor | by eexists]. }
  assert (Hstop : forall (q : prog (option error)) (e : option error), is_Some e ->
    exists err, match e with Some err => Ret (Some err) | None => q end = Ret (Some err)).
  { intros q e [err ->]. by exists err. }
  unfold reconcile_all, and_then. cbn [for_each controllerParams].
  apply (reads_fail _ _ is_Some); [|apply Hstop]. apply (reads_fail _ _ is_Some); [exact Hfirst | apply Hstop].
Qed.
Lemma Reconcile_blind cfg req :
  cfg_Namespace cfg = ns ->
  reads_only (Reconcile scheme cfg req) (fun out => cfg_Namespace out.1 = ns).
Proof.
  intros Hns. unfold reads_only, Reconcile, syncTLSProfile. cbn [wp bind ask]. intros a _.
  assert (Hns' : cfg_Namespace (synced_TLSProfile cfg a) = ns) by (by rewrite synced_TLSProfile_usable).
  generalize dependent (synced_TLSProfile cfg a). clear Hns cfg. intros cfg Hns.
  cbn [wp bind ask]. intros [err|vpa] _.
  { destruct (IsNotFound err); cbn [wp]; (split; [by repeat constructor | done]). }
  apply wp_bind. eapply wp_mono; [|by apply reconcile_blind]. intros tr e [Htr _]. cbn [wp].
  rewrite app_nil_r. split; [|done]. by repeat (constructor; [done|]).
Qed.
Lemma ensureVPAController_blind cfg : cfg_Namespace cfg = ns -> reads_only (ensureVPAController cfg) (fun _ => True).
Proof.
  intros Hns. unfold reads_only, ensureVPAController. cbn [wp bind ask]. intros [err|n] _; [by repeat constructor|].
  destruct (gm_lookup _ _); [by repeat constructor|]. cbn [wp bind ask]. unfold blind. rewrite Hns.
  intros [err|o] Hr; [|unfold cache_serves in Hr; by rewrite unserved in Hr].
  rewrite unserved in Hr by done. rewrite Hr. by repeat constructor.
Qed.

(** The cache has only what it serves, and what runs has seen nothing else. *)
Record unseeing (m : machine W) : Prop := mkUnseeing {
  un_cache : scoped mc (s_cache (m_loop m));
  un_backlog : Forall (fun u => cache_serves mc (up_kind u) (up_key u)) (s_backlog (m_loop m));
  un_config : cfg_Namespace (s_config (m_loop m)) = ns;
  un_running : match s_running (m_loop m) with
               | None => True
               | Some (_, p) => reads_only p (fun out => cfg_Namespace out.1 = ns)
               end;
  un_boot : match m_boot m with Waiting => True | Booting p => reads_only p (fun _ => True) end
}.
Lemma cached_blind c k key : scoped mc c -> blind (Get k key) (cached_get mc c k key).
Proof.
  intros Hc. unfold blind, cached_get. destruct (table k c !! key) as [o|] eqn:Ho; [apply Hc; by exists o|].
  apply mc_missing_law.
Qed.
Lemma reads_live {A} c (f : resp c -> prog A) Q r : is_get c = false -> reads_only (Do c f) Q -> reads_only (f r) Q.
Proof. intros Hc Hp. apply (reads_next c f Q r Hp). by destruct c. Qed.
Lemma covers_served (v v' : views) l : covers mc v v' l -> Forall (fun u => cache_serves mc (up_kind u) (up_key u)) l.
Proof. intros [Hl _]. apply Forall_forall. intros u Hu. by apply Hl. Qed.

Lemma unseeing_loop g s s' :
  sys_step mc scheme sources nobody s s' -> unseeing (mkMachine g s) -> unseeing (mkMachine g s').
Proof.
  intros Hs [Hc Hb Hn Hr Hg]. cbn in Hc, Hb, Hn, Hr, Hg.
  destruct Hs as [|cfg w c b1 u b2 p q r Hu| |cfg w c b p q req Hq|cfg w c b p q req k key f
    |cfg w c b p q req cl f l Hget Hl|cfg w c b p q req cfg' res e]; cbn in *; try done.
  - apply Forall_app in Hb as [Hb1 [Hk Hb2]%Forall_cons]. split; try done; cbn; [|by apply Forall_app].
    intros k k0. destruct (decide ((k, k0) = up_slot u)) as [Hslot|Hslot].
    + unfold up_slot in Hslot. by injection Hslot as -> ->.
    + rewrite apply_update_ne by done. apply Hc.
  - split; try done. cbn. by apply Reconcile_blind.
  - split; try done. cbn. apply (reads_next (Get k key) f _ _ Hr). by apply cached_blind.
  - split; try done; cbn; [|by apply (reads_live cl f)]. apply Forall_app. split; [done|]. by eapply covers_served.
  - split; try done. apply Hr.
Qed.
Lemma unseeing_step m m' : step m m' -> unseeing m -> unseeing m'.
Proof.
  intros Hs. destruct Hs as [g s w' l _ Hl|g s s' Hs _|s Hns|k key f s|cl f s l Hget Hl]; [|by apply unseeing_loop|..];
    intros [Hc Hb Hn Hr Hg]; cbn in *.
  - split; try done. cbn. apply Forall_app. split; [done|]. by eapply covers_served.
  - split; try done. cbn. by apply ensureVPAController_blind.
  - split; try done. cbn. apply (reads_next (Get k key) f _ _ Hg). by apply cached_blind.
  - split; try done; cbn; [|by apply (reads_live cl f)]. apply Forall_app. split; [done|]. by eapply covers_served.
Qed.
Lemma unserved_writes_nothing w s m :
  sys_start mc cfg0 w s -> rtc step (mkMachine Waiting s) m -> writes_nothing m.
Proof.
  intros (l & -> & Hl) Hr. assert (Hi : unseeing m).
  { assert (Hi : unseeing (mkMachine Waiting (mkSys cfg0 w empty_store l [] ∅ None))).
    { split; try done; cbn; [|by eapply covers_served].
      intros k k0 [o Ho]. by destruct k; simpl in Ho; rewrite lookup_empty in Ho. }
    clear Hl. induction Hr as [|m1 m2 m3 Hs _ IH]; [done|]. by eapply IH, unseeing_step. }
  split.
  - intros req c f Hrun. pose proof (un_running _ Hi) as Hp. rewrite Hrun in Hp. by eapply reads_call.
  - intros c f Hboot. pose proof (un_boot _ Hi) as Hp. rewrite Hboot in Hp. by eapply reads_call.
Qed.
End Unserved.

(** ** The operator *)

(** The reconciler that [main] sets up: the manager's scheme is the one that [init]
    has filled. *)
Definition operator_reconciler (reg : registry) (su : Setup) : VerticalPodAutoscalerControllerReconciler :=
  mkReconciler (operator_scheme reg) (su_Config su).

(** The reconciler's settings are the environment's. *)
Definition configured (oc : OperatorConfig) (cfg : Config) : Prop :=
  cfg_Namespace cfg = oc_VerticalPodAutoscalerNamespace oc /\
  cfg_Name cfg = oc_VerticalPodAutoscalerName oc /\
  cfg_Image cfg = oc_VerticalPodAutoscalerImage oc /\
  cfg_Verbosity cfg = oc_VerticalPodAutoscalerVerbosity oc /\
  cfg_ExtraArgs cfg = oc_VerticalPodAutoscalerExtraArgs oc.

Lemma operator_configured stages args env tr su :
  exec (operator stages args env) tr (Ran (Ended su)) ->
  configured (ConfigFromEnvironment env) (su_Config su) /\
  su_WatchNamespace su = oc_WatchNamespace (ConfigFromEnvironment env).
Proof.
  unfold operator. destruct (Parse defaults args) as [v rest|]; [|by destruct tr].
  intros (tr1 & tr2 & o & -> & Hx & Ho)%exec_bind. destruct tr2; [|done]. injection Ho as ->.
  apply main_ended in Hx as (a & p & external & rest' & opts & _ & _ & _ & _ & ->).
  by split_and!.
Qed.
(** The scheme that [init] fills is all that [SetupWithManager] needs. *)
Lemma operator_sources scheme_name reg mapper cfg :
  main_init (NewScheme scheme_name) = Some reg ->
  exists sources, SetupWithManager (operator_scheme reg) mapper cfg = SetupDone sources.
Proof.
  intros Hreg. unfold SetupWithManager. rewrite (operator_scheme_kind _ _ _ Hreg).
  unfold operator_scheme. cbn [ObjectKinds].
  rewrite (proj1 (main_init_kinds _ _ Hreg KVerticalPodAutoscalerController)). by eexists.
Qed.

(** A relation that ends somewhere ends where it can no longer go on. *)
Lemma sn_reaches {A} (R : relation A) (P : A -> Prop) x :
  sn R x -> (forall y, rtc R x y -> (exists z, R y z) \/ P y) -> exists y, rtc R x y /\ P y.
Proof.
  intros Hsn. induction Hsn as [x _ IH]. intros Hp.
  destruct (Hp x ltac:(apply rtc_refl)) as [[z Hz]|?]; [|by exists x; split; [apply rtc_refl|]].
  destruct (IH z Hz) as (y & Hr & Hy); [intros y Hy; apply Hp; by eapply rtc_l|].
  exists y. split; [by eapply rtc_l | done].
Qed.

(** C1 From the command line to the operands.  When the operator gets to run, with
    any arguments and environment, its controller can be set up with the scheme that
    [init] fills, and has the environment's settings; its cache serves the namespace
    WATCH_NAMESPACE.  Suppose that this is the operands' namespace or empty, and that
    the operands' namespace exists (not marked, unless there is a custom resource).
    From then on the goroutine that ensures the custom resource and the loop may
    interleave with other clients, who may do anything orderly but delete the custom
    resource or the mark, and all of them may see old states.  The operator keeps to
    this too, so that the others may be instances of it.  Once the others stop, and
    the worker does not run ahead of its cache, everything comes to an end, whatever
    the order; and it can only end with the goroutine done without an error, the
    namespace marked, a custom resource there, and the operands as it, the
    environment's settings and the cluster's TLS profile ask.  If WATCH_NAMESPACE
    names another namespace, then whatever the others do and however the cache lags,
    neither the goroutine nor the worker ever makes a call that creates, updates or
    patches an object (events may still be recorded). *)
Theorem operator_installs {W} `{ClusterLaws W} mc mapper scheme_name reg stages args env tr su (w : W) s :
  mapper "v1" = Some true -> (forall version, mapper version <> Some false) ->
  main_init (NewScheme scheme_name) = Some reg ->
  exec (operator stages args env) tr (Ran (Ended su)) ->
  mc_WatchNamespace mc = su_WatchNamespace su ->
  let cfg := r_Config (operator_reconciler reg su) in
  let scheme := r_Scheme (operator_reconciler reg su) in
  let permitted :=
    orderly scheme mapper (kind_gvk KVerticalPodAutoscalerController) (cfg_Namespace cfg) (cfg_Name cfg) in
  sys_start mc cfg w s ->
  configured (ConfigFromEnvironment env) cfg /\
  su_WatchNamespace su = oc_WatchNamespace (ConfigFromEnvironment env) /\
  exists sources, SetupWithManager scheme mapper cfg = SetupDone sources /\
  (su_WatchNamespace su = "" \/ su_WatchNamespace su = cfg_Namespace cfg ->
   permitted w -> starting cfg w ->
   forall m, rtc (machine_step mc scheme sources (fun w w' => permitted w' /\ considerate cfg w w')
      (fun _ _ => True)) (mkMachine Waiting s) m ->
    (forall m', machine_step mc scheme sources (fun _ _ => False) (fun _ _ => True) m m' ->
       permitted (s_world (m_loop m')) /\ considerate cfg (s_world (m_loop m)) (s_world (m_loop m'))) /\
    sn (alone mc scheme sources) m /\
    forall m', rtc (alone mc scheme sources) m m' ->
      (exists m'', alone mc scheme sources m' m'') \/ installed cfg m') /\
  (su_WatchNamespace su <> "" -> su_WatchNamespace su <> cfg_Namespace cfg ->
   forall m, rtc (machine_step mc scheme sources (fun _ _ => True) (fun _ _ => True)) (mkMachine Waiting s) m ->
     writes_nothing m).
Proof.
  intros Hmap Hversions Hreg Hx Hmc cfg scheme permitted Hstart.
  destruct (operator_configured _ _ _ _ _ Hx) as [Hcfg Hwatch]. split; [done|]. split; [done|].
  destruct (operator_sources scheme_name reg mapper cfg Hreg) as [sources Hset]. exists sources. split; [done|].
  pose proof (unserved_writes_nothing (W:=W) mc scheme sources cfg) as Hidle. rewrite Hmc in Hidle.
  split; [|intros Hall Hns m; exact (Hidle Hall Hns w s m Hstart)]. clear Hidle.
  intros Hwn Hw Hs.
  assert (Hscope : in_scope mc mapper (cfg_Namespace cfg)).
  { unfold in_scope. rewrite Hmc. destruct Hwn as [Hwn|Hwn]; [left; exact Hwn | right; exact (conj Hwn Hversions)]. }
  set (gvk := kind_gvk KVerticalPodAutoscalerController) in *.
  assert (Hk : forall t, GVKForObject t scheme = inr gvk) by (intros t; by eapply operator_scheme_kind).
  assert (Hg : ParseGroupVersion (GroupVersion_String gvk) = Some (gvk_Group gvk, gvk_Version gvk)) by reflexivity.
  intros m Hr. assert (Hi : machine_invariant scheme mapper gvk mc cfg sources m).
  { apply (machine_invariant_reached scheme mapper gvk mc cfg sources Hk Hset Hg Hmap Hscope _ _ Hr).
    by apply (machine_invariant_start scheme mapper gvk mc cfg sources w s). }
  split; [|split].
  - intros m' Hstep. by apply (instance_considerate scheme mapper gvk mc cfg sources Hk Hset Hg Hmap Hscope).
  - destruct m as [g s']. by apply (sn_machine scheme mapper gvk mc cfg sources Hk Hset Hg Hmap Hscope).
  - intros m' Hr'. apply (machine_progress scheme mapper gvk mc cfg sources Hk Hset Hg Hmap Hscope).
    apply (machine_invariant_reached scheme mapper gvk mc cfg sources Hk Hset Hg Hmap Hscope m m'); [|done].
    apply (rtc_congruence (fun m => m) (R:=alone mc scheme sources)); [|done].
    intros m1 m2. apply alone_disturbed.
Qed.

(** *** A fresh cluster *)

Definition fresh_cluster : fake :=
  mkFake (put (k:=KNamespace) example_namespace (put (k:=KAPIServer) example_modern empty_store)) 1 0%nat [] [].
Definition fresh_operator (env : gmap string string) : prog ran :=
  operator (fun _ => None) ["--metrics-secure"; "--leader-elect"] env.
Definition image_only : gmap string string := {["VPA_OPERAND_IMAGE" := "quay.io/openshift/vpa:v1"]}.
Definition fresh_settings (o : ran) : option Setup :=
  match o with Ran (Ended su) => Some su | _ => None end.
Definition fresh_cache (su : Setup) : ManagerCache := cache_of (su_WatchNamespace su).
Definition fresh_start (su : Setup) : sys fake :=
  mkSys (su_Config su) fresh_cluster empty_store (initial_updates (fresh_cache su) fresh_cluster) [] ∅ None.

Lemma fresh_healthy : healthy fresh_cluster.
Proof. split; [done|]. apply well_keyed_put, well_keyed_put, well_keyed_empty. Qed.
Lemma fresh_orderly scheme mapper gvk ns name : orderly scheme mapper gvk ns name fresh_cluster.
Proof.
  split; [exact fresh_healthy|]. intros k key o Ho. split; [exact (view_key fresh_cluster k key o fresh_healthy Ho)|].
  assert (Hk : k = KNamespace \/ k = KAPIServer)
    by (destruct k; try (by left); try (by right); revert Ho; unfold fresh_cluster, put; simpl; by rewrite lookup_empty).
  destruct Hk as [-> | ->]; (split; [|done]); by apply input_not_operand.
Qed.

Lemma fresh_runs env su :
  fresh_settings (run (fresh_operator env) fresh_cluster).1 = Some su ->
  exec (fresh_operator env) (trace (fresh_operator env) fresh_cluster) (Ran (Ended su)).
Proof.
  intros Hsu. pose proof (run_exec (fresh_operator env) fresh_cluster) as Hx. revert Hsu Hx.
  destruct (run (fresh_operator env) fresh_cluster).1 as [|[| |su']]; try discriminate. intros [= ->]. auto.
Qed.

(** The operator is started with two flags and an image, and nobody else is there.
    With WATCH_NAMESPACE naming another namespace it never writes. *)
Lemma operator_installs_witness :
  (exists su reg sources m,
  fresh_settings (run (fresh_operator image_only) fresh_cluster).1 = Some su /\
  cfg_Image (su_Config su) = "quay.io/openshift/vpa:v1" /\
  main_init (NewScheme "scheme.go:1") = Some reg /\
  rtc (alone (fresh_cache su) (operator_scheme reg) sources) (mkMachine Waiting (fresh_start su)) m /\
  installed (su_Config su) m) /\
  (exists su reg sources,
  fresh_settings (run (fresh_operator {["WATCH_NAMESPACE" := "default"]}) fresh_cluster).1 = Some su /\
  forall m, rtc (machine_step (fresh_cache su) (operator_scheme reg) sources (fun _ _ => True) (fun _ _ => True))
    (mkMachine Waiting (fresh_start su)) m -> writes_nothing m).
Proof.
  pose proof (main_init_knows "scheme.go:1") as Hinit.
  destruct (main_init (NewScheme "scheme.go:1")) as [reg|] eqn:Hreg; [|discriminate Hinit]. clear Hinit.
  split.
  - assert (Hset : match fresh_settings (run (fresh_operator image_only) fresh_cluster).1 with
      | Some su => bool_decide (cfg_Namespace (su_Config su) = om_Name (ns_meta example_namespace) /\
                                su_WatchNamespace su = cfg_Namespace (su_Config su))
      | None => false end = true) by (vm_compute; reflexivity).
    destruct (fresh_settings (run (fresh_operator image_only) fresh_cluster).1) as [su|] eqn:Hsu; [|discriminate Hset].
    apply bool_decide_eq_true in Hset as [Hset Hwatch].
    destruct (operator_installs (fresh_cache su) example_mapper _ reg _ _ _ _ su fresh_cluster
      (fresh_start su) eq_refl ltac:(discriminate) Hreg (fresh_runs _ _ Hsu) eq_refl (initial_updates_start _ _ _))
      as ((_ & _ & Himage & _) & _ & sources & _ & Hm & _).
    specialize (Hm (or_intror Hwatch) (fresh_orderly _ _ _ _ _)).
    destruct (Hm) with (m := mkMachine (W:=fake) Waiting (fresh_start su)) as (_ & Hsn & Hend); [|apply rtc_refl|].
    + split; [exact fresh_healthy|]. unfold marked, annotation, namespace_key. cbn [operator_reconciler r_Config].
      rewrite Hset. split.
      * exists example_namespace. vm_compute. reflexivity.
      * intros [v Hv]. vm_compute in Hv. discriminate Hv.
    + destruct (sn_reaches _ _ _ Hsn Hend) as (m & Hr & Hi).
      exists su, reg, sources, m. split; [reflexivity|]. split; [exact Himage|]. auto.
  - assert (Hset : match fresh_settings (run (fresh_operator {["WATCH_NAMESPACE" := "default"]}) fresh_cluster).1 with
      | Some su => bool_decide (su_WatchNamespace su <> "" /\ su_WatchNamespace su <> cfg_Namespace (su_Config su))
      | None => false end = true) by (vm_compute; reflexivity).
    destruct (fresh_settings (run (fresh_operator {["WATCH_NAMESPACE" := "default"]}) fresh_cluster).1)
      as [su|] eqn:Hsu; [|discriminate Hset].
    apply bool_decide_eq_true in Hset as [Hall Hns].
    destruct (operator_installs (fresh_cache su) example_mapper _ reg _ _ _ _ su fresh_cluster
      (fresh_start su) eq_refl ltac:(discriminate) Hreg (fresh_runs _ _ Hsu) eq_refl (initial_updates_start _ _ _))
      as (_ & _ & sources & _ & _ & Hm).
    exists su, reg, sources. split; [reflexivity|]. exact (Hm Hall Hns).
Defined.
