(* ===== verification/Version.v ===== *)
(** * The operator's version

    internal/version: a string that the build sets (the Makefile's LD_FLAGS), and what
    the package makes of it when it is initialised, by [semver.MustParse] of
    blang/semver: a panic here ends the operator before [main].  [None] is an error,
    or a panic.  The string is ASCII. *)

From Stdlib Require Import DecimalFacts DecimalN.
From S2P Require Import Prelude Go GoFmt Regexp Validation FloatText.

(** ** Strings *)

(** [strings.IndexRune] of [c] with the parts around it. *)
Fixpoint cut_at (c : Ascii.ascii) (s : string) : option (string * string) :=
  match s with
  | EmptyString => None
  | String c' r => if Ascii.eqb c' c then Some (EmptyString, r)
                   else '(a, b) ← cut_at c r; Some (String c' a, b)
  end.
(** [strings.Split] at a character. *)
Fixpoint Split (c : Ascii.ascii) (s : string) : list string :=
  match s with
  | EmptyString => [EmptyString]
  | String c' r =>
      if Ascii.eqb c' c then EmptyString :: Split c r
      else match Split c r with part :: parts => String c' part :: parts | [] => [] end
  end.
Definition characters (s : string) : list Ascii.ascii := String.list_ascii_of_string s.
(** [strings.TrimLeft(s, "v")]: all of them. *)
Fixpoint TrimLeft_v (s : string) : string :=
  match s with String c r => if Ascii.eqb c "v" then TrimLeft_v r else s | EmptyString => s end.
(** [strconv.ParseUint(s, 10, 64)]. *)
Definition ParseUint (s : string) : option Z :=
  if empty s || negb (forallb (in_class [digit]) (characters s)) then None
  else let n := foldl (fun n c => n * 10 + (Z.of_N (code c) - 48)) 0 (characters s) in
       if n <? 2 ^ 64 then Some n else None.

(** ** blang/semver *)

Definition numbers : list range := [digit].
Definition alphanum : list range := [lower; upper; one "-"; digit].
Definition containsOnly (s : string) (set : list range) : bool := forallb (in_class set) (characters s).
Definition hasLeadingZeroes (s : string) : bool :=
  (1 <? len s) && match s with String c _ => Ascii.eqb c "0" | EmptyString => false end.

Record PRVersion := mkPRVersion { VersionStr : string; VersionNum : Z; IsNum : bool }.
Record Version := mkVersion {
  Major : Z; Minor : Z; Patch : Z; Pre : list PRVersion; Build : list string
}.

Definition NewPRVersion (s : string) : option PRVersion :=
  if empty s then None
  else if containsOnly s numbers then
    if hasLeadingZeroes s then None
    else num ← ParseUint s; Some (mkPRVersion "" num true)
  else if containsOnly s alphanum then Some (mkPRVersion s 0 false)
  else None.
(** A number of the version core. *)
Definition parse_number (s : string) : option Z :=
  if negb (containsOnly s numbers) then None else if hasLeadingZeroes s then None else ParseUint s.
Definition valid_build (str : string) : bool := negb (empty str) && containsOnly str alphanum.

Definition Parse_version (s : string) : option Version :=
  if empty s then None
  else
    '(s1, s) ← cut_at "." s;
    '(s2, patchStr) ← cut_at "." s;
    major ← parse_number s1;
    minor ← parse_number s2;
    let '(build, patchStr) :=
      match cut_at "+" patchStr with
      | Some (patchStr, build) => (Split "." build, patchStr)
      | None => ([], patchStr)
      end in
    let '(prerelease, patchStr) :=
      match cut_at "-" patchStr with
      | Some (patchStr, pre) => (Split "." pre, patchStr)
      | None => ([], patchStr)
      end in
    patch ← parse_number patchStr;
    pre ← mapM NewPRVersion prerelease;
    if forallb valid_build build then Some (mkVersion major minor patch pre build) else None.

(** [String] of both. *)
Definition PRVersion_String (v : PRVersion) : string :=
  if IsNum v then Itoa (VersionNum v) else VersionStr v.
Definition listed (mark : string) (l : list string) : string :=
  match l with [] => "" | _ => mark +:+ Join l "." end.
Definition Version_String (v : Version) : string :=
  Itoa (Major v) +:+ "." +:+ Itoa (Minor v) +:+ "." +:+ Itoa (Patch v) +:+
  listed "-" (map PRVersion_String (Pre v)) +:+ listed "+" (Build v).

(** ** internal/version *)

Definition Raw : string := "v0.0.0-was-not-built-properly".
(** The variable [Version]; [None] is the panic of [MustParse]. *)
Definition version_Version (raw : string) : option Version := Parse_version (TrimLeft_v raw).
(** The variable [String]. *)
Definition version_String (raw : string) : string := "vertical-pod-autoscaler-operator " +:+ raw.

Example unset : is_Some (version_Version Raw).
Proof. by eexists. Qed.

(** ** Characters *)

Lemma containsOnly_app s1 s2 set : containsOnly (s1 +:+ s2) set = containsOnly s1 set && containsOnly s2 set.
Proof.
  unfold containsOnly, characters. induction s1 as [|c s1 IH]; [done|].
  change (String c s1 +:+ s2) with (String c (s1 +:+ s2)). cbn [String.list_ascii_of_string forallb].
  by rewrite IH, andb_assoc.
Qed.
Lemma containsOnly_sub set set' s :
  (forall c, in_class set c = true -> in_class set' c = true) ->
  containsOnly s set = true -> containsOnly s set' = true.
Proof. unfold containsOnly. rewrite !forallb_forall. auto. Qed.

Lemma single c r : String c "" +:+ r = String c r.
Proof. done. Qed.
(** A character that a text does not have cannot split it. *)
Section Absent.
Context (c : Ascii.ascii) (set : list range) (Hc : in_class set c = false).
Lemma absent_head c' s : containsOnly (String c' s) set = true ->
  Ascii.eqb c' c = false /\ containsOnly s set = true.
Proof.
  intros [Hc' Hs]%andb_true_iff. split; [|exact Hs].
  destruct (Ascii.eqb_spec c' c) as [->|]; [by rewrite Hc in Hc'|done].
Qed.
Lemma cut_absent s : containsOnly s set = true -> cut_at c s = None.
Proof.
  induction s as [|c' s IH]; [done|]. intros [Hne Hs]%absent_head. cbn [cut_at].
  by rewrite Hne, (IH Hs).
Qed.
Lemma cut_here s rest : containsOnly s set = true -> cut_at c (s +:+ String c rest) = Some (s, rest).
Proof.
  induction s as [|c' s IH]; cbn [String.append].
  - intros _. change ("" +:+ String c rest) with (String c rest). cbn [cut_at]. by rewrite Ascii.eqb_refl.
  - intros [Hne Hs]%absent_head. change (String c' s +:+ String c rest) with (String c' (s +:+ String c rest)).
    cbn [cut_at]. by rewrite Hne, (IH Hs).
Qed.
Lemma Split_absent s : containsOnly s set = true -> Split c s = [s].
Proof.
  induction s as [|c' s IH]; [done|]. intros [Hne Hs]%absent_head. cbn [Split]. by rewrite Hne, (IH Hs).
Qed.
Lemma Split_here s rest : containsOnly s set = true -> Split c (s +:+ String c rest) = s :: Split c rest.
Proof.
  induction s as [|c' s IH].
  - intros _. change ("" +:+ String c rest) with (String c rest). cbn [Split]. by rewrite Ascii.eqb_refl.
  - intros [Hne Hs]%absent_head. change (String c' s +:+ String c rest) with (String c' (s +:+ String c rest)).
    cbn [Split]. by rewrite Hne, (IH Hs).
Qed.
Lemma Split_Join l :
  l <> [] -> Forall (fun s => containsOnly s set = true) l -> Split c (Join l (String c "")) = l.
Proof.
  intros Hl Hall. induction Hall as [|s l Hs _ IH]; [done|]. destruct l as [|s' l].
  - by apply Split_absent.
  - cbn [Join]. change (String c "" +:+ ?r) with (String c r). rewrite Split_here by done. f_equal. by apply IH.
Qed.
End Absent.
Lemma Join_only set sep l :
  containsOnly sep set = true -> Forall (fun s => containsOnly s set = true) l ->
  containsOnly (Join l sep) set = true.
Proof.
  intros Hsep. induction 1 as [|s l Hs _ IH]; [done|]. destruct l as [|s' l]; [exact Hs|].
  cbn [Join]. by rewrite !containsOnly_app, Hs, Hsep.
Qed.

(** ** Numbers *)

Lemma digit_class c : in_class numbers c = bool_decide (is_Some (digit_of c)).
Proof. by destruct c as [[] [] [] [] [] [] [] []]. Qed.
Lemma digit_value c k : digit_of c = Some k -> Z.of_N (code c) - 48 = k.
Proof. by destruct c as [[] [] [] [] [] [] [] []]; intros [= <-]. Qed.
Lemma numbers_digits s : containsOnly s numbers = true <-> all_digits (characters s).
Proof.
  unfold containsOnly, all_digits. rewrite forallb_forall, Forall_forall.
  setoid_rewrite digit_class. setoid_rewrite bool_decide_eq_true. by setoid_rewrite list_elem_of_In.
Qed.
Lemma value_foldl l acc :
  all_digits l -> foldl (fun n c => n * 10 + (Z.of_N (code c) - 48)) acc l = value_of l acc.
Proof.
  intros Hl. revert acc; induction Hl as [|c l [k Hk] _ IH]; intros acc; [done|].
  cbn [foldl]. rewrite (value_step c k) by done. rewrite IH, (digit_value c k) by done. f_equal. lia.
Qed.
Lemma ParseUint_digits s :
  s <> "" -> containsOnly s numbers = true ->
  ParseUint s = if value_of (characters s) 0 <? 2 ^ 64 then Some (value_of (characters s) 0) else None.
Proof.
  intros Hs Hd. unfold ParseUint, empty. rewrite bool_decide_false by done.
  change (forallb (in_class [digit]) (characters s)) with (containsOnly s numbers). rewrite Hd.
  cbn [orb negb]. by rewrite value_foldl by by apply numbers_digits.
Qed.
(** A text of [n] digits is less than [10 ^ n]. *)
Lemma value_bound l acc :
  all_digits l -> 0 <= acc -> 0 <= value_of l acc < (acc + 1) * 10 ^ Z.of_nat (length l).
Proof.
  intros Hl. revert acc; induction Hl as [|c l [k Hk] _ IH]; intros acc Ha.
  - unfold value_of. cbn [read_digits fst length]. lia.
  - rewrite (value_step c k) by done.
    assert (0 <= k <= 9) by (destruct c as [[] [] [] [] [] [] [] []]; try done; vm_compute in Hk; injection Hk as <-; lia).
    specialize (IH (10 * acc + k) ltac:(lia)). cbn [length]. rewrite Nat2Z.inj_succ, Z.pow_succ_r by lia. nia.
Qed.

(** A printed number has no leading zeroes. *)
Lemma Itoa_canonical x : 0 <= x -> hasLeadingZeroes (Itoa x) = false.
Proof.
  intros Hx. unfold Itoa. destruct (Z.ltb_spec x 0); [lia|].
  set (u := N.to_uint (Z.abs_N x)).
  assert (Hu : Decimal.unorm u = u).
  { unfold u. by rewrite <- DecimalN.Unsigned.to_of, DecimalN.Unsigned.of_to. }
  clearbody u. clear Hx H x. destruct u as [|u| | | | | | | | |]; try reflexivity; try (apply andb_false_intro2; reflexivity).
  assert (u = Decimal.Nil \/ u <> Decimal.Nil) as [->|Hn] by (destruct u; [by left | by right ..]); [done|]. exfalso.
  rewrite unorm_D0 in Hu. apply nb_digits_unorm in Hn. rewrite Hu in Hn. cbn [Decimal.nb_digits] in Hn. lia.
Qed.
Lemma Itoa_number x :
  0 <= x < 2 ^ 64 ->
  Itoa x <> "" /\ containsOnly (Itoa x) numbers = true /\ hasLeadingZeroes (Itoa x) = false /\
  ParseUint (Itoa x) = Some x.
Proof.
  intros Hx. destruct (Itoa_digits x ltac:(lia)) as (Hd & Hv & Hn).
  assert (Hne : Itoa x <> "") by (intros He; unfold digits_of in Hn; by rewrite He in Hn).
  apply numbers_digits in Hd. split; [exact Hne|]. split; [exact Hd|].
  split; [apply Itoa_canonical; lia|]. rewrite ParseUint_digits by done.
  change (characters (Itoa x)) with (digits_of x). rewrite Hv. by rewrite (proj2 (Z.ltb_lt _ _)) by lia.
Qed.
Lemma parse_number_Itoa x : 0 <= x < 2 ^ 64 -> parse_number (Itoa x) = Some x.
Proof. intros (_ & Hd & Hz & Hp)%Itoa_number. unfold parse_number. by rewrite Hd, Hz. Qed.

(** ** Reading back *)

Definition pre_wf (v : PRVersion) : Prop :=
  if IsNum v then 0 <= VersionNum v < 2 ^ 64 /\ VersionStr v = ""
  else VersionStr v <> "" /\ containsOnly (VersionStr v) numbers = false /\
       containsOnly (VersionStr v) alphanum = true /\ VersionNum v = 0.
Definition version_wf (v : Version) : Prop :=
  0 <= Major v < 2 ^ 64 /\ 0 <= Minor v < 2 ^ 64 /\ 0 <= Patch v < 2 ^ 64 /\
  Forall pre_wf (Pre v) /\ Forall (fun s => valid_build s = true) (Build v).

Lemma numbers_alphanum s : containsOnly s numbers = true -> containsOnly s alphanum = true.
Proof. apply containsOnly_sub. intros c. by destruct c as [[] [] [] [] [] [] [] []]. Qed.
Lemma NewPRVersion_String v :
  pre_wf v -> NewPRVersion (PRVersion_String v) = Some v /\ containsOnly (PRVersion_String v) alphanum = true.
Proof.
  destruct v as [str num []]; unfold pre_wf, PRVersion_String, NewPRVersion, empty;
    cbn [IsNum VersionNum VersionStr].
  - intros [(Hn & Hd & Hz & Hp)%Itoa_number ->]. rewrite bool_decide_false, Hd, Hz, Hp by done.
    split; [done|by apply numbers_alphanum].
  - intros (Hs & Hn & Ha & ->). by rewrite bool_decide_false, Hn, Ha by done.
Qed.

(** The characters of the parts, and those of a list of them. *)
Definition parts_set : list range := one "." :: alphanum.
Lemma alphanum_parts s : containsOnly s alphanum = true -> containsOnly s parts_set = true.
Proof. apply containsOnly_sub. intros c. by destruct c as [[] [] [] [] [] [] [] []]. Qed.
Lemma join_parts l : Forall (fun s => containsOnly s alphanum = true) l -> containsOnly (Join l ".") parts_set = true.
Proof. intros Hl. apply Join_only; [done|]. eapply Forall_impl; [done|]. apply alphanum_parts. Qed.

(** [Parse] takes the core apart. *)
Lemma Parse_core M m patchStr :
  0 <= M < 2 ^ 64 -> 0 <= m < 2 ^ 64 ->
  Parse_version (Itoa M +:+ "." +:+ Itoa m +:+ "." +:+ patchStr) =
    let '(build, patchStr) :=
      match cut_at "+" patchStr with
      | Some (patchStr, build) => (Split "." build, patchStr)
      | None => ([], patchStr)
      end in
    let '(prerelease, patchStr) :=
      match cut_at "-" patchStr with
      | Some (patchStr, pre) => (Split "." pre, patchStr)
      | None => ([], patchStr)
      end in
    patch ← parse_number patchStr;
    pre ← mapM NewPRVersion prerelease;
    if forallb valid_build build then Some (mkVersion M m patch pre build) else None.
Proof.
  intros HM Hm. destruct (Itoa_number M HM) as (HneM & HdM & _). destruct (Itoa_number m Hm) as (_ & Hdm & _).
  unfold Parse_version, empty.
  rewrite bool_decide_false by (by destruct (Itoa M)).
  rewrite !single, (cut_here "." numbers) by done.
  cbn [mbind option_bind]. rewrite (cut_here "." numbers) by done. cbn [mbind option_bind].
  rewrite !parse_number_Itoa by done. reflexivity.
Qed.

(** The pre-release part behind the patch number. *)
Lemma Parse_pre p pre :
  0 <= p < 2 ^ 64 -> Forall (fun s => containsOnly s alphanum = true) pre ->
  match cut_at "-" (Itoa p +:+ listed "-" pre) with
  | Some (patchStr, pre) => (Split "." pre, patchStr)
  | None => ([], Itoa p +:+ listed "-" pre)
  end = (pre, Itoa p).
Proof.
  intros (_ & Hd & _)%Itoa_number Hpre. destruct pre as [|s pre].
  - rewrite append_nil_r. by rewrite (cut_absent "-" numbers).
  - unfold listed. rewrite single, (cut_here "-" numbers) by done.
    by rewrite (Split_Join "." alphanum).
Qed.

Lemma mapM_pre l :
  Forall pre_wf l -> mapM NewPRVersion (map PRVersion_String l) = Some l /\
                     Forall (fun s => containsOnly s alphanum = true) (map PRVersion_String l).
Proof.
  induction 1 as [|v l (Hv & Ha)%NewPRVersion_String _ [IH Hall]]; [done|].
  cbn [map mapM]. rewrite Hv. cbn [mbind option_bind]. rewrite IH. by split; [|constructor].
Qed.

(** The build part behind them. *)
Lemma Parse_build text build :
  containsOnly text parts_set = true -> Forall (fun s => containsOnly s alphanum = true) build ->
  match cut_at "+" (text +:+ listed "+" build) with
  | Some (patchStr, build) => (Split "." build, patchStr)
  | None => ([], text +:+ listed "+" build)
  end = (build, text).
Proof.
  intros Ht Hb. destruct build as [|s build].
  - rewrite append_nil_r. by rewrite (cut_absent "+" parts_set).
  - unfold listed. rewrite single, (cut_here "+" parts_set) by done. by rewrite (Split_Join "." alphanum).
Qed.

(** Every version is read back from its text. *)
Lemma Parse_String v : version_wf v -> Parse_version (Version_String v) = Some v.
Proof.
  destruct v as [M m p pre build]. intros (HM & Hm & Hp & Hpre & Hb). cbn in HM, Hm, Hp, Hpre, Hb.
  destruct (mapM_pre pre Hpre) as [Hmap Hall]. unfold Version_String. cbn [Major Minor Patch Pre Build].
  rewrite Parse_core, <- (append_assoc (Itoa p)) by done.
  assert (Hbuild : Forall (fun s => containsOnly s alphanum = true) build).
  { eapply Forall_impl; [exact Hb|]. by intros s [_ ?]%andb_true_iff. }
  destruct (Itoa_number p Hp) as (_ & Hd & _).
  rewrite Parse_build; [| |done].
  2: { rewrite containsOnly_app, (alphanum_parts _ (numbers_alphanum _ Hd)).
       destruct (map PRVersion_String pre) as [|s l]; [done|]. unfold listed. rewrite containsOnly_app.
       by rewrite join_parts. }
  rewrite Parse_pre by done.
  rewrite parse_number_Itoa by done. cbn [mbind option_bind]. rewrite Hmap. cbn [mbind option_bind].
  assert (Hv : forallb valid_build build = true) by by rewrite forallb_forall, <- List.Forall_forall.
  by rewrite Hv.
Qed.

(** ** Builds *)

(** What the Makefile sets: v$(OPERATOR_VERSION)-$(git rev-parse --short=7 HEAD). *)
Definition hexadecimal : list range := [digit; ("a", "f")%char].
Definition injected (M m p : Z) (hash : string) : string :=
  "v" +:+ Itoa M +:+ "." +:+ Itoa m +:+ "." +:+ Itoa p +:+ "-" +:+ hash.
(** A hash that reads as a number, and as none that may be written so. *)
Definition unlucky (hash : string) : bool := containsOnly hash numbers && hasLeadingZeroes hash.

Lemma TrimLeft_number s r : s <> "" -> containsOnly s numbers = true -> TrimLeft_v (s +:+ r) = s +:+ r.
Proof.
  destruct s as [|c s]; [done|]. intros _ [Hc _]%andb_true_iff. change (String c s +:+ r) with (String c (s +:+ r)).
  cbn [TrimLeft_v]. destruct (Ascii.eqb_spec c "v") as [->|]; done.
Qed.
Lemma ParseUint_short s :
  s <> "" -> containsOnly s numbers = true -> len s <= 19 -> ParseUint s = Some (value_of (characters s) 0).
Proof.
  intros Hs Hd Hl. rewrite ParseUint_digits by done. apply numbers_digits in Hd.
  pose proof (value_bound (characters s) 0 Hd ltac:(lia)) as [_ Hb].
  assert (Hlen : Z.of_nat (length (characters s)) = len s).
  { unfold len, characters. f_equal. clear. induction s as [|c s IH]; [done|]. exact (f_equal S IH). }
  rewrite Hlen in Hb.
  pose proof (Z.pow_le_mono_r 10 (len s) 19 ltac:(lia) Hl). by rewrite (proj2 (Z.ltb_lt _ _)) by lia.
Qed.
Lemma NewPRVersion_hash hash :
  hash <> "" -> containsOnly hash hexadecimal = true -> len hash <= 19 ->
  NewPRVersion hash =
    if unlucky hash then None
    else Some (if containsOnly hash numbers then mkPRVersion "" (value_of (characters hash) 0) true
               else mkPRVersion hash 0 false).
Proof.
  intros Hn Hx Hl. unfold NewPRVersion, unlucky, empty. rewrite bool_decide_false by done.
  destruct (containsOnly hash numbers) eqn:Hd; cbn [andb].
  - destruct (hasLeadingZeroes hash); [done|]. by rewrite ParseUint_short.
  - rewrite (containsOnly_sub hexadecimal alphanum); [done| |done].
    intros c. by destruct c as [[] [] [] [] [] [] [] []].
Qed.

(** C34 A build of a commit starts unless the commit's short hash consists of decimal
    digits only with a zero in front: then the version that the Makefile injects is no
    semantic version, and the operator panics while it is initialised, before [main].
    Every other hash gives the version with the hash as its pre-release part. *)
Theorem build_initialises M m p hash :
  0 <= M < 2 ^ 64 -> 0 <= m < 2 ^ 64 -> 0 <= p < 2 ^ 64 ->
  hash <> "" -> containsOnly hash hexadecimal = true -> len hash <= 19 ->
  (version_Version (injected M m p hash) = None <-> unlucky hash = true) /\
  (unlucky hash = false ->
   exists pre, version_Version (injected M m p hash) = Some (mkVersion M m p [pre] []) /\
     NewPRVersion hash = Some pre /\ pre_wf pre /\
     Parse_version (Version_String (mkVersion M m p [pre] [])) = Some (mkVersion M m p [pre] [])).
Proof.
  intros HM Hm Hp Hne Hx Hl. destruct (Itoa_number M HM) as (HneM & HdM & _).
  pose proof (NewPRVersion_hash hash Hne Hx Hl) as Hpre.
  assert (Ha : containsOnly hash alphanum = true).
  { revert Hx. apply containsOnly_sub. intros c. by destruct c as [[] [] [] [] [] [] [] []]. }
  assert (Hv : version_Version (injected M m p hash) =
               (pre ← NewPRVersion hash; Some (mkVersion M m p [pre] []))).
  { unfold version_Version, injected. rewrite single. cbn [TrimLeft_v Ascii.eqb Bool.eqb].
    rewrite TrimLeft_number by done. change ("-" +:+ hash) with (listed "-" [hash]).
    rewrite Parse_core by done. rewrite (cut_absent "+" parts_set).
    - rewrite Parse_pre by (done || by constructor). rewrite parse_number_Itoa by done.
      cbn [mbind option_bind mapM]. by destruct (NewPRVersion hash).
    - done.
    - rewrite containsOnly_app. destruct (Itoa_number p Hp) as (_ & Hdp & _).
      rewrite (alphanum_parts _ (numbers_alphanum _ Hdp)). by apply (alphanum_parts hash). }
  rewrite Hv, Hpre. destruct (unlucky hash) eqn:Hu; [by split|]. split; [by split|]. intros _.
  eexists. split; [done|]. split; [done|].
  match goal with |- pre_wf ?pre /\ _ => assert (Hwf : pre_wf pre) end.
  { destruct (containsOnly hash numbers) eqn:Hd; unfold pre_wf; cbn [IsNum VersionNum VersionStr]; [|done].
    pose proof (ParseUint_short hash Hne Hd Hl) as Hs. rewrite ParseUint_digits in Hs by done.
    destruct (Z.ltb_spec (value_of (characters hash) 0) (2 ^ 64)); [|done]. split; [|done]. split; [|lia].
    apply numbers_digits in Hd. by apply value_bound. }
  split; [exact Hwf|]. apply Parse_String. unfold version_wf. cbn [Major Minor Patch Pre Build].
  do 3 (split; [done|]). split; [apply Forall_cons; split; [exact Hwf|constructor] | constructor].
Qed.

Lemma build_initialises_witness :
  version_Version "v4.22.0-0123456" = None /\
  exists pre, version_Version "v4.22.0-2332559" = Some (mkVersion 4 22 0 [pre] []).
Proof.
  split.
  - apply (build_initialises 4 22 0 "0123456"); done.
  - destruct (build_initialises 4 22 0 "2332559") as [_ H]; try done.
    destruct (H eq_refl) as (pre & Hv & _). by exists pre.
Defined.
