(* ===== verification/Helpers.v ===== *)
(** * Builders of fixtures

    test/helpers: builders of deployments and ClusterOperators for the tests.  Each
    works on a deep copy of what it is given; a value is its own copy here. *)

From S2P Require Import Prelude Go GoFmt Objects Api Util Args Resources.

(** ** Deployments *)

Record TestDeployment := mkTestDeployment { td_Deployment : Deployment }.
Definition NewTestDeployment (dep : Deployment) : TestDeployment := mkTestDeployment dep.
Definition td_Copy (d : TestDeployment) : TestDeployment := NewTestDeployment (td_Deployment d).
(** Assignments to the copy. *)
Definition set_Status (f : DeploymentStatus -> DeploymentStatus) (d : TestDeployment) : TestDeployment :=
  let dep := td_Deployment d in
  mkTestDeployment (mkDeployment (dep_type dep) (dep_meta dep) (dep_Spec dep) (f (dep_Status dep))).
Definition td_SetAnnotations (a : gomap string) (d : TestDeployment) : TestDeployment :=
  let dep := td_Deployment d in
  mkTestDeployment (mkDeployment (dep_type dep) (SetAnnotations a (dep_meta dep)) (dep_Spec dep)
    (dep_Status dep)).

Definition WithAvailableReplicas (n : Z) (d : TestDeployment) : TestDeployment :=
  set_Status (fun s => mkDeploymentStatus (dst_ObservedGeneration s) (dst_Replicas s)
                (dst_UpdatedReplicas s) n (dst_others s)) (td_Copy d).
Definition WithReleaseVersion (v : string) (d : TestDeployment) : TestDeployment :=
  let newDeployment := td_Copy d in
  let annotations := match om_Annotations (dep_meta (td_Deployment newDeployment)) with
                     | nilmap => ∅
                     | mkmap m => m
                     end in
  td_SetAnnotations (mkmap (<[ReleaseVersionAnnotation := v]> annotations)) newDeployment.
Definition WithAnnotations (a : gomap string) (d : TestDeployment) : TestDeployment :=
  td_SetAnnotations a (td_Copy d).
Definition td_Object (d : TestDeployment) : Deployment := td_Deployment d.

(** ** ClusterOperators *)

Record TestClusterOperator := mkTestClusterOperator { tco_ClusterOperator : ClusterOperator }.
Definition NewTestClusterOperator (co : ClusterOperator) : TestClusterOperator := mkTestClusterOperator co.
Definition tco_Copy (co : TestClusterOperator) : TestClusterOperator :=
  NewTestClusterOperator (tco_ClusterOperator co).
Definition set_COStatus (f : ClusterOperatorStatus -> ClusterOperatorStatus) (co : TestClusterOperator) :
    TestClusterOperator :=
  let c := tco_ClusterOperator co in mkTestClusterOperator (mkClusterOperator (cop_meta c) (f (cop_Status c))).

Definition WithConditions (conds : list Condition) (co : TestClusterOperator) : TestClusterOperator :=
  set_COStatus (fun s => mkCOStatus conds (cos_Versions s) (cos_RelatedObjects s) (cos_Extension s))
    (tco_Copy co).
(** The loop over the versions, with its flag [found]. *)
Definition set_operator_version (v : string) (versions : list OperandVersion) : bool * list OperandVersion :=
  foldr (fun o r => if bool_decide (ov_Name o = "operator") then (true, mkOperandVersion (ov_Name o) v :: r.2)
                    else (r.1, o :: r.2)) (false, []) versions.
Definition WithVersion (v : string) (co : TestClusterOperator) : TestClusterOperator :=
  set_COStatus (fun s =>
    let versions := match cos_Versions s with
                    | nilslice => [mkOperandVersion "operator" ""]
                    | mkslice l => l
                    end in
    let '(found, versions) := set_operator_version v versions in
    let versions := if negb found then versions ++ [mkOperandVersion "operator" v] else versions in
    mkCOStatus (cos_Conditions s) (mkslice versions) (cos_RelatedObjects s) (cos_Extension s)) (tco_Copy co).
Definition tco_Object (co : TestClusterOperator) : ClusterOperator := tco_ClusterOperator co.

(** ** What they build *)

Lemma WithAvailableReplicas_available n d :
  dst_AvailableReplicas (dep_Status (td_Object (WithAvailableReplicas n d))) = n /\
  dep_meta (td_Object (WithAvailableReplicas n d)) = dep_meta (td_Object d) /\
  WithAvailableReplicas n (WithAvailableReplicas n d) = WithAvailableReplicas n d.
Proof. done. Qed.

(** The release version that the operator looks for, and nothing else. *)
Lemma WithReleaseVersion_matches v w d :
  ReleaseVersionMatches (dep_meta (td_Object (WithReleaseVersion v d))) w = bool_decide (v = w) /\
  (forall k, k <> ReleaseVersionAnnotation ->
     gm_lookup k (om_Annotations (dep_meta (td_Object (WithReleaseVersion v d)))) =
     gm_lookup k (om_Annotations (dep_meta (td_Object d)))) /\
  WithReleaseVersion w (WithReleaseVersion v d) = WithReleaseVersion w d.
Proof.
  destruct d as [[ty m sp st]]. unfold WithReleaseVersion, ReleaseVersionMatches, gm_lookup.
  cbn [td_Object td_Deployment td_SetAnnotations td_Copy NewTestDeployment dep_meta SetAnnotations
    om_Annotations gm_map].
  rewrite lookup_insert_eq. split; [by repeat case_bool_decide|]. split.
  - intros k Hk. rewrite lookup_insert_ne by done. by destruct (om_Annotations m).
  - by rewrite insert_insert_eq.
Qed.

Lemma set_operator_version_spec v l :
  set_operator_version v l =
  (existsb (fun o => bool_decide (ov_Name o = "operator")) l,
   map (fun o => if bool_decide (ov_Name o = "operator") then mkOperandVersion (ov_Name o) v else o) l).
Proof.
  induction l as [|o l IH]; [done|]. cbn [set_operator_version foldr existsb map].
  fold (set_operator_version v l). rewrite IH. by case_bool_decide.
Qed.
(** The versions of a ClusterOperator. *)
Definition versions_of (co : TestClusterOperator) : list OperandVersion :=
  gs_list (cos_Versions (cop_Status (tco_Object co))).
Lemma WithVersion_versions v co :
  (exists o, o ∈ versions_of (WithVersion v co) /\ ov_Name o = "operator") /\
  (forall o, o ∈ versions_of (WithVersion v co) -> ov_Name o = "operator" -> ov_Version o = v) /\
  List.filter (fun o => negb (bool_decide (ov_Name o = "operator"))) (versions_of (WithVersion v co)) =
  List.filter (fun o => negb (bool_decide (ov_Name o = "operator"))) (versions_of co).
Proof.
  destruct co as [[m [conds versions related ext]]]. unfold versions_of, WithVersion.
  cbn [tco_Object tco_ClusterOperator set_COStatus tco_Copy NewTestClusterOperator cop_Status cos_Versions].
  set (l := match versions with nilslice => _ | mkslice l => l end).
  assert (Hl : List.filter (fun o => negb (bool_decide (ov_Name o = "operator"))) l =
               List.filter (fun o => negb (bool_decide (ov_Name o = "operator"))) (gs_list versions))
    by by destruct versions.
  rewrite set_operator_version_spec. clearbody l. rewrite <- Hl. clear Hl. cbn [gs_list cos_Versions].
  assert (Hset : forall o, o ∈ map (fun o => if bool_decide (ov_Name o = "operator")
                                             then mkOperandVersion (ov_Name o) v else o) l ->
                 ov_Name o = "operator" -> ov_Version o = v).
  { intros o Ho%list_elem_of_In. apply in_map_iff in Ho as (o' & <- & _). by case_bool_decide. }
  assert (Hkeep : List.filter (fun o => negb (bool_decide (ov_Name o = "operator")))
      (map (fun o => if bool_decide (ov_Name o = "operator") then mkOperandVersion (ov_Name o) v else o) l) =
      List.filter (fun o => negb (bool_decide (ov_Name o = "operator"))) l).
  { clear Hset. induction l as [|o l IH]; [done|]. cbn [map List.filter]. rewrite IH.
    repeat case_bool_decide; done. }
  destruct (existsb _ l) eqn:He; cbn [negb].
  - split; [|by split]. apply existsb_exists in He as (o & Hin & Ho%bool_decide_eq_true).
    exists (mkOperandVersion "operator" v). split; [|done]. apply list_elem_of_In, in_map_iff.
    exists o. by rewrite Ho, bool_decide_true.
  - split; [exists (mkOperandVersion "operator" v); split; [set_solver|done]|]. split.
    + intros o [Ho|Ho]%elem_of_app; [by apply Hset|]. by rewrite list_elem_of_singleton in Ho; subst.
    + rewrite List.filter_app, Hkeep. cbn [List.filter ov_Name]. by rewrite bool_decide_true, app_nil_r.
Qed.
